(* ===== verification/_CoqProject ===== *)
-Q . S2P
Prelude.v
PySort.v
PyStr.v
PyVal.v
PyDict.v
IPAddr.v
PyLib.v
ConfigCheck.v
Config.v
ConfigFacts.v
ConfigValue.v
PartialConfig.v
PartialFacts.v
Toml.v
TomlFacts.v
FS.v
FSLogic.v
RunLogic.v
Staging.v
StagedJob.v
StagingFacts.v
StagedJobFacts.v
KeepLogic.v
Activation.v
ApplyTransaction.v
ActivationFacts.v
ManagedFacts.v
ApplyFacts.v
PolicyFacts.v
Auth.v
AuthFacts.v
ConfigBuilder.v
ConfigBuilderFacts.v
Jobs.v
JobsFacts.v
Monitor.v
MonitorFacts.v
Quadlet.v
QuadletFacts.v
Bundle.v
BundleFacts.v
BootstrapSecurity.v
Api.v
OpenApi.v
OpenApiFacts.v
Authorize.v
Render.v
Stage.v
Worker.v
WorkerFacts.v
WorkerKeeps.v
ClaimFacts.v
DrainFacts.v
StageFacts.v
Service.v
ServiceFacts.v
Export.v
ExportFacts.v
Controllers.v
BootUi.v
BootUiFacts.v
BootPage.v
BootPageFacts.v
QuadletSync.v
QuadletSyncFacts.v
Cli.v
CliFacts.v
AuthorizeFacts.v
LanGateway.v
LanGatewayFacts.v
Firewall.v
FirewallFacts.v
ApplyUsers.v
ApplyUsersFacts.v
PagesDeploy.v
PagesDeployFacts.v
