(* ===== verification/Prelude.v ===== *)
(** * AtomixOS provisioning: a verification development

    AtomixOS is an appliance operating system; the Python programs under
    src/scripts/ turn one document, config.toml, into the state of a device.  This
    library models them and proves what keeps a device safe: what a configuration
    must satisfy, who may change it, and what a crash at any moment leaves behind.

    ** The program

    An unprivileged API (atomixos_provision/server.py and domain/) accepts a
    configuration, a bundle or a partial change, authenticates the request
    (auth.py) and stages a job: a directory in a queue on the file system
    (staging.py, jobs.py).  A privileged worker (provision.py) claims the jobs one
    by one, verifies each against its manifest and checks its signature again,
    renders a candidate configuration root (config.py, partial_config.py,
    quadlet.py, bundle.py), and applies it as a transaction with a receipt
    (apply_transaction.py): the candidate replaces the root, services restart, and
    an unhealthy result or a crash brings the old root back (activation.py).  At
    boot, scripts read the files of the root and configure the network
    (lan-gateway-apply.py), the firewall (provisioned-firewall-inbound.py) and the
    accounts (apply-users.py).

    ** The library

    Foundations: Prelude (exceptions, results, hints), PySort, PyStr, PyVal,
    PyDict (Python sorting, strings, values and dicts), IPAddr (ipaddress), PyLib.
    A configuration value is a JSON-like [value]; a dict is an association list in
    insertion order; characters are Latin-1.
    System: FS (a file system as a finite map from paths to nodes, and programs on
    it: functions of an environment, which says what fails, and a world), FSLogic
    (weakest preconditions that also cover every tree on the way, so that a crash
    after any system call is one more point of the run; frames), RunLogic (one run
    call by call; programs that only read), KeepLogic (invariants of programs,
    proved against an interface of file-call policies).
    Components, each a file of definitions and one of theorems, definitions named
    as in the source:
    - ConfigCheck, Config / ConfigFacts: config.py; ConfigValue: the dicts
      [load_config] returns, as values.
    - PartialConfig / PartialFacts: partial_config.py; Toml / TomlFacts: a reader of
      TOML, the specification of the canonical text.
    - ConfigBuilder / ConfigBuilderFacts: config_builder.py.
    - Staging, StagedJob / StagingFacts, StagedJobFacts: staging.py.
    - Activation / ActivationFacts, ManagedFacts, PolicyFacts: activation.py and
      state.py.
    - ApplyTransaction / ApplyFacts: apply_transaction.py.
    - Auth / AuthFacts: auth.py.
    - Jobs / JobsFacts, Monitor / MonitorFacts: jobs.py, its managers and its loops.
    - Quadlet / QuadletFacts: quadlet.py; QuadletSync / QuadletSyncFacts:
      quadlet_sync.py.
    - Bundle / BundleFacts: bundle.py.
    - Api: domain/config/, with OpenApi / OpenApiFacts, its documents, and Service /
      ServiceFacts, the work it hands to the jobs; Controllers: the other routes and the
      response schemas; BootstrapSecurity, BootUi / BootUiFacts, BootPage / BootPageFacts:
      the first-boot pages and the text of the page.
    - provision.py: Authorize / AuthorizeFacts, the worker's authorization; Render,
      the files of a configuration root; Stage / StageFacts, locks, manifests and
      publication; Worker / WorkerFacts, the apply, its recovery and the entry points;
      WorkerKeeps, what the parts of an apply leave alone, against the interfaces
      [Clears] and [WorkArea], with two instances: ClaimFacts (the claim) and DrainFacts
      (the queue).
    - Export / ExportFacts: export_worker.py.
    - Cli / CliFacts: server.py, settings.py and app.py.
    - LanGateway / LanGatewayFacts, Firewall / FirewallFacts, ApplyUsers /
      ApplyUsersFacts: the three boot scripts.
    - PagesDeploy / PagesDeployFacts: enable-docs-deployment.py.

    ** What the theorems show

    Configurations: what [load_config] accepts is coherent (users, LAN, ports,
    activation policy), its failures are ProvisionErrors with named exceptions,
    the boot script accepts what it wrote, every container unit reads back as its
    directives, and the text the form builder writes reads back as the form.
    Validating one changes nothing on the device.
    Partial changes: each computes the abstract put, delete or merge at its own path,
    touches nothing else and keeps the document well-formed; the API documents exactly
    the bodies it takes; the canonical text reads back as the configuration.
    The queue: a job is published whole, claims are exclusive and first in, first out,
    a verified tree is exactly its manifest, an abandoned job is never a claimed one, a
    claimed job is never lost before it is answered, and draining comes to an end.
    Authorization: both the API and the worker require a verified signature over
    the very request and a nonce that is spent once, on any crash; the operation
    the worker derives is the one the API staged.
    Transactions: whatever call the machine dies at, recovery leaves the committed root
    in place or brings the old one back, and managed users stay on record.
    The worker: what it reports as applied, and what the command line prints, has a
    committed receipt and a published result.
    Exports: a request is never lost, and the queue drains.  Bundles: an archive is
    unpacked within its directory and its limits.
    Jobs: at most one runs, and a finished one never changes; a staged one gets the
    worker's verdict.
    First boot: the form only works on an unprovisioned device, for the page it was
    served with; no text changes the markup of a page.
    Units: the synchronization writes plain unit names in its own directories only.
    Boot scripts: validation comes before any change, the firewall changes in one
    transaction, and no foreign account is touched.
    The documentation site: published from the main branch only.

    ** Bounds and fuel

    Symbolic links are followed 40 deep, as in Linux.  Loops with fuel: [fsync_tree]
    takes the size of the tree, [mkdir_parents] the length of the path, string
    replacement the length of the string and the eviction of nonces the size of
    the store; each turn shortens what the fuel counts.  Integers are Python's,
    unbounded; times are clock ticks.

    ** The environment

    Any call may fail with an I/O error that does not claim the entry is missing;
    listings come in any order; subprocesses answer anything ([env_ok],
    [reads_ok]).  SHA-256, jsonschema, the text and decoding of JSON, the working
    directory and the account databases are parameters, with their documented
    behaviour as hypotheses where a theorem needs it.

    ** Not modelled

    Hard links and inodes, what a power failure does to unsynced data
    (the order of system calls is kept), progress reports and log lines of the
    worker; the HTTP framework (routing, dependency injection, the generation of the
    OpenAPI document), click and uvicorn; serial-capture.py, serve-pages.py and the
    patches of the example image, which are tools beside the device; the Nix modules and the
    shell scripts. *)

From stdpp Require Export base gmap strings list list_numbers pretty sorting.
From Stdlib Require Export ZArith Lia.

(** ** Exceptions

    The Python exception classes the modelled code raises or catches, each with
    its message; [ActivationFailed] is a [ProvisionError] with a [rollback_status]
    attribute, [ApiError] stands for its subclasses too, told apart by their HTTP
    status.  [OSError_] stands for every [OSError] that is not one of the
    named subclasses. *)

Inductive exn : Type :=
  | ProvisionError (msg : string)
  | ProvisionSystemError (msg : string)
  | StagedQueueBusyError (msg : string)
  | ActivationFailed (msg rollback_status : string)
  | ActivationPolicyError (msg : string)
  | ValueError (msg : string)
  | KeyError (key : string)
  | TypeError (msg : string)
  | AttributeError (msg : string)
  | UnicodeDecodeError (msg : string)
  | FileNotFoundError (path : string)
  | FileExistsError (path : string)
  | NotADirectoryError (path : string)
  | PermissionError (path : string)
  | OSError_ (msg : string)
  | TimeoutExpired (seconds : string)
  | NotAuthorizedException (detail : string)
  | NotFoundException
  | ApiError (msg : string) (status_code : Z)
  | EnablementError (msg : string)
  | MissingGhError (msg : string)
  | ClickException (msg : string)
  | SystemExit (code : Z)
  | CancelledError.

#[export] Instance exn_eq_dec : EqDecision exn.
Proof. solve_decision. Defined.

(** [isinstance(exc, ProvisionError)]: the class and its subclasses. *)
Definition is_ProvisionError (e : exn) : bool :=
  match e with
  | ProvisionError _ | ProvisionSystemError _ | StagedQueueBusyError _ | ActivationFailed _ _ => true
  | _ => false
  end.

(** [isinstance(exc, ValueError)]. *)
Definition is_ValueError (e : exn) : bool :=
  match e with
  | ValueError _ | ActivationPolicyError _ | UnicodeDecodeError _ => true
  | _ => false
  end.

(** [isinstance(exc, OSError)]. *)
Definition is_OSError (e : exn) : bool :=
  match e with
  | FileNotFoundError _ | FileExistsError _ | NotADirectoryError _
  | PermissionError _ | OSError_ _ => true
  | _ => false
  end.

(** [isinstance(exc, Exception)]: everything but an exit and a cancellation, which
    are [BaseException]s. *)
Definition is_Exception (e : exn) : bool :=
  match e with SystemExit _ | CancelledError => false | _ => true end.

(** ** The result of a call that may raise *)

Inductive result (A : Type) : Type :=
  | Ok (a : A)
  | Err (e : exn).
Arguments Ok {A} a.
Arguments Err {A} e.

#[export] Instance result_ret : MRet result := λ A a, Ok a.
#[export] Instance result_bind : MBind result := λ A B f r,
  match r with Ok a => f a | Err e => Err e end.
#[export] Instance result_fmap : FMap result := λ A B f r,
  match r with Ok a => Ok (f a) | Err e => Err e end.

#[export] Instance result_eq_dec `{EqDecision A} : EqDecision (result A).
Proof. solve_decision. Defined.

(** [if c: raise e]. *)
Definition raise_if (c : bool) (e : exn) : result unit :=
  if c then Err e else Ok tt.

(** [try: r except C: h], with [C] given by its [isinstance] test. *)
Definition try_except {A} (r : result A) (catches : exn → bool) (h : exn → result A) : result A :=
  match r with
  | Ok a => Ok a
  | Err e => if catches e then h e else Err e
  end.

Definition of_option {A} (o : option A) (e : exn) : result A :=
  match o with Some a => Ok a | None => Err e end.

Definition is_ok {A} (r : result A) : bool :=
  match r with Ok _ => true | Err _ => false end.

Section result_lemmas.
Context {A B : Type}.

Lemma bind_Ok (r : result A) (f : A → result B) (b : B) :
  (r ≫= f) = Ok b ↔ ∃ a, r = Ok a ∧ f a = Ok b.
Proof. destruct r; simpl; naive_solver. Qed.

Lemma raise_if_Ok (c : bool) (e : exn) (u : unit) :
  raise_if c e = Ok u ↔ c = false.
Proof. destruct c, u; simpl; naive_solver. Qed.

Lemma of_option_Ok (o : option A) (e : exn) (a : A) :
  of_option o e = Ok a ↔ o = Some a.
Proof. destruct o; simpl; naive_solver. Qed.
End result_lemmas.

(** ** Loops over lists

    [mapR f l] is the list comprehension or [for] loop that builds a result list
    and stops at the first exception; [imapR] also passes the index of
    [enumerate], counted from [i]; [forR f l s] threads an accumulator. *)

Fixpoint mapR {A B} (f : A → result B) (l : list A) : result (list B) :=
  match l with
  | [] => Ok []
  | x :: l' => y ← f x; ys ← mapR f l'; Ok (y :: ys)
  end.

Fixpoint imapR {A B} (i : nat) (f : nat → A → result B) (l : list A) : result (list B) :=
  match l with
  | [] => Ok []
  | x :: l' => y ← f i x; ys ← imapR (S i) f l'; Ok (y :: ys)
  end.

Fixpoint forR {A S} (f : S → A → result S) (l : list A) (s : S) : result S :=
  match l with
  | [] => Ok s
  | x :: l' => s' ← f s x; forR f l' s'
  end.

Section loop_lemmas.
Context {A B S : Type}.

Lemma mapR_Ok (f : A → result B) l ys :
  mapR f l = Ok ys ↔ Forall2 (λ x y, f x = Ok y) l ys.
Proof.
  revert ys; induction l as [|x l IH]; intros ys; simpl.
  - split; [intros [= <-]; constructor | intros H; inversion H; done].
  - split.
    + intros (y & Hy & H)%bind_Ok. apply bind_Ok in H as (ys' & Hys & [= <-]).
      constructor; [done | by apply IH].
    + intros H; inversion H as [|? y ? ys' Hy Hys]; subst.
      rewrite Hy; simpl. apply IH in Hys. by rewrite Hys.
Qed.

Lemma imapR_Ok (f : nat → A → result B) l i ys :
  imapR i f l = Ok ys → Forall2 (λ x y, ∃ j, f j x = Ok y) l ys.
Proof.
  revert i ys; induction l as [|x l IH]; intros i ys; simpl.
  - intros [= <-]; constructor.
  - intros (y & Hy & H)%bind_Ok. apply bind_Ok in H as (ys' & Hys & [= <-]).
    constructor; [by exists i | by eapply IH].
Qed.

(** Rule induction for an accumulating loop: an invariant of the accumulator
    that every iteration keeps holds of the final accumulator. *)
Lemma forR_inv (P : S → Prop) (f : S → A → result S) l s s' :
  (∀ s x s', x ∈ l → P s → f s x = Ok s' → P s') →
  P s → forR f l s = Ok s' → P s'.
Proof.
  revert s; induction l as [|x l IH]; intros s Hstep Hs; simpl.
  - by intros [= <-].
  - intros (s1 & Hs1 & H)%bind_Ok. eapply IH; [|eapply Hstep|exact H]; eauto.
    + intros ? y ? Hy. apply Hstep. by constructor.
    + constructor.
Qed.
End loop_lemmas.

(** ** Which exceptions a call may raise *)

Definition raises_only {A} (P : exn → Prop) (r : result A) : Prop :=
  match r with Ok _ => True | Err e => P e end.

Lemma raises_bind {A B} (P : exn → Prop) (r : result A) (f : A → result B) :
  raises_only P r → (∀ a, raises_only P (f a)) → raises_only P (r ≫= f).
Proof. destruct r; simpl; auto. Qed.

Lemma raises_bind_Ok {A B} (P : exn → Prop) (r : result A) (f : A → result B) :
  raises_only P r → (∀ a, r = Ok a → raises_only P (f a)) → raises_only P (r ≫= f).
Proof. destruct r; simpl; auto. Qed.

Section raises.
Context {A B S : Type} (P : exn → Prop).

Lemma raises_if (c : bool) (e : exn) : P e → raises_only P (raise_if c e).
Proof. by destruct c. Qed.

Lemma raises_of_option (o : option A) (e : exn) : P e → raises_only P (of_option o e).
Proof. by destruct o. Qed.

Lemma raises_imapR (f : nat → A → result B) l i :
  (∀ j x, raises_only P (f j x)) → raises_only P (imapR i f l).
Proof.
  intros Hf. revert i. induction l as [|x l IH]; intros i; simpl; [done|].
  apply raises_bind; [apply Hf|]. intros y. apply raises_bind; [apply IH|]. done.
Qed.

Lemma raises_mapR (f : A → result B) l :
  (∀ x, raises_only P (f x)) → raises_only P (mapR f l).
Proof.
  intros Hf. induction l as [|x l IH]; simpl; [done|].
  apply raises_bind; [apply Hf|]. intros y. apply raises_bind; [apply IH|]. done.
Qed.

Lemma raises_forR (f : S → A → result S) l s :
  (∀ s x, raises_only P (f s x)) → raises_only P (forR f l s).
Proof.
  intros Hf. revert s. induction l as [|x l IH]; intros s; simpl; [done|].
  apply raises_bind; [apply Hf|]. apply IH.
Qed.
End raises.

(** ** Reachability

    Reflexive transitive closure of a step relation, for the components that are
    modelled as transition systems. *)

Section steps.
Context {St : Type} (step : St → St → Prop).

Inductive steps : St → St → Prop :=
  | steps_refl s : steps s s
  | steps_cons s1 s2 s3 : step s1 s2 → steps s2 s3 → steps s1 s3.

Lemma steps_inv (P : St → Prop) :
  (∀ s s', P s → step s s' → P s') →
  ∀ s s', P s → steps s s' → P s'.
Proof. intros Hstep s s' Hs H; induction H; eauto. Qed.

Lemma steps_one s s' : step s s' → steps s s'.
Proof. intros H; econstructor; [exact H | constructor]. Qed.

Lemma steps_trans s1 s2 s3 : steps s1 s2 → steps s2 s3 → steps s1 s3.
Proof. induction 1; eauto using steps. Qed.
End steps.

(** ** Automation

    [py] is the database of the inversion lemmas above; [inv_ok] takes apart a
    successful run of a [result] computation, guard by guard. *)

Create HintDb py.
Create Rewrite HintDb py.
#[export] Hint Constructors steps : py.
#[export] Hint Resolve steps_one : py.

Ltac inv_ok_step :=
  match goal with
  | H : Ok _ = Ok _ |- _ => injection H as H; subst
  | H : Err _ = Err _ |- _ => injection H as H; subst
  | H : Ok _ = Err _ |- _ => discriminate H
  | H : Err _ = Ok _ |- _ => discriminate H
  | H : mret _ = Ok _ |- _ => injection H as H; subst
  | H : (_ ≫= _) = Ok _ |- _ =>
      let a := fresh "a" in let Ha := fresh "Ha" in
      apply bind_Ok in H as (a & Ha & H)
  | H : raise_if _ _ = Ok _ |- _ => apply raise_if_Ok in H
  | H : of_option _ _ = Ok _ |- _ => apply of_option_Ok in H
  | H : (if ?c then Err _ else _) = Ok _ |- _ =>
      let E := fresh "E" in destruct c eqn:E; [discriminate H|]
  | H : (if ?c then _ else Err _) = Ok _ |- _ =>
      let E := fresh "E" in destruct c eqn:E; [|discriminate H]
  end.

Ltac inv_ok := repeat (inv_ok_step; simpl in * ).

(** [raises] proves that a computation raises only exceptions of a class, given
    the facts about the calls it makes as hints in [raises]. *)
Create HintDb raises.
Ltac raises_step :=
  match goal with
  | |- raises_only _ (Ok _) => exact I
  | |- raises_only _ (mret _) => exact I
  | |- raises_only _ (_ ≫= _) => apply raises_bind; [|intros ?]
  | |- raises_only _ (raise_if _ _) => apply raises_if
  | |- raises_only _ (of_option _ _) => apply raises_of_option
  | |- raises_only _ (imapR _ _ _) => apply raises_imapR; intros ? ?
  | |- raises_only _ (mapR _ _) => apply raises_mapR; intros ?
  | |- raises_only _ (forR _ _ _) => apply raises_forR; intros ? ?
  | |- raises_only _ _ => solve [eauto with raises nocore]
  | |- raises_only _ (match ?x with _ => _ end) => destruct x
  | |- raises_only _ (Err _) => simpl
  | |- raises_only _ (let _ := _ in _) => cbv zeta
  end.
Ltac raises := cbv beta zeta; repeat (raises_step; cbv beta zeta).

(** Turn boolean connectives and comparisons in the context into propositions. *)
Ltac bool_prop :=
  repeat match goal with
  | H : (_ || _) = false |- _ => apply orb_false_iff in H as [? ?]
  | H : (_ && _) = true |- _ => apply andb_true_iff in H as [? ?]
  | H : negb _ = true |- _ => apply negb_true_iff in H
  | H : negb _ = false |- _ => apply negb_false_iff in H
  | H : bool_decide _ = true |- _ => apply bool_decide_eq_true in H
  | H : bool_decide _ = false |- _ => apply bool_decide_eq_false in H
  | H : (_ <? _)%Z = true |- _ => apply Z.ltb_lt in H
  | H : (_ <? _)%Z = false |- _ => apply Z.ltb_ge in H
  | H : (_ <=? _)%Z = true |- _ => apply Z.leb_le in H
  | H : (_ <=? _)%Z = false |- _ => apply Z.leb_gt in H
  | H : (_ =? _)%Z = true |- _ => apply Z.eqb_eq in H
  | H : (_ =? _)%Z = false |- _ => apply Z.eqb_neq in H
  | H : (_ <? _)%nat = true |- _ => apply Nat.ltb_lt in H
  | H : (_ <? _)%nat = false |- _ => apply Nat.ltb_ge in H
  | H : (_ <=? _)%nat = true |- _ => apply Nat.leb_le in H
  | H : (_ <=? _)%nat = false |- _ => apply Nat.leb_gt in H
  end.
