(* ===== verification/PySort.v ===== *)
(** * Sorting by a key, as [list.sort(key=...)] does: stable *)

From S2P Require Import Prelude.

Local Open Scope Z_scope.

Section by_key.
Context {A : Type} (key : A → Z).

Fixpoint insert_by (x : A) (l : list A) : list A :=
  match l with
  | [] => [x]
  | y :: l' => if key x <=? key y then x :: l else y :: insert_by x l'
  end.
Definition sort_by (l : list A) : list A := foldr insert_by [] l.

Lemma insert_by_perm x l : insert_by x l ≡ₚ x :: l.
Proof. induction l as [|y l IH]; simpl; [done|]. case_match; [done|]. rewrite IH. constructor. Qed.
Lemma sort_by_perm l : sort_by l ≡ₚ l.
Proof. induction l as [|x l IH]; simpl; [done|]. by rewrite insert_by_perm, IH. Qed.

Lemma insert_by_sorted x l : StronglySorted (λ a b, key a <= key b) l → StronglySorted (λ a b, key a <= key b) (insert_by x l).
Proof.
  induction 1 as [|y l Hl IH Hy]; simpl; [by repeat constructor|]. case_match eqn:E.
  - apply Z.leb_le in E. constructor; [by constructor|]. constructor; [done|].
    eapply Forall_impl; [exact Hy|]. simpl. lia.
  - apply Z.leb_gt in E. constructor; [done|]. rewrite insert_by_perm. constructor; [simpl; lia|done].
Qed.
Lemma sort_by_sorted l : StronglySorted (λ a b, key a <= key b) (sort_by l).
Proof. induction l; simpl; [constructor|]. by apply insert_by_sorted. Qed.
End by_key.
