(* ===== verification/PyStr.v ===== *)
(** * Python strings

    Python [str] values are modelled as [string]s whose characters are the code
    points below 256 (Latin-1); the classification methods ([isalnum],
    [isspace], [isdigit], [lower], [repr]) are exact on that range.  The file
    holds the string methods and [re] character classes the program uses, and
    the lemmas the components share about them. *)

From Stdlib Require Import Ascii.
From S2P Require Import Prelude.

Abbreviation chars := String.list_ascii_of_string.
Abbreviation unchars := String.string_of_list_ascii.

(** ** Characters *)

Definition ord (c : ascii) : N := N_of_ascii c.
Definition between (lo hi : N) (c : ascii) : bool := (lo <=? ord c)%N && (ord c <=? hi)%N.

Definition is_digit_ascii (c : ascii) : bool := between 48 57 c.
Definition is_upper_ascii (c : ascii) : bool := between 65 90 c.
Definition is_lower_ascii (c : ascii) : bool := between 97 122 c.
Definition is_alnum_ascii (c : ascii) : bool :=
  is_digit_ascii c || is_upper_ascii c || is_lower_ascii c.
Definition is_hex_lower (c : ascii) : bool := is_digit_ascii c || between 97 102 c.
Definition is_hex (c : ascii) : bool := is_hex_lower c || between 65 70 c.

(** [str.isalnum], [str.isdigit], [str.isspace] and [str.isprintable] of one
    character. *)
Definition isalnum (c : ascii) : bool :=
  is_alnum_ascii c || between 170 170 c || between 178 179 c || between 181 181 c
  || between 185 186 c || between 188 190 c || between 192 214 c
  || between 216 246 c || between 248 255 c.
Definition isdigit (c : ascii) : bool :=
  is_digit_ascii c || between 178 179 c || between 185 185 c.
Definition isspace (c : ascii) : bool :=
  between 9 13 c || between 28 32 c || between 133 133 c || between 160 160 c.
Definition isprintable (c : ascii) : bool :=
  between 32 126 c || between 161 172 c || between 174 255 c.
(** [ord(char) < 32 or ord(char) == 127] *)
Definition is_control (c : ascii) : bool := (ord c <? 32)%N || (ord c =? 127)%N.

Definition lower_char (c : ascii) : ascii :=
  if is_upper_ascii c || between 192 214 c || between 216 222 c
  then ascii_of_N (ord c + 32) else c.
Definition upper_ascii_char (c : ascii) : ascii :=
  if is_lower_ascii c then ascii_of_N (ord c - 32) else c.

(** ** Strings as lists of characters *)

Definition slen (s : string) : nat := String.length s.
Definition all_chars (p : ascii → bool) (s : string) : bool := forallb p (chars s).
Definition any_char (p : ascii → bool) (s : string) : bool := existsb p (chars s).
Definition has_char (c : ascii) (s : string) : bool := any_char (Ascii.eqb c) s.
Definition str_map (f : ascii → ascii) (s : string) : string := unchars (map f (chars s)).
Definition lower (s : string) : string := str_map lower_char s.

Fixpoint drop_while (p : ascii → bool) (l : list ascii) : list ascii :=
  match l with
  | [] => []
  | c :: l' => if p c then drop_while p l' else l
  end.
Definition lstrip_by (p : ascii → bool) (s : string) : string := unchars (drop_while p (chars s)).
Definition rstrip_by (p : ascii → bool) (s : string) : string :=
  unchars (rev (drop_while p (rev (chars s)))).
Definition strip (s : string) : string := rstrip_by isspace (lstrip_by isspace s).

(** [s.startswith(p)], [s.endswith(p)], [p in s], [s.removesuffix(p)] *)
Definition startswith (s p : string) : bool := String.prefix p s.
Definition endswith (s p : string) : bool := String.prefix (String.rev p) (String.rev s).
Fixpoint contains (p s : string) : bool :=
  String.prefix p s ||
  match s with EmptyString => false | String _ s' => contains p s' end.
Definition str_drop (n : nat) (s : string) : string := unchars (drop n (chars s)).
Definition str_take (n : nat) (s : string) : string := unchars (take n (chars s)).
Definition removesuffix (s p : string) : string :=
  if endswith s p then str_take (slen s - slen p) s else s.

(** [s.split(sep)] for a one-character separator. *)
Fixpoint split_chars (sep : ascii) (l : list ascii) : list (list ascii) :=
  match l with
  | [] => [[]]
  | c :: l' =>
      if Ascii.eqb c sep then [] :: split_chars sep l'
      else match split_chars sep l' with
           | w :: ws => (c :: w) :: ws
           | [] => [[c]]
           end
  end.
Definition split_on (sep : ascii) (s : string) : list string :=
  map unchars (split_chars sep (chars s)).

(** [s.partition(sep)]: the head, whether the separator occurs, the tail. *)
Fixpoint partition_on (sep : ascii) (s : string) : string * bool * string :=
  match s with
  | EmptyString => ("", false, "")
  | String c s' =>
      if Ascii.eqb c sep then ("", true, s')
      else let '(a, found, b) := partition_on sep s' in (String c a, found, b)
  end.

(** [s.split(sep, n)]: at most [n] splits. *)
Fixpoint split_max (n : nat) (sep : ascii) (s : string) : list string :=
  match n with
  | O => [s]
  | S n' =>
      let '(a, found, b) := partition_on sep s in
      if found : bool then a :: split_max n' sep b else [a]
  end.

(** [s.split()]: maximal runs of non-space characters. *)
Fixpoint words_go (cur : list ascii) (l : list ascii) : list (list ascii) :=
  match l with
  | [] => match cur with [] => [] | _ => [rev cur] end
  | c :: l' =>
      if isspace c
      then match cur with [] => words_go [] l' | _ => rev cur :: words_go [] l' end
      else words_go (c :: cur) l'
  end.
Definition split_ws (s : string) : list string := map unchars (words_go [] (chars s)).

(** [s.replace(old, new)] for a non-empty [old]; the fuel bounds the length. *)
Fixpoint replace_go (fuel : nat) (old new s : string) : string :=
  match fuel with
  | O => s
  | S fuel' =>
      match s with
      | EmptyString => ""
      | String c s' =>
          if String.prefix old s
          then new +:+ replace_go fuel' old new (str_drop (slen old) s)
          else String c (replace_go fuel' old new s')
      end
  end.
Definition str_replace (old new s : string) : string := replace_go (S (slen s)) old new s.

(** [sep.join(l)] *)
Definition join (sep : string) (l : list string) : string := String.concat sep l.

(** [", ".join(sorted(s))] and the like compare code points. *)
Definition sorted_strs (l : list string) : list string := merge_sort String.le l.
Definition comma_join (l : list string) : string := join ", " l.

(** ** Numbers *)

(** [str(n)] of an int. *)
Definition str_int (n : Z) : string := pretty n.

Definition digit_val (c : ascii) : Z := Z.of_N (ord c) - 48.
Definition hex_val (c : ascii) : Z :=
  if is_digit_ascii c then digit_val c
  else if between 97 102 c then Z.of_N (ord c) - 87 else Z.of_N (ord c) - 55.
Definition dec_value (s : string) : Z :=
  fold_left (λ n c, n * 10 + digit_val c)%Z (chars s) 0%Z.
Definition hex_value (s : string) : Z :=
  fold_left (λ n c, n * 16 + hex_val c)%Z (chars s) 0%Z.

Definition hex_digit (n : N) : ascii :=
  if (n <? 10)%N then ascii_of_N (48 + n) else ascii_of_N (87 + n).
Definition hex2 (c : ascii) : string :=
  String (hex_digit (ord c / 16)) (String (hex_digit (ord c mod 16)) "").

(** ** [repr] and [json.dumps] of a string *)

Definition quote_char : ascii := "'".
Definition dquote_char : ascii := ascii_of_N 34.
Definition backslash : ascii := ascii_of_N 92.
Definition bs_str : string := String backslash "".

Definition repr_char (q c : ascii) : string :=
  if Ascii.eqb c q || Ascii.eqb c backslash then String backslash (String c "")
  else if (ord c =? 10)%N then bs_str +:+ "n"
  else if (ord c =? 13)%N then bs_str +:+ "r"
  else if (ord c =? 9)%N then bs_str +:+ "t"
  else if isprintable c then String c ""
  else bs_str +:+ "x" +:+ hex2 c.
Definition concat_map_str (f : ascii → string) (s : string) : string :=
  join "" (map f (chars s)).
Definition py_repr (s : string) : string :=
  let q := if has_char quote_char s && negb (has_char dquote_char s)
           then dquote_char else quote_char in
  String q (concat_map_str (repr_char q) s) +:+ String q "".

Definition json_char (c : ascii) : string :=
  if Ascii.eqb c dquote_char || Ascii.eqb c backslash then String backslash (String c "")
  else if (ord c =? 10)%N then bs_str +:+ "n"
  else if (ord c =? 13)%N then bs_str +:+ "r"
  else if (ord c =? 9)%N then bs_str +:+ "t"
  else if (ord c =? 8)%N then bs_str +:+ "b"
  else if (ord c =? 12)%N then bs_str +:+ "f"
  else if between 32 126 c then String c ""
  else bs_str +:+ "u00" +:+ hex2 c.
Definition json_dumps_str (s : string) : string :=
  String dquote_char (concat_map_str json_char s) +:+ String dquote_char "".

Definition nl : string := String (ascii_of_N 10) "".
Definition nl_char : ascii := ascii_of_N 10.

(** ** Lemmas *)

Lemma str_app_assoc (a b c : string) : a +:+ (b +:+ c) = (a +:+ b) +:+ c.
Proof. induction a as [|d a IH]; [done|]. change (String d (a +:+ (b +:+ c)) = String d ((a +:+ b) +:+ c)). by rewrite IH. Qed.
Lemma str_app_nil (a : string) : a +:+ "" = a.
Proof. induction a as [|d a IH]; [done|]. change (String d (a +:+ "") = String d a). by rewrite IH. Qed.
Lemma join_empty_cons x l : join "" (x :: l) = x +:+ join "" l.
Proof. destruct l; [by rewrite str_app_nil|done]. Qed.

Lemma chars_unchars l : chars (unchars l) = l.
Proof. apply String.list_ascii_of_string_of_list_ascii. Qed.
Lemma unchars_chars s : unchars (chars s) = s.
Proof. apply String.string_of_list_ascii_of_string. Qed.
Lemma chars_app s t : chars (s +:+ t) = chars s ++ chars t.
Proof. induction s; simpl; [done | by f_equal]. Qed.
Lemma slen_chars s : slen s = length (chars s).
Proof. unfold slen. induction s; simpl; auto. Qed.

Lemma chars_inj s t : chars s = chars t → s = t.
Proof. intros H. by rewrite <-(unchars_chars s), H, unchars_chars. Qed.

Lemma drop_while_suffix p l : ∃ k, l = k ++ drop_while p l.
Proof.
  induction l as [|c l [k IH]]; simpl; [by exists []|].
  destruct (p c); [exists (c :: k); simpl; by f_equal | by exists []].
Qed.

Lemma drop_while_head p l c l' : drop_while p l = c :: l' → p c = false.
Proof.
  induction l as [|d l IH]; simpl; [done|].
  destruct (p d) eqn:E; [done|]. intros [= -> _]. done.
Qed.

Lemma drop_while_id p l : (∀ c l', l = c :: l' → p c = false) → drop_while p l = l.
Proof. destruct l as [|c l]; simpl; [done|]. intros H. by rewrite (H c l). Qed.

Lemma Forall_drop_while (P : ascii → Prop) p l : Forall P l → Forall P (drop_while p l).
Proof.
  intros H. destruct (drop_while_suffix p l) as [k Hk].
  rewrite Hk in H. by apply Forall_app in H as [_ ?].
Qed.

Lemma all_chars_spec p s : all_chars p s = true ↔ Forall (λ c, p c = true) (chars s).
Proof. unfold all_chars. rewrite forallb_forall, Forall_forall. setoid_rewrite list_elem_of_In. done. Qed.

Lemma any_char_false p s : any_char p s = false ↔ Forall (λ c, p c = false) (chars s).
Proof.
  unfold any_char. induction (chars s) as [|c l IH]; simpl.
  - split; [constructor | done].
  - rewrite orb_false_iff, IH. split; [intros []; by constructor | by inversion 1].
Qed.

(** [s.strip()] of a stripped string is itself. *)
Lemma strip_idemp s : strip (strip s) = strip s.
Proof.
  unfold strip, rstrip_by, lstrip_by. rewrite !chars_unchars.
  set (l := drop_while isspace (chars s)).
  set (r := drop_while isspace (rev l)).
  assert (drop_while isspace (rev r) = rev r) as ->.
  { apply drop_while_id. intros c l' Hr.
    destruct (drop_while_suffix isspace (rev l)) as [k Hk]. fold r in Hk.
    assert (l = rev r ++ rev k) as Hl by (by rewrite <-(rev_involutive l), Hk, rev_app_distr).
    rewrite Hr in Hl. simpl in Hl.
    by apply (drop_while_head isspace (chars s) c (l' ++ rev k)). }
  rewrite rev_involutive. do 2 f_equal.
  apply drop_while_id. intros c l' Hr. by eapply drop_while_head.
Qed.

Lemma split_chars_nonempty sep l : split_chars sep l ≠ [].
Proof. destruct l as [|c l]; simpl; [done|]. destruct (Ascii.eqb c sep); [done|]. by destruct (split_chars sep l). Qed.

(** [sep.join(s.split(sep)) == s] *)
Lemma join_split_on sep s : join (String sep "") (split_on sep s) = s.
Proof.
  unfold join, split_on. rewrite <-(unchars_chars s) at 2.
  induction (chars s) as [|c l IH]; [done|]. simpl.
  destruct (Ascii.eqb_spec c sep) as [->|Hne].
  - simpl. rewrite <-IH. destruct (split_chars sep l) eqn:E; simpl; [|done].
    by apply split_chars_nonempty in E.
  - destruct (split_chars sep l) as [|w ws] eqn:E; [by apply split_chars_nonempty in E|].
    simpl in *. rewrite <-IH. by destruct (map unchars ws).
Qed.

Lemma split_chars_no_sep sep l : Forall (λ w, sep ∉ w) (split_chars sep l).
Proof.
  induction l as [|c l IH]; simpl; [constructor; [apply not_elem_of_nil | constructor]|].
  destruct (Ascii.eqb_spec c sep) as [->|Hne].
  - constructor; [apply not_elem_of_nil | done].
  - destruct (split_chars sep l) as [|w ws]; [repeat constructor; set_solver|].
    inversion IH; subst. constructor; [|done]. rewrite elem_of_cons. naive_solver.
Qed.

Lemma split_on_app_sep sep s t :
  has_char sep s = false → split_on sep (s +:+ String sep t) = s :: split_on sep t.
Proof.
  unfold split_on, has_char. intros H%any_char_false. rewrite chars_app. simpl.
  rewrite <-(unchars_chars s) at 2.
  induction (chars s) as [|c l IH]; simpl.
  - by rewrite Ascii.eqb_refl.
  - inversion H; subst. rewrite Ascii.eqb_sym, H2.
    specialize (IH H3). destruct (split_chars sep (l ++ sep :: chars t)) as [|w ws]; simpl in *; [done|].
    injection IH as -> ->. done.
Qed.

Lemma split_on_no_sep sep s : has_char sep s = false → split_on sep s = [s].
Proof.
  unfold split_on, has_char. intros H%any_char_false.
  rewrite <-(unchars_chars s) at 2.
  induction (chars s) as [|c l IH]; simpl; [done|].
  inversion H; subst. rewrite Ascii.eqb_sym, H2. specialize (IH H3).
  destruct (split_chars sep l) as [|w ws]; simpl in *; [done|].
  injection IH as -> ->. done.
Qed.

Lemma split_on_length sep s : 1 ≤ length (split_on sep s).
Proof.
  unfold split_on. rewrite length_map. pose proof (split_chars_nonempty sep (chars s)).
  destruct (split_chars sep (chars s)); simpl; [done | lia].
Qed.

Lemma prefix_app p s : String.prefix p (p +:+ s) = true.
Proof.
  induction p as [|c p IH]; simpl; [by destruct s|].
  change (String c p +:+ s) with (String c (p +:+ s)). simpl.
  by destruct (Ascii.ascii_dec c c).
Qed.

Lemma prefix_spec p s : String.prefix p s = true ↔ ∃ t, s = p +:+ t.
Proof.
  revert s; induction p as [|c p IH]; intros s.
  - split; [by exists s | by intros; destruct s].
  - destruct s as [|d s]; simpl.
    + split; [done | by intros [t Ht]].
    + destruct (Ascii.ascii_dec c d) as [->|Hne].
      * rewrite IH. split; intros [t Ht]; exists t.
        -- by rewrite Ht.
        -- by injection Ht.
      * split; [done|]. intros [t Ht]. by injection Ht.
Qed.

Lemma chars_rev s : chars (String.rev s) = rev (chars s).
Proof.
  assert (∀ t u, chars (String.rev_app t u) = rev (chars t) ++ chars u) as H.
  { induction t as [|c t IH]; intros u; simpl; [done|]. rewrite IH. simpl. by rewrite <-(assoc_L (++)). }
  unfold String.rev. rewrite H. apply app_nil_r.
Qed.

Lemma endswith_spec s p : endswith s p = true ↔ ∃ t, s = t +:+ p.
Proof.
  unfold endswith. rewrite prefix_spec. split.
  - intros [t Ht]. exists (String.rev t). apply (f_equal chars) in Ht. apply chars_inj.
    rewrite chars_app, !chars_rev in *. apply (f_equal (@rev _)) in Ht.
    rewrite rev_app_distr, !rev_involutive in Ht. done.
  - intros [t ->]. exists (String.rev t). apply chars_inj.
    by rewrite chars_app, !chars_rev, chars_app, rev_app_distr.
Qed.

Lemma removesuffix_endswith s p : endswith s p = true → s = removesuffix s p +:+ p.
Proof.
  unfold removesuffix. intros H. rewrite H. apply endswith_spec in H as [t ->].
  f_equal. unfold str_take. apply chars_inj. rewrite chars_unchars, chars_app, !slen_chars, chars_app, length_app.
  rewrite take_app_le by lia. by rewrite take_ge by lia.
Qed.

Lemma removesuffix_app s p : removesuffix (s +:+ p) p = s.
Proof.
  assert (endswith (s +:+ p) p = true) as H by (apply endswith_spec; eauto).
  unfold removesuffix. rewrite H. unfold str_take. apply chars_inj.
  rewrite chars_unchars, chars_app, !slen_chars, chars_app, length_app.
  rewrite take_app_le by lia. by rewrite take_ge by lia.
Qed.

(** [sep.join(l).split(sep) == l] *)
Lemma split_on_join_sep sep l :
  l ≠ [] → Forall (λ x, has_char sep x = false) l → split_on sep (join (String sep "") l) = l.
Proof.
  intros Hne Hl. induction Hl as [|x [|y l] Hx Hl IH]; [done|by apply split_on_no_sep|].
  change (split_on sep (x +:+ String sep (join (String sep "") (y :: l))) = x :: y :: l).
  rewrite split_on_app_sep by done. by rewrite IH.
Qed.
