(* ===== verification/PyVal.v ===== *)
(** * Python values decoded from TOML and JSON, and insertion-ordered dicts

    [value] is what [tomllib.loads] and [json.loads] return.  A dict is an
    association list in insertion order with distinct keys ([wf_dict]): lookup,
    assignment (in place, or appended), [pop] and membership are Python's.
    [py_eq] is Python's [==]: numbers compare across [bool], [int] and [float]
    ([True == 1 == 1.0]), and dicts compare as mappings. *)

From Stdlib Require Import SpecFloat.
From S2P Require Import Prelude PyStr.

(** ** Dicts *)

Definition dict (A : Type) : Type := list (string * A).

Fixpoint dget {A} (k : string) (d : dict A) : option A :=
  match d with
  | [] => None
  | (k', v) :: d' => if decide (k = k') then Some v else dget k d'
  end.

(** [d[k] = v] *)
Fixpoint dset {A} (k : string) (v : A) (d : dict A) : dict A :=
  match d with
  | [] => [(k, v)]
  | (k', w) :: d' => if decide (k = k') then (k, v) :: d' else (k', w) :: dset k v d'
  end.

(** [d.pop(k, None)] as far as the dict is concerned; [del d[k]] of a present key. *)
Fixpoint dpop {A} (k : string) (d : dict A) : dict A :=
  match d with
  | [] => []
  | (k', w) :: d' => if decide (k = k') then d' else (k', w) :: dpop k d'
  end.

Definition dkeys {A} (d : dict A) : list string := d.*1.
Definition dmem {A} (k : string) (d : dict A) : bool :=
  match dget k d with Some _ => true | None => false end.
Definition wf_dict {A} (d : dict A) : Prop := NoDup (dkeys d).

(** [dict.fromkeys(l)] as a list of its keys: first occurrences, in order. *)
Fixpoint dedup_go (seen : list string) (l : list string) : list string :=
  match l with
  | [] => []
  | x :: l' => if decide (x ∈ seen) then dedup_go seen l' else x :: dedup_go (x :: seen) l'
  end.
Definition dedup (l : list string) : list string := dedup_go [] l.

Section dict_lemmas.
Context {A : Type}.
Implicit Types d : dict A.

Lemma dget_dset_eq k v d : dget k (dset k v d) = Some v.
Proof. induction d as [|[k' w] d IH]; simpl; repeat (case_decide; simpl); naive_solver. Qed.

Lemma dget_dset_ne k k' v d : k ≠ k' → dget k (dset k' v d) = dget k d.
Proof. intros Hne. induction d as [|[j w] d IH]; simpl; repeat (case_decide; simpl); naive_solver. Qed.

Lemma dget_dset k k' v d :
  dget k (dset k' v d) = if decide (k = k') then Some v else dget k d.
Proof. case_decide as H; [subst; apply dget_dset_eq | by apply dget_dset_ne]. Qed.

Lemma dget_dpop_ne k k' d : k ≠ k' → dget k (dpop k' d) = dget k d.
Proof. intros Hne. induction d as [|[j w] d IH]; simpl; repeat (case_decide; simpl); naive_solver. Qed.

Lemma dget_None k d : dget k d = None ↔ k ∉ dkeys d.
Proof.
  unfold dkeys. induction d as [|[j w] d IH]; simpl.
  - split; [intros _; apply not_elem_of_nil | done].
  - rewrite elem_of_cons. case_decide; naive_solver.
Qed.

Lemma dget_Some_elem k v d : dget k d = Some v → (k, v) ∈ d.
Proof.
  induction d as [|[j w] d IH]; simpl; [done|].
  rewrite elem_of_cons. case_decide; naive_solver.
Qed.

Lemma elem_dget k v d : wf_dict d → (k, v) ∈ d → dget k d = Some v.
Proof.
  unfold wf_dict, dkeys. induction d as [|[j w] d IH]; simpl; [by intros _ ?%not_elem_of_nil|].
  rewrite NoDup_cons, elem_of_cons. intros [Hj Hnd] [[= -> ->]|Hin].
  - by rewrite decide_True.
  - case_decide as E; [|by apply IH]. subst. exfalso. apply Hj.
    apply list_elem_of_fmap. by exists (j, v).
Qed.

Lemma dget_dpop_eq k d : wf_dict d → dget k (dpop k d) = None.
Proof.
  unfold wf_dict, dkeys. induction d as [|[j w] d IH]; simpl; [done|].
  rewrite NoDup_cons. intros [Hj Hnd]. case_decide; simpl.
  - subst. by apply dget_None.
  - rewrite decide_False by done. by apply IH.
Qed.

Lemma dkeys_dset k v d :
  dkeys (dset k v d) = if dmem k d then dkeys d else dkeys d ++ [k].
Proof.
  unfold dkeys, dmem. induction d as [|[j w] d IH]; csimpl; [done|].
  repeat (case_decide; csimpl); subst; try done. rewrite IH. by destruct (dget k d).
Qed.

Lemma wf_dset k v d : wf_dict d → wf_dict (dset k v d).
Proof.
  unfold wf_dict. rewrite dkeys_dset. intros H. unfold dmem.
  destruct (dget k d) eqn:E; [done|]. apply dget_None in E.
  rewrite NoDup_app. split_and!; [done| |apply NoDup_singleton]. set_solver.
Qed.

Lemma elem_dkeys_dpop j k d : j ∈ dkeys (dpop k d) → j ∈ dkeys d.
Proof.
  unfold dkeys. induction d as [|[i w] d IH]; simpl; [done|].
  case_decide; simpl; rewrite !elem_of_cons; naive_solver.
Qed.

Lemma wf_dpop k d : wf_dict d → wf_dict (dpop k d).
Proof.
  unfold wf_dict, dkeys. induction d as [|[i w] d IH]; simpl; [done|].
  rewrite NoDup_cons. intros [? ?]. case_decide; simpl; [done|].
  rewrite NoDup_cons. split; [|by apply IH]. intros Hi. by apply elem_dkeys_dpop in Hi.
Qed.

Lemma dset_dset k v w d : dset k v (dset k w d) = dset k v d.
Proof. induction d as [|[j u] d IH]; simpl; repeat (case_decide; simpl; subst); congruence. Qed.

Lemma dset_id k v d : dget k d = Some v → dset k v d = d.
Proof. induction d as [|[j u] d IH]; simpl; [done|]; case_decide; subst; [by intros [= ->] | intros; f_equal; auto]. Qed.

Lemma dpop_id k d : dget k d = None → dpop k d = d.
Proof. induction d as [|[j u] d IH]; simpl; [done|]; case_decide; [done|intros; f_equal; auto]. Qed.

Lemma dmem_true k d : dmem k d = true ↔ k ∈ dkeys d.
Proof.
  unfold dmem. destruct (dget k d) eqn:E.
  - split; [|done]. intros _. apply dget_Some_elem in E.
    apply list_elem_of_fmap. by exists (k, a).
  - split; [done|]. by apply dget_None in E.
Qed.
End dict_lemmas.

#[export] Hint Rewrite @dget_dset_eq : py.
#[export] Hint Rewrite @dget_dset_ne using congruence : py.
#[export] Hint Rewrite @dget_dpop_ne using congruence : py.
#[export] Hint Resolve wf_dset wf_dpop : py.

(** ** Values *)

Inductive value : Type :=
  | VNone
  | VBool (b : bool)
  | VInt (n : Z)
  | VFloat (f : spec_float) (text : string)   (* the float and its [repr] *)
  | VStr (s : string)
  | VList (l : list value)
  | VDict (d : list (string * value))
  | VOther (text : string).   (* TOML dates and times, by their [repr] *)

(** Induction that reaches into lists and dicts. *)
Section value_induction.
Context (P : value → Prop).
Hypothesis HNone : P VNone.
Hypothesis HBool : ∀ b, P (VBool b).
Hypothesis HInt : ∀ n, P (VInt n).
Hypothesis HFloat : ∀ f t, P (VFloat f t).
Hypothesis HStr : ∀ s, P (VStr s).
Hypothesis HList : ∀ l, Forall P l → P (VList l).
Hypothesis HDict : ∀ d, Forall (λ kv, P (snd kv)) d → P (VDict d).
Hypothesis HOther : ∀ t, P (VOther t).

Fixpoint value_ind' (v : value) : P v :=
  match v with
  | VNone => HNone
  | VBool b => HBool b
  | VInt n => HInt n
  | VFloat f t => HFloat f t
  | VStr s => HStr s
  | VList l => HList l ((fix go l : Forall P l :=
      match l with
      | [] => List.Forall_nil _
      | x :: l' => List.Forall_cons _ _ _ (value_ind' x) (go l')
      end) l)
  | VDict d => HDict d ((fix go (d : list (string * value)) : Forall (λ kv, P (snd kv)) d :=
      match d with
      | [] => List.Forall_nil _
      | x :: d' => List.Forall_cons _ x _ (value_ind' (snd x)) (go d')
      end) d)
  | VOther t => HOther t
  end.
End value_induction.

(** Every dict inside a value has distinct keys. *)
Fixpoint wf_value (v : value) : Prop :=
  match v with
  | VList l => (fix go l := match l with [] => True | x :: l' => wf_value x ∧ go l' end) l
  | VDict d => wf_dict d ∧
      (fix go (d : list (string * value)) :=
         match d with [] => True | (_, x) :: d' => wf_value x ∧ go d' end) d
  | _ => True
  end.

Definition is_dict (v : value) : bool := match v with VDict _ => true | _ => false end.
Definition is_list (v : value) : bool := match v with VList _ => true | _ => false end.
Definition is_str (v : value) : bool := match v with VStr _ => true | _ => false end.

(** [v == "s"] *)
Definition eq_str (v : value) (s : string) : bool :=
  match v with VStr t => bool_decide (t = s) | _ => false end.

(** [d.get(k)], with [None] for a missing key. *)
Definition vget (k : string) (d : dict value) : value := default VNone (dget k d).
Definition vget_or (k : string) (v : value) (d : dict value) : value := default v (dget k d).
Definition is_none (v : value) : bool := match v with VNone => true | _ => false end.

(** Truthiness. *)
Definition truthy (v : value) : bool :=
  match v with
  | VNone => false
  | VBool b => b
  | VInt n => negb (n =? 0)%Z
  | VFloat f _ => match f with S754_zero _ => false | _ => true end
  | VStr s => negb (bool_decide (s = ""))
  | VList l => match l with [] => false | _ => true end
  | VDict d => match d with [] => false | _ => true end
  | VOther _ => true
  end.

(** ** Equality *)

Definition float_eq_int (f : spec_float) (n : Z) : bool :=
  match f with
  | S754_zero _ => (n =? 0)%Z
  | S754_finite s m e =>
      let z := if s then Z.neg m else Z.pos m in
      if (0 <=? e)%Z then (z * 2 ^ e =? n)%Z else (z =? n * 2 ^ (- e))%Z
  | _ => false
  end.

(** The integer a [bool] or [int] is. *)
Definition int_of (v : value) : option Z :=
  match v with
  | VBool b => Some (if b then 1 else 0)%Z
  | VInt n => Some n
  | _ => None
  end.

Definition scalar_eq (a b : value) : bool :=
  match int_of a, int_of b with
  | Some m, Some n => (m =? n)%Z
  | Some m, None => match b with VFloat f _ => float_eq_int f m | _ => false end
  | None, Some n => match a with VFloat f _ => float_eq_int f n | _ => false end
  | None, None =>
      match a, b with
      | VNone, VNone => true
      | VFloat f _, VFloat g _ => SFeqb f g
      | VStr s, VStr t => bool_decide (s = t)
      | VOther s, VOther t => bool_decide (s = t)
      | _, _ => false
      end
  end.

Fixpoint py_eq (a b : value) : bool :=
  match a, b with
  | VList l, VList l' =>
      (fix go l l' := match l, l' with
                      | [], [] => true
                      | x :: l, y :: l' => py_eq x y && go l l'
                      | _, _ => false
                      end) l l'
  | VDict d, VDict d' =>
      Nat.eqb (length d) (length d') &&
      (fix go (d : list (string * value)) :=
         match d with
         | [] => true
         | (k, x) :: d => match dget k d' with Some y => py_eq x y | None => false end && go d
         end) d
  | _, _ => scalar_eq a b
  end.

(** [isinstance(v, int) and not isinstance(v, bool)] *)
Definition as_int (v : value) : option Z := match v with VInt n => Some n | _ => None end.

(** ** [repr] *)
Fixpoint value_repr (v : value) : string :=
  match v with
  | VNone => "None"
  | VBool true => "True"
  | VBool false => "False"
  | VInt n => str_int n
  | VFloat _ t => t
  | VStr s => py_repr s
  | VList l => "[" +:+ join ", " (map value_repr l) +:+ "]"
  | VDict d =>
      "{" +:+ join ", " ((fix go (d : list (string * value)) :=
                            match d with
                            | [] => []
                            | (k, x) :: d' => (py_repr k +:+ ": " +:+ value_repr x) :: go d'
                            end) d) +:+ "}"
  | VOther t => t
  end.

(** ** Lemmas *)

Lemma wf_value_dict d :
  wf_value (VDict d) ↔ wf_dict d ∧ Forall (λ kv, wf_value (snd kv)) d.
Proof.
  simpl. split; intros [Hd H]; split; try done; clear Hd.
  - induction d as [|[k x] d IH]; constructor; naive_solver.
  - induction H as [|[k x] d Hx Hd IH]; naive_solver.
Qed.

Lemma wf_value_get d k v : wf_value (VDict d) → dget k d = Some v → wf_value v.
Proof.
  intros [_ H]%wf_value_dict Hk%dget_Some_elem.
  rewrite Forall_forall in H. by apply (H (k, v)).
Qed.

Lemma wf_value_dset d k v :
  wf_value (VDict d) → wf_value v → wf_value (VDict (dset k v d)).
Proof.
  rewrite !wf_value_dict. intros [Hd H] Hv. split; [by apply wf_dset|].
  clear Hd. induction H as [|[j x] d Hx Hd IH]; simpl.
  - by repeat constructor.
  - case_decide; by constructor.
Qed.

Lemma wf_value_dpop d k : wf_value (VDict d) → wf_value (VDict (dpop k d)).
Proof.
  rewrite !wf_value_dict. intros [Hd H]. split; [by apply wf_dpop|].
  clear Hd. induction H as [|[j x] d Hx Hd IH]; simpl; [constructor|].
  case_decide; [done | by constructor].
Qed.

Lemma dedup_go_spec seen l :
  NoDup (dedup_go seen l) ∧ ∀ x, x ∈ dedup_go seen l ↔ x ∈ l ∧ x ∉ seen.
Proof.
  revert seen. induction l as [|y l IH]; intros seen; simpl.
  - split; [constructor|]. set_solver.
  - case_decide as Hy.
    + destruct (IH seen) as [Hnd Hx]. split; [done|]. set_solver.
    + destruct (IH (y :: seen)) as [Hnd Hx]. split.
      * constructor; [|done]. rewrite Hx. set_solver.
      * intros x. rewrite elem_of_cons, Hx. destruct (decide (x = y)) as [->|]; set_solver.
Qed.

Lemma NoDup_dedup l : NoDup (dedup l).
Proof. apply (proj1 (dedup_go_spec [] l)). Qed.
Lemma elem_of_dedup x l : x ∈ dedup l ↔ x ∈ l.
Proof. unfold dedup. rewrite (proj2 (dedup_go_spec [] l)). set_solver. Qed.

Lemma eq_str_true v s : eq_str v s = true ↔ v = VStr s.
Proof. destruct v; simpl; try (split; congruence). rewrite bool_decide_eq_true. naive_solver. Qed.

(** [wf_dict] of a closed dict, by evaluation. *)
Ltac wf_closed :=
  lazymatch goal with
  | |- wf_dict ?d => apply (bool_decide_eq_true_1 (NoDup (dkeys d))); vm_compute; reflexivity
  end.
