(* ===== verification/PyDict.v ===== *)
(** * More on dicts: what removing and setting a key leaves *)

From S2P Require Import Prelude PyStr PyVal.

Section dicts.
Context {A : Type}.
Implicit Types d : dict A.

Lemma dpop_sublist k d : dpop k d `sublist_of` d.
Proof.
  induction d as [|[j w] d IH]; simpl; [done|]. case_decide; [by apply sublist_cons|by apply sublist_skip].
Qed.
Lemma wf_sublist d d' : d' `sublist_of` d → wf_dict d → wf_dict d'.
Proof. unfold wf_dict, dkeys. intros H Hd. eapply sublist_NoDup; [exact Hd|]. by apply (fmap_sublist fst). Qed.
Lemma dget_sublist d d' k v : wf_dict d → d' `sublist_of` d → dget k d' = Some v → dget k d = Some v.
Proof. intros Hwf Hsub Hk. apply elem_dget; [done|]. eapply sublist_subseteq; [exact Hsub|]. by apply dget_Some_elem. Qed.
Lemma length_dpop k d : k ∈ dkeys d → S (length (dpop k d)) = length d.
Proof.
  unfold dkeys. induction d as [|[j w] d IH]; csimpl; [by intros ?%elem_of_nil|].
  intros Hk. case_decide; [done|]. simpl. apply elem_of_cons in Hk as [->|Hk]; [done|]. by rewrite IH.
Qed.
Lemma length_dset k (v : A) d : (length (dset k v d) ≤ S (length d))%nat.
Proof. induction d as [|[j w] d IH]; simpl; [lia|]. case_decide; simpl; lia. Qed.
Lemma elem_of_dset k (v : A) d x : x ∈ dset k v d → x = (k, v) ∨ x ∈ d.
Proof.
  induction d as [|[j w] d IH]; simpl; [by intros ->%list_elem_of_singleton; left|].
  case_decide; rewrite !elem_of_cons; naive_solver.
Qed.
End dicts.
