(* ===== verification/IPAddr.v ===== *)
(** * The parts of Python's [ipaddress] module the program uses

    IPv4 addresses are integers in [0 .. 2^32), IPv6 addresses integers in
    [0 .. 2^128) with an optional scope.  Parsing and printing follow the module:
    strict decimal octets, prefix, netmask and hostmask forms, [::] compression.
    IPv6 printing is that of Python 3.11 and 3.12 (later versions print
    IPv4-mapped addresses in dotted form). *)

From Stdlib Require Import Ascii.
From S2P Require Import Prelude PyStr.

Local Open Scope Z_scope.

Definition dot : ascii := ".".
Definition colon : ascii := ":".
Definition slash : ascii := "/".
Definition percent : ascii := "%".

(** ** IPv4 *)

Definition ALL_ONES : Z := 2 ^ 32 - 1.

(** [_BaseV4._parse_octet] *)
Definition parse_octet (s : string) : option Z :=
  if bool_decide (s = "") then None
  else if negb (all_chars is_digit_ascii s) then None
  else if (3 <? slen s)%nat then None
  else if negb (bool_decide (s = "0")) && startswith s "0" then None
  else let n := dec_value s in if 255 <? n then None else Some n.

(** [IPv4Address(s)] *)
Definition parse_ipv4 (s : string) : option Z :=
  match split_on dot s with
  | [a; b; c; d] =>
      a ← parse_octet a; b ← parse_octet b; c ← parse_octet c; d ← parse_octet d;
      Some (a * 2 ^ 24 + b * 2 ^ 16 + c * 2 ^ 8 + d)
  | _ => None
  end.

(** [str(IPv4Address(n))] *)
Definition octet (i n : Z) : Z := n / 2 ^ (8 * i) mod 256.
Definition str_ipv4 (n : Z) : string :=
  join "." (map str_int [octet 3 n; octet 2 n; octet 1 n; octet 0 n]).

(** [_count_righthand_zero_bits(n, bits)] *)
Fixpoint count_right_zeros (bits : nat) (n : Z) : Z :=
  match bits with
  | O => 0
  | S k => if Z.testbit n 0 then 0 else 1 + count_right_zeros k (Z.shiftr n 1)
  end.
(** [_prefix_from_ip_int] *)
Definition prefix_from_ip_int (n : Z) : option Z :=
  let tz := count_right_zeros 32 n in
  let p := 32 - tz in
  if Z.shiftr n tz =? 2 ^ p - 1 then Some p else None.
(** [_prefix_from_prefix_string] *)
Definition prefix_from_prefix_string (s : string) : option Z :=
  if bool_decide (s = "") || negb (all_chars is_digit_ascii s) then None
  else let n := dec_value s in if 32 <? n then None else Some n.
(** [_prefix_from_ip_string]: a netmask, else a hostmask. *)
Definition prefix_from_ip_string (s : string) : option Z :=
  n ← parse_ipv4 s;
  match prefix_from_ip_int n with
  | Some p => Some p
  | None => prefix_from_ip_int (Z.lxor n ALL_ONES)
  end.
(** [_make_netmask] of a string *)
Definition parse_prefix (s : string) : option Z :=
  match prefix_from_prefix_string s with
  | Some p => Some p
  | None => prefix_from_ip_string s
  end.

Definition netmask_of (prefix : Z) : Z := Z.lxor ALL_ONES (Z.shiftr ALL_ONES prefix).

Record ipv4_interface : Type := IPv4Interface { if_ip : Z; if_prefixlen : Z }.

(** [IPv4Interface(s)] *)
Definition parse_interface (s : string) : option ipv4_interface :=
  match split_on slash s with
  | [a] => ip ← parse_ipv4 a; Some (IPv4Interface ip 32)
  | [a; m] => p ← parse_prefix m; ip ← parse_ipv4 a; Some (IPv4Interface ip p)
  | _ => None
  end.

Definition if_netmask (i : ipv4_interface) : Z := netmask_of (if_prefixlen i).
(** [i.network.network_address] and [ip in i.network] *)
Definition if_network (i : ipv4_interface) : Z := Z.land (if_ip i) (if_netmask i).
Definition in_network (ip : Z) (i : ipv4_interface) : bool :=
  Z.land ip (if_netmask i) =? if_network i.
Definition str_interface (i : ipv4_interface) : string :=
  str_ipv4 (if_ip i) +:+ "/" +:+ str_int (if_prefixlen i).
Definition str_network (i : ipv4_interface) : string :=
  str_ipv4 (if_network i) +:+ "/" +:+ str_int (if_prefixlen i).
#[export] Instance ipv4_interface_eq_dec : EqDecision ipv4_interface.
Proof. solve_decision. Defined.

(** [IPv4Network(s, strict=True)], as the interface whose address is the network
    address. *)
Definition parse_network (s : string) : option ipv4_interface :=
  i ← parse_interface s;
  if if_network i =? if_ip i then Some i else None.

(** ** IPv6 *)

Record ipv6 : Type := IPv6 { ip6_int : Z; ip6_scope : option string }.

(** [_parse_hextet] *)
Definition parse_hextet (s : string) : option Z :=
  if bool_decide (s = "") || negb (all_chars is_hex s) || (4 <? slen s)%nat then None
  else Some (hex_value s).
Definition str_hex (n : Z) : string :=
  let fix go (fuel : nat) (n : N) (acc : string) : string :=
    match fuel with
    | O => acc
    | S f => if (n =? 0)%N then acc else go f (n / 16)%N (String (hex_digit (n mod 16)) acc)
    end in
  if n =? 0 then "0" else go 32%nat (Z.to_N n) "".
(** An IPv4-style suffix becomes two hextets. *)
Definition expand_ipv4_suffix (parts : list string) : option (list string) :=
  match rev parts with
  | last :: front =>
      if has_char dot last
      then n ← parse_ipv4 last;
           Some (rev front ++ [str_hex (Z.land (Z.shiftr n 16) 65535); str_hex (Z.land n 65535)])
      else Some parts
  | [] => Some parts
  end.
(** The indices of the empty inner parts. *)
Definition empty_inner (parts : list string) : list nat :=
  filter (λ i, 1 ≤ i < length parts - 1 ∧ parts !! i = Some "")%nat (seq 0 (length parts)).
Definition is_empty (o : option string) : bool := bool_decide (o = Some "").
(** The number of leading and trailing hextets and of skipped zero hextets. *)
Definition hextet_layout (parts : list string) : option (nat * nat * nat) :=
  let n := length parts in
  match empty_inner parts with
  | [] =>
      if (n =? 8)%nat && negb (is_empty (parts !! 0%nat)) && negb (is_empty (last parts))
      then Some (n, 0, 0)%nat else None
  | [skip] =>
      let hi := if is_empty (parts !! 0%nat) then (skip - 1)%nat else skip in
      let lo0 := (n - skip - 1)%nat in
      let lo := if is_empty (last parts) then (lo0 - 1)%nat else lo0 in
      if is_empty (parts !! 0%nat) && negb (hi =? 0)%nat then None
      else if is_empty (last parts) && negb (lo =? 0)%nat then None
      else if (8 <=? hi + lo)%nat then None
      else Some (hi, lo, (8 - (hi + lo))%nat)
  | _ => None
  end.
Definition hextets_value (acc : Z) (l : list Z) : Z := fold_left (λ n h, n * 65536 + h) l acc.
Definition parse_ipv6_int (s : string) : option Z :=
  let parts0 := split_on colon s in
  if (length parts0 <? 3)%nat then None
  else parts ← expand_ipv4_suffix parts0;
    if (9 <? length parts)%nat then None
    else '(hi, lo, skipped) ← hextet_layout parts;
      front ← mapM parse_hextet (take hi parts);
      back ← mapM parse_hextet (drop (length parts - lo) parts);
      Some (hextets_value (hextets_value 0 front * 2 ^ (16 * Z.of_nat skipped)) back).
(** [IPv6Address(s)] *)
Definition parse_ipv6 (s : string) : option ipv6 :=
  if has_char slash s then None
  else
    let '(addr, sep, scope) := partition_on percent s in
    if sep && (bool_decide (scope = "") || has_char percent scope) then None
    else n ← parse_ipv6_int addr;
         Some (IPv6 n (if sep : bool then Some scope else None)).

(** [_compress_hextets]: the leftmost longest run of ["0"] of length at least two. *)
Fixpoint longest_zero_run (i start len : nat) (best : nat * nat) (l : list string) : nat * nat :=
  match l with
  | [] => best
  | h :: l' =>
      if bool_decide (h = "0")
      then let start' := if (len =? 0)%nat then i else start in
           let len' := S len in
           longest_zero_run (S i) start' len' (if (snd best <? len')%nat then (start', len') else best) l'
      else longest_zero_run (S i) 0 0 best l'
  end.
Definition compress_hextets (l : list string) : list string :=
  let '(start, len) := longest_zero_run 0 0 0 (0, 0)%nat l in
  if (len <=? 1)%nat then l
  else
    (if (start =? 0)%nat then [""] else []) ++ take start l ++ [""] ++ drop (start + len) l
    ++ (if (start + len =? length l)%nat then [""] else []).
Definition hextet (i n : Z) : Z := n / 2 ^ (16 * i) mod 65536.
Definition str_ipv6 (a : ipv6) : string :=
  join ":" (compress_hextets (map (λ i, str_hex (hextet i (ip6_int a))) [7; 6; 5; 4; 3; 2; 1; 0]))
  +:+ match ip6_scope a with Some sc => "%" +:+ sc | None => "" end.

(** [ipaddress.ip_address(s)] and [str] of it: IPv4 first, then IPv6. *)
Definition parse_ip_address (s : string) : option string :=
  match parse_ipv4 s with
  | Some n => Some (str_ipv4 n)
  | None => str_ipv6 <$> parse_ipv6 s
  end.
Definition is_ip_address (s : string) : bool :=
  match parse_ip_address s with Some _ => true | None => false end.

(** ** IPv4 lemmas *)

Definition digit_strings : list string :=
  let ds := map (λ c, String c "") ["0"; "1"; "2"; "3"; "4"; "5"; "6"; "7"; "8"; "9"]%char in
  let two := a ← ds; b ← ds; [a +:+ b] in
  ds ++ two ++ (a ← ds; b ← two; [a +:+ b]).

Lemma is_digit_ascii_elem c :
  is_digit_ascii c = true → c ∈ ["0"; "1"; "2"; "3"; "4"; "5"; "6"; "7"; "8"; "9"]%char.
Proof.
  intros H. destruct c as [[] [] [] [] [] [] [] []];
    vm_compute in H; first [discriminate H | apply (bool_decide_unpack _); vm_compute; exact I].
Qed.

Lemma digit_strings_complete s :
  s ≠ "" → all_chars is_digit_ascii s = true → (slen s ≤ 3)%nat → s ∈ digit_strings.
Proof.
  intros Hs Hd Hl. unfold all_chars in Hd.
  destruct s as [|a [|b [|c [|d s]]]]; simpl in *; [done| | | |unfold slen in *; simpl in *; lia];
    repeat (apply andb_true_iff in Hd as [?%is_digit_ascii_elem Hd]);
    unfold digit_strings; rewrite !elem_of_app.
  - left. apply list_elem_of_In, in_map_iff. exists a. by rewrite <-list_elem_of_In.
  - right; left. apply list_elem_of_bind. exists (String a ""). split.
    + apply list_elem_of_bind. exists (String b ""). split; [set_solver|].
      apply list_elem_of_In, in_map_iff. exists b. by rewrite <-list_elem_of_In.
    + apply list_elem_of_In, in_map_iff. exists a. by rewrite <-list_elem_of_In.
  - right; right. apply list_elem_of_bind. exists (String a ""). split.
    + apply list_elem_of_bind. exists (String b (String c "")). split; [set_solver|].
      apply list_elem_of_bind. exists (String b ""). split.
      * apply list_elem_of_bind. exists (String c ""). split; [set_solver|].
        apply list_elem_of_In, in_map_iff. exists c. by rewrite <-list_elem_of_In.
      * apply list_elem_of_In, in_map_iff. exists b. by rewrite <-list_elem_of_In.
    + apply list_elem_of_In, in_map_iff. exists a. by rewrite <-list_elem_of_In.
Qed.

Definition octet_ok (n : Z) : bool :=
  bool_decide (parse_octet (str_int n) = Some n) && negb (has_char dot (str_int n))
  && negb (has_char slash (str_int n)).

Lemma octet_print n : 0 ≤ n < 256 → octet_ok n = true.
Proof.
  assert (forallb octet_ok (seqZ 0 256) = true) as H by (vm_compute; reflexivity).
  intros Hn. rewrite forallb_forall in H. apply H, list_elem_of_In, elem_of_seqZ. lia.
Qed.

Lemma octet_canonical s n : parse_octet s = Some n → s = str_int n ∧ 0 ≤ n < 256.
Proof.
  assert (forallb (λ s, match parse_octet s with
                        | None => true
                        | Some n => bool_decide (s = str_int n) && (0 <=? n) && (n <? 256)
                        end) digit_strings = true) as H by (vm_compute; reflexivity).
  rewrite forallb_forall in H. intros Hs.
  assert (In s digit_strings) as Hin.
  { apply list_elem_of_In. unfold parse_octet in Hs. repeat case_match; try done. bool_prop.
    by apply digit_strings_complete. }
  specialize (H s Hin). rewrite Hs in H. bool_prop. done.
Qed.

Lemma octet_range i n : 0 ≤ octet i n < 256.
Proof. unfold octet. apply Z.mod_pos_bound. lia. Qed.

Lemma join4 a b c d :
  join "." [a; b; c; d] = a +:+ String dot (b +:+ String dot (c +:+ String dot d)).
Proof. done. Qed.

Lemma split_join4 a b c d :
  has_char dot a = false → has_char dot b = false → has_char dot c = false →
  has_char dot d = false → split_on dot (join "." [a; b; c; d]) = [a; b; c; d].
Proof.
  intros Ha Hb Hc Hd. rewrite join4, !split_on_app_sep by done. by rewrite split_on_no_sep.
Qed.

Lemma octet_unfold n :
  octet 0 n = n mod 256 ∧ octet 1 n = (n / 256) mod 256 ∧
  octet 2 n = (n / 256 / 256) mod 256 ∧ octet 3 n = (n / 256 / 256 / 256) mod 256.
Proof.
  rewrite !Z.div_div by lia. unfold octet. split_and!; [|done..].
  change (2 ^ (8 * 0)) with 1. by rewrite Z.div_1_r.
Qed.

Lemma octets_value n :
  0 ≤ n < 2 ^ 32 →
  octet 3 n * 2 ^ 24 + octet 2 n * 2 ^ 16 + octet 1 n * 2 ^ 8 + octet 0 n = n.
Proof.
  intros Hn. destruct (octet_unfold n) as (-> & -> & -> & ->).
  assert (0 ≤ n / 256 / 256 / 256 < 256).
  { split; [repeat apply Z.div_pos; lia|]. rewrite !Z.div_div by lia. apply Z.div_lt_upper_bound; lia. }
  rewrite (Z.mod_small (n / 256 / 256 / 256)) by lia.
  pose proof (Z.div_mod n 256). pose proof (Z.div_mod (n / 256) 256).
  pose proof (Z.div_mod (n / 256 / 256) 256). lia.
Qed.

(** Printing an address and parsing it back. *)
Lemma parse_str_ipv4 n : 0 ≤ n < 2 ^ 32 → parse_ipv4 (str_ipv4 n) = Some n.
Proof.
  intros Hn. unfold parse_ipv4, str_ipv4.
  pose proof (octet_print _ (octet_range 3 n)) as H3. pose proof (octet_print _ (octet_range 2 n)) as H2.
  pose proof (octet_print _ (octet_range 1 n)) as H1. pose proof (octet_print _ (octet_range 0 n)) as H0.
  unfold octet_ok in *. bool_prop. simpl map. rewrite split_join4 by done.
  simplify_option_eq. f_equal. rewrite octets_value by done. done.
Qed.

(** Parsing accepts canonical texts only: printing gives the text back. *)
Lemma str_parse_ipv4 s n : parse_ipv4 s = Some n → str_ipv4 n = s ∧ 0 ≤ n < 2 ^ 32.
Proof.
  unfold parse_ipv4, str_ipv4. intros H.
  pose proof (join_split_on dot s) as Hs.
  destruct (split_on dot s) as [|a [|b [|c [|d [|? ?]]]]]; try done.
  destruct (parse_octet a) as [a'|] eqn:Ea; [|done]. destruct (parse_octet b) as [b'|] eqn:Eb; [|done].
  destruct (parse_octet c) as [c'|] eqn:Ec; [|done]. destruct (parse_octet d) as [d'|] eqn:Ed; [|done].
  apply octet_canonical in Ea as [-> Ha], Eb as [-> Hb], Ec as [-> Hc], Ed as [-> Hd].
  injection H as <-. set (n := _ + d').
  assert (octet 0 n = d') as ->.
  { unfold octet, n. change (2 ^ (8 * 0)) with 1. rewrite Z.div_1_r.
    symmetry. apply (Z.mod_unique_pos _ _ (a' * 2 ^ 16 + b' * 2 ^ 8 + c')); lia. }
  assert (octet 1 n = c') as ->.
  { unfold octet, n. change (2 ^ (8 * 1)) with 256.
    rewrite <-(Z.div_unique _ 256 (a' * 2 ^ 16 + b' * 2 ^ 8 + c') d') by lia.
    symmetry. apply (Z.mod_unique_pos _ _ (a' * 2 ^ 8 + b')); lia. }
  assert (octet 2 n = b') as ->.
  { unfold octet, n. change (2 ^ (8 * 2)) with 65536.
    rewrite <-(Z.div_unique _ 65536 (a' * 2 ^ 8 + b') (c' * 2 ^ 8 + d')) by lia.
    symmetry. apply (Z.mod_unique_pos _ _ a'); lia. }
  assert (octet 3 n = a') as ->.
  { unfold octet, n. change (2 ^ (8 * 3)) with 16777216.
    rewrite <-(Z.div_unique _ 16777216 a' (b' * 2 ^ 16 + c' * 2 ^ 8 + d')) by lia.
    apply Z.mod_small; lia. }
  split; [exact Hs|]. unfold n. lia.
Qed.

Lemma has_char_app c s t : has_char c (s +:+ t) = has_char c s || has_char c t.
Proof. unfold has_char, any_char. by rewrite chars_app, existsb_app. Qed.

Lemma str_ipv4_no_slash n : has_char slash (str_ipv4 n) = false.
Proof.
  unfold str_ipv4. simpl map. rewrite join4.
  pose proof (octet_print _ (octet_range 3 n)) as H3. pose proof (octet_print _ (octet_range 2 n)) as H2.
  pose proof (octet_print _ (octet_range 1 n)) as H1. pose proof (octet_print _ (octet_range 0 n)) as H0.
  unfold octet_ok in *. bool_prop.
  repeat (rewrite has_char_app; change (has_char slash (String dot ?s)) with (has_char slash s)).
  change (has_char slash (String dot ?s)) with (has_char slash s). by rewrite !orb_false_iff.
Qed.

Lemma prefix_print p : 0 ≤ p ≤ 32 →
  parse_prefix (str_int p) = Some p ∧ has_char slash (str_int p) = false.
Proof.
  assert (forallb (λ p, bool_decide (parse_prefix (str_int p) = Some p) &&
            negb (has_char slash (str_int p))) (seqZ 0 33) = true) as H by (vm_compute; reflexivity).
  intros Hp. rewrite forallb_forall in H.
  specialize (H p). rewrite <-list_elem_of_In, elem_of_seqZ in H.
  specialize (H ltac:(lia)). bool_prop. done.
Qed.

Definition interface_ok (i : ipv4_interface) : Prop :=
  0 ≤ if_ip i < 2 ^ 32 ∧ 0 ≤ if_prefixlen i ≤ 32.

Lemma parse_str_interface i : interface_ok i → parse_interface (str_interface i) = Some i.
Proof.
  intros [Hip Hp]. unfold parse_interface, str_interface.
  change (?s +:+ "/" +:+ ?t) with (s +:+ String slash t).
  destruct (prefix_print _ Hp) as [Hpp Hsl].
  rewrite split_on_app_sep, split_on_no_sep by (done || apply str_ipv4_no_slash).
  rewrite Hpp. simpl. rewrite parse_str_ipv4 by done. by destruct i.
Qed.

Lemma count_right_zeros_bound k n : 0 ≤ count_right_zeros k n ≤ Z.of_nat k.
Proof. revert n. induction k as [|k IH]; intros n; simpl; [lia|]. destruct (Z.odd n); [lia|]. specialize (IH (Z.shiftr n 1)). lia. Qed.

Lemma dec_value_nonneg s : all_chars is_digit_ascii s = true → 0 ≤ dec_value s.
Proof.
  intros H%all_chars_spec. unfold dec_value.
  enough (∀ z, 0 ≤ z → 0 ≤ fold_left (λ n c, n * 10 + digit_val c) (chars s) z) as Hz by (apply Hz; lia).
  induction H as [|c l Hc _ IH]; simpl; [done|]. intros z Hz. apply IH.
  unfold digit_val, is_digit_ascii, between in *. apply andb_true_iff in Hc as [Hc%N.leb_le _]. lia.
Qed.

Lemma prefix_from_ip_int_range n p : prefix_from_ip_int n = Some p → 0 ≤ p ≤ 32.
Proof.
  unfold prefix_from_ip_int. pose proof (count_right_zeros_bound 32 n) as H.
  revert H. generalize (count_right_zeros 32 n) as tz. intros tz H.
  destruct (_ =? _); [|discriminate]. intros Hp%(inj Some). lia.
Qed.

Lemma prefix_from_ip_string_range s p : prefix_from_ip_string s = Some p → 0 ≤ p ≤ 32.
Proof.
  unfold prefix_from_ip_string. destruct (parse_ipv4 s) as [n|]; [|done].
  change (mbind (M := option) ?f (Some n)) with (f n). cbv beta.
  destruct (prefix_from_ip_int n) eqn:E.
  - intros [= <-]. by eapply prefix_from_ip_int_range.
  - apply prefix_from_ip_int_range.
Qed.

Lemma parse_prefix_range s p : parse_prefix s = Some p → 0 ≤ p ≤ 32.
Proof.
  unfold parse_prefix. destruct (prefix_from_prefix_string s) eqn:E; [|apply prefix_from_ip_string_range].
  intros [= <-]. unfold prefix_from_prefix_string in E.
  destruct (bool_decide _ || _) eqn:E1; [done|]. destruct (32 <? _) eqn:E2; [done|].
  injection E as <-. apply orb_false_iff in E1 as [_ E1]. bool_prop.
  split; [by apply dec_value_nonneg | done].
Qed.

Lemma parse_interface_ok s i : parse_interface s = Some i → interface_ok i.
Proof.
  unfold parse_interface, interface_ok. destruct (split_on slash s) as [|a [|m [|? ?]]]; try done.
  - destruct (parse_ipv4 a) eqn:E; simpl; [|done]. intros [= <-]. apply str_parse_ipv4 in E as [_ ?]. simpl. lia.
  - destruct (parse_prefix m) eqn:Em; simpl; [|done]. destruct (parse_ipv4 a) eqn:E; simpl; [|done].
    intros [= <-]. apply str_parse_ipv4 in E as [_ ?]. apply parse_prefix_range in Em. simpl. lia.
Qed.

(** Masking an address keeps its high bits. *)
Lemma land_netmask p ip :
  0 ≤ p ≤ 32 → 0 ≤ ip < 2 ^ 32 →
  Z.land ip (netmask_of p) = ip / 2 ^ (32 - p) * 2 ^ (32 - p).
Proof.
  intros Hp Hip. rewrite <-Z.shiftr_div_pow2, <-Z.shiftl_mul_pow2 by lia.
  apply Z.bits_inj'. intros i Hi. unfold netmask_of.
  change ALL_ONES with (Z.ones 32).
  rewrite Z.land_spec, Z.lxor_spec, Z.shiftr_spec, Z.shiftl_spec by lia.
  destruct (Z.lt_ge_cases i 32).
  - rewrite Z.ones_spec_low by lia.
    destruct (Z.lt_ge_cases i (32 - p)).
    + rewrite Z.ones_spec_low by lia. rewrite (Z.testbit_neg_r _ (i - (32 - p))) by lia.
      by rewrite andb_false_r.
    + rewrite Z.ones_spec_high by lia. rewrite Z.shiftr_spec by lia.
      replace (i - (32 - p) + (32 - p)) with i by lia. by rewrite andb_true_r.
  - rewrite Z.shiftr_spec by lia. replace (i - (32 - p) + (32 - p)) with i by lia.
    assert (Z.testbit ip i = false) as ->; [|done].
    destruct (decide (ip = 0)) as [->|]; [apply Z.bits_0|]. apply Z.bits_above_log2; [lia|].
    assert (Z.log2 ip < 32) by (apply Z.log2_lt_pow2; lia). lia.
Qed.

(** A network is an interval: an address between two members is a member. *)
Lemma in_network_convex i a x b :
  interface_ok i → 0 ≤ a → b < 2 ^ 32 → a ≤ x ≤ b →
  in_network a i = true → in_network b i = true → in_network x i = true.
Proof.
  unfold in_network, if_network, if_netmask. intros [Hip Hp] Ha Hb Hx.
  rewrite !Z.eqb_eq, !land_netmask by lia. intros Ea Eb.
  assert (0 < 2 ^ (32 - if_prefixlen i)) by (apply Z.pow_pos_nonneg; lia).
  apply Z.mul_reg_r in Ea, Eb; [|lia..]. f_equal.
  pose proof (Z.div_le_mono a x _ H ltac:(lia)). pose proof (Z.div_le_mono x b _ H ltac:(lia)). lia.
Qed.
