(* ===== verification/PyLib.v ===== *)
(** * Further standard-library routines: [base64] and [urllib.parse]

    [b64decode] is [base64.b64decode(s, validate=True)] on text, [urlsplit] and
    the record projections are [urllib.parse.urlsplit] on a text without
    whitespace or control characters (the only texts the program passes). *)

From Stdlib Require Import Ascii.
From S2P Require Import Prelude PyStr IPAddr.

Local Open Scope Z_scope.

(** ** Base64 *)

Definition b64_val (c : ascii) : option Z :=
  let n := Z.of_N (ord c) in
  if is_upper_ascii c then Some (n - 65)
  else if is_lower_ascii c then Some (n - 71)
  else if is_digit_ascii c then Some (n + 4)
  else if (n =? 43) then Some 62
  else if (n =? 47) then Some 63
  else None.

Fixpoint b64_data (l : list ascii) : list Z * list ascii :=
  match l with
  | [] => ([], [])
  | c :: l' =>
      match b64_val c with
      | Some v => let '(vs, rest) := b64_data l' in (v :: vs, rest)
      | None => ([], l)
      end
  end.

Definition byte_of (n : Z) : ascii := ascii_of_N (Z.to_N (n mod 256)).

Fixpoint b64_quads (vs : list Z) : list ascii :=
  match vs with
  | a :: b :: c :: d :: vs' =>
      byte_of (a * 4 + b / 16) :: byte_of (b * 16 + c / 4) :: byte_of (c * 64 + d) :: b64_quads vs'
  | [a; b; c] => [byte_of (a * 4 + b / 16); byte_of (b * 16 + c / 4)]
  | [a; b] => [byte_of (a * 4 + b / 16)]
  | _ => []
  end.

Definition b64decode (s : string) : option (list ascii) :=
  let '(vs, rest) := b64_data (chars s) in
  if negb (forallb (Ascii.eqb "=") rest) then None
  else
    let n := length vs in let p := length rest in
    let ok := match (n mod 4)%nat with
              | 0%nat => (p =? 0)%nat || negb (n =? 0)%nat
              | 2%nat => (p =? 2)%nat
              | 3%nat => (p =? 1)%nat
              | _ => false
              end in
    if ok : bool then Some (b64_quads vs) else None.

(** [int.from_bytes(bs, "big")] *)
Definition from_bytes_big (bs : list ascii) : Z :=
  fold_left (λ n c, n * 256 + Z.of_N (ord c)) bs 0.

(** ** URLs *)

Record split_result : Type := SplitResult {
  url_scheme : string;
  url_netloc : string;
  url_path : string;
  url_query : string;
  url_fragment : string;
}.

Definition is_scheme_char (c : ascii) : bool :=
  is_alnum_ascii c || Ascii.eqb c "+" || Ascii.eqb c "-" || Ascii.eqb c ".".
Definition is_alpha_ascii (c : ascii) : bool := is_upper_ascii c || is_lower_ascii c.

(** [s.rpartition(sep)] *)
Definition rpartition_on (sep : ascii) (s : string) : string * bool * string :=
  let '(b, found, a) := partition_on sep (String.rev s) in
  if found : bool then (String.rev a, true, String.rev b) else ("", false, s).

Definition is_url_delim (c : ascii) : bool :=
  Ascii.eqb c "/" || Ascii.eqb c "?" || Ascii.eqb c "#".
Fixpoint take_until (p : ascii → bool) (s : string) : string * string :=
  match s with
  | EmptyString => ("", "")
  | String c s' => if p c then ("", s) else let '(a, b) := take_until p s' in (String c a, b)
  end.

(** [_check_bracketed_host] *)
Definition is_ipvfuture (h : string) : bool :=
  let '(v, dotted, rest) := partition_on dot h in
  dotted && (1 <? slen v)%nat && all_chars is_hex (str_drop 1 v) && negb (bool_decide (rest = "")).
Definition bracketed_host_ok (h : string) : bool :=
  if startswith h "v" then is_ipvfuture h
  else match parse_ipv4 h with Some _ => false | None => is_ip_address h end.
(** [_check_bracketed_netloc] *)
Definition bracketed_netloc_ok (netloc : string) : bool :=
  let '(_, _, host_port) := rpartition_on "@" netloc in
  let '(before, open_br, bracketed) := partition_on "[" host_port in
  if open_br : bool then
    let '(host, _, port) := partition_on "]" bracketed in
    bool_decide (before = "") && (bool_decide (port = "") || startswith port ":")
    && bracketed_host_ok host
  else let '(host, _, _) := partition_on colon host_port in bracketed_host_ok host.

Definition split_scheme (url : string) : string * string :=
  let '(pre, found, post) := partition_on colon url in
  match pre with
  | String c _ =>
      if found && is_alpha_ascii c && all_chars is_scheme_char pre
      then (lower pre, post) else ("", url)
  | EmptyString => ("", url)
  end.

Definition urlsplit (url : string) : result split_result :=
  let '(scheme, url1) := split_scheme url in
  let '(netloc, url2) :=
    if startswith url1 "//" then take_until is_url_delim (str_drop 2 url1) else ("", url1) in
  let has_open := has_char "[" netloc in
  let has_close := has_char "]" netloc in
  _ ← raise_if (xorb has_open has_close) (ValueError "Invalid IPv6 URL");
  _ ← raise_if (has_open && has_close && negb (bracketed_netloc_ok netloc))
        (ValueError "Invalid IPv6 URL");
  let '(url3, _, fragment) := partition_on "#" url2 in
  let '(path, _, query) := partition_on "?" url3 in
  mret (SplitResult scheme netloc path query fragment).

(** [_hostinfo]: the host text and the port text. *)
Definition url_hostinfo (r : split_result) : string * string :=
  let '(_, _, hostinfo) := rpartition_on "@" (url_netloc r) in
  let '(_, open_br, bracketed) := partition_on "[" hostinfo in
  if open_br : bool then
    let '(host, _, rest) := partition_on "]" bracketed in
    let '(_, _, port) := partition_on colon rest in (host, port)
  else let '(host, _, port) := partition_on colon hostinfo in (host, port).

(** [r.hostname], empty for [None] *)
Definition url_hostname (r : split_result) : string :=
  let '(host, sep, zone) := partition_on percent (fst (url_hostinfo r)) in
  lower host +:+ (if sep : bool then "%" +:+ zone else "").
(** Reading [r.port] raises [ValueError]. *)
Definition url_port_bad (r : split_result) : bool :=
  let port := snd (url_hostinfo r) in
  negb (bool_decide (port = "")) &&
  (negb (all_chars is_digit_ascii port) || (65535 <? dec_value port)).
(** [r.username is not None or r.password is not None] *)
Definition url_has_userinfo (r : split_result) : bool :=
  let '(_, have_info, _) := rpartition_on "@" (url_netloc r) in have_info.
