(* ===== verification/ConfigCheck.v ===== *)
(** * [config.py]: errors, schema messages and the typed validation helpers

    One definition per helper of
    src/scripts/atomixos_provision/src/atomixos_provision/config.py, with the
    source's names.  A helper returns the normalised value or raises
    [ProvisionError] with the source's message. *)

From Stdlib Require Import Ascii.
From S2P Require Import Prelude PyStr PyVal IPAddr PyLib.

Local Open Scope Z_scope.

(** ** Constants *)

Definition LAN_INTERFACE_KEY : string := "lan".

Definition RESERVED_USERNAMES : list string :=
  ["appsvc"; "bin"; "chrony"; "daemon"; "dnsmasq"; "nobody"; "root";
   "systemd-network"; "systemd-resolve"; "systemd-timesync"].

Definition SSH_KEY_TYPES : list string :=
  ["ecdsa-sha2-nistp256"; "ecdsa-sha2-nistp384"; "ecdsa-sha2-nistp521";
   "sk-ecdsa-sha2-nistp256@openssh.com"; "ssh-ed25519"; "sk-ssh-ed25519@openssh.com"; "ssh-rsa"].

Definition provision_error (message : string) : exn := ProvisionError message.

Definition str_nat (n : nat) : string := str_int (Z.of_nat n).
(** [f"{path}[{idx}]"] *)
Definition at_index (path : string) (idx : nat) : string := path +:+ "[" +:+ str_nat idx +:+ "]".

(** ** Schema validation messages *)

Inductive segment : Type := SegIndex (n : Z) | SegKey (k : string).

(** The attributes of a [jsonschema] error the program reads. *)
Record schema_error : Type := SchemaErr {
  se_absolute_path : list segment;
  se_validator : string;
  se_validator_value : value;
  se_instance : value;
  se_schema : dict value;
  se_message : string;
}.

Definition _schema_error_path (path : string) (segments : list segment) : string :=
  fold_left (λ rendered segment,
    match segment with
    | SegIndex n => rendered +:+ "[" +:+ str_int n +:+ "]"
    | SegKey k => rendered +:+ "." +:+ k
    end) segments path.

(** [str(v)]: a string is itself, anything else its [repr]. *)
Definition py_str (v : value) : string := match v with VStr s => s | _ => value_repr v end.
(** The members of [set(v)] for a list of strings or a mapping. *)
Definition set_of (v : value) : list string :=
  match v with
  | VList l => dedup (map py_str l)
  | VDict d => dkeys d
  | _ => []
  end.
Definition sorted_difference (a b : list string) : list string :=
  sorted_strs (filter (λ x, x ∉ b) a).

Definition _schema_error_message (error : schema_error) (path : string) : string :=
  let location := _schema_error_path path (se_absolute_path error) in
  let kind v := bool_decide (se_validator error = v) in
  let limit := py_str (se_validator_value error) in
  if kind "type" then
    let names := match se_validator_value error with
                 | VList l => comma_join (map py_str l)
                 | v => py_str v
                 end in
    "expected " +:+ names +:+ " at " +:+ location
  else if kind "enum" then
    "unexpected value at " +:+ location +:+ ": " +:+ value_repr (se_instance error)
  else if kind "required" then
    let missing := sorted_difference (set_of (se_validator_value error)) (set_of (se_instance error)) in
    "missing required keys at " +:+ location +:+ ": " +:+ comma_join missing
  else if kind "additionalProperties" && is_dict (se_instance error) then
    let allowed := set_of (vget_or "properties" (VDict []) (se_schema error)) in
    let unexpected := sorted_difference (set_of (se_instance error)) allowed in
    "unsupported keys at " +:+ location +:+ ": " +:+ comma_join unexpected
  else if kind "minLength" then "expected non-empty string at " +:+ location
  else if kind "minItems" then "expected at least " +:+ limit +:+ " items at " +:+ location
  else if kind "minProperties" then "expected at least " +:+ limit +:+ " keys at " +:+ location
  else if kind "minimum" then "expected integer >= " +:+ limit +:+ " at " +:+ location
  else if kind "maximum" then "expected integer <= " +:+ limit +:+ " at " +:+ location
  else if kind "anyOf" || kind "oneOf" then "value at " +:+ location +:+ " does not match any allowed schema"
  else "schema validation failed at " +:+ location +:+ ": " +:+ se_message error.

(** ** Names *)

Definition first_char (s : string) : option ascii := head (chars s).

(** [c.isalnum() or c in {"_", "-"}] *)
Definition is_name_char (c : ascii) : bool := isalnum c || Ascii.eqb c "_" || Ascii.eqb c "-".

Definition validate_name (name : string) : result string :=
  let message := "invalid quadlet unit name: " +:+ py_repr name in
  let head_ok := match first_char name with
                 | Some c => isalnum c || Ascii.eqb c "_"
                 | None => false
                 end in
  if negb head_ok || has_char "/" name || has_char (ascii_of_N 0) name || has_char "." name
  then Err (provision_error message)
  else if negb (all_chars is_name_char name) then Err (provision_error message)
  else Ok name.

(** [re.fullmatch(r"[a-z_][a-z0-9_-]{0,31}", name)] *)
Definition username_re (name : string) : bool :=
  match chars name with
  | [] => false
  | c :: rest =>
      (is_lower_ascii c || Ascii.eqb c "_")
      && forallb (λ c, is_lower_ascii c || is_digit_ascii c || Ascii.eqb c "_" || Ascii.eqb c "-") rest
      && (length rest <=? 31)%nat
  end.

Definition validate_username (name : string) : result string :=
  if negb (username_re name) then Err (provision_error ("invalid user name: " +:+ py_repr name))
  else if bool_decide (name ∈ RESERVED_USERNAMES)
  then Err (provision_error ("reserved user name: " +:+ py_repr name))
  else Ok name.

(** ** Typed values *)

Definition require_mapping (v : value) (path : string) : result (dict value) :=
  match v with
  | VDict d => Ok d
  | _ => Err (provision_error ("expected table at " +:+ path))
  end.

Definition require_string (v : value) (path : string) : result string :=
  let message := "expected non-empty string at " +:+ path in
  match v with
  | VStr s => if bool_decide (strip s = "") then Err (provision_error message) else Ok (strip s)
  | _ => Err (provision_error message)
  end.

Definition string_item (path : string) (idx : nat) (item : value) : result string :=
  require_string item (at_index path idx).

Definition require_string_list (v : value) (path : string) : result (list string) :=
  match v with
  | VList ((_ :: _) as items) => imapR 0 (string_item path) items
  | _ => Err (provision_error ("expected non-empty array at " +:+ path))
  end.

Definition require_optional_string_list (v : value) (path : string) : result (list string) :=
  match v with
  | VNone => Ok []
  | VList items => imapR 0 (string_item path) items
  | _ => Err (provision_error ("expected array at " +:+ path))
  end.

Definition require_bool (v : value) (path : string) : result bool :=
  match v with
  | VBool b => Ok b
  | _ => Err (provision_error ("expected boolean at " +:+ path))
  end.

Definition require_int_range (v : value) (path : string) (minimum maximum : Z) : result Z :=
  let message := "expected integer in range " +:+ str_int minimum +:+ ".." +:+ str_int maximum
                 +:+ " at " +:+ path in
  match as_int v with
  | Some n => if (n <? minimum) || (maximum <? n) then Err (provision_error message) else Ok n
  | None => Err (provision_error message)
  end.

Definition port_item (path : string) (idx : nat) (item : value) : result Z :=
  let message := "expected port integer in range 1..65535 at " +:+ at_index path idx in
  match as_int item with
  | Some n => if (n <? 1) || (65535 <? n) then Err (provision_error message) else Ok n
  | None => Err (provision_error message)
  end.

Definition require_port_list (v : value) (path : string) : result (list Z) :=
  match v with
  | VList items => imapR 0 (port_item path) items
  | _ => Err (provision_error ("expected array at " +:+ path))
  end.

(** ** SSH keys *)

Definition require_ssh_public_key (v : value) (path : string) : result string :=
  key ← require_string v path;
  _ ← raise_if (any_char is_control key)
        (provision_error ("invalid SSH public key at " +:+ path +:+ ": control characters are not allowed"));
  match split_ws key with
  | key_type :: data :: _ =>
      _ ← raise_if (negb (bool_decide (key_type ∈ SSH_KEY_TYPES)))
            (provision_error ("unsupported SSH public key type at " +:+ path +:+ ": " +:+ key_type));
      key_blob ← of_option (if all_chars (between 0 127) data then b64decode data else None)
                   (provision_error ("invalid SSH public key data at " +:+ path));
      let blob_error := provision_error ("invalid SSH public key blob at " +:+ path) in
      _ ← raise_if (length key_blob <? 4)%nat blob_error;
      let key_type_len := from_bytes_big (take 4 key_blob) in
      let key_type_end := 4 + key_type_len in
      _ ← raise_if ((key_type_len <=? 0) || (Z.of_nat (length key_blob) <? key_type_end)) blob_error;
      let embedded := take (Z.to_nat key_type_len) (drop 4 key_blob) in
      _ ← raise_if (negb (forallb (between 0 127) embedded)) blob_error;
      _ ← raise_if (negb (bool_decide (unchars embedded = key_type)))
            (provision_error ("SSH public key type mismatch at " +:+ path));
      Ok key
  | _ => Err (provision_error ("invalid SSH public key at " +:+ path))
  end.

(** ** Hosts and addresses *)

(** [re.fullmatch(r"[A-Za-z0-9](?:[A-Za-z0-9-]{0,61}[A-Za-z0-9])?", label)] *)
Definition is_dns_char (c : ascii) : bool := is_alnum_ascii c || Ascii.eqb c "-".
Definition dns_label_re (label : string) : bool :=
  match chars label with
  | [] => false
  | c :: rest =>
      is_alnum_ascii c &&
      match rev rest with
      | [] => true
      | d :: mid => is_alnum_ascii d && forallb is_dns_char mid && (length mid <=? 61)%nat
      end
  end.

Definition require_dns_name (v : value) (path : string) : result string :=
  raw ← require_string v path;
  let name := rstrip_by (Ascii.eqb dot) (lower raw) in
  _ ← raise_if (bool_decide (name = "")) (provision_error ("expected non-empty string at " +:+ path));
  _ ← raise_if (253 <? slen name)%nat
        (provision_error ("invalid DNS name at " +:+ path +:+ ": name is longer than 253 characters"));
  _ ← raise_if (negb (forallb dns_label_re (split_on dot name)))
        (provision_error ("invalid DNS name at " +:+ path +:+ ": " +:+ value_repr v));
  Ok name.

Definition require_ip_address (v : value) (path : string) : result string :=
  raw ← require_string v path;
  of_option (parse_ip_address raw) (provision_error ("invalid IP address at " +:+ path +:+ ": " +:+ raw)).

Definition require_ipv4_address (v : value) (path : string) : result string :=
  raw ← require_string v path;
  of_option (str_ipv4 <$> parse_ipv4 raw)
    (provision_error ("invalid IPv4 address at " +:+ path +:+ ": " +:+ raw)).

Definition require_ip_address_list (v : value) (path : string) : result (list string) :=
  items ← require_string_list v path;
  imapR 0 (λ idx item, require_ip_address (VStr item) (at_index path idx)) items.

Definition require_dns_search_domains (v : value) (path : string) : result (list string) :=
  items ← require_string_list v path;
  imapR 0 (λ idx item, require_dns_name (VStr item) (at_index path idx)) items.

Definition ntp_server_item (path : string) (idx : nat) (server : string) : result string :=
  let item_path := at_index path idx in
  _ ← raise_if (any_char (λ c, isspace c || is_control c) server)
        (provision_error ("invalid NTP server at " +:+ item_path +:+ ": " +:+
                          "whitespace and control characters are not allowed"));
  if is_ip_address server then Ok server
  else _ ← require_dns_name (VStr server) item_path; Ok server.

Definition require_ntp_server_list (v : value) (path : string) : result (list string) :=
  servers ← require_string_list v path;
  _ ← imapR 0 (ntp_server_item path) servers;
  Ok servers.

(** [re.compile(r"wan|lan|eth[0-9]+").fullmatch(name)] *)
Definition SUPPORTED_INTERFACE_RE (name : string) : bool :=
  bool_decide (name = "wan") || bool_decide (name = "lan") ||
  (startswith name "eth" && (3 <? slen name)%nat && all_chars is_digit_ascii (str_drop 3 name)).

Definition validate_interface_name (name : string) : result string :=
  if SUPPORTED_INTERFACE_RE name then Ok name
  else Err (provision_error ("unsupported network interface name: " +:+ py_repr name)).

Definition require_ipv4_interface (v : value) (path : string) : result ipv4_interface :=
  raw ← require_string v path;
  of_option (parse_interface raw) (provision_error ("invalid IPv4 CIDR at " +:+ path +:+ ": " +:+ raw)).

(** A [ValueError] of [urlsplit] is not caught by the source. *)
Definition require_https_url (v : value) (path : string) : result string :=
  url ← require_string v path;
  _ ← raise_if (any_char (λ c, isspace c || is_control c) url)
        (provision_error ("invalid URL at " +:+ path +:+ ": whitespace/control characters are not allowed"));
  parsed ← urlsplit url;
  let hostname := url_hostname parsed in
  _ ← raise_if (negb (bool_decide (url_scheme parsed = "https")) || bool_decide (hostname = ""))
        (provision_error (path +:+ " must be an https:// URL"));
  _ ← raise_if (url_port_bad parsed) (provision_error ("invalid URL port at " +:+ path));
  _ ← raise_if (url_has_userinfo parsed) (provision_error (path +:+ " must not include credentials"));
  _ ← raise_if (negb (bool_decide (url_query parsed = "")) || negb (bool_decide (url_fragment parsed = "")))
        (provision_error (path +:+ " must not include a query string or fragment"));
  _ ← (if is_ip_address hostname then Ok "" else require_dns_name (VStr hostname) path);
  Ok (rstrip_by (Ascii.eqb "/") url).
