(* ===== verification/Config.v ===== *)
(** * [config.py]: LAN defaults, section loaders and [load_config]

    Each [load_*] function of
    src/scripts/atomixos_provision/src/atomixos_provision/config.py, from the
    decoded TOML table to the normalised settings.  The LAN defaults are a
    parameter [lan_defaults] of the loaders ([repo_lan_defaults] is
    src/defaults/lan.json); the schema validator of the [jsonschema] package is a
    parameter of [load_config]. *)

From Stdlib Require Import Ascii.
From S2P Require Import Prelude PyStr PyVal IPAddr PyLib ConfigCheck.

Local Open Scope Z_scope.

(** ** LAN defaults *)

(** A candidate file: absent, unreadable, not JSON, or the decoded value. *)
Inductive json_file : Type :=
  | NoFile
  | Unreadable (exc : string)
  | JsonFile (v : value).

Definition lan_default_keys : list string :=
  ["gateway_cidr"; "gateway_ip"; "subnet_cidr"; "netmask"; "dhcp_start"; "dhcp_end";
   "domain"; "gateway_aliases"; "hostname_pattern"; "ntp_servers"].

Definition same_keys (a b : list string) : bool :=
  forallb (λ x, bool_decide (x ∈ b)) a && forallb (λ x, bool_decide (x ∈ a)) b.

(** The candidates of a call: the given path, else the environment's, then the
    installed and the repository file. *)
Definition lan_defaults_candidates (path env_path : option string) (repository_root : string)
    : list string :=
  match path, env_path with
  | Some p, _ => [p]
  | None, Some e => if bool_decide (e = "") then [] else [e]
  | None, None => []
  end ++ [repository_root +:+ "/share/atomixos/lan-defaults.json";
          repository_root +:+ "/defaults/lan.json"].

Fixpoint first_lan_defaults (candidates : list (string * json_file)) : option (result (dict value)) :=
  match candidates with
  | [] => None
  | (_, NoFile) :: rest => first_lan_defaults rest
  | (path, Unreadable exc) :: _ =>
      Some (Err (provision_error ("invalid LAN defaults in " +:+ path +:+ ": " +:+ exc)))
  | (path, JsonFile (VDict d)) :: _ =>
      Some (if same_keys (dkeys d) lan_default_keys then Ok d
            else Err (provision_error ("invalid LAN defaults contract in " +:+ path)))
  | (path, JsonFile _) :: _ =>
      Some (Err (provision_error ("invalid LAN defaults contract in " +:+ path)))
  end.

Definition load_lan_defaults (candidates : list (string * json_file)) : result (dict value) :=
  match first_lan_defaults candidates with
  | Some r => r
  | None => Err (provision_error ("unable to find LAN defaults (checked: "
                                  +:+ comma_join candidates.*1 +:+ ")"))
  end.

Record lan_defaults : Type := LanDefaults {
  DEFAULT_LAN_GATEWAY_CIDR : string;
  DEFAULT_LAN_GATEWAY_IP : string;
  DEFAULT_LAN_DHCP_START : string;
  DEFAULT_LAN_DHCP_END : string;
  DEFAULT_LAN_DOMAIN : string;
  DEFAULT_LAN_GATEWAY_ALIASES : list value;
  DEFAULT_LAN_HOSTNAME_PATTERN : string;
  DEFAULT_NTP_SERVERS : list value;
}.

(** [list(v)]: the items of a list, the characters of a string, the keys of a dict. *)
Definition py_list (v : value) : result (list value) :=
  match v with
  | VList l => Ok l
  | VStr s => Ok (map (λ c, VStr (String c "")) (chars s))
  | VDict d => Ok (map VStr (dkeys d))
  | _ => Err (TypeError "object is not iterable")
  end.

(** The module-level constants computed from the loaded defaults. *)
Definition lan_constants (d : dict value) : result lan_defaults :=
  let s k := py_str (vget k d) in
  aliases ← py_list (vget "gateway_aliases" d);
  ntp ← py_list (vget "ntp_servers" d);
  mret (LanDefaults (s "gateway_cidr") (s "gateway_ip") (s "dhcp_start") (s "dhcp_end")
          (s "domain") aliases (s "hostname_pattern") ntp).

Definition repo_lan_defaults : lan_defaults :=
  LanDefaults "172.20.30.1/24" "172.20.30.1" "172.20.30.10" "172.20.30.254" "local"
    [VStr "atomixos"] "" [VStr "time.cloudflare.com"].

(** ** Normalised settings *)

Record lan_settings : Type := LanSettings {
  lan_gateway_cidr : string;
  lan_gateway_ip : string;
  lan_subnet_cidr : string;
  lan_netmask : string;
  lan_dhcp_start : string;
  lan_dhcp_end : string;
  lan_domain : string;
  lan_hostname_pattern : string;
  lan_gateway_aliases : list string;
}.

Record user_settings : Type := UserSettings {
  us_isAdmin : bool;
  us_ssh_key : string;
  us_shell : option value;
}.

Record interface_settings : Type := InterfaceSettings {
  is_mode : string;
  is_address : option string;
  is_gateway : option string;
  is_dns_servers : option (list string);
  is_dns_search_domains : option (list string);
}.

Record host_network : Type := HostNetwork {
  hn_dns_servers : list string;
  hn_dns_search_domains : list string;
  hn_interfaces : dict interface_settings;
  hn_default_gateway : option string;
}.

Record activation_policy : Type := ActivationPolicy {
  ap_required : list string;
  ap_timeout_seconds : Z;
  ap_settle_seconds : Z;
  ap_restart : list string;
  ap_allow_degraded : list string;
  ap_allow_degraded_configured : bool;
  ap_strategy : string;
}.

(** [x if "k" in d else None] for an optional key checked by [f]. *)
Definition optional_key {A} (k : string) (d : dict value) (f : value → result A) : result (option A) :=
  match dget k d with
  | Some v => a ← f v; Ok (Some a)
  | None => Ok None
  end.

(** [None] stands for an empty table. *)
Definition or_empty (v : value) : value := if is_none v then VDict [] else v.

(** ** Section loaders *)

Section loaders.
Context (defaults : lan_defaults).

Definition load_hostname_pattern (lan : dict value) (path : string) : result string :=
  let raw := vget "hostname_pattern" lan in
  hostname_pattern ←
    (if negb (is_none raw || eq_str raw "") then
       let v := vget_or "hostname_pattern" (VStr (DEFAULT_LAN_HOSTNAME_PATTERN defaults)) lan in
       require_string (if truthy v then v else VStr (DEFAULT_LAN_HOSTNAME_PATTERN defaults))
         (path +:+ ".hostname_pattern")
     else Ok (DEFAULT_LAN_HOSTNAME_PATTERN defaults));
  if bool_decide (hostname_pattern = "") then Ok hostname_pattern
  else
    _ ← raise_if (negb (contains "{mac}" hostname_pattern))
          (provision_error (path +:+ ".hostname_pattern must include {mac}"));
    _ ← require_dns_name (VStr (str_replace "{mac}" "001122334455" hostname_pattern))
          (path +:+ ".hostname_pattern");
    Ok hostname_pattern.

Definition load_lan_settings (lan_value : value) (path : string) : result lan_settings :=
  lan ← require_mapping (or_empty lan_value) path;
  gateway ← require_ipv4_interface
    (vget_or "gateway_cidr" (VStr (DEFAULT_LAN_GATEWAY_CIDR defaults)) lan) (path +:+ ".gateway_cidr");
  _ ← raise_if (negb ((16 <=? if_prefixlen gateway) && (if_prefixlen gateway <=? 30)))
        (provision_error (path +:+ ".gateway_cidr prefix must be between /16 and /30"));
  dhcp_start_raw ← require_string
    (vget_or "dhcp_start" (VStr (DEFAULT_LAN_DHCP_START defaults)) lan) (path +:+ ".dhcp_start");
  dhcp_end_raw ← require_string
    (vget_or "dhcp_end" (VStr (DEFAULT_LAN_DHCP_END defaults)) lan) (path +:+ ".dhcp_end");
  let bad_address := provision_error ("invalid IPv4 address in " +:+ path +:+ ".dhcp_start or "
                                      +:+ path +:+ ".dhcp_end") in
  dhcp_start ← of_option (parse_ipv4 dhcp_start_raw) bad_address;
  dhcp_end ← of_option (parse_ipv4 dhcp_end_raw) bad_address;
  _ ← raise_if (negb (in_network dhcp_start gateway) || negb (in_network dhcp_end gateway))
        (provision_error (path +:+ ".dhcp_start and " +:+ path +:+ ".dhcp_end must be inside "
                          +:+ str_network gateway));
  _ ← raise_if (dhcp_end <? dhcp_start)
        (provision_error (path +:+ ".dhcp_start must be less than or equal to " +:+ path +:+ ".dhcp_end"));
  _ ← raise_if ((dhcp_start <=? if_ip gateway) && (if_ip gateway <=? dhcp_end))
        (provision_error (path +:+ ".dhcp_start and " +:+ path +:+ ".dhcp_end must not include the gateway IP"));
  domain ← require_dns_name (vget_or "domain" (VStr (DEFAULT_LAN_DOMAIN defaults)) lan) (path +:+ ".domain");
  hostname_pattern ← load_hostname_pattern lan path;
  aliases0 ← require_optional_string_list (vget "gateway_aliases" lan) (path +:+ ".gateway_aliases");
  let aliases1 := match aliases0 with
                  | [] => DEFAULT_LAN_GATEWAY_ALIASES defaults
                  | _ => map VStr aliases0
                  end in
  gateway_aliases ← mapR (λ alias, require_dns_name alias (path +:+ ".gateway_aliases")) aliases1;
  mret (LanSettings (str_interface gateway) (str_ipv4 (if_ip gateway)) (str_network gateway)
          (str_ipv4 (if_netmask gateway)) (str_ipv4 dhcp_start) (str_ipv4 dhcp_end)
          domain hostname_pattern (dedup gateway_aliases)).

(** *** [users] *)

(** [shell_raw is not None and shell_raw not in {...}]: hashing a list or dict
    raises [TypeError]. *)
Definition load_shell (username : string) (user : dict value) : result (option value) :=
  match vget "shell" user with
  | VNone => Ok None
  | VList _ => Err (TypeError "unhashable type: 'list'")
  | VDict _ => Err (TypeError "unhashable type: 'dict'")
  | v => if eq_str v "bash" || eq_str v "sh" || eq_str v "zsh" then Ok (Some v)
         else Err (provision_error ("users." +:+ username +:+ ".shell must be one of: bash, sh, zsh"))
  end.

Definition load_user (username : string) (raw_user : value) : result user_settings :=
  let path := "users." +:+ username in
  _ ← validate_username username;
  user ← require_mapping raw_user path;
  is_admin ← require_bool (vget_or "isAdmin" (VBool false) user) (path +:+ ".isAdmin");
  ssh_key ← match vget_or "ssh_key" (VStr "") user with
            | VStr s => if bool_decide (strip s = "") then Ok ""
                        else require_ssh_public_key (VStr s) (path +:+ ".ssh_key")
            | _ => Err (provision_error ("expected string at " +:+ path +:+ ".ssh_key"))
            end;
  shell ← load_shell username user;
  mret (UserSettings is_admin ssh_key shell).

Definition load_users_step (acc : dict user_settings * list string) (item : string * value)
    : result (dict user_settings * list string) :=
  let '(normalized, admin_keys) := acc in
  let '(username, raw_user) := item in
  user ← load_user username raw_user;
  let admin_keys' :=
    if us_isAdmin user && negb (bool_decide (us_ssh_key user = ""))
    then admin_keys ++ [us_ssh_key user] else admin_keys in
  mret (dset username user normalized, admin_keys').

Definition load_users (users_value : value) : result (dict user_settings * list string) :=
  users ← require_mapping users_value "users";
  '(normalized, admin_keys) ← forR load_users_step users ([], []);
  _ ← raise_if (bool_decide (admin_keys = []))
        (provision_error "users must define at least one admin user with a non-empty ssh_key");
  mret (normalized, admin_keys).

(** *** [network.interfaces] *)

Definition load_interface (name : string) (raw_interface : value) : result interface_settings :=
  let path := "network.interfaces." +:+ name in
  _ ← validate_interface_name name;
  interface ← require_mapping raw_interface path;
  mode_value ← of_option (dget "mode" interface) (KeyError "mode");
  mode ← require_string mode_value (path +:+ ".mode");
  _ ← raise_if (negb (bool_decide (mode = "dhcp") || bool_decide (mode = "static")))
        (provision_error (path +:+ ".mode must be one of: dhcp, static"));
  _ ← raise_if (bool_decide (name = LAN_INTERFACE_KEY) && negb (bool_decide (mode = "static")))
        (provision_error "network.interfaces.lan.mode must be static because lan is the LAN gateway");
  address ←
    (if bool_decide (mode = "static") then
       match dget "address" interface with
       | Some v => a ← require_ipv4_interface v (path +:+ ".address"); Ok (Some (str_interface a))
       | None => Err (provision_error ("missing required keys at " +:+ path +:+ ": address"))
       end
     else
       _ ← raise_if (dmem "address" interface)
             (provision_error (path +:+ ".address is only supported when mode is static"));
       Ok None);
  gateway ← optional_key "gateway" interface (λ v, require_ipv4_address v (path +:+ ".gateway"));
  dns_servers ← optional_key "dns_servers" interface (λ v, require_ip_address_list v (path +:+ ".dns_servers"));
  dns_search_domains ← optional_key "dns_search_domains" interface
    (λ v, require_dns_search_domains v (path +:+ ".dns_search_domains"));
  mret (InterfaceSettings mode address gateway dns_servers dns_search_domains).

Definition load_network_interfaces (interfaces_value : value) : result (dict interface_settings) :=
  match interfaces_value with
  | VNone => Ok []
  | _ =>
      interfaces ← require_mapping interfaces_value "network.interfaces";
      forR (λ normalized '(name, raw), i ← load_interface name raw; Ok (dset name i normalized))
        interfaces []
  end.

(** *** [network] *)

(** [{k: v for k, v in d.items() if k not in ("enable", "interface")}] *)
Definition lan_input_of (dnsmasq : dict value) : dict value :=
  filter (λ kv, kv.1 ≠ "enable" ∧ kv.1 ≠ "interface") dnsmasq.

Definition check_dnsmasq_enable (dnsmasq : dict value) : result () :=
  match dget "enable" dnsmasq with
  | Some v =>
      b ← require_bool v "network.dnsmasq.enable";
      raise_if (negb b) (provision_error
        "network.dnsmasq.enable must remain true; disabling LAN DHCP/DNS is not supported")
  | None => Ok tt
  end.

Definition check_dnsmasq_interface (dnsmasq : dict value) : result () :=
  match dget "interface" dnsmasq with
  | Some v =>
      interface ← require_string v "network.dnsmasq.interface";
      raise_if (negb (bool_decide (interface = LAN_INTERFACE_KEY)))
        (provision_error "network.dnsmasq.interface must be lan")
  | None => Ok tt
  end.

(** The static address of [network.interfaces.lan] becomes the gateway. *)
Definition merge_lan_address (lan : option interface_settings) (lan_input : dict value)
    : result (dict value) :=
  match lan with
  | Some i =>
      if bool_decide (is_mode i = "static") then
        address ← of_option (is_address i) (KeyError "address");
        lan_gateway ← require_ipv4_interface (VStr address) "network.interfaces.lan.address";
        dnsmasq_gateway ← optional_key "gateway_cidr" lan_input
          (λ v, require_ipv4_interface v "network.dnsmasq.gateway_cidr");
        _ ← raise_if (match dnsmasq_gateway with
                      | Some g => negb (bool_decide (g = lan_gateway))
                      | None => false
                      end)
              (provision_error ("network.interfaces.lan.address must match " +:+
                                "network.dnsmasq.gateway_cidr when both are set"));
        Ok (dset "gateway_cidr" (VStr (str_interface lan_gateway)) lan_input)
      else Ok lan_input
  | None => Ok lan_input
  end.

Definition load_network_settings (network_value : value) : result (lan_settings * list string) :=
  network ← require_mapping (or_empty network_value) "network";
  dnsmasq_settings ← require_mapping (vget_or "dnsmasq" (VDict []) network) "network.dnsmasq";
  _ ← check_dnsmasq_enable dnsmasq_settings;
  _ ← check_dnsmasq_interface dnsmasq_settings;
  interfaces ← load_network_interfaces (vget "interfaces" network);
  lan_input ← merge_lan_address (dget LAN_INTERFACE_KEY interfaces) (lan_input_of dnsmasq_settings);
  settings ← load_lan_settings (VDict lan_input) "network.dnsmasq";
  ntp ← require_mapping (vget_or "ntp" (VDict []) network) "network.ntp";
  ntp_servers ← require_ntp_server_list (vget_or "servers" (VList (DEFAULT_NTP_SERVERS defaults)) ntp)
                  "network.ntp.servers";
  mret (settings, ntp_servers).

Definition load_host_network_settings (network_value : value) : result host_network :=
  network ← require_mapping (or_empty network_value) "network";
  dns_servers ← optional_key "dns_servers" network (λ v, require_ip_address_list v "network.dns_servers");
  dns_search_domains ← optional_key "dns_search_domains" network
    (λ v, require_dns_search_domains v "network.dns_search_domains");
  interfaces ← load_network_interfaces (vget "interfaces" network);
  default_gateway ← optional_key "default_gateway" network
    (λ v, require_ipv4_address v "network.default_gateway");
  mret (HostNetwork (default [] dns_servers) (default [] dns_search_domains) interfaces default_gateway).

(** *** [network.firewall.inbound] *)

Definition scope_ports (scope : dict value) (proto scope_path : string) (normalized : dict (list Z))
    : result (dict (list Z)) :=
  match dget proto scope with
  | Some v =>
      ports ← require_port_list v (scope_path +:+ "." +:+ proto);
      Ok (match ports with [] => normalized | _ => dset proto ports normalized end)
  | None => Ok normalized
  end.

Definition normalize_firewall_scope (scope_value : value) (scope_path : string)
    : result (dict (list Z)) :=
  match scope_value with
  | VNone => Ok []
  | _ =>
      scope ← require_mapping scope_value scope_path;
      tcp ← scope_ports scope "tcp" scope_path [];
      scope_ports scope "udp" scope_path tcp
  end.

Definition load_firewall_inbound (network_value : value) : result (dict (dict (list Z))) :=
  network ← require_mapping (or_empty network_value) "network";
  firewall ← require_mapping (vget_or "firewall" (VDict []) network) "network.firewall";
  inbound ← require_mapping (vget_or "inbound" (VDict []) firewall) "network.firewall.inbound";
  wan_scope ← normalize_firewall_scope (vget "wan" inbound) "network.firewall.inbound.wan";
  _ ← raise_if (bool_decide (8080 ∈ default [] (dget "tcp" wan_scope)))
        (provision_error
          "network.firewall.inbound.wan.tcp must not include reserved bootstrap port 8080");
  let with_wan := match wan_scope with [] => [] | _ => [("wan", wan_scope)] end in
  lan_scope ← normalize_firewall_scope (vget "lan" inbound) "network.firewall.inbound.lan";
  mret (match lan_scope with [] => with_wan | _ => dset "lan" lan_scope with_wan end).

(** *** [activation] *)

Definition check_known_units (known_units : list string) (field : string) (units : list string)
    : result () :=
  forR (λ _ unit, raise_if (negb (bool_decide (unit ∈ known_units)))
                    (provision_error (field +:+ " references unknown unit: " +:+ unit)))
    units tt.

Definition load_activation_policy (activation_value : value) (known_units : list string)
    : result activation_policy :=
  activation ← require_mapping activation_value "activation";
  required_units ← require_string_list (vget "required" activation) "activation.required";
  restart ← require_optional_string_list (vget "restart" activation) "activation.restart";
  allow_degraded ← require_optional_string_list (vget "allow_degraded" activation) "activation.allow_degraded";
  _ ← check_known_units known_units "activation.required" required_units;
  _ ← check_known_units known_units "activation.restart" restart;
  _ ← check_known_units known_units "activation.allow_degraded" allow_degraded;
  let overlap := sorted_strs (filter (λ x, x ∈ allow_degraded) (dedup required_units)) in
  _ ← raise_if (negb (bool_decide (overlap = [])))
        (provision_error ("activation.allow_degraded must not include required units: "
                          +:+ comma_join overlap));
  let strategy := vget_or "strategy" (VStr "rollback") activation in
  _ ← raise_if (negb (eq_str strategy "rollback")) (provision_error "activation.strategy must be rollback");
  timeout_seconds ← require_int_range (vget_or "timeout_seconds" (VInt 300) activation)
                      "activation.timeout_seconds" 1 3600;
  settle_seconds ← require_int_range (vget_or "settle_seconds" (VInt 0) activation)
                     "activation.settle_seconds" 0 300;
  mret (ActivationPolicy required_units timeout_seconds settle_seconds restart allow_degraded
          (dmem "allow_degraded" activation) "rollback").

(** ** The main loader *)

(** What reading and decoding config.toml gives. *)
Inductive toml_text : Type :=
  | NotUtf8 (exc : string)
  | NotToml (exc : string)
  | Toml (root : dict value).

(** [jsonschema]: the [SchemaError] message of [check_schema], and the
    [best_match] of the errors of a value against a schema. *)
Context (check_schema : value → option string).
Context (best_match_error : value → value → value → option schema_error).

Definition validate_against_schema (v schema : value) (path : string) (root_schema : value) : result () :=
  match check_schema root_schema with
  | Some message => Err (ProvisionSystemError ("invalid config schema: " +:+ message))
  | None =>
      match best_match_error root_schema schema v with
      | Some error => Err (provision_error (_schema_error_message error path))
      | None => Ok tt
      end
  end.

Record container_tables : Type := ContainerTables {
  ct_container : dict value;
  ct_network : value;
  ct_volume : value;
  ct_build : value;
}.

Record config : Type := Config {
  cfg_ssh_keys : list string;
  cfg_users : dict user_settings;
  cfg_firewall_inbound : dict (dict (list Z));
  cfg_lan_settings : lan_settings;
  cfg_ntp_servers : list string;
  cfg_host_network : host_network;
  cfg_os_upgrade : option string;
  cfg_required_units : list string;
  cfg_activation_policy : activation_policy;
  cfg_containers : container_tables;
}.

Definition load_os_upgrade (os_upgrade_value : value) : result (option string) :=
  match os_upgrade_value with
  | VNone => Ok None
  | _ =>
      os_upgrade ← require_mapping os_upgrade_value "os_upgrade";
      url ← require_https_url (vget "server_url" os_upgrade) "os_upgrade.server_url";
      Ok (Some url)
  end.

Definition load_config (config_path : string) (text : toml_text) (schema : value) : result config :=
  root ← match text with
         | NotUtf8 exc => Err (provision_error ("config is not valid UTF-8 in " +:+ config_path +:+ ": " +:+ exc))
         | NotToml exc => Err (provision_error ("invalid TOML in " +:+ config_path +:+ ": " +:+ exc))
         | Toml root => Ok root
         end;
  _ ← validate_against_schema (VDict root) schema "config" schema;
  '(users, ssh_keys) ← load_users (vget "users" root);
  firewall_inbound ← load_firewall_inbound (vget "network" root);
  '(settings, ntp_servers) ← load_network_settings (vget "network" root);
  host ← load_host_network_settings (vget "network" root);
  os_upgrade ← load_os_upgrade (vget "os_upgrade" root);
  containers ← require_mapping (vget "containers" root) "containers";
  container_table ← require_mapping (vget "container" containers) "containers.container";
  policy ← load_activation_policy (vget "activation" root) (dkeys container_table);
  mret (Config ssh_keys users firewall_inbound settings ntp_servers host os_upgrade
          (ap_required policy) policy
          (ContainerTables container_table (vget "network" containers) (vget "volume" containers)
             (vget "build" containers))).
End loaders.
