(* ===== verification/ConfigFacts.v ===== *)
(** * Properties of the configuration loader *)

From Stdlib Require Import Ascii.
From S2P Require Import Prelude PyStr PyVal IPAddr PyLib ConfigCheck Config.

Local Open Scope Z_scope.

(** ** Characters and DNS names *)

Ltac char_cases c := destruct c as [[] [] [] [] [] [] [] []]; vm_compute; try done.

Lemma lower_char_idemp c : lower_char (lower_char c) = lower_char c.
Proof. char_cases c. Qed.
Lemma dns_char_not_space c : is_dns_char c = true → isspace c = false.
Proof. char_cases c. Qed.
Lemma alnum_dns_char c : is_alnum_ascii c = true → is_dns_char c = true.
Proof. char_cases c. Qed.

Lemma strip_no_space s : Forall (λ c, isspace c = false) (chars s) → strip s = s.
Proof.
  intros H. unfold strip, rstrip_by, lstrip_by.
  rewrite (drop_while_id _ (chars s)).
  2: { intros c l Hl. rewrite Hl in H. by inversion H. }
  rewrite chars_unchars, drop_while_id.
  2: { intros c l Hl. rewrite Forall_forall in H. apply H.
       apply list_elem_of_In, in_rev. rewrite Hl. by left. }
  by rewrite rev_involutive, unchars_chars.
Qed.

Lemma require_string_Ok v path s :
  require_string v path = Ok s → ∃ raw, v = VStr raw ∧ s = strip raw ∧ s ≠ "".
Proof.
  unfold require_string. destruct v; try done. intros H. inv_ok. bool_prop. eauto.
Qed.

Lemma require_string_stripped s path :
  strip s = s → s ≠ "" → require_string (VStr s) path = Ok s.
Proof. intros Hs Hne. unfold require_string. by rewrite Hs, bool_decide_eq_false_2. Qed.

Lemma require_string_idemp v path s path' :
  require_string v path = Ok s → require_string (VStr s) path' = Ok s.
Proof.
  intros (raw & -> & -> & Hne)%require_string_Ok. by apply require_string_stripped; [apply strip_idemp|].
Qed.

Lemma dns_label_chars l :
  dns_label_re l = true → Forall (λ c, is_dns_char c = true) (chars l) ∧ (1 ≤ slen l ≤ 63)%nat.
Proof.
  unfold dns_label_re. rewrite slen_chars. destruct (chars l) as [|c rest]; [done|].
  intros [Hc H]%andb_true_iff.
  destruct (rev rest) as [|d mid] eqn:E.
  - apply (f_equal (@rev _)) in E. rewrite rev_involutive in E. subst. simpl.
    split; [|lia]. repeat constructor. by apply alnum_dns_char.
  - apply (f_equal (@rev _)) in E. rewrite rev_involutive in E. subst. bool_prop.
    simpl. rewrite length_app, length_rev. simpl. split; [|lia].
    constructor; [by apply alnum_dns_char|]. apply Forall_app.
    split; [|by repeat constructor; apply alnum_dns_char].
    rewrite forallb_forall in *. apply Forall_forall. intros x Hx%list_elem_of_In%in_rev. auto.
Qed.

Lemma split_chars_In sep l c :
  c ∈ l → c = sep ∨ ∃ w, w ∈ split_chars sep l ∧ c ∈ w.
Proof.
  induction l as [|d l IH]; simpl; [by intros ?%not_elem_of_nil|].
  rewrite elem_of_cons. destruct (Ascii.eqb_spec d sep) as [->|Hne].
  - intros [->|Hc]; [by left|]. destruct (IH Hc) as [?|(w & ? & ?)]; [by left|].
    right. exists w. split; [by apply elem_of_cons; right | done].
  - destruct (split_chars sep l) as [|w ws] eqn:E; [by apply split_chars_nonempty in E|].
    intros [->|Hc].
    + right. exists (d :: w). split; constructor.
    + destruct (IH Hc) as [?|(w' & Hw & ?)]; [by left|]. right.
      apply elem_of_cons in Hw as [->|Hw].
      * exists (d :: w). split; [constructor | by apply elem_of_cons; right].
      * exists w'. split; [by apply elem_of_cons; right | done].
Qed.

(** The characters of a dotted name are those of its labels, and dots. *)
Lemma labels_chars (P : ascii → Prop) sep s :
  P sep → Forall (λ l, Forall P (chars l)) (split_on sep s) → Forall P (chars s).
Proof.
  intros Hsep H. apply Forall_forall. intros c Hc.
  destruct (split_chars_In sep _ _ Hc) as [->|(w & Hw & Hcw)]; [done|].
  unfold split_on in H. rewrite Forall_forall in H.
  specialize (H (unchars w)). rewrite chars_unchars, Forall_forall in H. apply H; [|done].
  apply list_elem_of_In, in_map_iff. exists w. split; [done | by apply list_elem_of_In].
Qed.

Definition dns_name_ok (name : string) : Prop :=
  (slen name ≤ 253)%nat ∧ Forall (λ l, dns_label_re l = true) (split_on dot name).

Lemma forallb_Forall {A} (p : A → bool) l : forallb p l = true ↔ Forall (λ x, p x = true) l.
Proof. rewrite forallb_forall, Forall_forall. setoid_rewrite list_elem_of_In. done. Qed.

Lemma rstrip_by_idemp p s : rstrip_by p (rstrip_by p s) = rstrip_by p s.
Proof.
  unfold rstrip_by. rewrite chars_unchars, rev_involutive. do 2 f_equal.
  apply drop_while_id. intros c l. apply drop_while_head.
Qed.

Lemma rstrip_by_chars (P : ascii → Prop) p s :
  Forall P (chars s) → Forall P (chars (rstrip_by p s)).
Proof.
  intros H. unfold rstrip_by. rewrite chars_unchars. apply Forall_forall. intros c Hc.
  apply list_elem_of_In, in_rev in Hc. rewrite Forall_forall in H. apply H.
  apply list_elem_of_In, in_rev.
  destruct (drop_while_suffix p (rev (chars s))) as [k ->]. apply in_or_app. by right.
Qed.

Lemma lower_chars s : Forall (λ c, lower_char c = c) (chars (lower s)).
Proof.
  unfold lower, str_map. rewrite chars_unchars. apply Forall_forall. intros c Hc.
  apply list_elem_of_In, in_map_iff in Hc as (d & <- & _). apply lower_char_idemp.
Qed.

Lemma lower_id s : Forall (λ c, lower_char c = c) (chars s) → lower s = s.
Proof.
  intros H. unfold lower, str_map. rewrite <-(unchars_chars s) at 2. f_equal.
  induction H as [|c l Hc _ IH]; simpl; congruence.
Qed.

Lemma require_dns_name_Ok v path name :
  require_dns_name v path = Ok name →
  ∃ raw, v = VStr raw ∧ name = rstrip_by (Ascii.eqb dot) (lower (strip raw)) ∧
         name ≠ "" ∧ dns_name_ok name.
Proof.
  unfold require_dns_name. intros H. inv_ok.
  apply require_string_Ok in Ha as (raw & -> & -> & _). exists raw.
  bool_prop. rewrite forallb_Forall in *. repeat split; done.
Qed.

Lemma dns_name_chars name :
  dns_name_ok name → Forall (λ c, is_dns_char c = true ∨ c = dot) (chars name).
Proof.
  intros [_ H]. apply (labels_chars _ dot); [by right|].
  eapply Forall_impl; [exact H|]. intros l [Hl _]%dns_label_chars.
  eapply Forall_impl; [exact Hl|]. by left.
Qed.

(** A normalised name is accepted unchanged: the loader's output can be loaded
    again. *)
Lemma require_dns_name_canonical v path path' name :
  require_dns_name v path = Ok name → require_dns_name (VStr name) path' = Ok name.
Proof.
  intros (raw & -> & Hname & Hne & Hok)%require_dns_name_Ok.
  assert (lower name = name) as Hlow.
  { apply lower_id. rewrite Hname. apply rstrip_by_chars, lower_chars. }
  assert (rstrip_by (Ascii.eqb dot) name = name) as Hdot by (rewrite Hname; apply rstrip_by_idemp).
  assert (strip name = name) as Hstrip.
  { apply strip_no_space. eapply Forall_impl; [exact (dns_name_chars _ Hok)|].
    intros c [Hc| ->]; [by apply dns_char_not_space | done]. }
  unfold require_dns_name. rewrite require_string_stripped by done. simpl.
  rewrite Hlow, Hdot, bool_decide_eq_false_2 by done. destruct Hok as [Hlen Hlabels]. simpl.
  replace (253 <? slen name)%nat with false by (symmetry; apply Nat.ltb_ge; lia). simpl.
  apply forallb_Forall in Hlabels. by rewrite Hlabels.
Qed.

(** ** LAN settings *)

Lemma require_ipv4_interface_Ok v path i :
  require_ipv4_interface v path = Ok i →
  ∃ raw, v = VStr raw ∧ parse_interface (strip raw) = Some i ∧ interface_ok i.
Proof.
  unfold require_ipv4_interface. intros H. inv_ok.
  apply require_string_Ok in Ha as (raw & -> & -> & _). exists raw.
  eauto using parse_interface_ok.
Qed.

(** What a LAN configuration promises to DHCP and DNS. *)
Record lan_contract (s : lan_settings) (gw : ipv4_interface) (first last : Z) : Prop := {
  lc_gateway : interface_ok gw ∧ 16 ≤ if_prefixlen gw ≤ 30;
  lc_texts : lan_gateway_cidr s = str_interface gw ∧ lan_gateway_ip s = str_ipv4 (if_ip gw) ∧
             lan_subnet_cidr s = str_network gw ∧ lan_netmask s = str_ipv4 (if_netmask gw) ∧
             lan_dhcp_start s = str_ipv4 first ∧ lan_dhcp_end s = str_ipv4 last;
  lc_range : 0 ≤ first ≤ last ∧ last < 2 ^ 32;
  lc_leases : ∀ x, first ≤ x ≤ last → in_network x gw = true ∧ x ≠ if_ip gw;
  lc_domain : dns_name_ok (lan_domain s);
  lc_pattern : lan_hostname_pattern s = "" ∨ contains "{mac}" (lan_hostname_pattern s) = true;
  lc_aliases : NoDup (lan_gateway_aliases s) ∧ Forall dns_name_ok (lan_gateway_aliases s);
}.

Lemma load_hostname_pattern_Ok defaults lan path p :
  load_hostname_pattern defaults lan path = Ok p → p = "" ∨ contains "{mac}" p = true.
Proof.
  unfold load_hostname_pattern. intros H. apply bind_Ok in H as (q & _ & H).
  case_bool_decide; [left; congruence|]. inv_ok. bool_prop. by right.
Qed.

Lemma dns_names_ok vs path ys :
  mapR (λ v, require_dns_name v path) vs = Ok ys → Forall dns_name_ok ys.
Proof.
  intros H%mapR_Ok. induction H as [|v y vs ys Hv _ IH]; constructor; [|done].
  by apply require_dns_name_Ok in Hv as (? & _ & _ & _ & ?).
Qed.

Lemma load_lan_settings_contract defaults v path s :
  load_lan_settings defaults v path = Ok s → ∃ gw first last, lan_contract s gw first last.
Proof.
  unfold load_lan_settings. intros H. inv_ok.
  apply require_ipv4_interface_Ok in Ha0 as (raw & _ & _ & Hgw).
  apply str_parse_ipv4 in Ha4 as [_ Hfirst], Ha5 as [_ Hlast].
  apply require_dns_name_Ok in Ha9 as (rawd & _ & _ & _ & Hdom).
  apply load_hostname_pattern_Ok in Ha10. apply dns_names_ok in Ha12.
  bool_prop. eexists _, _, _. split; simpl; try done; try lia.
  - intros ip Hip. split; [by eapply (in_network_convex _ _ ip); eauto; lia|].
    intros ->. apply andb_false_iff in Ha8 as [?%Z.leb_gt|?%Z.leb_gt]; lia.
  - split; [apply NoDup_dedup|]. apply Forall_forall. intros n Hn. rewrite elem_of_dedup in Hn.
    rewrite Forall_forall in Ha12. auto.
Qed.

(** ** Firewall *)

Definition port_ok (n : Z) : Prop := 1 ≤ n ≤ 65535.

Lemma require_port_list_Ok v path ports :
  require_port_list v path = Ok ports → Forall port_ok ports.
Proof.
  unfold require_port_list. destruct v; try done. intros H%imapR_Ok.
  induction H as [|x n l ports [j Hn] _ IH]; constructor; [|done].
  unfold port_item in Hn. destruct (as_int x) as [m|]; [|done].
  destruct ((m <? 1) || (65535 <? m)) eqn:E; [done|]. injection Hn as ->. bool_prop. unfold port_ok. lia.
Qed.

Definition ports_ok (scope : dict (list Z)) : Prop :=
  ∀ proto ports, dget proto scope = Some ports →
    (proto = "tcp" ∨ proto = "udp") ∧ ports ≠ [] ∧ Forall port_ok ports.

Lemma scope_ports_ok scope proto path n n' :
  (proto = "tcp" ∨ proto = "udp") → ports_ok n →
  scope_ports scope proto path n = Ok n' → ports_ok n'.
Proof.
  unfold scope_ports. intros Hp Hn H. destruct (dget proto scope) as [v|]; [|by inv_ok].
  inv_ok. apply require_port_list_Ok in Ha. destruct a as [|q qs]; [done|].
  intros p ports. rewrite dget_dset. case_decide; [|by apply Hn].
  intros [= <-]. subst. done.
Qed.

Lemma normalize_firewall_scope_ok v path scope :
  normalize_firewall_scope v path = Ok scope → ports_ok scope.
Proof.
  assert (ports_ok []) as H0 by done.
  unfold normalize_firewall_scope. destruct v; intros H; try (by inv_ok).
  inv_ok. eapply scope_ports_ok, H; [by right|]. eapply scope_ports_ok, Ha; [by left | done].
Qed.

Lemma load_firewall_inbound_contract v fw :
  load_firewall_inbound v = Ok fw →
  (∀ name scope, dget name fw = Some scope →
     (name = "wan" ∨ name = "lan") ∧ scope ≠ [] ∧ ports_ok scope) ∧
  (∀ wan tcp, dget "wan" fw = Some wan → dget "tcp" wan = Some tcp → 8080 ∉ tcp).
Proof.
  unfold load_firewall_inbound. intros H.
  apply bind_Ok in H as (? & _ & H). apply bind_Ok in H as (? & _ & H).
  apply bind_Ok in H as (? & _ & H). apply bind_Ok in H as (wan & Hwan & H).
  apply bind_Ok in H as (? & Hres & H). apply raise_if_Ok, bool_decide_eq_false in Hres.
  apply bind_Ok in H as (lan & Hlan & H). injection H as <-.
  apply normalize_firewall_scope_ok in Hwan, Hlan.
  destruct wan as [|w wan'] eqn:Ew, lan as [|l lan'] eqn:El; cbv beta iota;
    (split; [intros name scope | intros wn tcp]); simpl; repeat case_decide; simpl;
    repeat case_decide; try done; intros; simplify_eq;
    first [by eauto | by rewrite H0 in Hres | by rewrite H in Hres | idtac].
Qed.

(** ** SSH keys and users *)

(** An OpenSSH key line: an allowed type, and a blob that starts with that type,
    length-prefixed. *)
Definition ssh_key_ok (key : string) : Prop :=
  any_char is_control key = false ∧
  ∃ key_type data rest blob,
    split_ws key = key_type :: data :: rest ∧ key_type ∈ SSH_KEY_TYPES ∧
    b64decode data = Some blob ∧
    take (Z.to_nat (from_bytes_big (take 4 blob))) (drop 4 blob) = chars key_type.

Lemma require_ssh_public_key_ok v path key :
  require_ssh_public_key v path = Ok key → ssh_key_ok key ∧ key ≠ "".
Proof.
  unfold require_ssh_public_key. intros H.
  apply bind_Ok in H as (k & Hk & H). apply require_string_Ok in Hk as (raw & _ & _ & Hne).
  apply bind_Ok in H as (u & Hctl & H). apply raise_if_Ok in Hctl.
  destruct (split_ws k) as [|key_type [|data rest]] eqn:Hw; try done.
  inv_ok. bool_prop. split; [|done]. split; [done|]. exists key_type, data, rest.
  destruct (all_chars _ data); [|done]. eexists. split_and!; [done..|].
  match goal with H : unchars _ = key_type |- _ => by rewrite <-H, chars_unchars end.
Qed.

Definition username_ok (name : string) : Prop :=
  username_re name = true ∧ name ∉ RESERVED_USERNAMES.

Lemma validate_username_Ok name n : validate_username name = Ok n ↔ n = name ∧ username_ok name.
Proof.
  unfold validate_username, username_ok. destruct (username_re name); simpl; [|naive_solver].
  case_bool_decide; naive_solver.
Qed.

Definition user_ok (name : string) (u : user_settings) : Prop :=
  username_ok name ∧ (us_ssh_key u ≠ "" → ssh_key_ok (us_ssh_key u)).

Lemma load_user_ok name raw u : load_user name raw = Ok u → user_ok name u.
Proof.
  unfold load_user. intros H.
  apply bind_Ok in H as (n & Hn & H). apply validate_username_Ok in Hn as [_ Hn].
  apply bind_Ok in H as (user & _ & H). apply bind_Ok in H as (adm & _ & H).
  apply bind_Ok in H as (key & Hkey & H). apply bind_Ok in H as (sh & _ & H).
  injection H as <-. split; simpl; [done|]. intros Hne.
  destruct (vget_or "ssh_key" (VStr "") user); try done.
  case_bool_decide; [congruence|]. by apply require_ssh_public_key_ok in Hkey as [? _].
Qed.

(** The state of the users loop: valid users, and admin keys that belong to
    admins of the table. *)
Definition users_inv (acc : dict user_settings * list string) : Prop :=
  (∀ name u, dget name acc.1 = Some u → user_ok name u) ∧
  (∀ key, key ∈ acc.2 → ∃ name u,
     dget name acc.1 = Some u ∧ us_isAdmin u = true ∧ us_ssh_key u = key ∧ key ≠ "").

Lemma load_users_step_inv acc name raw acc' :
  dget name acc.1 = None → users_inv acc → load_users_step acc (name, raw) = Ok acc' →
  users_inv acc' ∧ dkeys acc'.1 = dkeys acc.1 ++ [name].
Proof.
  destruct acc as [users keys]. unfold load_users_step, users_inv. simpl.
  intros Hnew [Hok Hkeys] H.
  apply bind_Ok in H as (u & Hu & H). injection H as <-. apply load_user_ok in Hu. simpl. split.
  2: { rewrite dkeys_dset. unfold dmem. by rewrite Hnew. }
  split; simpl.
  - intros n w. rewrite dget_dset. case_decide; [|apply Hok]. intros [= ->]. by subst.
  - assert (∀ key, key ∈ keys → ∃ n w, dget n (dset name u users) = Some w ∧
       us_isAdmin w = true ∧ us_ssh_key w = key ∧ key ≠ "") as Hold.
    { intros key (n & w & Hn & ?)%Hkeys. exists n, w. rewrite dget_dset_ne by congruence. done. }
    intros key. destruct (us_isAdmin u && _) eqn:E; [|apply Hold].
    rewrite elem_of_app, list_elem_of_singleton. intros [Hin| ->]; [by apply Hold|].
    bool_prop. exists name, u. by rewrite dget_dset_eq.
Qed.

Lemma load_users_loop items acc acc' :
  NoDup items.*1 → (∀ name, name ∈ items.*1 → dget name acc.1 = None) → users_inv acc →
  forR load_users_step items acc = Ok acc' →
  users_inv acc' ∧ dkeys acc'.1 = dkeys acc.1 ++ items.*1.
Proof.
  revert acc. induction items as [|[name raw] items IH]; intros acc; csimpl.
  - intros _ _ Hinv [= <-]. by rewrite app_nil_r.
  - intros [Hname Hnd]%NoDup_cons Hnew Hinv H. apply bind_Ok in H as (acc1 & H1 & H).
    apply load_users_step_inv in H1 as [Hinv1 Hk1]; [|apply Hnew; constructor | done].
    destruct (IH acc1) as [Hinv' Hk']; [done| |done|done|].
    + intros n Hn. apply dget_None. rewrite Hk1. apply not_elem_of_app. split.
      * apply dget_None, Hnew. by constructor.
      * rewrite list_elem_of_singleton. congruence.
    + split; [done|]. by rewrite Hk', Hk1, <-(assoc_L (++)).
Qed.

Lemma load_users_contract table users keys :
  wf_dict table → load_users (VDict table) = Ok (users, keys) →
  keys ≠ [] ∧ dkeys users = dkeys table ∧ users_inv (users, keys).
Proof.
  intros Hwf H. unfold load_users in H. simpl in H.
  apply bind_Ok in H as ([n k] & Hloop & H). inv_ok. bool_prop.
  apply load_users_loop in Hloop as [Hinv Hk]; [|done..|].
  - done.
  - split; simpl; [done|]. by intros ? ?%not_elem_of_nil.
Qed.

(** ** Activation policy *)

Record policy_ok (known : list string) (p : activation_policy) : Prop := {
  po_required : ap_required p ≠ [];
  po_known : ∀ u, u ∈ ap_required p ∨ u ∈ ap_restart p ∨ u ∈ ap_allow_degraded p → u ∈ known;
  po_disjoint : ∀ u, u ∈ ap_required p → u ∉ ap_allow_degraded p;
  po_timeout : 1 ≤ ap_timeout_seconds p ≤ 3600;
  po_settle : 0 ≤ ap_settle_seconds p ≤ 300;
  po_strategy : ap_strategy p = "rollback";
}.

Lemma check_known_units_Ok known field units u :
  check_known_units known field units = Ok u → ∀ x, x ∈ units → x ∈ known.
Proof.
  unfold check_known_units. generalize tt as s. induction units as [|x units IH]; intros s; simpl.
  - by intros _ ? ?%not_elem_of_nil.
  - intros H. apply bind_Ok in H as (s' & Hx & H). apply raise_if_Ok in Hx. bool_prop.
    intros y [->|Hy]%elem_of_cons; [done|]. by eapply IH.
Qed.

Lemma require_int_range_Ok v path lo hi n :
  require_int_range v path lo hi = Ok n → v = VInt n ∧ lo ≤ n ≤ hi.
Proof.
  unfold require_int_range. destruct v; simpl; try done.
  destruct (_ || _) eqn:E; [done|]. intros [= ->]. bool_prop. done.
Qed.

Lemma require_string_list_Ok v path l : require_string_list v path = Ok l → l ≠ [].
Proof.
  unfold require_string_list. destruct v as [| | | | |[|x items]| |]; try done.
  intros (y & _ & (ys & _ & [= <-])%bind_Ok)%bind_Ok. done.
Qed.

Lemma load_activation_policy_contract v known p :
  load_activation_policy v known = Ok p → policy_ok known p.
Proof.
  unfold load_activation_policy. intros H.
  apply bind_Ok in H as (act & _ & H). apply bind_Ok in H as (req & Hreq & H).
  apply bind_Ok in H as (rst & _ & H). apply bind_Ok in H as (deg & _ & H).
  apply bind_Ok in H as (? & K1 & H). apply bind_Ok in H as (? & K2 & H).
  apply bind_Ok in H as (? & K3 & H). apply bind_Ok in H as (? & Hov & H).
  apply bind_Ok in H as (? & _ & H). apply bind_Ok in H as (t & Ht & H).
  apply bind_Ok in H as (s & Hs & H). injection H as <-.
  apply require_string_list_Ok in Hreq. apply raise_if_Ok in Hov. bool_prop.
  apply require_int_range_Ok in Ht as [_ Ht], Hs as [_ Hs].
  pose proof (check_known_units_Ok _ _ _ _ K1). pose proof (check_known_units_Ok _ _ _ _ K2).
  pose proof (check_known_units_Ok _ _ _ _ K3).
  split; simpl; try done; [naive_solver|]. intros u Hu Hd.
  assert (u ∈ sorted_strs (filter (λ x, x ∈ deg) (dedup req))) as Hin.
  { unfold sorted_strs. rewrite merge_sort_Permutation. apply list_elem_of_filter.
    split; [done | by apply elem_of_dedup]. }
  rewrite Hov in Hin. by apply not_elem_of_nil in Hin.
Qed.

(** ** Network interfaces *)

Record interface_contract (name : string) (i : interface_settings) : Prop := {
  ic_name : SUPPORTED_INTERFACE_RE name = true;
  ic_mode : (is_mode i = "dhcp" ∧ is_address i = None) ∨
            (is_mode i = "static" ∧ ∃ a, interface_ok a ∧ is_address i = Some (str_interface a));
  ic_lan : name = "lan" → is_mode i = "static";
}.

Lemma load_interface_contract name raw i : load_interface name raw = Ok i → interface_contract name i.
Proof.
  unfold load_interface, validate_interface_name. intros H.
  apply bind_Ok in H as (n & Hn & H). destruct (SUPPORTED_INTERFACE_RE name) eqn:Ename; [|done].
  apply bind_Ok in H as (d & _ & H). apply bind_Ok in H as (mv & _ & H).
  apply bind_Ok in H as (mode & _ & H). apply bind_Ok in H as (? & Hmode & H).
  apply bind_Ok in H as (? & Hlan & H). apply bind_Ok in H as (addr & Haddr & H).
  apply bind_Ok in H as (gw & _ & H). apply bind_Ok in H as (ds & _ & H).
  apply bind_Ok in H as (dsd & _ & H). injection H as <-.
  apply raise_if_Ok in Hmode, Hlan. apply negb_false_iff, orb_true_iff in Hmode.
  split; simpl; [done| |].
  - case_bool_decide; [right|left].
    + destruct (dget "address" d) as [v|]; [|done].
      apply bind_Ok in Haddr as (a & Ha & [= <-]).
      apply require_ipv4_interface_Ok in Ha as (? & _ & _ & ?). eauto.
    + inv_ok. destruct Hmode as [?%bool_decide_eq_true|?]; done.
  - intros ->. apply andb_false_iff in Hlan as [?|?]; bool_prop; done.
Qed.

Lemma load_network_interfaces_contract v ifs name i :
  load_network_interfaces v = Ok ifs → dget name ifs = Some i → interface_contract name i.
Proof.
  intros H. revert name i.
  assert (Hinv : ∀ items s, (∀ name i, dget name s = Some i → interface_contract name i) →
    ∀ s', forR (λ normalized '(name, raw), i ← load_interface name raw; Ok (dset name i normalized))
            items s = Ok s' → ∀ name i, dget name s' = Some i → interface_contract name i).
  { intros items s Hs s'. apply (forR_inv (λ s, ∀ name i, dget name s = Some i → interface_contract name i)); [|done].
    intros s1 [n raw] s2 _ Hs1 H2 name i. apply bind_Ok in H2 as (j & Hj & [= <-]).
    rewrite dget_dset. case_decide; [intros [= ->]; subst; by eapply load_interface_contract | apply Hs1]. }
  unfold load_network_interfaces in H. destruct v; try (by inv_ok).
  simpl in H. eapply (Hinv _ []); [done | exact H].
Qed.

Definition plain (s : string) : bool := all_chars (λ c, negb (isspace c)) s.

Lemma plain_strip s : plain s = true → strip s = s.
Proof.
  unfold plain. rewrite all_chars_spec. intros H. apply strip_no_space.
  eapply Forall_impl; [exact H|]. intros c Hc. by apply negb_true_iff in Hc.
Qed.

Lemma plain_app s t : plain (s +:+ t) = plain s && plain t.
Proof. unfold plain, all_chars. by rewrite chars_app, forallb_app. Qed.

Lemma plain_small n : 0 ≤ n < 256 → plain (str_int n) = true.
Proof.
  assert (forallb (λ n, plain (str_int n)) (seqZ 0 256) = true) as H by (vm_compute; reflexivity).
  intros Hn. rewrite forallb_forall in H. apply H, list_elem_of_In, elem_of_seqZ. lia.
Qed.

Lemma plain_ipv4 n : plain (str_ipv4 n) = true.
Proof.
  unfold str_ipv4. simpl map. rewrite join4.
  repeat (rewrite plain_app; change (plain (String dot ?s)) with (plain s)).
  change (plain (String dot ?s)) with (plain s). by rewrite !plain_small by apply octet_range.
Qed.

Lemma str_interface_strip i : interface_ok i → strip (str_interface i) = str_interface i.
Proof.
  intros [_ Hp]. apply plain_strip. unfold str_interface.
  by rewrite !plain_app, plain_ipv4, plain_small by lia.
Qed.

Lemma str_ipv4_nonempty n : str_ipv4 n ≠ "".
Proof.
  unfold str_ipv4. simpl map. rewrite join4. intros H%(f_equal slen).
  rewrite !slen_chars, chars_app in H. rewrite length_app in H. simpl in H. lia.
Qed.

Lemma app_nonempty s t : s ≠ "" → s +:+ t ≠ "".
Proof. by destruct s. Qed.

Lemma require_str_interface i path :
  interface_ok i → require_ipv4_interface (VStr (str_interface i)) path = Ok i.
Proof.
  intros Hi. unfold require_ipv4_interface.
  rewrite require_string_stripped.
  - simpl. by rewrite parse_str_interface.
  - by apply str_interface_strip.
  - apply app_nonempty, str_ipv4_nonempty.
Qed.

Lemma vget_or_dset k dflt v d : vget_or k dflt (dset k v d) = v.
Proof. unfold vget_or. by rewrite dget_dset_eq. Qed.

(** The DHCP gateway is the static address of the LAN interface, when there is one. *)
Lemma load_network_settings_gateway defaults v s ntp h i :
  load_network_settings defaults v = Ok (s, ntp) → load_host_network_settings v = Ok h →
  dget "lan" (hn_interfaces h) = Some i →
  is_mode i = "static" ∧ is_address i = Some (lan_gateway_cidr s).
Proof.
  unfold load_network_settings, load_host_network_settings. intros H Hh Hi.
  apply bind_Ok in H as (net & Hnet & H). rewrite Hnet in Hh. simpl in Hh.
  apply bind_Ok in H as (dm & _ & H). apply bind_Ok in H as (? & _ & H).
  apply bind_Ok in H as (? & _ & H). apply bind_Ok in H as (ifs & His & H).
  apply bind_Ok in H as (lan_in & Hmerge & H). apply bind_Ok in H as (s' & Hlan & H).
  apply bind_Ok in H as (? & _ & H). apply bind_Ok in H as (? & _ & H). injection H as -> _.
  apply bind_Ok in Hh as (? & _ & Hh). apply bind_Ok in Hh as (? & _ & Hh).
  rewrite His in Hh. simpl in Hh. apply bind_Ok in Hh as (? & _ & Hh). injection Hh as <-.
  simpl in Hi. destruct (load_network_interfaces_contract _ _ _ _ His Hi) as [_ Hmode Hst].
  specialize (Hst eq_refl). split; [done|].
  destruct Hmode as [[? _]|[_ (a & Ha & Haddr)]]; [congruence|]. rewrite Haddr.
  unfold LAN_INTERFACE_KEY in Hmerge. rewrite Hi in Hmerge. unfold merge_lan_address in Hmerge.
  rewrite Hst, Haddr in Hmerge. simpl in Hmerge. rewrite require_str_interface in Hmerge by done.
  simpl in Hmerge. apply bind_Ok in Hmerge as (? & _ & Hmerge). apply bind_Ok in Hmerge as (? & _ & Hmerge).
  injection Hmerge as <-. unfold load_lan_settings in Hlan. simpl in Hlan.
  rewrite vget_or_dset in Hlan.
  rewrite require_str_interface in Hlan by done. cbn [mbind result_bind] in Hlan.
  repeat (apply bind_Ok in Hlan as (? & _ & Hlan)). by injection Hlan as <-.
Qed.

(** ** A sample configuration for the concrete instances *)

Definition sample_key : string := "ssh-ed25519 AAAAC3NzaC1lZDI1NTE5 admin@example".
Definition sample_network : value :=
  VDict [("interfaces", VDict [("lan", VDict [("mode", VStr "static"); ("address", VStr "10.0.0.1/24")])]);
         ("dnsmasq", VDict [("dhcp_start", VStr "10.0.0.10"); ("dhcp_end", VStr "10.0.0.20")]);
         ("firewall", VDict [("inbound", VDict [("wan", VDict [("tcp", VList [VInt 443])])])])].
Definition sample_users : dict value :=
  [("admin", VDict [("isAdmin", VBool true); ("ssh_key", VStr sample_key)]);
   ("guest", VDict [("isAdmin", VBool false)])].
Definition sample_activation : value := VDict [("required", VList [VStr "web"])].
Definition sample_root : dict value :=
  [("users", VDict sample_users); ("network", sample_network); ("activation", sample_activation);
   ("containers", VDict [("container", VDict [("web", VDict [])])])].
(** A validator that accepts everything. *)
Definition accept_schema (_ : value) : option string := None.
Definition accept_value (_ _ _ : value) : option schema_error := None.

(** ** Properties *)

(** A LAN configuration the loader accepts is coherent: the gateway prefix is between /16 and
    /30, the printed texts all denote one gateway interface and one lease range, every address
    of the lease range lies inside the gateway's network and none is the gateway, the domain and
    the aliases are valid DNS names (aliases without repetition), and a hostname pattern
    mentions [{mac}]. *)
Theorem load_lan_settings_sound defaults v path s :
  load_lan_settings defaults v path = Ok s → ∃ gw first last, lan_contract s gw first last.
Proof. apply load_lan_settings_contract. Qed.

Lemma load_lan_settings_sound_witness :
  ∃ s, load_lan_settings repo_lan_defaults VNone "lan" = Ok s ∧
       ∃ gw first last, lan_contract s gw first last.
Proof.
  eexists. split; [vm_compute; reflexivity|].
  apply (load_lan_settings_sound repo_lan_defaults VNone "lan"). vm_compute. reflexivity.
Defined.

(** C13 — A whole configuration the loader accepts satisfies every section's contract at once: at
    least one admin key, every admin key the valid key of an admin user of the table, every user
    name well formed and not reserved; a coherent LAN whose gateway is the static address of the
    LAN interface; firewall scopes with ports in range and the reserved bootstrap port 8080 never
    open on the WAN; and an activation policy whose units are configured containers. *)
Theorem load_config_sound defaults cs bm path root schema cfg :
  wf_value (VDict root) →
  load_config defaults cs bm path (Toml root) schema = Ok cfg →
  cfg_ssh_keys cfg ≠ [] ∧ users_inv (cfg_users cfg, cfg_ssh_keys cfg) ∧
  (∃ gw first last, lan_contract (cfg_lan_settings cfg) gw first last) ∧
  (∀ i, dget "lan" (hn_interfaces (cfg_host_network cfg)) = Some i →
     is_address i = Some (lan_gateway_cidr (cfg_lan_settings cfg))) ∧
  (∀ wan tcp, dget "wan" (cfg_firewall_inbound cfg) = Some wan →
     dget "tcp" wan = Some tcp → (8080 ∉ tcp) ∧ Forall port_ok tcp) ∧
  policy_ok (dkeys (ct_container (cfg_containers cfg))) (cfg_activation_policy cfg) ∧
  cfg_required_units cfg = ap_required (cfg_activation_policy cfg).
Proof.
  intros Hwf H. unfold load_config in H. simpl in H.
  apply bind_Ok in H as (? & _ & H). apply bind_Ok in H as ([users keys] & Hu & H).
  apply bind_Ok in H as (fw & Hfw & H). apply bind_Ok in H as ([s ntp] & Hs & H).
  apply bind_Ok in H as (host & Hh & H). apply bind_Ok in H as (up & _ & H).
  apply bind_Ok in H as (cs' & _ & H). apply bind_Ok in H as (ct & _ & H).
  apply bind_Ok in H as (pol & Hpol & H). injection H as <-. simpl.
  destruct (vget "users" root) as [| | | | | |table|] eqn:Eu; try done.
  assert (wf_dict table) as Htable.
  { unfold vget in Eu. destruct (dget "users" root) as [w|] eqn:Eg; [|done]. simpl in Eu. subst w.
    by apply (wf_value_get _ _ _ Hwf) in Eg as [? _]. }
  destruct (load_users_contract _ _ _ Htable Hu) as (Hkeys & _ & Hinv).
  destruct (load_firewall_inbound_contract _ _ Hfw) as [Hscope Hwan].
  split_and!; [done | done | | | | by eapply load_activation_policy_contract | done].
  - unfold load_network_settings in Hs. repeat (apply bind_Ok in Hs as (? & ? & Hs)).
    injection Hs as -> _. by eapply load_lan_settings_contract.
  - intros i Hi. by destruct (load_network_settings_gateway _ _ _ _ _ _ Hs Hh Hi).
  - intros wan tcp Hw Ht. split; [by eapply Hwan|].
    destruct (Hscope _ _ Hw) as (_ & _ & Hports). by destruct (Hports _ _ Ht) as (_ & _ & ?).
Qed.

Lemma load_config_sound_witness :
  ∃ cfg, load_config repo_lan_defaults accept_schema accept_value "config.toml" (Toml sample_root) VNone = Ok cfg
         ∧ cfg_ssh_keys cfg = [sample_key] ∧ users_inv (cfg_users cfg, cfg_ssh_keys cfg).
Proof.
  eexists. split; [vm_compute; reflexivity|]. split; [reflexivity|].
  eapply (load_config_sound repo_lan_defaults accept_schema accept_value "config.toml" sample_root VNone).
  - repeat constructor; set_solver.
  - vm_compute. reflexivity.
Defined.

(** Normalisation of host names is canonical: a name returned by [require_dns_name] is at most
    253 characters of valid lower-case labels and is accepted unchanged when it is loaded
    again, wherever it came from. *)
Theorem require_dns_name_stable v path path' name :
  require_dns_name v path = Ok name →
  dns_name_ok name ∧ lower name = name ∧ require_dns_name (VStr name) path' = Ok name.
Proof.
  intros H. pose proof (require_dns_name_canonical _ _ path' _ H) as Hc.
  apply require_dns_name_Ok in H as (raw & _ & -> & _ & Hok). split_and!; [done| |done].
  apply lower_id, rstrip_by_chars, lower_chars.
Qed.

Lemma require_dns_name_stable_witness :
  require_dns_name (VStr " Router.Example.COM. ") "p" = Ok "router.example.com" ∧
  dns_name_ok "router.example.com".
Proof.
  assert (require_dns_name (VStr " Router.Example.COM. ") "p" = Ok "router.example.com") as H
    by (vm_compute; reflexivity).
  split; [exact H|]. apply (require_dns_name_stable _ "p" "q" _ H).
Defined.

(** IPv4 address settings are stored in canonical form: the result of [require_ipv4_address]
    denotes the address that was read, and loading the stored text again gives the same text. *)
Theorem require_ipv4_address_stable v path path' s :
  require_ipv4_address v path = Ok s →
  ∃ raw n, v = VStr raw ∧ parse_ipv4 (strip raw) = Some n ∧ s = str_ipv4 n ∧
           parse_ipv4 s = Some n ∧ require_ipv4_address (VStr s) path' = Ok s.
Proof.
  unfold require_ipv4_address. intros H. apply bind_Ok in H as (raw' & Hraw & H).
  apply require_string_Ok in Hraw as (raw & -> & -> & _). apply of_option_Ok in H.
  destruct (parse_ipv4 (strip raw)) as [n|] eqn:E; [|done]. injection H as <-.
  apply str_parse_ipv4 in E as E'. destruct E' as [_ Hn]. exists raw, n.
  rewrite (parse_str_ipv4 n Hn). split_and!; try done.
  rewrite require_string_stripped; [|by apply plain_strip, plain_ipv4 | apply str_ipv4_nonempty].
  simpl. by rewrite (parse_str_ipv4 n Hn).
Qed.

Lemma require_ipv4_address_stable_witness :
  ∃ raw n, VStr " 192.168.1.254 " = VStr raw ∧ parse_ipv4 (strip raw) = Some n ∧
           "192.168.1.254" = str_ipv4 n ∧ parse_ipv4 "192.168.1.254" = Some n ∧
           require_ipv4_address (VStr "192.168.1.254") "q" = Ok "192.168.1.254".
Proof.
  apply (require_ipv4_address_stable (VStr " 192.168.1.254 ") "p" "q" "192.168.1.254").
  vm_compute. reflexivity.
Defined.

(** ** Exceptions of the loader *)

(** What [load_config] can raise: its own errors, and three Python errors that
    no [except] clause translates. *)
Definition config_exn (e : exn) : Prop :=
  is_ProvisionError e = true ∨ e = KeyError "mode" ∨
  e = ValueError "Invalid IPv6 URL" ∨ e = TypeError "unhashable type: 'list'" ∨
  e = TypeError "unhashable type: 'dict'".

Lemma config_exn_provision m : config_exn (provision_error m).
Proof. by left. Qed.
#[local] Hint Resolve config_exn_provision : raises.

Ltac config_raises := raises; try apply config_exn_provision; try (unfold config_exn; by tauto).

Lemma raises_mapping v p : raises_only config_exn (require_mapping v p).
Proof. unfold require_mapping. config_raises. Qed.
Lemma raises_string v p : raises_only config_exn (require_string v p).
Proof. unfold require_string. config_raises. Qed.
Lemma raises_bool v p : raises_only config_exn (require_bool v p).
Proof. unfold require_bool. config_raises. Qed.
Lemma raises_int_range v p a b : raises_only config_exn (require_int_range v p a b).
Proof. unfold require_int_range. config_raises. Qed.
#[local] Hint Resolve raises_mapping raises_string raises_bool raises_int_range : raises.

Lemma raises_string_item p i v : raises_only config_exn (string_item p i v).
Proof. unfold string_item. auto with raises. Qed.
Lemma raises_port_item p i v : raises_only config_exn (port_item p i v).
Proof. unfold port_item. config_raises. Qed.
#[local] Hint Resolve raises_string_item raises_port_item : raises.
Lemma raises_string_list v p : raises_only config_exn (require_string_list v p).
Proof. unfold require_string_list. config_raises. Qed.
Lemma raises_optional_string_list v p : raises_only config_exn (require_optional_string_list v p).
Proof. unfold require_optional_string_list. config_raises. Qed.
Lemma raises_port_list v p : raises_only config_exn (require_port_list v p).
Proof. unfold require_port_list. config_raises. Qed.
#[local] Hint Resolve raises_string_list raises_optional_string_list raises_port_list : raises.

Lemma raises_dns_name v p : raises_only config_exn (require_dns_name v p).
Proof. unfold require_dns_name. config_raises. Qed.
Lemma raises_ip_address v p : raises_only config_exn (require_ip_address v p).
Proof. unfold require_ip_address. config_raises. Qed.
Lemma raises_ipv4_address v p : raises_only config_exn (require_ipv4_address v p).
Proof. unfold require_ipv4_address. config_raises. Qed.
Lemma raises_ipv4_interface v p : raises_only config_exn (require_ipv4_interface v p).
Proof. unfold require_ipv4_interface. config_raises. Qed.
Lemma raises_username n : raises_only config_exn (validate_username n).
Proof. unfold validate_username. config_raises. Qed.
Lemma raises_interface_name n : raises_only config_exn (validate_interface_name n).
Proof. unfold validate_interface_name. config_raises. Qed.
#[local] Hint Resolve raises_dns_name raises_ip_address raises_ipv4_address raises_ipv4_interface
  raises_username raises_interface_name : raises.

Lemma raises_ip_address_list v p : raises_only config_exn (require_ip_address_list v p).
Proof. unfold require_ip_address_list. config_raises. Qed.
Lemma raises_dns_search_domains v p : raises_only config_exn (require_dns_search_domains v p).
Proof. unfold require_dns_search_domains. config_raises. Qed.
Lemma raises_ntp_server_list v p : raises_only config_exn (require_ntp_server_list v p).
Proof. unfold require_ntp_server_list, ntp_server_item. config_raises. Qed.
Lemma raises_ssh_public_key v p : raises_only config_exn (require_ssh_public_key v p).
Proof. unfold require_ssh_public_key. config_raises. Qed.
Lemma raises_urlsplit u : raises_only config_exn (urlsplit u).
Proof. unfold urlsplit. config_raises. Qed.
#[local] Hint Resolve raises_ip_address_list raises_dns_search_domains raises_ntp_server_list
  raises_ssh_public_key raises_urlsplit : raises.
Lemma raises_https_url v p : raises_only config_exn (require_https_url v p).
Proof. unfold require_https_url. config_raises. Qed.
#[local] Hint Resolve raises_https_url : raises.

Lemma raises_optional_key {A} k d (f : value → result A) :
  (∀ v, raises_only config_exn (f v)) → raises_only config_exn (optional_key k d f).
Proof. intros Hf. unfold optional_key. config_raises. Qed.
#[local] Hint Extern 1 (raises_only _ (optional_key _ _ _)) =>
  apply raises_optional_key; intros ? : raises.

Lemma raises_hostname_pattern d l p : raises_only config_exn (load_hostname_pattern d l p).
Proof. unfold load_hostname_pattern. config_raises. Qed.
Lemma raises_shell u d : raises_only config_exn (load_shell u d).
Proof. unfold load_shell. config_raises. Qed.
#[local] Hint Resolve raises_hostname_pattern raises_shell : raises.
Lemma raises_lan_settings d v p : raises_only config_exn (load_lan_settings d v p).
Proof. unfold load_lan_settings. config_raises. Qed.
Lemma raises_user n v : raises_only config_exn (load_user n v).
Proof. unfold load_user. config_raises. Qed.
#[local] Hint Resolve raises_lan_settings raises_user : raises.
Lemma raises_users v : raises_only config_exn (load_users v).
Proof. unfold load_users, load_users_step. config_raises. Qed.
Lemma raises_interface n v : raises_only config_exn (load_interface n v).
Proof. unfold load_interface. config_raises. Qed.
#[local] Hint Resolve raises_users raises_interface : raises.
Lemma raises_interfaces v : raises_only config_exn (load_network_interfaces v).
Proof. unfold load_network_interfaces. config_raises. Qed.
(** A static LAN interface has an address, so the lookup of its key succeeds. *)
Lemma raises_merge_lan l d :
  (∀ i, l = Some i → interface_contract "lan" i) → raises_only config_exn (merge_lan_address l d).
Proof.
  intros Hl. unfold merge_lan_address. destruct l as [i|]; [|done].
  destruct (Hl i eq_refl) as [_ [[Hm _]|[Hm (a & _ & ->)]] _]; rewrite Hm.
  - rewrite bool_decide_eq_false_2 by done. done.
  - rewrite bool_decide_eq_true_2 by done. simpl. config_raises.
Qed.
Lemma raises_dnsmasq_enable d : raises_only config_exn (check_dnsmasq_enable d).
Proof. unfold check_dnsmasq_enable. config_raises. Qed.
Lemma raises_dnsmasq_interface d : raises_only config_exn (check_dnsmasq_interface d).
Proof. unfold check_dnsmasq_interface. config_raises. Qed.
#[local] Hint Resolve raises_interfaces raises_dnsmasq_enable
  raises_dnsmasq_interface : raises.
Lemma raises_network d v : raises_only config_exn (load_network_settings d v).
Proof.
  unfold load_network_settings. do 4 (apply raises_bind; [config_raises|intros ?]).
  apply raises_bind_Ok; [config_raises|]. intros ifs Hifs.
  apply raises_bind; [|intros ?; config_raises].
  apply raises_merge_lan. intros i Hi. by eapply load_network_interfaces_contract.
Qed.
Lemma raises_host_network v : raises_only config_exn (load_host_network_settings v).
Proof. unfold load_host_network_settings. config_raises. Qed.
Lemma raises_scope_ports s a b n : raises_only config_exn (scope_ports s a b n).
Proof. unfold scope_ports. config_raises. Qed.
#[local] Hint Resolve raises_network raises_host_network raises_scope_ports : raises.
Lemma raises_scope v p : raises_only config_exn (normalize_firewall_scope v p).
Proof. unfold normalize_firewall_scope. config_raises. Qed.
#[local] Hint Resolve raises_scope : raises.
Lemma raises_firewall v : raises_only config_exn (load_firewall_inbound v).
Proof. unfold load_firewall_inbound. config_raises. Qed.
Lemma raises_policy v k : raises_only config_exn (load_activation_policy v k).
Proof. unfold load_activation_policy, check_known_units. config_raises. Qed.
Lemma raises_os_upgrade v : raises_only config_exn (load_os_upgrade v).
Proof. unfold load_os_upgrade. config_raises. Qed.
Lemma raises_schema cs bm v s p r : raises_only config_exn (validate_against_schema cs bm v s p r).
Proof. unfold validate_against_schema. config_raises. Qed.
#[local] Hint Resolve raises_firewall raises_policy raises_os_upgrade raises_schema : raises.


(** A server URL that the schema admits (any non-empty string) escapes the error contract:
    loading a configuration whose [os_upgrade.server_url] is ["https://[::1"] raises
    [ValueError], not the documented [ProvisionError]. *)
Theorem load_config_url_escape :
  load_config repo_lan_defaults accept_schema accept_value "config.toml"
    (Toml (sample_root ++ [("os_upgrade", VDict [("server_url", VStr "https://[::1")])])) VNone
  = Err (ValueError "Invalid IPv6 URL").
Proof. vm_compute. reflexivity. Qed.
