(* ===== verification/ConfigValue.v ===== *)
(** * The normalised configuration as JSON values

    [load_config] returns dicts; Config.v gives them as records.  These are the
    dicts, as the files of the configuration root hold them. *)

From S2P Require Import Prelude PyStr PyVal Config.

Definition str_list (l : list string) : value := VList (map VStr l).
Definition opt_str (k : string) (o : option string) : dict value :=
  match o with Some s => [(k, VStr s)] | None => [] end.
Definition opt_list (k : string) (o : option (list string)) : dict value :=
  match o with Some l => [(k, str_list l)] | None => [] end.
(** A dict of records as a dict of values. *)
Definition dict_map {A} (f : A → value) (d : dict A) : dict value := map (λ kv, (kv.1, f kv.2)) d.

Definition lan_settings_value (s : lan_settings) (ntp_servers : list string) : dict value :=
  [("gateway_cidr", VStr (lan_gateway_cidr s)); ("gateway_ip", VStr (lan_gateway_ip s));
   ("subnet_cidr", VStr (lan_subnet_cidr s)); ("netmask", VStr (lan_netmask s));
   ("dhcp_start", VStr (lan_dhcp_start s)); ("dhcp_end", VStr (lan_dhcp_end s));
   ("domain", VStr (lan_domain s)); ("hostname_pattern", VStr (lan_hostname_pattern s));
   ("gateway_aliases", str_list (lan_gateway_aliases s)); ("ntp_servers", str_list ntp_servers)].

Definition user_value (u : user_settings) : value :=
  VDict ([("isAdmin", VBool (us_isAdmin u)); ("ssh_key", VStr (us_ssh_key u))]
         ++ match us_shell u with Some v => [("shell", v)] | None => [] end).
Definition users_value (users : dict user_settings) : dict value := dict_map user_value users.

Definition interface_value (i : interface_settings) : value :=
  VDict ([("mode", VStr (is_mode i))] ++ opt_str "address" (is_address i) ++ opt_str "gateway" (is_gateway i)
         ++ opt_list "dns_servers" (is_dns_servers i) ++ opt_list "dns_search_domains" (is_dns_search_domains i)).
Definition host_network_value (h : host_network) : dict value :=
  [("dns_servers", str_list (hn_dns_servers h)); ("dns_search_domains", str_list (hn_dns_search_domains h));
   ("interfaces", VDict (dict_map interface_value (hn_interfaces h)))]
  ++ opt_str "default_gateway" (hn_default_gateway h).

Definition ports_value (ports : list Z) : value := VList (map VInt ports).
Definition firewall_value (inbound : dict (dict (list Z))) : dict value :=
  dict_map (λ scope, VDict (dict_map ports_value scope)) inbound.

Definition activation_policy_value (p : activation_policy) : dict value :=
  [("required", str_list (ap_required p)); ("timeout_seconds", VInt (ap_timeout_seconds p));
   ("settle_seconds", VInt (ap_settle_seconds p)); ("restart", str_list (ap_restart p));
   ("allow_degraded", str_list (ap_allow_degraded p));
   ("allow_degraded_configured", VBool (ap_allow_degraded_configured p)); ("strategy", VStr (ap_strategy p))].
