(* ===== verification/PartialConfig.v ===== *)
(** * [partial_config.py]: typed partial updates and canonical TOML

    One definition per function of
    src/scripts/atomixos_provision/src/atomixos_provision/partial_config.py.
    Updates work on a deep copy, so they are functions from the old table to the
    new one.  Assigning to or popping from a value that is not a dict raises the
    [TypeError] or [AttributeError] Python raises. *)

From Stdlib Require Import Ascii.
From S2P Require Import Prelude PyStr PyVal ConfigCheck Config.

(** ** Loading the current configuration *)

Definition load_current_config (config_file : option toml_text) : result (dict value) :=
  match config_file with
  | None => Err (provision_error "current config.toml not found")
  | Some (NotUtf8 exc) => Err (UnicodeDecodeError exc)
  | Some (NotToml exc) => Err (provision_error ("invalid current config.toml: " +:+ exc))
  | Some (Toml root) => Ok root
  end.

Definition export_config_bytes (config_bytes : option string) : result string :=
  of_option config_bytes (provision_error "current config.toml not found").

(** ** Mutating nested tables *)

Definition type_name (v : value) : string :=
  match v with
  | VNone => "NoneType" | VBool _ => "bool" | VInt _ => "int" | VFloat _ _ => "float"
  | VStr _ => "str" | VList _ => "list" | VDict _ => "dict" | VOther _ => "datetime"
  end.
Definition no_attribute (v : value) (attr : string) : exn :=
  AttributeError ("'" +:+ type_name v +:+ "' object has no attribute '" +:+ attr +:+ "'").

(** [v[k] = x] *)
Definition setitem (v : value) (k : string) (x : value) : result value :=
  match v with
  | VDict d => Ok (VDict (dset k x d))
  | VList _ => Err (TypeError "list indices must be integers or slices, not str")
  | _ => Err (TypeError ("'" +:+ type_name v +:+ "' object does not support item assignment"))
  end.
(** [v.pop(k, None)] *)
Definition popitem (v : value) (k : string) : result value :=
  match v with
  | VDict d => Ok (VDict (dpop k d))
  | VList _ => Err (TypeError "pop expected at most 1 argument, got 2")
  | _ => Err (no_attribute v "pop")
  end.
(** [f] applied in place to [d.setdefault(k, {})] *)
Definition with_default {A} (d : dict A) (k : string) (dflt : A) (f : A → result A) : result (dict A) :=
  x ← f (default dflt (dget k d));
  Ok (dset k x d).

(** ** Payloads and operations *)

Definition _require_payload (payload : value) (allowed_keys : option (list string)) : result (dict value) :=
  match payload with
  | VDict d =>
      match allowed_keys with
      | Some allowed =>
          let extra := filter (λ k, k ∉ allowed) (dkeys d) in
          _ ← raise_if (negb (bool_decide (extra = [])))
                (provision_error ("unsupported partial request keys: " +:+ comma_join (sorted_strs extra)));
          Ok d
      | None => Ok d
      end
  | _ => Err (provision_error "partial request body must be a JSON object")
  end.

Definition require_keys (d : dict value) (keys : list string) (message : string) : result () :=
  forR (λ _ key, raise_if (negb (dmem key d)) (provision_error (message +:+ key))) keys tt.

Definition put_user (config : dict value) (name : string) (payload : value) : result (dict value) :=
  _ ← validate_username name;
  user ← _require_payload payload (Some ["isAdmin"; "ssh_key"; "shell"]);
  _ ← require_keys user ["isAdmin"; "ssh_key"] "user payload missing required key: ";
  with_default config "users" (VDict []) (λ users, setitem users name (VDict user)).

Definition delete_user (config : dict value) (name : string) : result (dict value) :=
  _ ← validate_username name;
  with_default config "users" (VDict []) (λ users, popitem users name).

(** [_deep_merge(target, patch)] on dicts; recursion is on the patch. *)
Fixpoint merge_value (patch : value) (target : dict value) {struct patch} : dict value :=
  match patch with
  | VDict d =>
      (fix go (d : list (string * value)) (target : dict value) : dict value :=
         match d with
         | [] => target
         | (k, v) :: d' =>
             go d' (match v with
                    | VNone => dpop k target
                    | VDict _ =>
                        match dget k target with
                        | Some (VDict t) => dset k (VDict (merge_value v t)) target
                        | _ => dset k v target
                        end
                    | _ => dset k v target
                    end)
         end) d target
  | _ => target
  end.
Definition _deep_merge (target patch : dict value) : dict value := merge_value (VDict patch) target.

(** The same call when the target is any value: the first entry of the patch
    already fails on a target that is not a dict. *)
Definition deep_merge_any (target : value) (patch : dict value) : result value :=
  match target, patch with
  | VDict t, _ => Ok (VDict (_deep_merge t patch))
  | _, [] => Ok target
  | _, (k, VNone) :: _ => popitem target k
  | _, (_, VDict _) :: _ => Err (no_attribute target "get")
  | _, (k, v) :: _ => setitem target k v
  end.

Definition network_keys : list string :=
  ["dns_servers"; "dns_search_domains"; "default_gateway"; "interfaces"; "dnsmasq"; "ntp"; "firewall"].

Definition patch_network (config : dict value) (payload : value) : result (dict value) :=
  network ← _require_payload payload (Some network_keys);
  with_default config "network" (VDict []) (λ current, deep_merge_any current network).

Definition check_resource (table : string) (resource : dict value) : result () :=
  let check allowed keys :=
    _ ← _require_payload (VDict resource) (Some allowed);
    require_keys resource keys (table +:+ " payload missing required key: ") in
  if bool_decide (table = "container")
  then check ["privileged"; "Unit"; "Container"; "Install"] ["privileged"; "Container"]
  else if bool_decide (table = "network") then check ["Network"] ["Network"]
  else if bool_decide (table = "volume") then check ["Volume"] ["Volume"]
  else Ok tt.

(** [f] applied to [config["containers"][table]], both created when missing. *)
Definition with_resources (config : dict value) (table : string) (f : value → result value)
    : result (dict value) :=
  with_default config "containers" (VDict []) (λ containers,
    match containers with
    | VDict c => c' ← with_default c table (VDict []) f; Ok (VDict c')
    | v => Err (no_attribute v "setdefault")
    end).

Definition put_resource (config : dict value) (table name : string) (payload : value) : result (dict value) :=
  _ ← validate_name name;
  resource ← _require_payload payload None;
  _ ← check_resource table resource;
  with_resources config table (λ resources, setitem resources name (VDict resource)).

Definition delete_resource (config : dict value) (table name : string) : result (dict value) :=
  _ ← validate_name name;
  with_resources config table (λ resources, popitem resources name).

Definition _operation_type (operation : value) : result string :=
  op_dict ← _require_payload operation None;
  match vget "op" op_dict with
  | VStr op =>
      let is_in l := bool_decide (op ∈ l) in
      let allowed :=
        "op" :: (if is_in ["put_user"; "put_resource"; "patch_network"] then ["payload"] else [])
        ++ (if is_in ["put_user"; "delete_user"; "put_resource"; "delete_resource"] then ["name"] else [])
        ++ (if is_in ["put_resource"; "delete_resource"] then ["table"] else []) in
      let extra := filter (λ k, k ∉ allowed) (dkeys op_dict) in
      _ ← raise_if (negb (bool_decide (extra = [])))
            (provision_error ("unsupported partial operation keys: " +:+ comma_join (sorted_strs extra)));
      Ok op
  | _ => Err (provision_error "partial operation missing string op")
  end.

Definition _operation_name (operation : dict value) : result string :=
  match vget "name" operation with
  | VStr name => Ok name
  | _ => Err (provision_error "partial operation missing string name")
  end.

Definition _operation_payload (operation : dict value) : result value :=
  match vget "payload" operation with
  | VDict d => Ok (VDict d)
  | _ => Err (provision_error "partial operation missing object payload")
  end.

Definition _operation_table (operation : dict value) : result string :=
  match vget "table" operation with
  | VList _ => Err (TypeError "unhashable type: 'list'")
  | VDict _ => Err (TypeError "unhashable type: 'dict'")
  | VStr "container" => Ok "container"
  | VStr "network" => Ok "network"
  | VStr "volume" => Ok "volume"
  | v => Err (provision_error ("unsupported partial resource table: " +:+ value_repr v))
  end.

Definition apply_operation (config : dict value) (operation : value) : result (dict value) :=
  op ← _operation_type operation;
  let d := match operation with VDict d => d | _ => [] end in
  if bool_decide (op = "put_user") then
    name ← _operation_name d; payload ← _operation_payload d; put_user config name payload
  else if bool_decide (op = "delete_user") then
    name ← _operation_name d; delete_user config name
  else if bool_decide (op = "patch_network") then
    payload ← _operation_payload d; patch_network config payload
  else if bool_decide (op = "put_resource") then
    table ← _operation_table d; name ← _operation_name d; payload ← _operation_payload d;
    put_resource config table name payload
  else if bool_decide (op = "delete_resource") then
    table ← _operation_table d; name ← _operation_name d; delete_resource config table name
  else Err (provision_error ("unsupported partial operation: " +:+ py_repr op)).

(** ** Canonical TOML *)

(** [re.compile(r"^[A-Za-z0-9_-]+$").match(value)]: [$] also matches before a final
    newline. *)
Definition is_bare_key_char (c : ascii) : bool := is_alnum_ascii c || Ascii.eqb c "_" || Ascii.eqb c "-".
Definition _BARE_KEY_RE (s : string) : bool :=
  let body := match rev (chars s) with
              | c :: l => if Ascii.eqb c nl_char then l else c :: l
              | [] => []
              end in
  negb (bool_decide (body = [])) && forallb is_bare_key_char body.

Definition _toml_key (s : string) : string := if _BARE_KEY_RE s then s else json_dumps_str s.

Fixpoint _toml_value (v : value) : result string :=
  match v with
  | VBool b => Ok (if b then "true" else "false")
  | VInt n => Ok (str_int n)
  | VStr s => Ok (json_dumps_str s)
  | VList l =>
      items ← (fix go l := match l with
                           | [] => Ok []
                           | x :: l' => y ← _toml_value x; ys ← go l'; Ok (y :: ys)
                           end) l;
      Ok ("[" +:+ join ", " items +:+ "]")
  | _ => Err (provision_error ("unsupported value in canonical TOML: " +:+ value_repr v))
  end.

Definition toml_line (kv : string * value) : result string :=
  v ← _toml_value kv.2; Ok (_toml_key kv.1 +:+ " = " +:+ v).
Definition scalars_of (table : dict value) : dict value := filter (λ kv, is_dict kv.2 = false) table.

Fixpoint append_table (v : value) (path : list string) (lines : list string) {struct v}
    : result (list string) :=
  match v with
  | VDict table =>
      let scalars := scalars_of table in
      lines1 ←
        (if negb (bool_decide (length scalars = 0)) || bool_decide (length table = 0) then
           kvs ← mapR toml_line scalars;
           Ok (lines ++ (if bool_decide (lines = []) then [] else [""])
               ++ ("[" +:+ join "." (map _toml_key path) +:+ "]") :: kvs)
         else Ok lines);
      (fix go (t : list (string * value)) (lines : list string) : result (list string) :=
         match t with
         | [] => Ok lines
         | (k, x) :: t' =>
             match x with
             | VDict _ => lines' ← append_table x (path ++ [k]) lines; go t' lines'
             | _ => go t' lines
             end
         end) table lines1
  | _ => Ok lines
  end.
Definition _append_table (lines path : list string) (table : dict value) : result (list string) :=
  append_table (VDict table) path lines.

(** The lines of [_dumps_toml]: the scalars of the root, then its tables. *)
Definition toml_lines (data : dict value) : result (list string) :=
  scalars ← mapR toml_line (scalars_of data);
  forR (λ lines '(k, v), match v with VDict t => _append_table lines [k] t | _ => Ok lines end)
    data scalars.
Definition _dumps_toml (data : dict value) : result string :=
  lines ← toml_lines data; Ok (join nl lines).

(** The text of the UTF-8 bytes; every character of the dump is a Latin-1 character. *)
Definition canonical_config_bytes (config : dict value) : result string :=
  text ← _dumps_toml config; Ok (strip text +:+ nl).
