(* ===== verification/PartialFacts.v ===== *)
(** * Partial configuration updates: what each operation changes

    The abstract view of a configuration is the path lookup [at_path].  An
    operation names one path ([operation_path]) and computes the new value there
    from the old one ([operation_value]); [apply_operation] implements exactly
    that and touches nothing else.  Then the merge of a network patch, and the
    shape of the canonical TOML text. *)

From Stdlib Require Import Ascii.
From S2P Require Import Prelude PyStr PyVal IPAddr ConfigCheck Config ConfigFacts PartialConfig.

(** ** Paths *)

Fixpoint at_path (p : list string) (v : value) : option value :=
  match p with
  | [] => Some v
  | k :: p' => match v with VDict d => dget k d ≫= at_path p' | _ => None end
  end.

(** Two paths neither of which is a prefix of the other. *)
Definition unrelated (p q : list string) : Prop := ¬ p `prefix_of` q ∧ ¬ q `prefix_of` p.

Lemma unrelated_cons k p q : unrelated (k :: p) (k :: q) → unrelated p q.
Proof. intros [H1 H2]. split; intros H; [apply H1 | apply H2]; by apply prefix_cons. Qed.

Lemma unrelated_nonempty p q : unrelated p q → p ≠ [] ∧ q ≠ [].
Proof. intros [H1 H2]. split; intros ->; [apply H1 | apply H2]; apply prefix_nil. Qed.

Lemma at_path_dset k x d p :
  at_path p (VDict (dset k x d)) =
    match p with
    | [] => Some (VDict (dset k x d))
    | j :: p' => if decide (j = k) then at_path p' x else at_path p (VDict d)
    end.
Proof. destruct p as [|j p]; simpl; [done|]. rewrite dget_dset. by case_decide. Qed.

Lemma at_path_empty p : p ≠ [] → at_path p (VDict []) = None.
Proof. by destruct p. Qed.

Lemma with_default_Ok {A} (d d' : dict A) k dflt f :
  with_default d k dflt f = Ok d' →
  ∃ x, f (default dflt (dget k d)) = Ok x ∧ d' = dset k x d.
Proof. unfold with_default. intros (x & Hx & [= <-])%bind_Ok. by exists x. Qed.

(** [f] keeps every path unrelated to [q]. *)
Definition keeps_off (q : list string) (f : value → result value) : Prop :=
  ∀ v v' p, f v = Ok v' → unrelated p q → at_path p v' = at_path p v.

Lemma with_default_keeps d d' k f q p :
  keeps_off q f →
  with_default d k (VDict []) f = Ok d' → unrelated p (k :: q) →
  at_path p (VDict d') = at_path p (VDict d).
Proof.
  intros Hf (x & Hx & ->)%with_default_Ok Hu. rewrite at_path_dset.
  destruct p as [|j p]; [by destruct (unrelated_nonempty _ _ Hu)|].
  case_decide as E; [subst j|done]. apply unrelated_cons in Hu.
  rewrite (Hf _ _ _ Hx Hu). simpl. destruct (dget k d); simpl; [done|].
  by apply at_path_empty, (unrelated_nonempty _ _ Hu).
Qed.

Lemma setitem_keeps name x : keeps_off [name] (λ v, setitem v name x).
Proof.
  intros [| | | | | |d|] v' p Hs Hu; try discriminate. injection Hs as <-.
  destruct p as [|j p]; [by destruct (unrelated_nonempty _ _ Hu)|].
  rewrite at_path_dset, decide_False; [done|]. intros ->.
  apply unrelated_cons in Hu as [_ Hu]. apply Hu, prefix_nil.
Qed.

Lemma popitem_keeps name : keeps_off [name] (λ v, popitem v name).
Proof.
  intros [| | | | | |d|] v' p Hs Hu; try discriminate. injection Hs as <-.
  destruct p as [|j p]; [by destruct (unrelated_nonempty _ _ Hu)|]. simpl.
  rewrite dget_dpop_ne; [done|]. intros ->.
  apply unrelated_cons in Hu as [_ Hu]. apply Hu, prefix_nil.
Qed.

Lemma keeps_nothing f : keeps_off [] f.
Proof. intros v v' p _ Hu. by destruct (unrelated_nonempty _ _ Hu). Qed.

Lemma with_resources_keeps config config' table f q p :
  keeps_off q f →
  with_resources config table f = Ok config' → unrelated p ("containers" :: table :: q) →
  at_path p (VDict config') = at_path p (VDict config).
Proof.
  intros Hf. apply with_default_keeps. intros v v' p' Hv Hu.
  destruct v as [| | | | | |d|]; try discriminate. inv_ok. by eapply with_default_keeps.
Qed.

(** ** The abstract operation *)

Definition op_string (key : string) (d : dict value) : string :=
  match vget key d with VStr s => s | _ => "" end.
Definition op_dict (key : string) (d : dict value) : dict value :=
  match vget key d with VDict x => x | _ => [] end.

Definition operation_path (d : dict value) : list string :=
  let op := op_string "op" d in
  if decide (op ∈ ["put_user"; "delete_user"]) then ["users"; op_string "name" d]
  else if decide (op ∈ ["put_resource"; "delete_resource"])
  then ["containers"; op_string "table" d; op_string "name" d]
  else ["network"].

Definition operation_value (d : dict value) (old : option value) : option value :=
  let op := op_string "op" d in
  if decide (op ∈ ["put_user"; "put_resource"]) then Some (VDict (op_dict "payload" d))
  else if decide (op ∈ ["delete_user"; "delete_resource"]) then None
  else match old with
       | Some (VDict t) => Some (VDict (_deep_merge t (op_dict "payload" d)))
       | Some v => Some v   (* reached for the empty patch only *)
       | None => Some (VDict (_deep_merge [] (op_dict "payload" d)))
       end.

(** ** Inversion of [apply_operation] *)

Lemma op_string_spec d key s : vget key d = VStr s → op_string key d = s.
Proof. unfold op_string. by intros ->. Qed.

Lemma operation_name_Ok d s : _operation_name d = Ok s → op_string "name" d = s.
Proof. unfold _operation_name, op_string. destruct (vget "name" d); by try intros [= ->]. Qed.

Lemma operation_payload_Ok d v : _operation_payload d = Ok v → v = VDict (op_dict "payload" d).
Proof. unfold _operation_payload, op_dict. destruct (vget "payload" d); by try intros [= <-]. Qed.

Lemma operation_table_Ok d s :
  _operation_table d = Ok s → op_string "table" d = s.
Proof.
  unfold _operation_table, op_string. destruct (vget "table" d) as [| | | |s'| | |]; try discriminate.
  intros H. repeat first [injection H as <-; reflexivity | discriminate H | progress case_match | case_match; subst].
Qed.

Lemma operation_type_Ok v op :
  _operation_type v = Ok op → ∃ d, v = VDict d ∧ op_string "op" d = op.
Proof.
  unfold _operation_type. destruct v as [| | | | | |d|]; try discriminate. simpl.
  destruct (vget "op" d) eqn:E; try discriminate. intros H. inv_ok.
  exists d. split; [done|]. by apply op_string_spec.
Qed.

Lemma require_payload_Ok v allowed d : _require_payload v allowed = Ok d → v = VDict d.
Proof.
  unfold _require_payload. destruct v; try discriminate. destruct allowed; [|by intros [= <-]].
  intros H. inv_ok. done.
Qed.

Variant operation_run (config config' : dict value) (d : dict value) : Prop :=
  | run_put_user :
      op_string "op" d = "put_user" →
      put_user config (op_string "name" d) (VDict (op_dict "payload" d)) = Ok config' →
      operation_run config config' d
  | run_delete_user :
      op_string "op" d = "delete_user" →
      delete_user config (op_string "name" d) = Ok config' →
      operation_run config config' d
  | run_patch_network :
      op_string "op" d = "patch_network" →
      patch_network config (VDict (op_dict "payload" d)) = Ok config' →
      operation_run config config' d
  | run_put_resource :
      op_string "op" d = "put_resource" →
      put_resource config (op_string "table" d) (op_string "name" d) (VDict (op_dict "payload" d)) = Ok config' →
      operation_run config config' d
  | run_delete_resource :
      op_string "op" d = "delete_resource" →
      delete_resource config (op_string "table" d) (op_string "name" d) = Ok config' →
      operation_run config config' d.

Lemma apply_operation_run config config' v :
  apply_operation config v = Ok config' → ∃ d, v = VDict d ∧ operation_run config config' d.
Proof.
  unfold apply_operation. intros (op & (d & -> & Hop)%operation_type_Ok & H)%bind_Ok.
  exists d. split; [done|]. simpl in H.
  repeat (let E := fresh "E" in case_bool_decide as E; [subst op|]); [..|discriminate];
    repeat match type of H with
    | (_ ≫= _) = _ => let E := fresh "E" in apply bind_Ok in H as (? & E & H);
        first [apply operation_name_Ok in E | apply operation_payload_Ok in E | apply operation_table_Ok in E]; subst
    end.
  - by apply run_put_user.
  - by apply run_delete_user.
  - by apply run_patch_network.
  - by apply run_put_resource.
  - by apply run_delete_resource.
Qed.

(** ** What an operation changes *)

(** A successful partial operation (put or delete a user, put or delete a
    container, network or volume, patch the network) leaves every part of the
    configuration outside the entry it names as it was: any path that is neither
    above nor below the operation's path has the same value before and after. *)
Theorem apply_operation_frame (config config' op : dict value) p :
  apply_operation config (VDict op) = Ok config' →
  unrelated p (operation_path op) →
  at_path p (VDict config') = at_path p (VDict config).
Proof.
  intros (d & [= ->] & Hr)%apply_operation_run Hu. unfold operation_path in Hu.
  destruct Hr as [E H|E H|E H|E H|E H]; rewrite E in Hu;
    unfold put_user, delete_user, patch_network, put_resource, delete_resource in H; inv_ok;
    (first [eapply with_resources_keeps; [|exact H|exact Hu] | eapply with_default_keeps; [|exact H|exact Hu]]);
    auto using setitem_keeps, popitem_keeps, keeps_nothing.
Qed.

Lemma deep_merge_any_dict t p : deep_merge_any (VDict t) p = Ok (VDict (_deep_merge t p)).
Proof. by destruct p as [|[k v] p]. Qed.

Lemma at_path_2 (k j : string) (x : value) d :
  at_path [k; j] (VDict (dset k x d)) = at_path [j] x.
Proof. by rewrite at_path_dset, decide_True. Qed.

Lemma wf_at d k t : wf_value (VDict d) → dget k d = Some (VDict t) → wf_dict t.
Proof.
  intros Hwf Hk. pose proof (wf_value_get _ _ _ Hwf Hk) as H. by destruct H.
Qed.

(** Popping a name from the dict found, or created, at a key. *)
Lemma popitem_at_default d k name x :
  wf_value (VDict d) →
  popitem (default (VDict []) (dget k d)) name = Ok x → at_path [name] x = None.
Proof.
  intros Hwf. destruct (dget k d) as [v|] eqn:E; simpl; [|by intros [= <-]].
  destruct v as [| | | | | |t|]; try discriminate. intros [= <-]. simpl.
  rewrite dget_dpop_eq; [done|]. by eapply wf_at.
Qed.

Lemma setitem_at v name u x : setitem v name u = Ok x → at_path [name] x = Some u.
Proof. destruct v; try discriminate. intros [= <-]. simpl. by rewrite dget_dset_eq. Qed.

(** Fetching the resource table under [containers]. *)
Lemma with_resources_at config config' table f (P : value → Prop) :
  with_resources config table f = Ok config' →
  (∀ c, wf_value (VDict config) → at_path ["containers"] (VDict config) = Some (VDict c) ∨ c = [] →
     ∀ x, f (default (VDict []) (dget table c)) = Ok x → P x) →
  wf_value (VDict config) →
  ∃ x, at_path ["containers"; table] (VDict config') = Some x ∧ P x.
Proof.
  unfold with_resources. intros (v & Hv & ->)%with_default_Ok HP Hwf. simpl.
  destruct (dget "containers" config) as [[| | | | | |c|]|] eqn:E; try discriminate; simpl in Hv.
  - inv_ok. apply with_default_Ok in Ha as (x & Hx & ->). exists x.
    rewrite dget_dset_eq. simpl. rewrite dget_dset_eq. split; [done|]. apply (HP c); [done| |done].
    left. simpl. by rewrite E.
  - inv_ok. apply with_default_Ok in Ha as (x & Hx & ->). exists x.
    rewrite dget_dset_eq. simpl. rewrite decide_True by done. split; [done|]. apply (HP []); auto.
Qed.

Lemma at_path_app p q v : at_path (p ++ q) v = at_path p v ≫= at_path q.
Proof.
  revert v. induction p as [|k p IH]; intros v; [done|]. destruct v; try done. simpl.
  destruct (dget k d); simpl; [apply IH|done].
Qed.

Lemma at_path_snoc p k v x o :
  at_path p v = Some x → at_path [k] x = o → at_path (p ++ [k]) v = o.
Proof. intros Hx <-. by rewrite at_path_app, Hx. Qed.


(** ** The network patch *)

(** One entry of a patch. *)
Definition merge_entry (target : dict value) (kv : string * value) : dict value :=
  match kv.2 with
  | VNone => dpop kv.1 target
  | VDict _ =>
      match dget kv.1 target with
      | Some (VDict t) => dset kv.1 (VDict (merge_value kv.2 t)) target
      | _ => dset kv.1 kv.2 target
      end
  | v => dset kv.1 v target
  end.

Lemma deep_merge_cons t kv p : _deep_merge t (kv :: p) = _deep_merge (merge_entry t kv) p.
Proof. by destruct kv as [k []]. Qed.

(** The value of one key after one entry. *)
Definition merged (old : option value) (patch : option value) : option value :=
  match patch with
  | None => old
  | Some VNone => None
  | Some (VDict d) =>
      match old with
      | Some (VDict t) => Some (VDict (_deep_merge t d))
      | _ => Some (VDict d)
      end
  | Some v => Some v
  end.

Lemma merge_entry_eq t k v : wf_dict t → dget k (merge_entry t (k, v)) = merged (dget k t) (Some v).
Proof.
  intros Hwf. destruct v; unfold merge_entry; simpl; rewrite ?dget_dset_eq; try done.
  - by apply dget_dpop_eq.
  - destruct (dget k t) as [[]|]; by rewrite dget_dset_eq.
Qed.

Lemma merge_entry_ne t k j v : j ≠ k → dget j (merge_entry t (k, v)) = dget j t.
Proof.
  intros Hne. destruct v; unfold merge_entry; simpl; rewrite ?dget_dset_ne, ?dget_dpop_ne by done; try done.
  destruct (dget k t) as [[]|]; by rewrite dget_dset_ne.
Qed.

Lemma wf_merge_entry t kv : wf_dict t → wf_dict (merge_entry t kv).
Proof.
  intros Hwf. destruct kv as [k v], v; unfold merge_entry; simpl; auto with py.
  destruct (dget k t) as [[]|]; auto with py.
Qed.

(** The deep merge of a patch into a table, key by key at every depth: a
    key the patch does not name keeps its value, a null in the patch removes the
    key, a table merges recursively into an existing table, and any other value
    replaces the old one. *)
Theorem deep_merge_lookup (target patch : dict value) k :
  wf_dict target → wf_dict patch →
  dget k (_deep_merge target patch) = merged (dget k target) (dget k patch).
Proof.
  unfold wf_dict at 2. revert target. induction patch as [|[j v] patch IH]; intros target Ht; [done|].
  csimpl. intros [Hj Hp]%NoDup_cons. rewrite deep_merge_cons, IH by auto using wf_merge_entry.
  case_decide as E.
  - subst j. apply dget_None in Hj. rewrite Hj. simpl. by apply merge_entry_eq.
  - by rewrite merge_entry_ne.
Qed.

Lemma scalars_app a b : scalars_of (a ++ b) = scalars_of a ++ scalars_of b.
Proof. apply filter_app. Qed.

(** A null inside a table of a network patch deletes nothing when the
    configuration has no such table: the patch is accepted, the null is stored
    as it is, and the canonical TOML of the result is refused. *)
Theorem patch_network_nested_null (config : dict value) (table key : string) :
  dget "network" config = None → Forall (λ kv, ∃ b, kv.2 = VBool b) config →
  table ∈ network_keys →
  ∃ config', patch_network config (VDict [(table, VDict [(key, VNone)])]) = Ok config' ∧
    at_path ["network"; table; key] (VDict config') = Some VNone ∧
    canonical_config_bytes config' =
      Err (provision_error "unsupported value in canonical TOML: None").
Proof.
  intros Hn Hb Ht. exists (dset "network" (VDict [(table, VDict [(key, VNone)])]) config).
  split_and!.
  - unfold patch_network, _require_payload, dkeys; csimpl.
    rewrite filter_cons_False by tauto. simpl. unfold with_default. by rewrite Hn.
  - simpl. by rewrite dget_dset_eq; simpl; rewrite decide_True by done; simpl; rewrite decide_True by done.
  - assert (dset "network" (VDict [(table, VDict [(key, VNone)])]) config
      = config ++ [("network", VDict [(table, VDict [(key, VNone)])])]) as ->.
    { clear Hb. induction config as [|[k v] c IH]; [done|]. simpl in *.
      case_decide; [done|]. by rewrite IH. }
    unfold canonical_config_bytes, _dumps_toml, toml_lines. rewrite scalars_app. clear Hn.
    assert (∀ l, forR (λ lines '(k, v), match v with VDict t => _append_table lines [k] t | _ => Ok lines end)
       (config ++ [("network", VDict [(table, VDict [(key, VNone)])])]) l =
       Err (provision_error "unsupported value in canonical TOML: None")) as Hl.
    { induction Hb as [|[k v] c [b Hv] Hc IH]; intros l; [by destruct l|].
      simpl in Hv. subst v. simpl. apply IH. }
    assert (∃ ls, mapR toml_line (scalars_of config ++ []) = Ok ls) as [ls Hls].
    { clear Hl. induction Hb as [|[k v] c [b Hv] Hc [ls IH]]; [by exists []|].
      simpl in Hv. subst v. exists ((_toml_key k +:+ " = " +:+ if b then "true" else "false") :: ls).
      change (mapR toml_line ((k, VBool b) :: scalars_of c ++ []) =
        Ok ((_toml_key k +:+ " = " +:+ if b then "true" else "false") :: ls)).
      simpl. by rewrite IH. }
    change (scalars_of [("network", VDict [(table, VDict [(key, VNone)])])]) with (@nil (string * value)).
    rewrite Hls. simpl. by rewrite Hl.
Qed.

(** ** Canonical TOML text *)

Definition no_nl (s : string) : Prop := has_char nl_char s = false.

Lemma no_nl_app s t : no_nl (s +:+ t) ↔ no_nl s ∧ no_nl t.
Proof. unfold no_nl. by rewrite has_char_app, orb_false_iff. Qed.

Lemma no_nl_join sep l : no_nl sep → Forall no_nl l → no_nl (join sep l).
Proof.
  intros Hsep Hl. unfold join. induction Hl as [|x [|y l] Hx Hl IH]; try done.
  change (no_nl (x +:+ sep +:+ String.concat sep (y :: l))). by rewrite !no_nl_app.
Qed.

Lemma no_nl_json_char c : no_nl (json_char c).
Proof. unfold no_nl. destruct c as [[] [] [] [] [] [] [] []]; vm_compute; done. Qed.

Lemma no_nl_json s : no_nl (json_dumps_str s).
Proof.
  unfold json_dumps_str. change (no_nl (String dquote_char "" +:+ concat_map_str json_char s +:+ String dquote_char "")).
  rewrite !no_nl_app. split_and!; [done| |done]. apply no_nl_join; [done|].
  apply Forall_map, Forall_true. apply no_nl_json_char.
Qed.

Lemma no_nl_pretty_N_char x : no_nl (String (pretty_N_char x) "").
Proof. unfold pretty_N_char. destruct x as [|p]; [done|]. repeat (destruct p as [p|p|]; try done). Qed.

Lemma no_nl_pretty_N_go x s : no_nl s → no_nl (pretty_N_go x s).
Proof.
  revert s. induction (N.lt_wf_0 x) as [x _ IH]; intros s Hs.
  destruct (decide (x = 0)%N) as [->|Hx]; [by rewrite pretty_N_go_0|].
  rewrite pretty_N_go_step by lia. apply IH; [apply N.div_lt; lia|].
  change (no_nl (String (pretty_N_char (x `mod` 10)) "" +:+ s)).
  rewrite no_nl_app. split; [apply no_nl_pretty_N_char|done].
Qed.

Lemma no_nl_str_int n : no_nl (str_int n).
Proof.
  assert (∀ p, no_nl (pretty (N.pos p))) as Hp.
  { intros p. unfold pretty, pretty_N. rewrite decide_False by done. by apply no_nl_pretty_N_go. }
  unfold str_int. destruct n as [|p|p]; [done|apply Hp|].
  change (no_nl ("-" +:+ pretty (N.pos p))). rewrite no_nl_app. split; [done|apply Hp].
Qed.

(** The keys of a table and of the tables inside it, none of which ends in a
    newline. *)
Definition key_ok (k : string) : Prop := ¬ ∃ s, k = s +:+ nl.
Fixpoint keys_ok (v : value) : Prop :=
  match v with
  | VDict d => (fix go (d : list (string * value)) : Prop :=
                  match d with [] => True | (k, x) :: d' => key_ok k ∧ keys_ok x ∧ go d' end) d
  | _ => True
  end.

Lemma keys_ok_dict d : keys_ok (VDict d) ↔ Forall (λ kv, key_ok kv.1 ∧ keys_ok kv.2) d.
Proof.
  simpl. induction d as [|[k x] d IH]; [by split; [constructor|]|].
  rewrite Forall_cons, <-IH. simpl. tauto.
Qed.

Lemma bare_no_nl l : forallb is_bare_key_char l = true → no_nl (unchars l).
Proof.
  unfold no_nl, has_char. intros H. apply any_char_false. rewrite chars_unchars.
  rewrite forallb_forall in H. apply Forall_forall. intros c Hc%list_elem_of_In%H.
  destruct (Ascii.eqb_spec nl_char c) as [<-|]; [discriminate Hc|done].
Qed.

Lemma no_nl_toml_key k : key_ok k → no_nl (_toml_key k).
Proof.
  intros Hk. unfold _toml_key, _BARE_KEY_RE.
  destruct (rev (chars k)) as [|c l] eqn:E; simpl; [apply no_nl_json|].
  destruct (Ascii.eqb_spec c nl_char) as [->|Hc].
  - exfalso. apply Hk. exists (unchars (rev l)). apply chars_inj.
    rewrite chars_app, chars_unchars. rewrite <-(rev_involutive (chars k)), E. done.
  - destruct (negb _ && _) eqn:Eb; [|apply no_nl_json]. bool_prop.
    rewrite <-(unchars_chars k). apply bare_no_nl.
    rewrite forallb_forall in *. intros x Hx. apply H0.
    change (List.In x (c :: l)). rewrite <-E. by apply in_rev in Hx.
Qed.

Lemma no_nl_toml_value v s : _toml_value v = Ok s → no_nl s.
Proof.
  revert s. induction v using value_ind'; intros text; simpl; try discriminate.
  - intros [= <-]. by destruct b.
  - intros [= <-]. apply no_nl_str_int.
  - intros [= <-]. apply no_nl_json.
  - intros (items & Hi & [= <-])%bind_Ok.
    change (no_nl ("[" +:+ join ", " items +:+ "]")). rewrite !no_nl_app.
    split_and!; [done| |done]. apply no_nl_join; [done|].
    revert items Hi. induction H as [|x l Hx Hl IH]; intros items; [by intros [= <-]|].
    intros (y & Hy & (ys & Hys & [= <-])%bind_Ok)%bind_Ok. constructor; eauto.
Qed.

Lemma toml_line_no_nl d ls :
  Forall (λ kv, key_ok kv.1 ∧ keys_ok kv.2) d → mapR toml_line d = Ok ls → Forall no_nl ls.
Proof.
  intros Hd Hls%mapR_Ok. induction Hls as [|kv line d ls Hl Hls IH]; [constructor|].
  apply Forall_cons in Hd as [[Hk _] Hd]. constructor; [|by apply IH].
  unfold toml_line in Hl. inv_ok. apply no_nl_app. split; [by apply no_nl_toml_key|].
  apply (no_nl_app " = " a). split; [done|]. by eapply no_nl_toml_value.
Qed.

Lemma keys_ok_scalars d :
  Forall (λ kv, key_ok kv.1 ∧ keys_ok kv.2) d → Forall (λ kv, key_ok kv.1 ∧ keys_ok kv.2) (scalars_of d).
Proof.
  rewrite !Forall_forall. intros H kv Hin. apply H. unfold scalars_of in Hin.
  by apply list_elem_of_filter in Hin as [_ ?].
Qed.

Lemma append_table_no_nl v path lines ls :
  keys_ok v → Forall key_ok path → Forall no_nl lines →
  append_table v path lines = Ok ls → Forall no_nl ls.
Proof.
  revert path lines ls. induction v using value_ind'; intros path lines ls Hv Hp Hlines;
    try by intros [= <-].
  apply keys_ok_dict in Hv. simpl. intros (lines1 & H1 & Hgo)%bind_Ok.
  assert (Forall no_nl lines1) as Hl1.
  { destruct (_ || _); [|by injection H1 as <-]. inv_ok. apply Forall_app. split; [done|].
    apply Forall_app. split; [case_bool_decide; by repeat constructor|].
    constructor; [|by eapply toml_line_no_nl, Ha; apply keys_ok_scalars].
    apply (no_nl_app "[" (join "." (map _toml_key path) +:+ "]")). split; [done|].
    apply no_nl_app. split; [|done]. apply no_nl_join; [done|].
    apply Forall_map. eapply Forall_impl; [exact Hp|]. apply no_nl_toml_key. }
  clear H1. revert lines1 Hl1 Hgo. induction H as [|[k x] d Hx Hd IH]; intros lines1 Hl1; [by intros [= <-]|].
  apply Forall_cons in Hv as [[Hk Hvx] Hvd]. simpl in *.
  destruct x; try by apply IH.
  intros (lines2 & H2 & Hgo)%bind_Ok. eapply IH; [done| |exact Hgo].
  eapply Hx, H2; [done| |done]. apply Forall_app. by repeat constructor.
Qed.

Lemma split_on_join l :
  l ≠ [] → Forall no_nl l → split_on nl_char (join nl l) = l.
Proof. apply split_on_join_sep. Qed.

(** No value can inject a line into the canonical TOML: when no key ends in
    a newline, the lines the serializer assembles are free of newlines, and
    splitting the dumped text at its newlines gives back exactly these lines. *)
Theorem dumps_toml_lines (data : dict value) (text : string) :
  keys_ok (VDict data) → _dumps_toml data = Ok text →
  ∃ lines, toml_lines data = Ok lines ∧ Forall no_nl lines ∧
    (lines ≠ [] → split_on nl_char text = lines).
Proof.
  intros Hk%keys_ok_dict H. unfold _dumps_toml in H. inv_ok. exists a. split; [done|].
  assert (Forall no_nl a); [|auto using split_on_join].
  unfold toml_lines in Ha. apply bind_Ok in Ha as (ls & Hls & Ha).
  eapply (forR_inv (Forall no_nl)); [|eapply toml_line_no_nl, Hls; by apply keys_ok_scalars|exact Ha].
  intros lines [k v] lines' Hin Hl. rewrite Forall_forall in Hk.
  destruct (Hk _ Hin) as [Hkk Hkv]. simpl in *. destruct v; try by intros [= <-].
  intros Happ. eapply append_table_no_nl; [exact Hkv| |done|exact Happ]. by repeat constructor.
Qed.

(** A bare key followed by a newline is still written unquoted, because [$]
    matches before a final newline: the key itself breaks the line. *)
Theorem toml_key_newline (k : string) :
  k ≠ "" → all_chars is_bare_key_char k = true → _toml_key (k +:+ nl) = k +:+ nl.
Proof.
  unfold all_chars, _toml_key, _BARE_KEY_RE. intros Hne Hk.
  rewrite chars_app, rev_app_distr. simpl. rewrite bool_decide_false.
  - simpl. assert (forallb is_bare_key_char (rev (chars k)) = true) as ->; [|done].
    rewrite forallb_forall in *. intros c Hc. apply Hk. by apply in_rev.
  - intros Hr. apply Hne, chars_inj. by rewrite <-(rev_involutive (chars k)), Hr.
Qed.

(** ** Well-formed documents *)

Lemma wf_default d k : wf_value (VDict d) → wf_value (default (VDict []) (dget k d)).
Proof. intros Hd. destruct (dget k d) eqn:E; simpl; [by eapply wf_value_get|]. by repeat constructor. Qed.

Lemma merge_value_wf p target : wf_value p → wf_value (VDict target) → wf_value (VDict (merge_value p target)).
Proof.
  revert target. induction p as [| | | | | |d IH|] using value_ind'; intros target Hp Ht; try exact Ht.
  apply wf_value_dict in Hp as [_ Hp]. change (merge_value (VDict d) target) with (_deep_merge target d).
  revert target Ht. induction d as [|[k v] d IHd]; intros target Ht; [done|].
  apply Forall_cons in IH as [Hv IH]. apply Forall_cons in Hp as [Hvw Hp]. rewrite deep_merge_cons.
  apply IHd; [done..|]. unfold merge_entry. cbn [fst snd] in *.
  destruct v as [| | | | | |dv|]; auto using wf_value_dpop, wf_value_dset.
  destruct (dget k target) as [[| | | | | |t'|]|] eqn:Et; try by apply wf_value_dset.
  apply wf_value_dset; [done|]. apply Hv; [done|]. by eapply wf_value_get.
Qed.

(** A program that keeps values well-formed. *)
Definition wf_step (f : value → result value) : Prop := ∀ v v', wf_value v → f v = Ok v' → wf_value v'.

Lemma setitem_wf name x : wf_value x → wf_step (λ v, setitem v name x).
Proof. intros Hx [| | | | | |d|] v' Hv Hs; try discriminate. injection Hs as <-. by apply wf_value_dset. Qed.
Lemma popitem_wf name : wf_step (λ v, popitem v name).
Proof. intros [| | | | | |d|] v' Hv Hs; try discriminate. injection Hs as <-. by apply wf_value_dpop. Qed.
Lemma deep_merge_any_wf patch : wf_value (VDict patch) → wf_step (λ v, deep_merge_any v patch).
Proof.
  intros Hp v v' Hv Hs. pose proof Hp as [_ Hf]%wf_value_dict.
  destruct v as [| | | | | |t|], patch as [|[k [| | | | | |d|]] patch]; try discriminate; injection Hs as <-;
    try done; by apply (merge_value_wf (VDict _) t).
Qed.
Lemma with_default_wf config config' k f :
  wf_step f → wf_value (VDict config) → with_default config k (VDict []) f = Ok config' → wf_value (VDict config').
Proof.
  intros Hf Hc (x & Hx & ->)%with_default_Ok. apply wf_value_dset; [done|].
  eapply Hf; [|exact Hx]. by apply wf_default.
Qed.
Lemma with_resources_wf config config' table f :
  wf_step f → wf_value (VDict config) → with_resources config table f = Ok config' → wf_value (VDict config').
Proof.
  intros Hf. apply with_default_wf. intros v v' Hv Hs. destruct v as [| | | | | |c|]; try discriminate. inv_ok.
  by eapply with_default_wf.
Qed.


(** ** Witnesses *)

Definition sample_config : dict value :=
  [("version", VInt 1); ("users", VDict [("alice", VDict [("isAdmin", VBool true)])])].
Definition sample_delete : dict value := [("op", VStr "delete_user"); ("name", VStr "alice")].
Definition sample_after : dict value := [("version", VInt 1); ("users", VDict [])].

Lemma sample_delete_run : apply_operation sample_config (VDict sample_delete) = Ok sample_after.
Proof. vm_compute. reflexivity. Qed.

Lemma apply_operation_frame_witness :
  at_path ["version"] (VDict sample_after) = at_path ["version"] (VDict sample_config).
Proof.
  apply (apply_operation_frame sample_config sample_after sample_delete ["version"]).
  - apply sample_delete_run.
  - split; intros [k Hk]; discriminate Hk.
Defined.


Lemma deep_merge_lookup_witness :
  dget "ntp" (_deep_merge [("ntp", VInt 1); ("dns", VInt 2)] [("ntp", VNone)]) = None.
Proof.
  apply (deep_merge_lookup [("ntp", VInt 1); ("dns", VInt 2)] [("ntp", VNone)] "ntp");
    wf_closed.
Defined.

Lemma patch_network_nested_null_witness :
  ∃ config', patch_network [("x", VBool true)] (VDict [("dnsmasq", VDict [("gateway", VNone)])]) = Ok config' ∧
    at_path ["network"; "dnsmasq"; "gateway"] (VDict config') = Some VNone ∧
    canonical_config_bytes config' = Err (provision_error "unsupported value in canonical TOML: None").
Proof.
  apply (patch_network_nested_null [("x", VBool true)] "dnsmasq" "gateway").
  - reflexivity.
  - constructor; [by exists true | constructor].
  - unfold network_keys. set_solver.
Defined.

Lemma dumps_toml_lines_witness :
  ∃ lines, toml_lines sample_config = Ok lines ∧ Forall no_nl lines ∧
    (lines ≠ [] → split_on nl_char (join nl ["version = 1"; ""; "[users.alice]"; "isAdmin = true"]) = lines).
Proof.
  apply (dumps_toml_lines sample_config).
  - simpl. split_and!; try exact I; intros [s Hs]; apply (f_equal (λ s, rev (chars s))) in Hs;
      rewrite chars_app, rev_app_distr in Hs; discriminate Hs.
  - vm_compute. reflexivity.
Defined.

Lemma toml_key_newline_witness : _toml_key ("Image" +:+ nl) = "Image" +:+ nl.
Proof. apply (toml_key_newline "Image"); [discriminate | reflexivity]. Defined.

