(* ===== verification/Toml.v ===== *)
(** * A reader of TOML text, one statement to a line

    The specification against which the texts the program writes are judged: the
    part of TOML 1.0 with one statement to a line, no comments, one blank on each
    side of an equals sign, and basic strings, integers, booleans and arrays as
    values.  A table is opened by its header; nothing is defined twice. *)

From Stdlib Require Import Ascii.
From S2P Require Import Prelude PyStr PyVal PartialConfig.

Local Open Scope Z_scope.

(** ** Basic strings *)

(** The character of a one-letter escape. *)
Definition escape_of (e : ascii) : option ascii :=
  if Ascii.eqb e dquote_char then Some dquote_char
  else if Ascii.eqb e backslash then Some backslash
  else if Ascii.eqb e "b" then Some (ascii_of_N 8)
  else if Ascii.eqb e "t" then Some (ascii_of_N 9)
  else if Ascii.eqb e "n" then Some (ascii_of_N 10)
  else if Ascii.eqb e "f" then Some (ascii_of_N 12)
  else if Ascii.eqb e "r" then Some (ascii_of_N 13)
  else None.
(** Four hexadecimal digits: a Latin-1 character. *)
Definition char_of_hex (a b c d : ascii) : option ascii :=
  let n := hex_value (unchars [a; b; c; d]) in
  if forallb is_hex [a; b; c; d] && (n <? 256) then Some (ascii_of_N (Z.to_N n)) else None.

Definition cons_char (c : ascii) (r : option (string * list ascii)) : option (string * list ascii) :=
  '(s, rest) ← r; Some (String c s, rest).

(** From behind the opening quote: the string, and what follows the closing one. *)
Fixpoint read_basic (l : list ascii) : option (string * list ascii) :=
  match l with
  | [] => None
  | c :: l1 =>
      if Ascii.eqb c dquote_char then Some ("", l1)
      else if Ascii.eqb c backslash then
        match l1 with
        | e :: l2 =>
            if Ascii.eqb e "u" then
              match l2 with
              | a :: b :: x :: y :: l3 => d ← char_of_hex a b x y; cons_char d (read_basic l3)
              | _ => None
              end
            else d ← escape_of e; cons_char d (read_basic l2)
        | [] => None
        end
      else if is_control c then None
      else cons_char c (read_basic l1)
  end.

(** ** Keys and values *)

Fixpoint span (p : ascii → bool) (l : list ascii) : list ascii * list ascii :=
  match l with
  | [] => ([], [])
  | c :: l' => if p c then let '(a, b) := span p l' in (c :: a, b) else ([], l)
  end.

Definition read_key (l : list ascii) : option (string * list ascii) :=
  match l with
  | [] => None
  | c :: l' =>
      if Ascii.eqb c dquote_char then read_basic l'
      else match span is_bare_key_char l with ([], _) => None | (k, rest) => Some (unchars k, rest) end
  end.

(** A decimal integer, with no leading zero. *)
Definition read_int (l : list ascii) : option (value * list ascii) :=
  let '(neg, l1) := match l with
                    | c :: l' => if Ascii.eqb c "-" then (true, l') else (false, l)
                    | [] => (false, [])
                    end in
  let '(digits, rest) := span is_digit_ascii l1 in
  let n := dec_value (unchars digits) in
  let n := if neg : bool then - n else n in
  if bool_decide (chars (str_int n) = (if neg then "-"%char :: digits else digits)) then Some (VInt n, rest) else None.

(** [l] behind the word [w]. *)
Definition after (w : string) (l : list ascii) : option (list ascii) :=
  if bool_decide (take (slen w) l = chars w) then Some (drop (slen w) l) else None.

(** A value nests at most as deep as its text is long. *)
Fixpoint read_value (fuel : nat) (l : list ascii) : option (value * list ascii) :=
  match fuel, l with
  | S fuel, c :: l' =>
      if Ascii.eqb c dquote_char then '(s, rest) ← read_basic l'; Some (VStr s, rest)
      else if Ascii.eqb c "[" then
        match after "]" l' with
        | Some rest => Some (VList [], rest)
        | None => '(items, rest) ← read_items fuel l'; Some (VList items, rest)
        end
      else match after "true" l, after "false" l with
           | Some rest, _ => Some (VBool true, rest)
           | _, Some rest => Some (VBool false, rest)
           | None, None => read_int l
           end
  | _, _ => None
  end
with read_items (fuel : nat) (l : list ascii) : option (list value * list ascii) :=
  match fuel with
  | O => None
  | S fuel =>
      '(v, rest) ← read_value fuel l;
      match after "]" rest, after ", " rest with
      | Some rest, _ => Some ([v], rest)
      | None, Some rest => '(vs, rest) ← read_items fuel rest; Some (v :: vs, rest)
      | None, None => None
      end
  end.

(** ** Documents *)

(** Defines what was not defined, with the tables on the way. *)
Fixpoint put (p : list string) (v : value) (d : dict value) : option (dict value) :=
  match p with
  | [] => None
  | k :: p' =>
      match p' with
      | [] => if dmem k d then None else Some (dset k v d)
      | _ => match dget k d with
             | None => t ← put p' v []; Some (dset k (VDict t) d)
             | Some (VDict t) => t' ← put p' v t; Some (dset k (VDict t') d)
             | Some _ => None
             end
      end
  end.

(** The keys of a header, from behind its bracket to the end of the line. *)
Fixpoint read_header (fuel : nat) (l : list ascii) : option (list string) :=
  match fuel with
  | O => None
  | S fuel =>
      '(k, rest) ← read_key l;
      if bool_decide (rest = ["]"%char]) then Some [k]
      else rest ← after "." rest; ks ← read_header fuel rest; Some (k :: ks)
  end.

(** The document so far and the open table. *)
Definition document : Type := dict value * list string.

Definition read_line (doc : document) (line : string) : option document :=
  match chars line with
  | [] => Some doc
  | c :: l =>
      if Ascii.eqb c "[" then
        p ← read_header (length l) l; root ← put p (VDict []) doc.1; Some (root, p)
      else
        '(k, rest) ← read_key (c :: l);
        rest ← after " = " rest;
        '(v, rest) ← read_value (length rest) rest;
        root ← (if bool_decide (rest = []) then put (doc.2 ++ [k]) v doc.1 else None);
        Some (root, doc.2)
  end.
Fixpoint read_lines (lines : list string) (doc : document) : option document :=
  match lines with [] => Some doc | line :: lines => doc' ← read_line doc line; read_lines lines doc' end.

Definition read_toml (text : string) : option (dict value) := fst <$> read_lines (split_on nl_char text) ([], []).

(** ** Values read back *)

Lemma read_basic_char c l : read_basic (chars (json_char c) ++ l) = cons_char c (read_basic l).
Proof. destruct c as [[] [] [] [] [] [] [] []]; reflexivity. Qed.
Lemma read_basic_json s l : read_basic (chars (concat_map_str json_char s) ++ dquote_char :: l) = Some (s, l).
Proof.
  unfold concat_map_str. induction s as [|c s IH]; [done|].
  change (chars (String c s)) with (c :: chars s). simpl map. rewrite join_empty_cons, chars_app, <-app_assoc, read_basic_char, IH. done.
Qed.
Lemma chars_json s : chars (json_dumps_str s) = dquote_char :: chars (concat_map_str json_char s) ++ [dquote_char].
Proof. unfold json_dumps_str. change (String dquote_char (concat_map_str json_char s) +:+ String dquote_char "")
  with (String dquote_char (concat_map_str json_char s +:+ String dquote_char "")). simpl. by rewrite chars_app. Qed.
Lemma read_json_string s l : ∃ l', chars (json_dumps_str s) ++ l = dquote_char :: l' ∧ read_basic l' = Some (s, l).
Proof.
  exists (chars (concat_map_str json_char s) ++ dquote_char :: l). split; [|apply read_basic_json].
  rewrite chars_json. simpl. by rewrite <-app_assoc.
Qed.

(** Decimal digits. *)
Lemma span_app p l l' : forallb p l = true → match l' with c :: _ => p c = false | [] => True end → span p (l ++ l') = (l, l').
Proof.
  induction l as [|c l IH]; simpl; intros Hl Hr.
  - destruct l' as [|c l']; [done|]. simpl. by rewrite Hr.
  - apply andb_true_iff in Hl as [-> Hl]. by rewrite IH.
Qed.

Definition digits_value (acc : Z) (l : list ascii) : Z := fold_left (λ n c, n * 10 + digit_val c) l acc.
Lemma digit_of_mod x : is_digit_ascii (pretty_N_char (x `mod` 10)) = true ∧ digit_val (pretty_N_char (x `mod` 10)) = Z.of_N (x `mod` 10).
Proof.
  assert (x `mod` 10 < 10)%N as H by (apply N.mod_lt; lia). generalize dependent (x `mod` 10)%N. intros y Hy.
  assert (y ∈ [0; 1; 2; 3; 4; 5; 6; 7; 8; 9]%N) as Hin.
  { rewrite !elem_of_cons. lia. }
  rewrite !elem_of_cons in Hin. by destruct_or?; subst; try (by apply elem_of_nil in Hin).
Qed.
Lemma pretty_go_digits x s : forallb is_digit_ascii (chars s) = true → forallb is_digit_ascii (chars (pretty_N_go x s)) = true.
Proof.
  revert s. induction (N.lt_wf_0 x) as [x _ IH]; intros s Hs. destruct (decide (x = 0)%N) as [->|Hx]; [by rewrite pretty_N_go_0|].
  rewrite pretty_N_go_step by lia. apply IH; [apply N.div_lt; lia|]. simpl. by rewrite (proj1 (digit_of_mod x)).
Qed.
Lemma pretty_go_value x s acc : acc = 0 → digits_value acc (chars (pretty_N_go x s)) = digits_value (Z.of_N x) (chars s).
Proof.
  intros ->. revert s. induction (N.lt_wf_0 x) as [x _ IH]; intros s. destruct (decide (x = 0)%N) as [->|Hx]; [by rewrite pretty_N_go_0|].
  rewrite pretty_N_go_step by lia. rewrite IH by (apply N.div_lt; lia). unfold digits_value. simpl.
  rewrite (proj2 (digit_of_mod x)). f_equal. pose proof (N.div_mod x 10). lia.
Qed.
Lemma pretty_pos p : forallb is_digit_ascii (chars (pretty (N.pos p))) = true ∧ dec_value (pretty (N.pos p)) = Z.pos p.
Proof.
  unfold pretty, pretty_N. rewrite decide_False by done. split; [by apply pretty_go_digits|].
  change (digits_value 0 (chars (pretty_N_go (N.pos p) "")) = Z.pos p). by rewrite pretty_go_value.
Qed.

(** What may follow a value. *)
Definition delimited (rest : list ascii) : Prop := match rest with c :: _ => is_digit_ascii c = false | [] => True end.

Lemma read_int_text n rest : delimited rest → read_int (chars (str_int n) ++ rest) = Some (VInt n, rest).
Proof.
  intros Hr. destruct n as [|p|p].
  - change (chars (str_int 0) ++ rest) with ("0"%char :: rest). unfold read_int. simpl.
    destruct (span is_digit_ascii rest) as [a b] eqn:E. destruct rest as [|c rest]; simpl in E; [by injection E as <- <-|].
    rewrite Hr in E. by injection E as <- <-.
  - destruct (pretty_pos p) as [Hd Hv]. change (str_int (Z.pos p)) with (pretty (N.pos p)).
    assert (Hn : ∃ c l, chars (pretty (N.pos p)) = c :: l).
    { destruct (chars (pretty (N.pos p))) as [|c l] eqn:E; [|by exists c, l]. unfold dec_value in Hv. by rewrite E in Hv. }
    destruct Hn as (c & l & E). unfold read_int. rewrite E in *. cbn [app]. destruct (Ascii.eqb_spec c "-") as [->|Hc]; [done|].
    change (c :: l ++ rest) with ((c :: l) ++ rest). rewrite (span_app _ _ _ Hd Hr), <-E, unchars_chars, Hv.
    by rewrite bool_decide_eq_true_2.
  - destruct (pretty_pos p) as [Hd Hv]. change (chars (str_int (Z.neg p)) ++ rest) with ("-"%char :: chars (pretty (N.pos p)) ++ rest).
    unfold read_int. cbv beta iota. change (Ascii.eqb "-" "-") with true. cbv iota beta.
    rewrite (span_app _ _ _ Hd Hr), unchars_chars, Hv. by rewrite bool_decide_eq_true_2.
Qed.

Lemma after_Some w l : after w (chars w ++ l) = Some l.
Proof.
  unfold after. rewrite slen_chars.
  rewrite take_app_length, drop_app_length. by rewrite bool_decide_eq_true_2.
Qed.
Lemma after_None w x l c : c ≠ x → after (String x w) (c :: l) = None.
Proof. intros Hc. unfold after. simpl. rewrite bool_decide_eq_false_2; [done|]. by intros [= ? _]. Qed.

Lemma toml_list l : (fix go l := match l with
                     | [] => Ok []
                     | x :: l' => y ← _toml_value x; ys ← go l'; Ok (y :: ys)
                     end) l = mapR _toml_value l.
Proof. induction l as [|x l IH]; [done|]. simpl. destruct (_toml_value x); [|done]. simpl. by rewrite IH. Qed.

Lemma int_head n : ∃ c l, chars (str_int n) = c :: l ∧ (c = "-"%char ∨ is_digit_ascii c = true).
Proof.
  destruct n as [|p|p]; [by exists "0"%char, []; auto| |by eexists _, _; auto].
  destruct (pretty_pos p) as [Hd Hv]. change (str_int (Z.pos p)) with (pretty (N.pos p)).
  destruct (chars (pretty (N.pos p))) as [|c l] eqn:E; [unfold dec_value in Hv; by rewrite E in Hv|].
  exists c, l. split; [done|]. right. simpl in Hd. by apply andb_true_iff in Hd as [? _].
Qed.
(** No value begins with the bracket that ends an array. *)
Lemma value_head v text : _toml_value v = Ok text → ∃ c l, chars text = c :: l ∧ c ≠ "]"%char.
Proof.
  destruct v as [|[]|n| |s|l| |]; simpl; try discriminate; intros H.
  - injection H as <-. by eexists _, _.
  - injection H as <-. by eexists _, _.
  - injection H as <-. destruct (int_head n) as (c & l & -> & Hc). exists c, l. split; [done|]. by destruct Hc as [->|Hc]; [|intros ->].
  - injection H as <-. rewrite chars_json. by eexists _, _.
  - apply bind_Ok in H as (items & _ & H). injection H as <-. by eexists _, _.
Qed.

Lemma read_items_text l items fuel rest :
  Forall (λ v, ∀ text fuel rest, _toml_value v = Ok text → (length (chars text) ≤ fuel)%nat → delimited rest →
               read_value fuel (chars text ++ rest) = Some (v, rest)) l →
  Forall2 (λ v text, _toml_value v = Ok text) l items → l ≠ [] →
  (S (length (chars (join ", " items))) ≤ fuel)%nat →
  read_items fuel (chars (join ", " items) ++ "]"%char :: rest) = Some (l, rest).
Proof.
  intros IH Hi. revert fuel. induction Hi as [|v text l items Hv Hi IHi]; intros fuel Hne Hf; [done|].
  apply Forall_cons in IH as [IHv IH]. destruct fuel as [|fuel]; [lia|]. destruct Hi as [|v2 text2 l items Hv2 Hi].
  - change (S (length (chars text)) ≤ S fuel)%nat in Hf. change (join ", " [text]) with text. simpl read_items. rewrite (IHv text) by (done || lia). done.
  - change (join ", " (text :: text2 :: items)) with (text +:+ ", " +:+ join ", " (text2 :: items)) in *.
    rewrite !chars_app in *. rewrite !length_app in Hf. change (chars ", ") with [","%char; " "%char] in *.
    simpl read_items. rewrite <-!app_assoc. rewrite (IHv text) by (done || lia). simpl.
    rewrite IHi; [done|done|done|]. cbn [length] in Hf. lia.
Qed.

Lemma read_value_text v text fuel rest :
  _toml_value v = Ok text → (length (chars text) ≤ fuel)%nat → delimited rest →
  read_value fuel (chars text ++ rest) = Some (v, rest).
Proof.
  revert text fuel rest. induction v as [|b|n|f t|s|l IH|d _|t] using value_ind'; intros text fuel rest H Hf Hr; simpl in H; try discriminate.
  - injection H as <-. destruct fuel as [|fuel]; [destruct b; simpl in Hf; lia|]. by destruct b.
  - injection H as <-. destruct (int_head n) as (c & l & E & Hc). pose proof (read_int_text n rest Hr) as Hn.
    rewrite E in *. destruct fuel as [|fuel]; [simpl in Hf; lia|]. simpl.
    assert (c ≠ dquote_char ∧ c ≠ "["%char ∧ c ≠ "t"%char ∧ c ≠ "f"%char) as (H1 & H2 & H3 & H4).
    { destruct Hc as [->|Hc]; [done|]. split_and!; intros ->; discriminate Hc. }
    rewrite (proj2 (Ascii.eqb_neq c dquote_char)), (proj2 (Ascii.eqb_neq c "[")) by done.
    by rewrite !after_None.
  - injection H as <-. destruct (read_json_string s rest) as (l' & -> & Hb). destruct fuel as [|fuel]; [rewrite chars_json in Hf; simpl in Hf; lia|].
    simpl. by rewrite Hb.
  - apply bind_Ok in H as (items & Hi & H). injection H as <-. rewrite toml_list in Hi. apply mapR_Ok in Hi.
    change ("[" +:+ join ", " items +:+ "]") with (String "[" (join ", " items +:+ "]")) in *.
    change (chars (String "[" (join ", " items +:+ "]"))) with ("["%char :: chars (join ", " items +:+ "]")) in *.
    rewrite chars_app in *. destruct fuel as [|fuel]; [simpl in Hf; lia|]. simpl in Hf. rewrite length_app in Hf. simpl in Hf.
    rewrite <-app_comm_cons, <-app_assoc. simpl.
    destruct l as [|v l]; [by inversion Hi|]. assert (after "]" (chars (join ", " items) ++ "]"%char :: rest) = None) as ->.
    { inversion Hi as [|? text ? items' Hv Hi']; subst. destruct (value_head _ _ Hv) as (c & t & E & Hc).
      destruct items'; [change (join ", " [text]) with text|change (join ", " (text :: s :: items')) with (text +:+ ", " +:+ join ", " (s :: items')); rewrite chars_app];
        rewrite E; by apply after_None. }
    rewrite (read_items_text (v :: l) items fuel rest); [done|exact IH|done|done|lia].
Qed.
