(* ===== verification/TomlFacts.v ===== *)
(** * The canonical TOML reads back as the configuration *)

From Stdlib Require Import Ascii.
From S2P Require Import Prelude PyStr PyVal ConfigCheck Config PartialConfig PartialFacts Toml.

Local Open Scope Z_scope.

(** ** Lines *)

Definition ends_key (rest : list ascii) : Prop := match rest with c :: _ => is_bare_key_char c = false | [] => True end.

Lemma bare_key k : key_ok k → _BARE_KEY_RE k = true → k ≠ "" ∧ forallb is_bare_key_char (chars k) = true.
Proof.
  unfold _BARE_KEY_RE. intros Hk H. destruct (rev (chars k)) as [|c l] eqn:E.
  - apply andb_true_iff in H as [H _]. by rewrite bool_decide_eq_true_2 in H.
  - destruct (Ascii.eqb_spec c nl_char) as [->|Hc].
    + exfalso. apply Hk. exists (unchars (rev l)). apply chars_inj. rewrite chars_app, chars_unchars.
      by rewrite <-(rev_involutive (chars k)), E.
    + apply andb_true_iff in H as [_ H]. split; [by intros ->|]. rewrite <-(rev_involutive (chars k)), E.
      rewrite forallb_forall in *. intros x Hx%in_rev. by apply H.
Qed.

Lemma key_head k : key_ok k → ∃ c l, chars (_toml_key k) = c :: l ∧ (c = dquote_char ∨ is_bare_key_char c = true).
Proof.
  intros Hk. unfold _toml_key. destruct (_BARE_KEY_RE k) eqn:E.
  - apply bare_key in E as [Hne Hb]; [|done]. destruct k as [|c k]; [done|]. exists c, (chars k). split; [done|].
    right. simpl in Hb. by apply andb_true_iff in Hb as [? _].
  - rewrite chars_json. eexists _, _. by split; [|left].
Qed.

Lemma read_key_text k rest : key_ok k → ends_key rest → read_key (chars (_toml_key k) ++ rest) = Some (k, rest).
Proof.
  intros Hk Hr. unfold _toml_key. destruct (_BARE_KEY_RE k) eqn:E.
  - apply bare_key in E as [Hne Hb]; [|done]. unfold read_key. destruct k as [|c k]; [done|].
    change (chars (String c k)) with (c :: chars k) in *. rewrite <-app_comm_cons.
    destruct (Ascii.eqb_spec c dquote_char) as [->|Hc]; [simpl in Hb; done|].
    change (c :: chars k ++ rest) with ((c :: chars k) ++ rest). rewrite (span_app _ _ _ Hb Hr).
    change (c :: chars k) with (chars (String c k)). by rewrite unchars_chars.
  - destruct (read_json_string k rest) as (l & -> & Hl). by unfold read_key.
Qed.

(** A line [key = value] defines the key in the open table. *)
Lemma read_line_text k v line root p : key_ok k → toml_line (k, v) = Ok line →
  read_line (root, p) line = (λ root', (root', p)) <$> put (p ++ [k]) v root.
Proof.
  intros Hk H. unfold toml_line in H. apply bind_Ok in H as (text & Hv & H). injection H as <-. simpl in Hv.
  change ((k, v).1) with k. destruct (key_head k Hk) as (c & l & E & Hc). unfold read_line.
  rewrite !chars_app. pose proof (read_key_text k (chars " = " ++ chars text) Hk eq_refl) as Hkey. rewrite E in *.
  rewrite <-app_comm_cons in *. destruct (Ascii.eqb_spec c "[") as [->|_]; [by destruct Hc|].
  rewrite Hkey. simpl mbind. rewrite drop_0.
  pose proof (read_value_text v text (length (chars text)) [] Hv (le_n _) I) as Hval. rewrite app_nil_r in Hval.
  rewrite Hval. simpl. by destruct (put _ v root).
Qed.

Lemma read_header_text p fuel : p ≠ [] → Forall key_ok p → (length p ≤ fuel)%nat →
  read_header fuel (chars (join "." (map _toml_key p)) ++ ["]"%char]) = Some p.
Proof.
  revert fuel. induction p as [|k [|k2 p] IH]; intros fuel Hne Hp Hf; [done| |].
  - apply Forall_cons in Hp as [Hk _]. destruct fuel as [|fuel]; [simpl in Hf; lia|]. simpl.
    by rewrite (read_key_text k ["]"%char]).
  - apply Forall_cons in Hp as [Hk Hp]. destruct fuel as [|fuel]; [simpl in Hf; lia|].
    change (join "." (map _toml_key (k :: k2 :: p))) with (_toml_key k +:+ "." +:+ join "." (map _toml_key (k2 :: p))).
    rewrite !chars_app, <-!app_assoc. simpl read_header.
    rewrite (read_key_text k _ Hk); [|done]. simpl mbind.
    change (read_header fuel (drop 0 (chars (join "." (map _toml_key (k2 :: p))) ++ ["]"%char])) ≫= (λ ks, Some (k :: ks))
      = Some (k :: k2 :: p)).
    rewrite drop_0, IH; [done..|simpl in *; lia].
Qed.
Lemma header_length p : Forall key_ok p → (length p ≤ length (chars (join "." (map _toml_key p))) + 1)%nat.
Proof.
  induction p as [|k [|k2 p] IH]; intros Hp; [simpl; lia..|]. apply Forall_cons in Hp as [Hk Hp].
  change (join "." (map _toml_key (k :: k2 :: p))) with (_toml_key k +:+ "." +:+ join "." (map _toml_key (k2 :: p))).
  rewrite !chars_app, !length_app. specialize (IH Hp). cbn [length chars] in *. lia.
Qed.
Lemma read_header_line p doc : p ≠ [] → Forall key_ok p →
  read_line doc ("[" +:+ join "." (map _toml_key p) +:+ "]") = (λ root, (root, p)) <$> put p (VDict []) doc.1.
Proof.
  intros Hne Hp. change ("[" +:+ join "." (map _toml_key p) +:+ "]") with (String "[" (join "." (map _toml_key p) +:+ "]")).
  unfold read_line. change (chars (String "[" (join "." (map _toml_key p) +:+ "]")))
    with ("["%char :: chars (join "." (map _toml_key p) +:+ "]")). rewrite chars_app.
  change (Ascii.eqb "[" "[") with true. cbv iota. rewrite read_header_text; [|done|done|].
  - simpl. by destruct (put p _ _).
  - rewrite length_app. pose proof (header_length p Hp). simpl. lia.
Qed.

Lemma read_lines_app l1 l2 doc : read_lines (l1 ++ l2) doc = read_lines l1 doc ≫= read_lines l2.
Proof. revert doc. induction l1 as [|x l1 IH]; intros doc; [done|]. simpl. destruct (read_line doc x); [apply IH|done]. Qed.

Lemma read_lines_seq l1 l2 doc doc1 r : read_lines l1 doc = Some doc1 → read_lines l2 doc1 = r → read_lines (l1 ++ l2) doc = r.
Proof. intros H1 H2. by rewrite read_lines_app, H1. Qed.

(** ** Defining tables and keys *)

Lemma dset_absent {A} k (x : A) d : dget k d = None → dset k x d = d ++ [(k, x)].
Proof. induction d as [|[j y] d IH]; simpl; [done|]. case_decide; [done|]. intros Hd. by rewrite IH. Qed.

Lemma put_cons k k2 p v d :
  put (k :: k2 :: p) v d = match dget k d with
                           | None => t ← put (k2 :: p) v []; Some (dset k (VDict t) d)
                           | Some (VDict t) => t' ← put (k2 :: p) v t; Some (dset k (VDict t') d)
                           | Some _ => None
                           end.
Proof. done. Qed.
Lemma dmem_dget {A} k (d : dict A) : dmem k d = false ↔ dget k d = None.
Proof. rewrite <-not_true_iff_false, dmem_true, dget_None. done. Qed.
Lemma put_one k v d : put [k] v d = if dmem k d then None else Some (dset k v d).
Proof. done. Qed.

Lemma put_snoc p d root r k x : p ≠ [] → put p (VDict d) root = Some r → dget k d = None →
  put (p ++ [k]) x r = put p (VDict (dset k x d)) root.
Proof.
  revert root r. induction p as [|k1 [|k2 p] IH]; intros root r Hne Hp Hk; [done| |].
  - rewrite put_one in *. destruct (dmem k1 root); [done|]. injection Hp as <-. change ([k1] ++ [k]) with [k1; k].
    rewrite put_cons, dget_dset_eq, put_one, (proj2 (dmem_dget _ _) Hk). simpl. by rewrite dset_dset.
  - change ((k1 :: k2 :: p) ++ [k]) with (k1 :: k2 :: (p ++ [k])). rewrite !put_cons in *.
    assert (∀ t, put (k2 :: p) (VDict d) t ≫= (λ t', Some (dset k1 (VDict t') root)) = Some r →
      put (k2 :: p ++ [k]) x (default [] (match dget k1 r with Some (VDict t') => Some t' | _ => None end)) ≫= (λ t', Some (dset k1 (VDict t') r))
      = put (k2 :: p) (VDict (dset k x d)) t ≫= (λ t', Some (dset k1 (VDict t') root))) as Hstep.
    { intros t Ht. destruct (put (k2 :: p) (VDict d) t) as [t'|] eqn:Hput; [|done]. injection Ht as <-.
      rewrite dget_dset_eq. change (default [] (Some t')) with t'. change (k2 :: p ++ [k]) with ((k2 :: p) ++ [k]). rewrite (IH t t') by done.
      destruct (put (k2 :: p) (VDict (dset k x d)) t) as [t2|]; [|done]. change (Some (dset k1 (VDict t2) (dset k1 (VDict t') root)) = Some (dset k1 (VDict t2) root)). by rewrite dset_dset. }
    assert (∃ t', dget k1 r = Some (VDict t')) as [t' Ht'].
    { destruct (dget k1 root) as [[]|]; try done.
      all: match type of Hp with (put ?a ?b ?c ≫= _) = _ => destruct (put a b c) end; [|done]; injection Hp as <-;
        rewrite dget_dset_eq; eauto. }
    rewrite Ht' in *. destruct (dget k1 root) as [[| | | | | |t|]|]; try done; by apply Hstep.
Qed.

Lemma put_fresh p root r k x : p ≠ [] → put p (VDict []) root = Some r →
  put (p ++ [k]) x root = put p (VDict [(k, x)]) root.
Proof.
  revert root r. induction p as [|k1 [|k2 p] IH]; intros root r Hne Hp; [done| |].
  - rewrite put_one in *. destruct (dmem k1 root) eqn:E; [done|]. change ([k1] ++ [k]) with [k1; k].
    rewrite put_cons, (proj1 (dmem_dget _ _) E). done.
  - change ((k1 :: k2 :: p) ++ [k]) with (k1 :: k2 :: (p ++ [k])). rewrite !put_cons in *.
    change (k2 :: p ++ [k]) with ((k2 :: p) ++ [k]).
    destruct (dget k1 root) as [[| | | | | |t|]|]; try done.
    all: match type of Hp with (put ?a ?b ?c ≫= _) = _ => destruct (put a b c) eqn:Hput end; [|done]; by rewrite (IH _ _ ltac:(done) Hput).
Qed.

Lemma put_any p v v' root r : put p v root = Some r → ∃ r', put p v' root = Some r'.
Proof.
  revert root r. induction p as [|k1 [|k2 p] IH]; intros root r Hp; [done| |].
  - rewrite put_one in *. destruct (dmem k1 root); [done|]. eauto.
  - rewrite !put_cons in *. destruct (dget k1 root) as [[| | | | | |t|]|]; try done.
    all: match type of Hp with (put ?a ?b ?c ≫= _) = _ => destruct (put a b c) eqn:Hput end; [|done];
      destruct (IH _ _ Hput) as [t' ->]; eauto.
Qed.

(** The table at [p] holds [d], or is not there yet and [d] is empty. *)
Definition at_table (p : list string) (d root r : dict value) : Prop :=
  put p (VDict d) root = Some r ∨ (d = [] ∧ r = root ∧ ∃ r', put p (VDict []) root = Some r').
Lemma at_table_child p d root r k x : p ≠ [] → at_table p d root r → dget k d = None →
  put (p ++ [k]) x r = put p (VDict (dset k x d)) root ∧ ∃ r', put p (VDict (dset k x d)) root = Some r'.
Proof.
  intros Hne [H|(-> & -> & r' & H)] Hk; split.
  - by apply put_snoc. - by eapply put_any. - by eapply put_fresh. - by eapply put_any.
Qed.

(** ** The order of the dumped text: values first, then tables *)

Fixpoint table_order (v : value) : value :=
  match v with
  | VDict d =>
      VDict (scalars_of d ++
             (fix go (d : list (string * value)) : list (string * value) :=
                match d with
                | [] => []
                | (k, x) :: d' => match x with VDict _ => (k, table_order x) :: go d' | _ => go d' end
                end) d)
  | _ => v
  end.
(** The tables of a table, each in this order. *)
Fixpoint tables_of (d : dict value) : dict value :=
  match d with
  | [] => []
  | (k, x) :: d' => match x with VDict _ => (k, table_order x) :: tables_of d' | _ => tables_of d' end
  end.
Lemma table_order_dict d : table_order (VDict d) = VDict (scalars_of d ++ tables_of d).
Proof. done. Qed.

Lemma dkeys_tables d k : k ∈ dkeys (tables_of d) → k ∈ dkeys d.
Proof.
  induction d as [|[j x] d IH]; simpl; [done|]. rewrite elem_of_cons.
  destruct x; simpl; rewrite ?elem_of_cons; naive_solver.
Qed.
Lemma dkeys_scalars d k : k ∈ dkeys (scalars_of d) → k ∈ dkeys d.
Proof.
  unfold dkeys, scalars_of. rewrite !list_elem_of_fmap. intros (kv & -> & H). apply list_elem_of_filter in H as [_ H]. by exists kv.
Qed.

(** The keys [d] does not define yet, each once. *)
Definition fresh (t d : dict value) : Prop := NoDup (dkeys t) ∧ ∀ k, k ∈ dkeys t → dget k d = None.
Lemma fresh_cons k x t d : fresh ((k, x) :: t) d → dget k d = None ∧ fresh t (d ++ [(k, x)]) ∧ fresh t d.
Proof.
  intros [Hnd Hd]. apply NoDup_cons in Hnd as [Hk Hnd]. split_and!; [apply Hd; by left| |by split; [|intros j Hj; apply Hd; by right]].
  split; [done|]. intros j Hj. apply dget_None. unfold dkeys. rewrite fmap_app, elem_of_app. simpl. rewrite list_elem_of_singleton.
  intros [Hin| ->]; [|by apply Hk]. assert (dget j d = None) as Hn by (apply Hd; by right). by apply dget_None in Hn.
Qed.

Lemma read_scalars t ls p d root r : Forall (λ kv, key_ok kv.1) t → mapR toml_line t = Ok ls → p ≠ [] →
  fresh t d → put p (VDict d) root = Some r →
  ∃ r', read_lines ls (r, p) = Some (r', p) ∧ put p (VDict (d ++ t)) root = Some r'.
Proof.
  intros Hk Hls%mapR_Ok Hne. revert d r. induction Hls as [|[k x] line t ls Hl Hls IH]; intros d r Hf Hp.
  - rewrite app_nil_r. by exists r.
  - apply Forall_cons in Hk as [Hk1 Hk]. apply fresh_cons in Hf as (Hkd & Hf & _).
    simpl read_lines. rewrite (read_line_text k x) by done. rewrite (put_snoc p d root r) by done.
    destruct (put_any p _ (VDict (dset k x d)) root r Hp) as [r1 Hr1]. rewrite Hr1. simpl.
    rewrite dset_absent in Hr1 by done. destruct (IH Hk (d ++ [(k, x)]) r1 Hf Hr1) as (r' & Hr & Hput).
    exists r'. split; [done|]. by rewrite <-app_assoc in Hput.
Qed.

(** What reading the lines of the table [v] at [path] does. *)
Definition reads_table (v : value) (path : list string) (new : list string) : Prop :=
  ∀ root r0 cur, put path (VDict []) root = Some r0 →
    ∃ cur' r, read_lines new (root, cur) = Some (r, cur') ∧ put path (table_order v) root = Some r.

Abbreviation append_subtables path :=
  (fix go (t : list (string * value)) (lines : list string) : result (list string) :=
     match t with
     | [] => Ok lines
     | (k, x) :: t' =>
         match x with
         | VDict _ => lines' ← append_table x (path ++ [k]) lines; go t' lines'
         | _ => go t' lines
         end
     end).

Lemma read_subtables t path lines ls :
  Forall (λ kv, ∀ path lines ls, path ≠ [] → Forall key_ok path → keys_ok kv.2 → wf_value kv.2 → is_dict kv.2 = true →
            append_table kv.2 path lines = Ok ls → ∃ new, ls = lines ++ new ∧ reads_table kv.2 path new) t →
  path ≠ [] → Forall key_ok path → Forall (λ kv, key_ok kv.1 ∧ keys_ok kv.2) t → Forall (λ kv, wf_value kv.2) t →
  append_subtables path t lines = Ok ls →
  ∃ new, ls = lines ++ new ∧ ∀ d root r cur, fresh (tables_of t) d → at_table path d root r →
    ∃ cur' r', read_lines new (r, cur) = Some (r', cur') ∧
      (tables_of t = [] ∧ r' = r ∨ put path (VDict (d ++ tables_of t)) root = Some r').
Proof.
  intros IH Hne Hp Hk Hw. revert lines ls. induction t as [|[k x] t IHt]; intros lines ls H.
  - injection H as <-. exists []. split; [by rewrite app_nil_r|]. intros d root r cur _ Ht. exists cur, r.
    split; [done|]. by left.
  - apply Forall_cons in IH as [IHx IH]. apply Forall_cons in Hk as [[Hk1 Hkx] Hk]. apply Forall_cons in Hw as [Hwx Hw]. simpl in Hk1, Hkx, Hwx, IHx.
    specialize (IHt IH Hk Hw). destruct (is_dict x) eqn:Hx.
    + destruct x as [| | | | | |d0|]; try done. apply bind_Ok in H as (lines1 & H1 & H).
      destruct (IHx (path ++ [k]) lines lines1) as (new1 & -> & Hr1);
        [by destruct path|apply Forall_app; by repeat constructor|done..|].
      destruct (IHt _ _ H) as (new2 & -> & Hr2). exists (new1 ++ new2). split; [by rewrite app_assoc|].
      intros d root r cur Hf Ht. apply fresh_cons in Hf as (Hkd & Hf & _).
      destruct (at_table_child path d root r k (VDict []) Hne Ht Hkd) as [Hc [r0 Hr0]]. rewrite Hr0 in Hc.
      destruct (Hr1 r r0 cur Hc) as (cur1 & r1 & Hl1 & Hput1).
      destruct (at_table_child path d root r k (table_order (VDict d0)) Hne Ht Hkd) as [Hc2 _]. rewrite Hc2 in Hput1.
      rewrite dset_absent in Hput1 by done.
      destruct (Hr2 (d ++ [(k, table_order (VDict d0))]) root r1 cur1) as (cur2 & r2 & Hl2 & Ht2); [exact Hf|by left|].
      exists cur2, r2. rewrite read_lines_app, Hl1. split; [done|]. right.
      destruct Ht2 as [[E ->]|Ht2]; [by simpl; rewrite E|by rewrite <-app_assoc in Ht2].
    + assert (append_subtables path t lines = Ok ls) as H' by (by destruct x).
      destruct (IHt _ _ H') as (new & -> & Hr). exists new. split; [done|]. intros d root r cur Hf Ht.
      assert (tables_of ((k, x) :: t) = tables_of t) as E by (by destruct x). rewrite E in *. by apply Hr.
Qed.

Lemma scalars_empty d : scalars_of d = [] → d ≠ [] → tables_of d ≠ [].
Proof. destruct d as [|[k x] d]; [done|]. by destruct x. Qed.
Lemma wf_parts d : wf_dict d → fresh (scalars_of d) [] ∧ fresh (tables_of d) (scalars_of d).
Proof.
  unfold fresh, wf_dict. induction d as [|[k x] d IH]; intros Hd.
  { repeat split; try constructor; intros k Hk; by apply elem_of_nil in Hk. }
  apply NoDup_cons in Hd as [Hk Hd]. destruct (IH Hd) as [[H1 _] [H2 H3]].
  assert (k ∉ dkeys (scalars_of d) ∧ k ∉ dkeys (tables_of d)) as [Hs Ht].
  { split; intros Hin; apply Hk; [by apply dkeys_scalars|by apply dkeys_tables]. }
  split; [split; [|done]|].
  - destruct x; simpl; try done; by apply NoDup_cons.
  - assert (∀ y, is_dict y = false → NoDup (dkeys (tables_of d)) ∧ ∀ j, j ∈ dkeys (tables_of d) → dget j ((k, y) :: scalars_of d) = None) as Hy.
    { intros y _. split; [done|]. intros j Hj. simpl. case_decide; [by subst|]. by apply H3. }
    destruct x as [|b|n|f t|t|l|t|t]; [by apply (Hy VNone)|by apply (Hy (VBool b))|by apply (Hy (VInt n))|by apply (Hy (VFloat f t))|by apply (Hy (VStr t))|by apply (Hy (VList l))| |by apply (Hy (VOther t))].
    simpl. split; [by apply NoDup_cons|].
    intros j [->|Hj]%elem_of_cons; [by apply dget_None|by apply H3].
Qed.

Lemma append_table_read v path lines ls : path ≠ [] → Forall key_ok path → keys_ok v → wf_value v → is_dict v = true →
  append_table v path lines = Ok ls → ∃ new, ls = lines ++ new ∧ reads_table v path new.
Proof.
  revert path lines ls. induction v as [|b|n|f t|s|l IH|d IH|t] using value_ind'; intros path lines ls Hne Hp Hk Hw Hd H; try done.
  clear Hd. apply keys_ok_dict in Hk. apply wf_value_dict in Hw as [Hwd Hw]. destruct (wf_parts d Hwd) as [Hfs Hft].
  simpl in H. apply bind_Ok in H as (lines1 & H1 & H).
  destruct (read_subtables d path lines1 ls) as (new2 & -> & Hr2); [|done..|].
  { eapply Forall_impl; [exact IH|]. intros kv Hkv path' lines' ls' ?????. by apply Hkv. }
  destruct (negb _ || _) eqn:Hheader.
  - apply bind_Ok in H1 as (kvs & Hkvs & [= <-]).
    set (blank := if bool_decide (lines = []) then [] else [""]).
    exists (blank ++ [("[" +:+ join "." (map _toml_key path) +:+ "]")] ++ kvs ++ new2).
    split; [by rewrite <-!app_assoc|]. intros root r0 cur Hput.
    assert (read_lines blank (root, cur) = Some (root, cur)) as Hb by (unfold blank; by case_bool_decide).
    assert (read_lines [("[" +:+ join "." (map _toml_key path) +:+ "]")] (root, cur) = Some (r0, path)) as Hh.
    { cbn [read_lines]. rewrite read_header_line by done. simpl fst. by rewrite Hput. }
    destruct (read_scalars (scalars_of d) kvs path [] root r0) as (r1 & Hl1 & Hput1); try done.
    { eapply Forall_impl; [by apply keys_ok_scalars|]. by intros ? [? _]. }
    destruct (Hr2 (scalars_of d) root r1 path Hft) as (cur2 & r2 & Hl2 & Ht2); [by left|].
    exists cur2, r2. split.
    { apply (read_lines_seq _ _ _ _ _ Hb), (read_lines_seq _ _ _ _ _ Hh), (read_lines_seq _ _ _ _ _ Hl1), Hl2. }
    rewrite table_order_dict. destruct Ht2 as [[E ->]|Ht2]; [by rewrite E, app_nil_r|done].
  - injection H1 as <-. exists new2. split; [done|]. intros root r0 cur Hput.
    apply orb_false_iff in Hheader as [Hs He]. apply negb_false_iff, bool_decide_eq_true, nil_length_inv in Hs.
    apply bool_decide_eq_false in He.
    destruct (Hr2 [] root root cur) as (cur2 & r2 & Hl2 & Ht2).
    { rewrite <-Hs. exact Hft. } { right. eauto. }
    exists cur2, r2. split; [done|]. rewrite table_order_dict, Hs. destruct Ht2 as [[E _]|Ht2]; [|done].
    exfalso. apply (scalars_empty d); [done|by intros ->|done].
Qed.

(** ** The whole text *)

Lemma read_root_scalars t ls d : Forall (λ kv, key_ok kv.1) t → mapR toml_line t = Ok ls → fresh t d →
  read_lines ls (d, []) = Some (d ++ t, []).
Proof.
  intros Hk Hls%mapR_Ok. revert d. induction Hls as [|[k x] line t ls Hl Hls IH]; intros d Hf; [by rewrite app_nil_r|].
  apply Forall_cons in Hk as [Hk1 Hk]. apply fresh_cons in Hf as (Hkd & Hf & _). simpl read_lines.
  rewrite (read_line_text k x) by done. change ([] ++ [k]) with [k]. rewrite put_one, (proj2 (dmem_dget _ _) Hkd).
  simpl. rewrite dset_absent, IH by done. by rewrite <-app_assoc.
Qed.

Definition dump_tables (lines : list string) (kv : string * value) : result (list string) :=
  let '(k, v) := kv in match v with VDict t => _append_table lines [k] t | _ => Ok lines end.
Lemma read_root_tables t lines ls : Forall (λ kv, key_ok kv.1 ∧ keys_ok kv.2) t → Forall (λ kv, wf_value kv.2) t →
  forR dump_tables t lines = Ok ls →
  ∃ new, ls = lines ++ new ∧ ∀ d cur, fresh (tables_of t) d → ∃ cur', read_lines new (d, cur) = Some (d ++ tables_of t, cur').
Proof.
  revert lines ls. induction t as [|[k x] t IH]; intros lines ls Hk Hw H.
  { injection H as <-. exists []. split; [by rewrite app_nil_r|]. intros d cur _. exists cur. simpl. by rewrite app_nil_r. }
  apply Forall_cons in Hk as [[Hk1 Hkx] Hk]. apply Forall_cons in Hw as [Hwx Hw]. apply bind_Ok in H as (lines1 & H1 & H).
  destruct (IH _ _ Hk Hw H) as (new2 & -> & Hr2). destruct (is_dict x) eqn:Hx.
  - destruct x as [| | | | | |d0|]; try done.
    destruct (append_table_read (VDict d0) [k] lines lines1) as (new1 & -> & Hr1); try done; [by repeat constructor|].
    exists (new1 ++ new2). split; [by rewrite app_assoc|]. intros d cur Hf. apply fresh_cons in Hf as (Hkd & Hf & _).
    destruct (Hr1 d (dset k (VDict []) d) cur) as (cur1 & r & Hl & Hput).
    { by rewrite put_one, (proj2 (dmem_dget _ _) Hkd). }
    rewrite put_one, (proj2 (dmem_dget _ _) Hkd), dset_absent in Hput by done. injection Hput as <-.
    destruct (Hr2 _ cur1 Hf) as (cur2 & Hl2). exists cur2. apply (read_lines_seq _ _ _ _ _ Hl).
    etrans; [exact Hl2|]. by rewrite <-app_assoc.
  - assert (lines1 = lines) as -> by (destruct x; by simplify_eq/=). exists new2. split; [done|].
    assert (tables_of ((k, x) :: t) = tables_of t) as -> by (by destruct x). done.
Qed.

Lemma read_toml_lines data ls : wf_value (VDict data) → keys_ok (VDict data) → toml_lines data = Ok ls →
  ∃ cur, read_lines ls ([], []) = Some (scalars_of data ++ tables_of data, cur).
Proof.
  intros [Hwd Hw]%wf_value_dict Hk%keys_ok_dict H. destruct (wf_parts data Hwd) as [Hfs Hft].
  unfold toml_lines in H. apply bind_Ok in H as (kvs & Hkvs & H).
  destruct (read_root_tables data kvs ls Hk Hw H) as (new & -> & Hr).
  assert (read_lines kvs ([], []) = Some (scalars_of data, [])) as Hl.
  { change (scalars_of data) with ([] ++ scalars_of data). apply read_root_scalars; [|done..]. eapply Forall_impl; [by apply keys_ok_scalars|]. by intros ? [? _]. }
  destruct (Hr _ [] Hft) as (cur & Hl2). exists cur. by apply (read_lines_seq _ _ _ _ _ Hl).
Qed.

(** ** Nothing is stripped off the text *)

Definition solid (s : string) : Prop :=
  ∃ c l d m, chars s = c :: l ∧ isspace c = false ∧ rev (chars s) = d :: m ∧ isspace d = false.
Definition trimmed (ls : list string) : Prop :=
  ls = [] ∨ (∃ x l, ls = x :: l ∧ solid x) ∧ (∃ l x, ls = l ++ [x] ∧ solid x).

Lemma trimmed_more ls new : trimmed ls → Forall solid new → trimmed (ls ++ (if bool_decide (ls = []) then [] else [""]) ++ new) ∨ new = [].
Proof.
  intros Hls Hn. destruct (decide (new = [])) as [->|Hne]; [by right|]. left. right. split.
  - destruct Hls as [->|[(x & l & -> & Hx) _]].
    + destruct new as [|x new]; [done|]. apply Forall_cons in Hn as [Hx _]. by exists x, new.
    + eexists x, _. split; [|done]. by rewrite <-app_comm_cons.
  - destruct (exists_last Hne) as (l & x & ->). apply Forall_app in Hn as [_ [Hx _]%Forall_cons].
    exists (ls ++ (if bool_decide (ls = []) then [] else [""]) ++ l), x. split; [|done]. by rewrite <-!app_assoc.
Qed.

Lemma strip_solid s : solid s → strip s = s.
Proof.
  intros (c & l & d & m & Hc & Hcs & Hd & Hds). unfold strip, rstrip_by, lstrip_by. rewrite chars_unchars, !drop_while_id.
  - by rewrite rev_involutive, unchars_chars.
  - intros c' l'. rewrite Hc. by intros [= <- _].
  - intros c' l'. rewrite drop_while_id, Hd; [by intros [= <- _]|]. intros c2 l2. rewrite Hc. by intros [= <- _].
Qed.
Lemma solid_app s t u : (∃ c l, chars s = c :: l ∧ isspace c = false) → (∃ d m, rev (chars u) = d :: m ∧ isspace d = false) →
  solid (s +:+ t +:+ u).
Proof.
  intros (c & l & Hs & Hc) (d & m & Hu & Hd). unfold solid. rewrite !chars_app, !rev_app_distr, Hs, Hu.
  eexists c, _, d, _. split_and!; [done..|]. done.
Qed.
Lemma join_cons_line sep x y l : join sep (x :: y :: l) = x +:+ sep +:+ join sep (y :: l).
Proof. done. Qed.
Lemma join_head sep x l : (∃ c k, chars x = c :: k ∧ isspace c = false) → ∃ c k, chars (join sep (x :: l)) = c :: k ∧ isspace c = false.
Proof.
  intros (c & k & Hx & Hc). destruct l as [|y l]; [by exists c, k|]. rewrite join_cons_line, chars_app, Hx. by eexists c, _.
Qed.
Lemma join_last_line sep l x : (∃ d m, rev (chars x) = d :: m ∧ isspace d = false) →
  ∃ d m, rev (chars (join sep (l ++ [x]))) = d :: m ∧ isspace d = false.
Proof.
  intros (d & m & Hx & Hd). induction l as [|y l IH]; [by exists d, m|]. destruct IH as (d' & m' & IH & Hd').
  rewrite <-app_comm_cons. destruct (l ++ [x]) as [|z k] eqn:E; [by destruct l|]. rewrite join_cons_line, !chars_app, !rev_app_distr, IH.
  by eexists d', _.
Qed.
Lemma strip_trimmed ls : trimmed ls → strip (join nl ls) = join nl ls.
Proof.
  intros [->|[(x & l & -> & Hx) (k & y & E & Hy)]]; [done|]. apply strip_solid.
  destruct Hx as (c & m & _ & _ & Hx & Hc & _). destruct Hy as (_ & _ & d & m' & _ & _ & Hy & Hd).
  destruct (join_head nl x l) as (c1 & k1 & H1 & Hc1); [by exists c, m|].
  destruct (join_last_line nl k y) as (d1 & k2 & H2 & Hd1); [by exists d, m'|]. rewrite <-E in H2. by exists c1, k1, d1, k2.
Qed.

Lemma value_last v text : _toml_value v = Ok text → ∃ d m, rev (chars text) = d :: m ∧ isspace d = false.
Proof.
  assert (∀ p, ∃ d m, rev (chars (pretty (N.pos p))) = d :: m ∧ isspace d = false) as Hdec.
  { intros p. destruct (pretty_pos p) as [Hp Hv]. destruct (rev (chars (pretty (N.pos p)))) as [|d m] eqn:E.
    - apply (f_equal (@rev ascii)) in E. rewrite rev_involutive in E. unfold dec_value in Hv. by rewrite E in Hv.
    - exists d, m. split; [done|]. rewrite forallb_forall in Hp. assert (is_digit_ascii d = true) as Hd.
      { apply Hp, in_rev. rewrite E. by left. }
      destruct d as [[] [] [] [] [] [] [] []]; done. }
  destruct v as [|[]|n| |s|l| |]; simpl; try discriminate; intros H.
  - injection H as <-. by eexists _, _.
  - injection H as <-. by eexists _, _.
  - injection H as <-. destruct n as [|p|p]; [by eexists _, _|apply Hdec|].
    change (str_int (Z.neg p)) with (String "-" (pretty (N.pos p))). simpl. destruct (Hdec p) as (d & m & -> & Hd). by eexists d, _.
  - injection H as <-. rewrite chars_json, app_comm_cons, rev_app_distr. by eexists _, _.
  - apply bind_Ok in H as (items & _ & H). injection H as <-.
    change ("[" +:+ join ", " items +:+ "]") with (("[" +:+ join ", " items) +:+ "]"). rewrite chars_app, rev_app_distr. by eexists _, _.
Qed.
Lemma bare_not_space c : is_bare_key_char c = true → isspace c = false.
Proof. by destruct c as [[] [] [] [] [] [] [] []]. Qed.
Lemma solid_line k v line : key_ok k → toml_line (k, v) = Ok line → solid line.
Proof.
  intros Hk H. unfold toml_line in H. apply bind_Ok in H as (text & Hv & H). injection H as <-.
  apply solid_app; [|by eapply value_last]. destruct (key_head k Hk) as (c & l & E & Hc). exists c, l. split; [done|].
  destruct Hc as [->|Hc]; [done|by apply bare_not_space].
Qed.
Lemma solid_lines t ls : Forall (λ kv, key_ok kv.1 ∧ keys_ok kv.2) t → mapR toml_line t = Ok ls → Forall solid ls.
Proof.
  intros Hk Hls%mapR_Ok. induction Hls as [|[k v] line t ls Hl Hls IH]; [constructor|].
  apply Forall_cons in Hk as [[Hk1 _] Hk]. constructor; [by eapply solid_line|by apply IH].
Qed.
Lemma solid_header p : solid ("[" +:+ join "." (map _toml_key p) +:+ "]").
Proof. apply solid_app; by eexists _, _. Qed.

Lemma append_table_trimmed v path lines ls : keys_ok v → trimmed lines → append_table v path lines = Ok ls → trimmed ls.
Proof.
  revert path lines ls. induction v as [|b|n|f t|s|l _|d IH|t] using value_ind'; intros path lines ls Hk Hl H; try by injection H as <-.
  apply keys_ok_dict in Hk. simpl in H. apply bind_Ok in H as (lines1 & H1 & H).
  assert (trimmed lines1) as Hl1.
  { destruct (_ || _); [|by injection H1 as <-]. apply bind_Ok in H1 as (kvs & Hkvs & [= <-]).
    destruct (trimmed_more lines (("[" +:+ join "." (map _toml_key path) +:+ "]") :: kvs)) as [?|?]; [done| |done|done].
    constructor; [apply solid_header|]. eapply solid_lines, Hkvs. by apply keys_ok_scalars. }
  clear H1 Hl. revert lines1 Hl1 H. induction IH as [|[k x] d Hx Hd IHd]; intros lines1 Hl1 H; [by injection H as <-|].
  apply Forall_cons in Hk as [[_ Hkx] Hk]. simpl in *. destruct x; try (by eapply IHd).
  apply bind_Ok in H as (lines2 & H2 & H). eapply IHd; [done| |exact H]. by eapply Hx.
Qed.

Lemma toml_lines_trimmed data ls : keys_ok (VDict data) → toml_lines data = Ok ls → trimmed ls.
Proof.
  intros Hk%keys_ok_dict H. unfold toml_lines in H. apply bind_Ok in H as (kvs & Hkvs & H).
  assert (trimmed kvs) as Ht.
  { destruct (trimmed_more [] kvs) as [?| ->]; [by left| |done|by left]. eapply solid_lines, Hkvs. by apply keys_ok_scalars. }
  eapply (forR_inv trimmed); [|exact Ht|exact H]. intros lines [k v] lines' Hin Hl. rewrite Forall_forall in Hk.
  destruct (Hk _ Hin) as [_ Hkv]. simpl in *. destruct v; try by intros [= <-]. by apply append_table_trimmed.
Qed.

Lemma join_blank ls : ls ≠ [] → join nl ls +:+ nl = join nl (ls ++ [""]).
Proof.
  induction ls as [|x [|y ls] IH]; [done|done|]. intros _. change ((x :: y :: ls) ++ [""]) with (x :: y :: (ls ++ [""])).
  rewrite !join_cons_line, <-!str_app_assoc. f_equal. f_equal. by apply IH.
Qed.
Lemma read_blank l doc : read_lines (l ++ [""]) doc = read_lines l doc.
Proof. rewrite read_lines_app. by destruct (read_lines l doc). Qed.
Lemma read_toml_text ls : Forall no_nl ls → read_toml (join nl ls +:+ nl) = fst <$> read_lines ls ([], []).
Proof.
  intros Hnl. destruct (decide (ls = [])) as [->|Hne]; [done|]. unfold read_toml.
  rewrite join_blank, split_on_join; [by rewrite read_blank|by destruct ls|apply Forall_app; by repeat constructor|done].
Qed.

Lemma dget_app {A} k (a b : dict A) : dget k (a ++ b) = match dget k a with Some v => Some v | None => dget k b end.
Proof. induction a as [|[j x] a IH]; simpl; [done|]. by case_decide. Qed.
Lemma dget_order k d : wf_dict d → dget k (scalars_of d ++ tables_of d) = table_order <$> dget k d.
Proof.
  unfold wf_dict. induction d as [|[j x] d IH]; intros Hd; [done|]. apply NoDup_cons in Hd as [Hj Hd]. specialize (IH Hd).
  assert (∀ y, is_dict y = false → table_order y = y → scalars_of ((j, y) :: d) = (j, y) :: scalars_of d → tables_of ((j, y) :: d) = tables_of d →
    dget k (scalars_of ((j, y) :: d) ++ tables_of ((j, y) :: d)) = table_order <$> dget k ((j, y) :: d)) as Hy.
  { intros y _ Hy -> ->. simpl. case_decide; [simpl; by rewrite Hy|exact IH]. }
  destruct x as [|b|n|f t|t|l|t|t]; try (by apply Hy).
  change (scalars_of ((j, VDict t) :: d)) with (scalars_of d).
  change (tables_of ((j, VDict t) :: d)) with ((j, table_order (VDict t)) :: tables_of d).
  rewrite dget_app in *. simpl dget. case_decide as Hjk; [subst j|exact IH].
  assert (dget k (scalars_of d) = None) as ->; [|done]. apply dget_None. intros Hin. by apply Hj, dkeys_scalars.
Qed.
Lemma at_path_order p v : wf_value v → at_path p (table_order v) = table_order <$> at_path p v.
Proof.
  revert v. induction p as [|k p IH]; intros v Hv; [done|]. destruct v as [| | | | | |d|]; try done.
  rewrite table_order_dict. simpl. rewrite dget_order by (by apply wf_value_dict in Hv as [? _]).
  destruct (dget k d) as [x|] eqn:Hx; [|done]. simpl. apply IH. by eapply wf_value_get.
Qed.
Lemma order_scalar v w : is_dict v = false → table_order w = v ↔ w = v.
Proof. intros Hv. split; [destruct w; try done; by intros <-|intros ->; by destruct v]. Qed.


