(* ===== verification/FS.v ===== *)
(** * A file system, and the calls the program makes on it

    The tree is a finite map from absolute paths to nodes.  A program is a
    function of an environment (which system calls fail, the clock, the order of
    directory listings, the results of subprocesses) and a world (the tree, and
    the trees after every earlier change).  [wp H P m Q s]: run from tree [s], in
    every environment that satisfies [H], every tree [m] passes through satisfies
    [P] and the outcome satisfies [Q]; the process may be killed after any system
    call, so [P] is what a crash leaves behind. *)

From S2P Require Import Prelude PyStr PyVal.

(** ** Trees *)

Notation path := (list string) (only parsing).
Notation "p // x" := (p ++ [x]) (at level 45, left associativity, format "p // x").

(** File contents: a JSON document and its size in bytes, text that is not JSON,
    or bytes that are not UTF-8. *)
Inductive content : Type :=
  | CJson (v : value) (size : Z)
  | CText (s : string)
  | CBin (size : Z).

Inductive kind : Type :=
  | KReg (c : content)
  | KDir
  | KLnk (target : path)
  | KOther.

Record node : Type := Node { n_kind : kind; n_uid : Z; n_gid : Z; n_mode : Z; n_mtime : Z }.

Notation fs := (@gmap (list string) (@list_eq_dec string String.eq_dec)
  (@list_countable string String.eq_dec String.countable) node) (only parsing).

Definition is_reg_kind (k : kind) : bool := match k with KReg _ => true | _ => false end.
Definition is_dir_kind (k : kind) : bool := match k with KDir => true | _ => false end.
Definition is_lnk_kind (k : kind) : bool := match k with KLnk _ => true | _ => false end.
Definition is_reg (n : node) : bool := is_reg_kind (n_kind n).
Definition is_dir (n : node) : bool := is_dir_kind (n_kind n).
Definition is_lnk (n : node) : bool := is_lnk_kind (n_kind n).
Definition is_dir_at (s : fs) (p : path) : bool :=
  match s !! p with Some n => is_dir n | None => false end.

Definition content_size (c : content) : Z :=
  match c with CJson _ n => n | CText s => Z.of_nat (slen s) | CBin n => n end.
Definition n_size (n : node) : Z := match n_kind n with KReg c => content_size c | _ => 0 end.

Definition show_path (p : path) : string := "/" +:+ join "/" p.
Definition parent (p : path) : path := removelast p.
Definition name_of (p : path) : string := List.last p "".

(** [q] is [p] or below it; strictly below it. *)
Definition below (p q : path) : Prop := p `prefix_of` q.
#[export] Instance below_dec p q : Decision (below p q) := _.

(** The error of a lookup that finds nothing: an ancestor is not a directory, or
    the path is missing. *)
Definition missing (s : fs) (p : path) : exn :=
  if existsb (λ i, match s !! take i p with Some n => negb (is_dir n) | None => false end) (seq 0 (length p))
  then NotADirectoryError (show_path p) else FileNotFoundError (show_path p).

Definition lstat_at (s : fs) (p : path) : result node := of_option (s !! p) (missing s p).

(** Symbolic links are followed to a bounded depth, 40 in Linux. *)
Fixpoint real_path (fuel : nat) (s : fs) (p : path) : option path :=
  match fuel with
  | O => None
  | S fuel => match s !! p with
              | Some n => match n_kind n with KLnk t => real_path fuel s t | _ => Some p end
              | None => Some p
              end
  end.
Definition resolve (s : fs) (p : path) : result path :=
  of_option (real_path 40 s p) (OSError_ ("ELOOP: " +:+ show_path p)).
Definition stat_at (s : fs) (p : path) : result node := q ← resolve s p; lstat_at s q.

(** Names of the entries of a directory, without order. *)
Definition child_name (p q : path) : option string :=
  match drop (length p) q with
  | [x] => if decide (below p q) then Some x else None
  | _ => None
  end.
Definition children (s : fs) (p : path) : list string := omap (λ kv, child_name p kv.1) (map_to_list s).
Definition subtree (s : fs) (p : path) : list path :=
  filter (below p) ((map_to_list s).*1).
Definition del_subtree (p : path) (s : fs) : fs := filter (λ kv, ¬ below p kv.1) s.

(** ** Changes *)

Definition need_dir (s : fs) (p : path) (op : string) : result () :=
  match s !! p with
  | Some n => if is_dir n then Ok tt else Err (NotADirectoryError (show_path p))
  | None => Err (missing s p)
  end.

Definition set_kind (k : kind) (t : Z) (n : node) : node := Node k (n_uid n) (n_gid n) (n_mode n) t.
Definition set_mode (m : Z) (n : node) : node := Node (n_kind n) (n_uid n) (n_gid n) m (n_mtime n).
Definition set_owner (u g : Z) (n : node) : node := Node (n_kind n) u g (n_mode n) (n_mtime n).
Definition set_mtime (t : Z) (n : node) : node := Node (n_kind n) (n_uid n) (n_gid n) (n_mode n) t.

Definition mkdir_at (new : node) (p : path) (s : fs) : result fs :=
  _ ← need_dir s (parent p) "mkdir";
  match s !! p with Some _ => Err (FileExistsError (show_path p)) | None => Ok (<[p:=new]> s) end.

(** [open(p, O_CREAT | O_EXCL)]. *)
Definition create_at (new : node) (p : path) (s : fs) : result fs :=
  _ ← need_dir s (parent p) "open";
  match s !! p with Some _ => Err (FileExistsError (show_path p)) | None => Ok (<[p:=new]> s) end.

(** [open(p, "w")]: truncates a file, creates a missing one. *)
Definition truncate_at (new : node) (p : path) (s : fs) : result fs :=
  q ← resolve s p;
  _ ← need_dir s (parent q) "open";
  match s !! q with
  | Some n => if is_dir n then Err (OSError_ ("EISDIR: " +:+ show_path p))
              else Ok (<[q := set_kind (KReg (CText "")) (n_mtime new) n]> s)
  | None => Ok (<[q:=new]> s)
  end.
Definition update_at (f : node → node) (p : path) (s : fs) : result fs :=
  match s !! p with Some n => Ok (<[p := f n]> s) | None => Err (missing s p) end.
(** The same following links, as [chmod], [chown] and a write do. *)
Definition update_real (f : node → node) (p : path) (s : fs) : result fs :=
  q ← resolve s p; update_at f q s.

Definition unlink_at (p : path) (s : fs) : result fs :=
  match s !! p with
  | Some n => if is_dir n then Err (OSError_ ("EISDIR: " +:+ show_path p)) else Ok (delete p s)
  | None => Err (missing s p)
  end.
Definition is_empty_at (s : fs) (p : path) : bool :=
  bool_decide (filter (λ q, q ≠ p) (subtree s p) = []).
Definition rmdir_at (p : path) (s : fs) : result fs :=
  match s !! p with
  | Some n => if negb (is_dir n) then Err (NotADirectoryError (show_path p))
              else if is_empty_at s p then Ok (delete p s) else Err (OSError_ ("ENOTEMPTY: " +:+ show_path p))
  | None => Err (missing s p)
  end.
(** What [rmtree] does with one entry. *)
Definition remove_at (p : path) (s : fs) : result fs :=
  if is_dir_at s p then rmdir_at p s else unlink_at p s.

(** [p] and what is below it, moved to [q]. *)
Definition moved (p q : path) (s : fs) : fs :=
  list_to_map ((λ kv, (q ++ drop (length p) kv.1, kv.2)) <$> map_to_list (filter (λ kv, below p kv.1) s)).
Definition move (p q : path) (s : fs) : fs := moved p q s ∪ del_subtree p (del_subtree q s).

Definition rename_at (p q : path) (s : fs) : result fs :=
  match s !! p with
  | None => Err (missing s p)
  | Some n =>
      _ ← need_dir s (parent q) "rename";
      if decide (p = q) then Ok s
      else if decide (below p q) then Err (OSError_ ("EINVAL: " +:+ show_path p))
      else if decide (below q p) then Err (OSError_ ("ENOTEMPTY: " +:+ show_path q))
      else match s !! q with
           | None => Ok (move p q s)
           | Some m =>
               if is_dir n then
                 if negb (is_dir m) then Err (NotADirectoryError (show_path q))
                 else if is_empty_at s q then Ok (move p q s)
                 else Err (OSError_ ("ENOTEMPTY: " +:+ show_path q))
               else if is_dir m then Err (OSError_ ("EISDIR: " +:+ show_path q))
               else Ok (move p q s)
           end
  end.

(** ** The monad *)

Record proc_result : Type := Proc { returncode : Z; stdout : string; stderr : string }.

(** What the environment decides, by the number of the call: failures of reading
    and of changing calls, the clocks, the order of listings and of recursive
    removals, temporary names, the result of a subprocess given its arguments and
    standard input, and the process's owner and umask. *)
Record env : Type := Env {
  e_rfault : nat → option exn;
  e_wfault : nat → option exn;
  e_time : nat → Z;
  e_order : nat → list path → list path;
  e_tmp : nat → string;
  e_run : nat → list string → string → result proc_result;
  e_uid : Z; e_gid : Z; e_umask : Z }.

Record world : Type := World { w_fs : fs; w_hist : list fs; w_n : nat }.

Definition M (A : Type) : Type := env → world → result A * world.

#[export] Instance M_ret : MRet M := λ A a e w, (Ok a, w).
#[export] Instance M_bind : MBind M := λ A B f m e w,
  match m e w with (Ok a, w') => f a e w' | (Err x, w') => (Err x, w') end.
#[export] Instance M_fmap : FMap M := λ A B f m e w,
  match m e w with (Ok a, w') => (Ok (f a), w') | (Err x, w') => (Err x, w') end.

Definition raise {A} (x : exn) : M A := λ e w, (Err x, w).
Definition lift {A} (r : result A) : M A := λ e w, (r, w).
Definition tick (w : world) : world := World (w_fs w) (w_hist w) (S (w_n w)).

(** A call that reads the tree; one that changes it; one that asks the
    environment. *)
Definition rd {A} (f : fs → result A) : M A := λ e w,
  match e_rfault e (w_n w) with
  | Some x => (Err x, tick w)
  | None => (f (w_fs w), tick w)
  end.
Definition wr (f : fs → result fs) : M () := λ e w,
  match e_wfault e (w_n w) with
  | Some x => (Err x, tick w)
  | None => match f (w_fs w) with
            | Ok s => (Ok tt, World s (s :: w_hist w) (S (w_n w)))
            | Err x => (Err x, tick w)
            end
  end.
Definition ask {A} (f : env → nat → A) : M A := λ e w, (Ok (f e (w_n w)), tick w).

(** [try: m except C as x: h x], [try: m finally: f], [contextlib.suppress]. *)
Definition catch {A} (m : M A) (catches : exn → bool) (h : exn → M A) : M A := λ e w,
  match m e w with
  | (Err x, w') => if catches x then h x e w' else (Err x, w')
  | r => r
  end.
Definition attempt {A} (m : M A) : M (result A) := λ e w, let '(r, w') := m e w in (Ok r, w').
Definition finally {A} (m : M A) (f : M ()) : M A := r ← attempt m; _ ← f; lift r.

Fixpoint forM {A B} (f : B → A → M B) (l : list A) (b : B) : M B :=
  match l with [] => mret b | x :: l' => b' ← f b x; forM f l' b' end.
Definition iterM {A} (f : A → M ()) (l : list A) : M () := forM (λ _ x, f x) l tt.

(** The process environment. *)
Definition time_time : M Z := ask e_time.
Definition new_node (k : kind) (mode : Z) : M node :=
  ask (λ e n, Node k (e_uid e) (e_gid e) (Z.ldiff mode (e_umask e)) (e_time e n)).
Definition run_command_input (argv : list string) (input : string) : M proc_result :=
  r ← ask (λ e n, e_run e n argv input); lift r.
Definition run_command (argv : list string) : M proc_result := run_command_input argv "".

(** ** Library calls *)

Definition is_missing_error (x : exn) : bool :=
  match x with FileNotFoundError _ | NotADirectoryError _ => true | _ => false end.
Definition is_not_found (x : exn) : bool := match x with FileNotFoundError _ => true | _ => false end.

Definition lstat (p : path) : M node := rd (λ s, lstat_at s p).
Definition stat (p : path) : M node := rd (λ s, stat_at s p).
(** [Path.exists], [is_dir], [is_file] answer [False] for a missing path. *)
Definition test (f : node → bool) (p : path) : M bool :=
  catch (n ← stat p; mret (f n)) is_missing_error (λ _, mret false).
Definition exists_ (p : path) : M bool := test (λ _, true) p.
Definition is_dir_ (p : path) : M bool := test is_dir p.
Definition is_file_ (p : path) : M bool := test is_reg p.

(** [Path.iterdir], in the order the environment chooses. *)
Definition listdir (p : path) : M (list string) :=
  _ ← rd (λ s, q ← resolve s p; need_dir s q "scandir");
  l ← rd (λ s, q ← resolve s p; Ok (map (λ x, p // x) (children s q)));
  l' ← ask (λ e n, e_order e n l);
  mret (map name_of l').
Definition read_content (p : path) : M content :=
  rd (λ s, n ← stat_at s p;
      match n_kind n with
      | KReg c => Ok c
      | KDir => Err (OSError_ ("EISDIR: " +:+ show_path p))
      | _ => Err (OSError_ ("cannot read " +:+ show_path p))
      end).

Definition unlink (p : path) : M () := wr (unlink_at p).
Definition unlink_missing_ok (p : path) : M () := catch (unlink p) is_not_found (λ _, mret tt).
Definition mkdir (mode : Z) (p : path) : M () := n ← new_node KDir mode; wr (mkdir_at n p).
Definition chmod (m : Z) (p : path) : M () := wr (update_real (set_mode m) p).
Definition chown (u g : Z) (p : path) : M () := wr (update_real (set_owner u g) p).
Definition utime_now (p : path) : M () := t ← time_time; wr (update_real (set_mtime t) p).
Definition rename (p q : path) : M () := wr (rename_at p q).
(** [fsync] changes nothing the program can read back; it can fail. *)
Definition fsync (p : path) : M () := wr Ok.

(** Creating a file and writing it are two calls: a crash between them leaves an
    empty file. *)
Definition write_new (mode : Z) (p : path) (c : content) : M () :=
  n ← new_node (KReg (CText "")) mode;
  _ ← wr (create_at n p);
  t ← time_time;
  wr (update_at (set_kind (KReg c) t) p).
Definition write_text (p : path) (c : content) : M () :=
  n ← new_node (KReg (CText "")) 420 (* 0o644 *);
  _ ← wr (truncate_at n p);
  t ← time_time;
  wr (update_real (set_kind (KReg c) t) p).

(** [Path.mkdir(parents=True, exist_ok=True)]. *)
Definition mkdir_exist_ok (mode : Z) (p : path) : M () :=
  catch (mkdir mode p) is_OSError (λ x,
    if is_not_found x then raise x
    else d ← is_dir_ p; if d : bool then mret tt else raise x).
Fixpoint mkdir_parents_go (fuel : nat) (mode : Z) (p : path) : M () :=
  catch (mkdir_exist_ok mode p) is_not_found (λ x,
    match fuel with
    | O => raise x
    | S fuel => _ ← mkdir_parents_go fuel 511 (parent p); mkdir_exist_ok mode p
    end).
Definition mkdir_parents (mode : Z) (p : path) : M () := mkdir_parents_go (length p) mode p.

(** [shutil.rmtree(p)]: the entries below [p], each after the ones below it, then
    [p].  The first failure aborts, or, with [ignore_errors], none does. *)
Definition rmtree (p : path) : M () :=
  n ← lstat p;
  if is_lnk n then raise (OSError_ "Cannot call rmtree on a symbolic link")
  else if negb (is_dir n) then raise (NotADirectoryError (show_path p))
  else l ← rd (λ s, Ok (subtree s p));
       l' ← ask (λ e k, e_order e k l);
       iterM (λ q, wr (remove_at q)) l'.
Definition rmtree_ignore_errors (p : path) : M () :=
  catch (n ← lstat p;
         if is_dir n then
           l ← rd (λ s, Ok (subtree s p));
           l' ← ask (λ e k, e_order e k l);
           iterM (λ q, catch (wr (remove_at q)) is_OSError (λ _, mret tt)) l'
         else mret tt) is_OSError (λ _, mret tt).
