(* ===== verification/FSLogic.v ===== *)
(** * Reasoning about programs on the file system

    Weakest preconditions that also cover every tree the program passes through,
    with the frame facts of the tree operations. *)

From S2P Require Import Prelude PyStr PyVal FS.

(** ** Environments *)

(** A failing call reports an error of the device or of permissions, never that an
    entry is missing.  A listing shows every entry, and a recursive removal removes an entry after
    the ones below it. *)
Definition leaves_first (l : list path) : Prop :=
  ∀ i j p q, l !! i = Some p → l !! j = Some q → (i < j)%nat → below p q → p = q.

Record env_ok (e : env) : Prop := EnvOk {
  eo_rfault n x : e_rfault e n = Some x → is_OSError x = true ∧ is_missing_error x = false;
  eo_wfault n x : e_wfault e n = Some x → is_OSError x = true ∧ is_missing_error x = false;
  eo_perm n l : e_order e n l ≡ₚ l;
  eo_leaves n l : leaves_first (e_order e n l) }.

(** Only changes fail; nothing fails. *)
Definition reads_ok (e : env) : Prop := env_ok e ∧ ∀ n, e_rfault e n = None.
Definition no_faults (e : env) : Prop :=
  env_ok e ∧ (∀ n, e_rfault e n = None) ∧ ∀ n, e_wfault e n = None.

(** ** Weakest preconditions *)

Section wp.
Context (H : env → Prop) (P : fs → Prop).

Definition wp {A} (m : M A) (Q : result A → fs → Prop) (s : fs) : Prop :=
  ∀ e w, H e → w_fs w = s →
    ∃ r w', m e w = (r, w') ∧ Q r (w_fs w') ∧
      ∃ new, w_hist w' = new ++ w_hist w ∧ Forall P new.

Context {A B : Type}.

Lemma wp_mono (m : M A) (Q Q' : result A → fs → Prop) s :
  wp m Q s → (∀ r t, Q r t → Q' r t) → wp m Q' s.
Proof. intros Hm HQ e w He Hw. destruct (Hm e w He Hw) as (r & w' & ? & ? & ?). eauto 6. Qed.

Lemma wp_ret (a : A) Q s : Q (Ok a) s → wp (mret a) Q s.
Proof. intros HQ e w He <-. exists (Ok a), w. repeat split; [done|]. by exists []. Qed.

Lemma wp_raise (x : exn) (Q : result A → fs → Prop) s : Q (Err x) s → wp (raise x) Q s.
Proof. intros HQ e w He <-. exists (Err x), w. repeat split; [done|]. by exists []. Qed.

Lemma wp_lift (r : result A) Q s : Q r s → wp (lift r) Q s.
Proof. intros HQ e w He <-. exists r, w. repeat split; [done|]. by exists []. Qed.

Lemma wp_bind (m : M A) (f : A → M B) Q s :
  wp m (λ r t, match r with Ok a => wp (f a) Q t | Err x => Q (Err x) t end) s →
  wp (m ≫= f) Q s.
Proof.
  intros Hm e w He Hw. destruct (Hm e w He Hw) as ([a|x] & w1 & Hr & HQ & new & Hh & Hn).
  - destruct (HQ e w1 He eq_refl) as (r & w2 & Hr2 & HQ2 & new2 & Hh2 & Hn2).
    exists r, w2. unfold mbind, M_bind. rewrite Hr. split_and!; [done|done|].
    exists (new2 ++ new). rewrite Hh2, Hh, (assoc_L (++)). split; [done|]. by apply Forall_app.
  - exists (Err x), w1. unfold mbind, M_bind. rewrite Hr. split_and!; [done|done|]. by exists new.
Qed.

Lemma wp_catch (m : M A) (catches : exn → bool) (h : exn → M A) Q s :
  wp m (λ r t, match r with
               | Ok a => Q (Ok a) t
               | Err x => if catches x then wp (h x) Q t else Q (Err x) t
               end) s →
  wp (catch m catches h) Q s.
Proof.
  intros Hm e w He Hw. destruct (Hm e w He Hw) as ([a|x] & w1 & Hr & HQ & new & Hh & Hn).
  - exists (Ok a), w1. unfold catch. rewrite Hr. eauto 6.
  - unfold catch. rewrite Hr. destruct (catches x).
    + destruct (HQ e w1 He eq_refl) as (r & w2 & Hr2 & HQ2 & new2 & Hh2 & Hn2).
      exists r, w2. split_and!; [done|done|].
      exists (new2 ++ new). rewrite Hh2, Hh, (assoc_L (++)). split; [done|]. by apply Forall_app.
    + exists (Err x), w1. eauto 6.
Qed.

Lemma wp_attempt (m : M A) Q s : wp m (λ r t, Q (Ok r) t) s → wp (attempt m) Q s.
Proof.
  intros Hm e w He Hw. destruct (Hm e w He Hw) as (r & w1 & Hr & HQ & Hn).
  exists (Ok r), w1. unfold attempt. rewrite Hr. done.
Qed.

Lemma wp_finally (m : M A) (f : M ()) Q s :
  wp m (λ r t, wp f (λ u t', match u with Ok _ => Q r t' | Err x => Q (Err x) t' end) t) s →
  wp (finally m f) Q s.
Proof.
  intros Hm e w He Hw. destruct (Hm e w He Hw) as (r & w1 & Hr & HQ & new & Hh & Hn).
  destruct (HQ e w1 He eq_refl) as (u & w2 & Hr2 & HQ2 & new2 & Hh2 & Hn2).
  exists (match u with Ok _ => r | Err x => Err x end), w2.
  unfold finally, mbind, M_bind, attempt, lift. rewrite Hr, Hr2.
  split_and!; [by destruct u|by destruct u|].
  exists (new2 ++ new). rewrite Hh2, Hh, (assoc_L (++)). split; [done|]. by apply Forall_app.
Qed.

Lemma wp_rd (f : fs → result A) Q s :
  (∀ e, H e → ∀ n x, e_rfault e n = Some x → Q (Err x) s) → Q (f s) s → wp (rd f) Q s.
Proof.
  intros Hx HQ e w He <-. unfold rd. destruct (e_rfault e (w_n w)) as [x|] eqn:E.
  - exists (Err x), (tick w). split_and!; [done|by eapply Hx|]. by exists [].
  - exists (f (w_fs w)), (tick w). split_and!; [done|done|]. by exists [].
Qed.

Lemma wp_wr (f : fs → result fs) (Q : result () → fs → Prop) s :
  (∀ e, H e → ∀ n x, e_wfault e n = Some x → Q (Err x) s) →
  match f s with Ok t => P t ∧ Q (Ok tt) t | Err x => Q (Err x) s end →
  wp (wr f) Q s.
Proof.
  intros Hx HQ e w He <-. unfold wr. destruct (e_wfault e (w_n w)) as [x|] eqn:E.
  { exists (Err x), (tick w). split_and!; [done|by eapply Hx|]. by exists []. }
  destruct (f (w_fs w)) as [t|x].
  - destruct HQ as [HP HQ]. eexists _, _. split_and!; [done|done|]. exists [t]. by repeat constructor.
  - exists (Err x), (tick w). split_and!; [done|done|]. by exists [].
Qed.

Lemma wp_ask (f : env → nat → A) Q s :
  (∀ e n, H e → Q (Ok (f e n)) s) → wp (ask f) Q s.
Proof. intros HQ e w He <-. eexists _, _. split_and!; [done|by apply HQ|]. by exists []. Qed.

End wp.

Lemma wp_forM {B C : Type} (H : env → Prop) (P : fs → Prop) (f : B → C → M B) (I : list C → B → fs → Prop) (Q : result B → fs → Prop) l b s :
  I l b s →
  (∀ x l' b t, I (x :: l') b t →
     wp H P (f b x) (λ r t', match r with Ok b' => I l' b' t' | Err y => Q (Err y) t' end) t) →
  (∀ b t, I [] b t → Q (Ok b) t) →
  wp H P (forM f l b) Q s.
Proof.
  intros HI Hf HQ. revert b s HI. induction l as [|x l IH]; intros b s HI; simpl.
  - apply wp_ret. by apply HQ.
  - apply wp_bind. eapply wp_mono; [by apply Hf|]. intros [b'|y] t; [apply IH|done].
Qed.

Lemma wp_weaken {A : Type} (H H' : env → Prop) (P P' : fs → Prop) (m : M A) (Q : result A → fs → Prop) (s : fs) :
  (∀ e, H' e → H e) → (∀ t, P t → P' t) → wp H P m Q s → wp H' P' m Q s.
Proof.
  intros HH HP Hm e w He Hw. destruct (Hm e w (HH _ He) Hw) as (r & w' & ? & ? & new & ? & ?).
  eexists _, _. split_and!; [done|done|]. exists new. split; [done|]. by eapply Forall_impl.
Qed.

(** A run seen from outside: the outcome and every tree passed through. *)
Lemma wp_run {A : Type} (H : env → Prop) P (m : M A) (Q : result A → fs → Prop) (s : fs) (e : env) :
  wp H P m Q s → H e →
  let '(r, w) := m e (World s [] 0) in Q r (w_fs w) ∧ Forall P (w_hist w).
Proof.
  intros Hm He. destruct (Hm e (World s [] 0) He eq_refl) as (r & w & -> & HQ & new & Hh & Hn).
  split; [done|]. simpl in Hh. by rewrite Hh, app_nil_r.
Qed.

(** ** Lookups after a change *)

Lemma lookup_del_subtree p s x :
  del_subtree p s !! x = if decide (below p x) then None else s !! x.
Proof.
  unfold del_subtree. case_decide as E.
  - apply map_lookup_filter_None. right. intros n _ Hn. by apply Hn.
  - destruct (s !! x) as [n|] eqn:Ex.
    + by apply map_lookup_filter_Some.
    + apply map_lookup_filter_None. by left.
Qed.

Lemma below_app p r : below p (p ++ r).
Proof. by exists r. Qed.

Lemma below_refl p : below p p.
Proof. exists []. by rewrite app_nil_r. Qed.

Lemma below_drop p x : below p x → x = p ++ drop (length p) x.
Proof. intros [r ->]. by rewrite drop_app_length. Qed.

Lemma snoc_not_below (p : path) x : ¬ below (p // x) p.
Proof. intros [k Hk]. apply (f_equal length) in Hk. rewrite !length_app in Hk. simpl in Hk. lia. Qed.

Lemma lookup_moved p q s x :
  moved p q s !! x = if decide (below q x) then s !! (p ++ drop (length q) x) else None.
Proof.
  set (l := map_to_list (filter (λ kv, below p kv.1) s)).
  assert (∀ y n, (y, n) ∈ l ↔ s !! y = Some n ∧ below p y) as Hl.
  { intros y n. unfold l. etrans; [apply (elem_of_map_to_list (M:=gmap path))|].
    apply (map_lookup_filter_Some (M:=gmap path) (λ kv, below p kv.1)). }
  assert (NoDup (((λ kv : path * node, (q ++ drop (length p) kv.1, kv.2)) <$> l).*1)) as Hnd.
  { rewrite <-list_fmap_compose. apply NoDup_fmap_2_strong.
    - intros [y n] [z m] Hy%Hl Hz%Hl. simpl. intros E%(inj (app q)).
      destruct Hy as [Hy Hpy], Hz as [Hz Hpz]. apply below_drop in Hpy, Hpz.
      assert (y = z) as -> by (rewrite Hpy, Hpz; by f_equal). congruence.
    - apply NoDup_map_to_list. }
  unfold moved. fold l. case_decide as E.
  - destruct (s !! (p ++ drop (length q) x)) as [n|] eqn:Ex.
    + apply elem_of_list_to_map_1; [done|]. apply list_elem_of_fmap.
      exists (p ++ drop (length q) x, n). simpl. rewrite drop_app_length, <-below_drop by done.
      split; [done|]. apply Hl. split; [done|apply below_app].
    + apply not_elem_of_list_to_map_1. intros ([y m] & Hy & [[z n] [Heq Hz%Hl]]%list_elem_of_fmap)%list_elem_of_fmap.
      simpl in *. destruct Hz as [Hz Hpz]. injection Heq as -> ->. subst x.
      rewrite drop_app_length, <-below_drop in Ex by done. congruence.
  - apply not_elem_of_list_to_map_1. intros ([y m] & Hy & [[z n] [Heq Hz%Hl]]%list_elem_of_fmap)%list_elem_of_fmap.
    simpl in *. injection Heq as -> ->. subst x. apply E, below_app.
Qed.

(** Neither path is below the other. *)
Definition apart (p q : path) : Prop := ¬ below p q ∧ ¬ below q p.

Lemma below_both p q x : below p x → below q x → below p q ∨ below q p.
Proof.
  apply prefix_weak_total.
Qed.

Lemma lookup_move p q s x : apart p q →
  move p q s !! x =
    if decide (below q x) then s !! (p ++ drop (length q) x)
    else if decide (below p x) then None else s !! x.
Proof.
  intros [Hpq Hqp]. unfold move. rewrite lookup_union, lookup_moved, !lookup_del_subtree.
  destruct (decide (below q x)) as [Hq|Hq]; [|by rewrite (left_id None union)].
  destruct (decide (below p x)) as [Hp|Hp]; [|by rewrite (right_id None union)].
  by rewrite (right_id None union).
Qed.

Lemma elem_subtree s p x : x ∈ subtree s p ↔ below p x ∧ is_Some (s !! x).
Proof.
  unfold subtree. rewrite list_elem_of_filter, list_elem_of_fmap. split.
  - intros [Hb ([y n] & -> & Hy%elem_of_map_to_list)]. by eauto.
  - intros [Hb [n Hn]]. split; [done|]. exists (x, n). split; [done|]. by apply elem_of_map_to_list.
Qed.

Lemma NoDup_subtree s p : NoDup (subtree s p).
Proof. unfold subtree. apply NoDup_filter, NoDup_fst_map_to_list. Qed.

Lemma missing_OSError s p : is_OSError (missing s p) = true.
Proof. unfold missing. by destruct (existsb _ _). Qed.

(** ** Recursive removal *)

(** [t] is [s] with some entries at or below [p] gone. *)
Definition pruned (p : path) (s t : fs) : Prop :=
  ∀ x, t !! x = s !! x ∨ (below p x ∧ t !! x = None).

Lemma pruned_refl p s : pruned p s s.
Proof. intros x. by left. Qed.

Lemma pruned_trans p s t u : pruned p s t → pruned p t u → pruned p s u.
Proof. intros Hst Htu x. destruct (Htu x) as [->|]; [apply Hst|auto]. Qed.

Lemma pruned_delete p s t x : below p x → pruned p s t → pruned p s (delete x t).
Proof.
  intros Hx Hst y. destruct (decide (x = y)) as [->|Hne].
  - right. by rewrite lookup_delete_eq.
  - rewrite lookup_delete_ne by done. apply Hst.
Qed.

Lemma pruned_outside p s t x : pruned p s t → ¬ below p x → t !! x = s !! x.
Proof. intros Hst Hx. destruct (Hst x) as [|[? _]]; done. Qed.

Lemma pruned_Some p s t x n : pruned p s t → t !! x = Some n → s !! x = Some n.
Proof. intros Hst Hx. destruct (Hst x) as [<-|[_ E]]; [done|congruence]. Qed.

Lemma remove_at_Ok x s t : remove_at x s = Ok t → t = delete x s.
Proof.
  unfold remove_at, rmdir_at, unlink_at. intros H.
  repeat (case_match; try discriminate); by injection H as <-.
Qed.

Lemma remove_at_succeeds x s :
  is_Some (s !! x) → (is_dir_at s x = true → is_empty_at s x = true) → remove_at x s = Ok (delete x s).
Proof.
  intros [n Hn]. unfold remove_at, is_dir_at, rmdir_at, unlink_at. rewrite Hn.
  destruct (is_dir n); simpl; [intros ->; auto|done].
Qed.

Section rmtree.
Context (H : env → Prop) (P : fs → Prop).

Lemma wp_lstat p Q s :
  (∀ e, H e → ∀ n x, e_rfault e n = Some x → Q (Err x) s) →
  Q (lstat_at s p) s → wp H P (lstat p) Q s.
Proof. intros Hx HQ. by apply (wp_rd H P (λ s, lstat_at s p)). Qed.

(** Removing a list of entries, whatever fails on the way. *)
Lemma wp_remove_list (Q : result () → fs → Prop) p l s0 s :
  Forall (below p) l → pruned p s0 s →
  (∀ t, pruned p s0 t → P t) →
  (∀ x t, pruned p s0 t → Q (Err x) t) →
  (∀ t, pruned p s0 t → (∀ x, x ∈ l → t !! x = None) → Q (Ok tt) t) →
  wp H P (iterM (λ q, wr (remove_at q)) l) Q s.
Proof.
  intros Hl Hs HP HE HQ. unfold iterM.
  apply (wp_forM H P _ (λ l' _ t, Forall (below p) l' ∧ pruned p s0 t ∧
           ∀ x, x ∈ l → x ∈ l' ∨ t !! x = None)).
  - split_and!; auto.
  - intros x l' [] t (Hb & Ht & Hx). apply Forall_cons in Hb as [Hbx Hb].
    apply wp_wr; [intros; by apply HE|].
    destruct (remove_at x t) as [u|y] eqn:E; [|by apply HE].
    apply remove_at_Ok in E as ->. assert (pruned p s0 (delete x t)) by by apply pruned_delete.
    split; [by apply HP|]. split_and!; [done|done|]. intros y Hy.
    destruct (decide (x = y)) as [->|Hne]; [right; by rewrite lookup_delete_eq|].
    destruct (Hx y Hy) as [[->|?]%elem_of_cons|?]; [done|by left|right].
    by rewrite lookup_delete_ne.
  - intros [] t (_ & Ht & Hx). apply HQ; [done|]. intros x Hin.
    destruct (Hx x Hin) as [?%not_elem_of_nil|?]; done.
Qed.

Lemma pruned_del_subtree p s t :
  pruned p s t → (∀ x, below p x → t !! x = None) → t = del_subtree p s.
Proof.
  intros Ht Hx. apply map_eq. intros x. rewrite lookup_del_subtree.
  case_decide; [by apply Hx|by eapply pruned_outside].
Qed.

Hypothesis Hok : ∀ e, H e → env_ok e.

(** [shutil.rmtree] only ever removes entries at or below its path, and when it
    returns they are all gone. *)
Lemma wp_rmtree p Q s :
  (∀ t, pruned p s t → P t) →
  (∀ x t, pruned p s t → Q (Err x) t) →
  Q (Ok tt) (del_subtree p s) →
  wp H P (rmtree p) Q s.
Proof.
  intros HP HE HQ. assert (pruned p s s) as Hss by apply pruned_refl. unfold rmtree.
  apply wp_bind, wp_lstat; [auto|]. destruct (lstat_at s p) as [n|x] eqn:E; [|auto].
  destruct (is_lnk n); [apply wp_raise; auto|]. destruct (is_dir n); simpl; [|apply wp_raise; auto].
  apply wp_bind, wp_rd; [auto|]. apply wp_bind, wp_ask. intros e k He.
  pose proof (eo_perm e (Hok e He) k (subtree s p)) as Hperm.
  apply (wp_remove_list _ p _ s); auto.
  - apply Forall_forall. intros x Hx. rewrite Hperm in Hx. by apply elem_subtree in Hx as [? _].
  - intros t Ht Hx. rewrite (pruned_del_subtree p s t Ht); [done|]. intros x Hb.
    destruct (s !! x) as [m|] eqn:Em.
    + apply Hx. rewrite Hperm. apply elem_subtree. eauto.
    + destruct (Ht x) as [->|[_ ?]]; done.
Qed.

Lemma wp_rmtree_ignore_errors p Q s :
  (∀ t, pruned p s t → P t ∧ Q (Ok tt) t) →
  wp H P (rmtree_ignore_errors p) Q s.
Proof.
  intros HQ. assert (pruned p s s) as Hss by apply pruned_refl. unfold rmtree_ignore_errors.
  assert (∀ e, H e → ∀ n x, e_rfault e n = Some x → is_OSError x = true) as Hr.
  { intros e He n x Hx. by apply (eo_rfault e (Hok e He)) in Hx as [? _]. }
  apply wp_catch, wp_bind, wp_lstat.
  - intros e He k x Hx. rewrite (Hr e He k x Hx). apply wp_ret. by apply HQ.
  - unfold lstat_at. destruct (s !! p) as [n|]; simpl; [|rewrite missing_OSError; apply wp_ret; by apply HQ].
    destruct (is_dir n); [|apply wp_ret; by apply HQ].
    apply wp_bind, wp_rd.
    + intros e He k x Hx. rewrite (Hr e He k x Hx). apply wp_ret. by apply HQ.
    + apply wp_bind, wp_ask. intros e k He.
      pose proof (eo_perm e (Hok e He) k (subtree s p)) as Hperm.
      apply (wp_forM H P _ (λ l' _ t, Forall (below p) l' ∧ pruned p s t)).
      * split; [|done]. apply Forall_forall. intros x Hx. rewrite Hperm in Hx.
        by apply elem_subtree in Hx as [? _].
      * intros x l' [] t [Hb Ht]. apply Forall_cons in Hb as [Hbx Hb].
        apply wp_catch, wp_wr.
        -- intros e' He' n' y [Hy _]%(eo_wfault e' (Hok e' He')). rewrite Hy. by apply wp_ret.
        -- destruct (remove_at x t) as [u|y] eqn:E.
           ++ apply remove_at_Ok in E as ->.
              assert (pruned p s (delete x t)) by by apply pruned_delete.
              split; [by apply HQ|done].
           ++ assert (is_OSError y = true) as ->; [|by apply wp_ret].
              unfold remove_at, rmdir_at, unlink_at in E.
              repeat (case_match; try discriminate); injection E as <-; by rewrite ?missing_OSError.
      * intros [] t [_ Ht]. by apply HQ.
Qed.
End rmtree.

(** ** What a program may touch

    [touches D m]: whatever fails, and wherever it is interrupted, [m] leaves the
    presence, type and contents of every entry outside [D] as they were.  Owners,
    modes and times are not tracked, since they are changed through links. *)

Definition kind_at (s : fs) (p : path) : option kind := n_kind <$> s !! p.

Definition changes (D : path → Prop) (s t : fs) : Prop :=
  ∀ x, ¬ D x → kind_at t x = kind_at s x.

Lemma changes_refl D s : changes D s s.
Proof. by intros x _. Qed.

Lemma changes_trans D s t u : changes D s t → changes D t u → changes D s u.
Proof. intros Hst Htu x Hx. by rewrite Htu, Hst. Qed.

Lemma changes_weaken (D D' : path → Prop) s t : (∀ x, D x → D' x) → changes D s t → changes D' s t.
Proof. intros HD Hst x Hx. apply Hst. auto. Qed.

Lemma changes_pruned (D : path → Prop) p s t : (∀ x, below p x → D x) → pruned p s t → changes D s t.
Proof.
  intros HD Hp x Hx. unfold kind_at. by rewrite (pruned_outside p s t) by auto.
Qed.

Lemma changes_insert (D : path → Prop) p n s : D p → changes D s (<[p:=n]> s).
Proof.
  intros HD x Hx. unfold kind_at. rewrite lookup_insert_ne; [done|]. intros ->. by apply Hx.
Qed.

Lemma changes_delete (D : path → Prop) p s : D p → changes D s (delete p s).
Proof.
  intros HD x Hx. unfold kind_at. rewrite lookup_delete_ne; [done|]. intros ->. by apply Hx.
Qed.

Lemma changes_meta (D : path → Prop) p n m s :
  s !! p = Some n → n_kind m = n_kind n → changes D s (<[p:=m]> s).
Proof.
  intros Hp Hk x _. unfold kind_at. destruct (decide (p = x)) as [->|Hne].
  - by rewrite lookup_insert_eq, Hp; simpl; rewrite Hk.
  - by rewrite lookup_insert_ne.
Qed.

Definition touches {A} (D : path → Prop) (m : M A) : Prop :=
  ∀ s0 s, changes D s0 s → wp env_ok (changes D s0) m (λ _ t, changes D s0 t) s.

Section touches.
Context (D : path → Prop) {A B : Type}.

Lemma touches_ret (a : A) : touches D (mret a).
Proof. intros s0 s Hs. by apply wp_ret. Qed.

Lemma touches_raise (x : exn) : touches D (raise (A:=A) x).
Proof. intros s0 s Hs. by apply wp_raise. Qed.

Lemma touches_lift (r : result A) : touches D (lift r).
Proof. intros s0 s Hs. by apply wp_lift. Qed.

Lemma touches_rd (f : fs → result A) : touches D (rd f).
Proof. intros s0 s Hs. by apply wp_rd. Qed.

Lemma touches_ask (f : env → nat → A) : touches D (ask f).
Proof. intros s0 s Hs. by apply wp_ask. Qed.

Lemma touches_wr (f : fs → result fs) :
  (∀ s t, f s = Ok t → changes D s t) → touches D (wr f).
Proof.
  intros Hf s0 s Hs. apply wp_wr; [done|]. destruct (f s) as [t|x] eqn:E; [|done].
  apply Hf in E. split; by eapply changes_trans.
Qed.

Lemma touches_bind (m : M A) (f : A → M B) :
  touches D m → (∀ a, touches D (f a)) → touches D (m ≫= f).
Proof.
  intros Hm Hf s0 s Hs. apply wp_bind. eapply wp_mono; [by apply Hm|].
  intros [a|x] t Ht; [by apply Hf|done].
Qed.

Lemma touches_catch (m : M A) (c : exn → bool) (h : exn → M A) :
  touches D m → (∀ x, touches D (h x)) → touches D (catch m c h).
Proof.
  intros Hm Hh s0 s Hs. apply wp_catch. eapply wp_mono; [by apply Hm|].
  intros [a|x] t Ht; [done|]. destruct (c x); [by apply Hh|done].
Qed.

Lemma touches_attempt (m : M A) : touches D m → touches D (attempt m).
Proof. intros Hm s0 s Hs. apply wp_attempt. eapply wp_mono; [by apply Hm|]. done. Qed.

Lemma touches_forM (f : B → A → M B) l b :
  (∀ x b, x ∈ l → touches D (f b x)) → touches D (forM f l b).
Proof.
  intros Hf s0 s Hs.
  apply (wp_forM env_ok _ _ (λ l' _ t, (∀ x, x ∈ l' → x ∈ l) ∧ changes D s0 t)); [done| |naive_solver].
  intros x l' b' t [Hl Ht]. eapply wp_mono; [apply Hf; [apply Hl; by left|done]|].
  intros [b''|y] t' Ht'; [|done]. split; [|done]. intros z Hz. apply Hl. by right.
Qed.
End touches.

Lemma touches_weaken {A} (D D' : path → Prop) (m : M A) :
  (∀ x, D x → D' x) → touches D m → touches D' m.
Proof.
  intros HD Hm s0 s Hs. eapply wp_weaken; [done| |eapply wp_mono; [by apply (Hm s s), changes_refl|]].
  - intros t Ht. simpl in Ht. eapply changes_trans; [done|]. by eapply changes_weaken.
  - intros r t Ht. simpl in Ht. eapply changes_trans; [done|]. by eapply changes_weaken.
Qed.

(** The file calls. *)
Section touches_calls.
Context (D : path → Prop).

Lemma touches_unlink p : D p → touches D (unlink p).
Proof.
  intros HD. apply touches_wr. intros s t. unfold unlink_at. intros Hu.
  repeat (case_match; try discriminate). injection Hu as <-. by apply changes_delete.
Qed.

Lemma touches_update_meta f p :
  (∀ n, n_kind (f n) = n_kind n) → touches D (wr (update_real f p)).
Proof.
  intros Hf. apply touches_wr. intros s t. unfold update_real, update_at. intros Hu. inv_ok.
  destruct (s !! a) eqn:E; [|discriminate]. injection Hu as <-. by eapply changes_meta.
Qed.

Lemma touches_chmod m p : touches D (chmod m p).
Proof. by apply touches_update_meta. Qed.
Lemma touches_chown u g p : touches D (chown u g p).
Proof. by apply touches_update_meta. Qed.
Lemma touches_fsync p : touches D (fsync p).
Proof. apply touches_wr. intros s t [= <-]. apply changes_refl. Qed.

Lemma touches_create n p : D p → touches D (wr (create_at n p)).
Proof.
  intros HD. apply touches_wr. intros s t. unfold create_at. intros Hu. inv_ok.
  by apply changes_insert.
Qed.
Lemma touches_mkdir mode p : D p → touches D (mkdir mode p).
Proof.
  intros HD. apply touches_bind; [apply touches_ask|]. intros n. apply touches_wr.
  intros s t. unfold mkdir_at. intros Hu. inv_ok. by apply changes_insert.
Qed.
Lemma touches_update f p : D p → touches D (wr (update_at f p)).
Proof.
  intros HD. apply touches_wr. intros s t. unfold update_at. intros Hu.
  case_match; [|discriminate]. injection Hu as <-. by apply changes_insert.
Qed.

Lemma rename_at_Ok p q s t :
  rename_at p q s = Ok t → (p = q ∧ t = s) ∨ (apart p q ∧ t = move p q s).
Proof.
  unfold rename_at. intros Hu. destruct (s !! p) as [n|]; [|discriminate]. inv_ok.
  case_decide; [injection Hu as <-; by left|].
  case_decide; [discriminate|]. case_decide; [discriminate|]. right. split; [done|].
  repeat (case_match; try discriminate); by injection Hu as <-.
Qed.

Lemma touches_rename p q : (∀ x, below p x ∨ below q x → D x) → touches D (rename p q).
Proof.
  intros HD. apply touches_wr. intros s t [[_ ->]|[Ha ->]]%rename_at_Ok; [apply changes_refl|].
  intros x Hx. unfold kind_at. rewrite lookup_move by done.
  rewrite !decide_False by (intros ?; apply Hx; auto). done.
Qed.

Lemma touches_rmtree_ignore_errors p : (∀ x, below p x → D x) → touches D (rmtree_ignore_errors p).
Proof.
  intros HD s0 s Hs. apply wp_rmtree_ignore_errors; [done|]. intros t Ht.
  assert (changes D s0 t); [|done]. eapply changes_trans; [done|]. by eapply changes_pruned.
Qed.

Lemma touches_rmtree p : (∀ x, below p x → D x) → touches D (rmtree p).
Proof.
  intros HD s0 s Hs.
  assert (∀ t, pruned p s t → changes D s0 t) as Ht.
  { intros t Ht. eapply changes_trans; [done|]. by eapply changes_pruned. }
  apply wp_rmtree; auto. apply Ht. intros x. rewrite lookup_del_subtree.
  case_decide; auto.
Qed.

End touches_calls.

(** [touches] goes through a program; what is left are the entries it changes. *)
Create HintDb touches.
Ltac touches_step :=
  match goal with
  | |- touches _ (mret _) => apply touches_ret
  | |- touches _ (raise _) => apply touches_raise
  | |- touches _ (lift _) => apply touches_lift
  | |- touches _ (rd _) => apply touches_rd
  | |- touches _ (ask _) => apply touches_ask
  | |- touches _ (fsync _) => apply touches_fsync
  | |- touches _ (chmod _ _) => apply touches_chmod
  | |- touches _ (chown _ _ _) => apply touches_chown
  | |- touches _ (unlink _) => apply touches_unlink
  | |- touches _ (_ ≫= _) => apply touches_bind; [|intros ?]
  | |- touches _ (catch _ _ _) => apply touches_catch; [|intros ?]
  | |- touches _ (attempt _) => apply touches_attempt
  | |- touches _ (forM _ _ _) => apply touches_forM; intros
  | |- touches _ (if ?c then _ else _) => destruct c
  | |- touches _ (match ?x with _ => _ end) => destruct x
  | |- touches _ (let _ := _ in _) => cbv zeta
  | |- touches _ _ => solve [eauto with touches nocore]
  end.
Ltac touches := repeat (cbv beta zeta; touches_step).

Section touches_reads.
Context (D : path → Prop).
Lemma touches_lstat p : touches D (lstat p).
Proof. apply touches_rd. Qed.
Lemma touches_time : touches D time_time.
Proof. apply touches_ask. Qed.
Lemma touches_new_node k m : touches D (new_node k m).
Proof. apply touches_ask. Qed.
Lemma touches_test f p : touches D (test f p).
Proof. unfold test, stat. touches. Qed.
Lemma touches_listdir p : touches D (listdir p).
Proof. unfold listdir. touches. Qed.
Lemma touches_unlink_missing_ok p : D p → touches D (unlink_missing_ok p).
Proof. intros HD. unfold unlink_missing_ok. touches. done. Qed.
End touches_reads.
#[export] Hint Resolve touches_lstat touches_time touches_new_node touches_test touches_listdir : touches.
#[export] Hint Extern 0 (touches _ (exists_ _)) => apply touches_test : touches.
#[export] Hint Extern 0 (touches _ (is_dir_ _)) => apply touches_test : touches.
#[export] Hint Extern 0 (touches _ (is_file_ _)) => apply touches_test : touches.

(** ** Files that are no links

    A path that is no link resolves to itself. *)

Definition not_link (s : fs) (p : path) : Prop := ∀ n, s !! p = Some n → is_lnk n = false.

Lemma stat_plain s p : not_link s p → stat_at s p = lstat_at s p.
Proof.
  intros Hp. unfold stat_at, resolve. change 40%nat with (S 39). simpl.
  destruct (s !! p) as [n|] eqn:E; [|done]. specialize (Hp n E). unfold is_lnk in Hp. by destruct (n_kind n).
Qed.

Lemma missing_is_missing s p : is_missing_error (missing s p) = true.
Proof. unfold missing. by destruct (existsb _ _). Qed.

Lemma resolve_plain s p : not_link s p → resolve s p = Ok p.
Proof.
  intros Hp. unfold resolve. change 40%nat with (S 39). simpl.
  destruct (s !! p) as [n|] eqn:E; [|done]. specialize (Hp n E). unfold is_lnk in Hp. by destruct (n_kind n).
Qed.

Lemma reg_not_link n : is_reg n = true → is_lnk n = false.
Proof. unfold is_reg, is_lnk. by destruct (n_kind n). Qed.

(** Writing goes through the empty file. *)
Lemma wp_write_text_kinds (H : env → Prop) (P : fs → Prop) p c (Q : result () → fs → Prop) s :
  not_link s p →
  (∀ x, Q (Err x) s) →
  (∀ n, is_dir_at s p = false → n_kind n = KReg (CText "") → P (<[p:=n]> s) ∧ ∀ x, Q (Err x) (<[p:=n]> s)) →
  (∀ n, is_dir_at s p = false → n_kind n = KReg c → P (<[p:=n]> s) ∧ Q (Ok tt) (<[p:=n]> s)) →
  wp H P (write_text p c) Q s.
Proof.
  intros Hl HE HP HQ. unfold write_text. apply wp_bind, wp_ask. intros e k _.
  apply wp_bind, wp_wr; [by intros|]. unfold truncate_at. rewrite resolve_plain by done. simpl.
  set (new := Node _ _ _ _ _). destruct (need_dir s (parent p) "open"); [|apply HE]. simpl.
  assert (∀ n, is_dir_at s p = false → n_kind n = KReg (CText "") → P (<[p:=n]> s) ∧
    wp H P (t ← time_time; wr (update_real (set_kind (KReg c) t) p)) Q (<[p:=n]> s)) as Hstep.
  { intros n Hd Hn. destruct (HP n Hd Hn) as [HPn HEn]. split; [done|].
    apply wp_bind, wp_ask. intros e' k' _. apply wp_wr; [by intros|].
    unfold update_real. rewrite resolve_plain.
    2: { intros m. rewrite lookup_insert_eq. intros [= <-]. unfold is_lnk. by rewrite Hn. }
    simpl. unfold update_at. rewrite lookup_insert_eq, insert_insert_eq. by apply HQ. }
  unfold is_dir_at in Hstep. destruct (s !! p) as [n|]; [|by apply Hstep].
  destruct (is_dir n); [apply HE|by apply Hstep].
Qed.
Lemma wp_write_text (H : env → Prop) (P : fs → Prop) p c (Q : result () → fs → Prop) s :
  not_link s p →
  (∀ x, Q (Err x) s) →
  (∀ n, is_reg n = true → P (<[p:=n]> s) ∧ ∀ x, Q (Err x) (<[p:=n]> s)) →
  (∀ n, n_kind n = KReg c → Q (Ok tt) (<[p:=n]> s)) →
  wp H P (write_text p c) Q s.
Proof.
  intros Hl HE HP HQ. apply wp_write_text_kinds; [done|done| |]; intros n _ Hn.
  - apply HP. unfold is_reg. by rewrite Hn.
  - split; [|by apply HQ]. apply HP. unfold is_reg. by rewrite Hn.
Qed.

Lemma wp_chmod_plain (H : env → Prop) (P : fs → Prop) m p n (Q : result () → fs → Prop) s :
  s !! p = Some n → is_lnk n = false →
  (∀ x, Q (Err x) s) → P (<[p := set_mode m n]> s) → Q (Ok tt) (<[p := set_mode m n]> s) →
  wp H P (chmod m p) Q s.
Proof.
  intros Hn Hl HE HP HQ. apply wp_wr; [by intros|]. unfold update_real.
  rewrite resolve_plain by (intros k; rewrite Hn; by intros [= <-]). simpl. unfold update_at. by rewrite Hn.
Qed.

(** ** A concrete environment

    Nothing fails, listings come longest path first, commands succeed. *)

Definition longer (p q : path) : Prop := (length q ≤ length p)%nat.
#[export] Instance longer_dec : RelDecision longer := λ p q, le_dec (length q) (length p).
#[export] Instance longer_total : Total longer.
Proof. intros p q. unfold longer. lia. Qed.
#[export] Instance longer_trans : Transitive longer.
Proof. intros p q r. unfold longer. lia. Qed.

Definition sample_env : env :=
  Env (λ _, None) (λ _, None) (λ n, Z.of_nat n) (λ _ l, merge_sort longer l)
      (λ n, "tmp" +:+ pretty n) (λ _ _ _, Ok (Proc 0 "" "")) 0 0 18 (* 0o022 *).

Lemma StronglySorted_lookup {A} (R : A → A → Prop) l i j x y :
  StronglySorted R l → l !! i = Some x → l !! j = Some y → (i < j)%nat → R x y.
Proof.
  intros Hs. revert i j. induction Hs as [|z l Hl IH Hz]; intros i j Hi Hj Hlt; [done|].
  destruct i as [|i], j as [|j]; simpl in *; try lia.
  - injection Hi as ->. rewrite Forall_forall in Hz. apply Hz. by eapply list_elem_of_lookup_2.
  - eapply IH; [done..|lia].
Qed.

Lemma sample_env_ok : env_ok sample_env.
Proof.
  split; simpl; try done.
  - intros n l. apply merge_sort_Permutation.
  - intros n l i j p q Hi Hj Hlt [r ->].
    assert (longer p (p ++ r)) as Hlen.
    { eapply StronglySorted_lookup; [apply (StronglySorted_merge_sort longer)|done..]. }
    unfold longer in Hlen. rewrite length_app in Hlen. destruct r; [by rewrite app_nil_r|simpl in Hlen; lia].
Qed.

Lemma sample_no_faults : no_faults sample_env.
Proof. split; [apply sample_env_ok|done]. Qed.
Lemma sample_reads_ok : reads_ok sample_env.
Proof. split; [apply sample_env_ok|done]. Qed.

Definition plain_dir : node := Node KDir 0 0 493 (* 0o755 *) 0.
Definition plain_file (c : content) : node := Node (KReg c) 0 0 384 (* 0o600 *) 0.
Definition run_op {A} (m : M A) (e : env) (s : fs) : result A * world := m e (World s [] 0).
