(* ===== verification/RunLogic.v ===== *)
(** * Runs of programs, call by call

    [FSLogic.v] reasons about every tree a program passes through; this file about
    one run: how a successful run of a compound program splits into the runs of its
    parts, which calls only read, and which commands were executed between two
    worlds. *)

From S2P Require Import Prelude PyStr PyVal FS FSLogic.

Local Open Scope Z_scope.

(** ** Runs

    What a successful program did, call by call.  [runs e w w' argv] says that
    between the two worlds the command was run and exited with status 0. *)

Definition runs (e : env) (w w' : world) (argv : list string) : Prop :=
  ∃ n r, (w_n w ≤ n < w_n w')%nat ∧ e_run e n argv "" = Ok r ∧ returncode r = 0.

(** Calls are only ever added. *)
Definition forward {A} (m : M A) : Prop := ∀ e w, (w_n w ≤ w_n (m e w).2)%nat.

Lemma run_bind {A B} (m : M A) (f : A → M B) e w b w' :
  (m ≫= f) e w = (Ok b, w') → ∃ a w1, m e w = (Ok a, w1) ∧ f a e w1 = (Ok b, w').
Proof. unfold mbind, M_bind. destruct (m e w) as [[a|x] w1]; [eauto|discriminate]. Qed.
Lemma run_ret {A} (a b : A) e w w' : mret (M:=M) a e w = (Ok b, w') → a = b ∧ w' = w.
Proof. unfold mret, M_ret. naive_solver. Qed.
Lemma run_lift {A} (r : result A) (b : A) e w w' : lift r e w = (Ok b, w') → r = Ok b ∧ w' = w.
Proof. unfold lift. naive_solver. Qed.
Lemma run_catch {A} (m : M A) c (h : exn → M A) e w b w' :
  catch m c h e w = (Ok b, w') → m e w = (Ok b, w') ∨ ∃ x w1, m e w = (Err x, w1) ∧ c x = true ∧ h x e w1 = (Ok b, w').
Proof. unfold catch. destruct (m e w) as [[a|x] w1]; [naive_solver|]. destruct (c x) eqn:E; naive_solver. Qed.

Lemma forward_ret {A} (a : A) : forward (mret a).
Proof. intros e w. done. Qed.
Lemma forward_raise {A} x : forward (raise (A:=A) x).
Proof. intros e w. done. Qed.
Lemma forward_lift {A} (r : result A) : forward (lift r).
Proof. intros e w. done. Qed.
Lemma forward_rd {A} (f : fs → result A) : forward (rd f).
Proof. intros e w. unfold rd. destruct (e_rfault e _); simpl; lia. Qed.
Lemma forward_wr f : forward (wr f).
Proof. intros e w. unfold wr. destruct (e_wfault e _); simpl; [lia|]. destruct (f _); simpl; lia. Qed.
Lemma forward_ask {A} (f : env → nat → A) : forward (ask f).
Proof. intros e w. simpl. lia. Qed.
Lemma forward_bind {A B} (m : M A) (f : A → M B) : forward m → (∀ a, forward (f a)) → forward (m ≫= f).
Proof.
  intros Hm Hf e w. unfold mbind, M_bind. specialize (Hm e w). destruct (m e w) as [[a|x] w1]; simpl in *; [|lia].
  specialize (Hf a e w1). lia.
Qed.
Lemma forward_catch {A} (m : M A) c (h : exn → M A) : forward m → (∀ x, forward (h x)) → forward (catch m c h).
Proof.
  intros Hm Hh e w. unfold catch. specialize (Hm e w). destruct (m e w) as [[a|x] w1]; simpl in *; [lia|].
  destruct (c x); simpl; [|lia]. specialize (Hh x e w1). lia.
Qed.
Lemma forward_forM {A B} (f : B → A → M B) l b : (∀ b x, forward (f b x)) → forward (forM f l b).
Proof. intros Hf. revert b. induction l as [|x l IH]; intros b; simpl; [apply forward_ret|]. by apply forward_bind. Qed.

Create HintDb forward.
#[export] Hint Resolve forward_ret forward_raise forward_lift forward_rd forward_wr forward_ask : forward.

Ltac forward_step :=
  match goal with
  | |- forward (match ?x with _ => _ end) => destruct x
  | |- forward (_ ≫= _) => apply forward_bind; [|intros]
  | |- forward (catch _ _ _) => apply forward_catch; [|intros]
  | |- forward (forM _ _ _) => apply forward_forM; intros
  | |- forward _ => solve [auto with forward]
  end.
Ltac forward := repeat (cbv beta zeta; forward_step).

Lemma forward_test f p : forward (test f p).
Proof. unfold test, stat. forward. Qed.
Lemma forward_listdir p : forward (listdir p).
Proof. unfold listdir. forward. Qed.
Lemma forward_read_content p : forward (read_content p).
Proof. unfold read_content. forward. Qed.
#[export] Hint Resolve forward_test forward_listdir forward_read_content : forward.
Lemma forward_exists p : forward (exists_ p).
Proof. unfold exists_. forward. Qed.
Lemma forward_unlink_missing_ok p : forward (unlink_missing_ok p).
Proof. unfold unlink_missing_ok, unlink. forward. Qed.
Lemma forward_rmtree p : forward (rmtree p).
Proof. unfold rmtree, lstat, iterM. forward. Qed.
#[export] Hint Resolve forward_exists forward_unlink_missing_ok forward_rmtree : forward.
Lemma runs_weaken e w1 w2 w w' argv : (w_n w ≤ w_n w1)%nat → (w_n w2 ≤ w_n w')%nat → runs e w1 w2 argv → runs e w w' argv.
Proof. intros ?? (n & r & ? & ?). exists n, r. split; [lia|done]. Qed.
Lemma forward_of {A} (m : M A) e w r w' : forward m → m e w = (r, w') → (w_n w ≤ w_n w')%nat.
Proof. intros H Hm. specialize (H e w). by rewrite Hm in H. Qed.
Lemma run_run_command e w argv r w' : run_command argv e w = (Ok r, w') →
  e_run e (w_n w) argv "" = Ok r ∧ w_n w' = S (w_n w).
Proof.
  unfold run_command, run_command_input. intros (a & w1 & Ha & Hl)%run_bind. apply run_lift in Hl as [-> ->].
  unfold ask in Ha. by simplify_eq.
Qed.
Lemma run_if {A} (b : bool) (m1 m2 : M A) e w a w' :
  (if b then m1 else m2) e w = (Ok a, w') → (b = true ∧ m1 e w = (Ok a, w')) ∨ (b = false ∧ m2 e w = (Ok a, w')).
Proof. destruct b; auto. Qed.
Lemma run_attempt {A} (m : M A) e w (r : result (result A)) w' : attempt m e w = (r, w') → ∃ r0, r = Ok r0 ∧ m e w = (r0, w').
Proof. unfold attempt. destruct (m e w) as [r0 w1]. intros [= <- <-]. eauto. Qed.
Lemma run_finally {A} (m : M A) (f : M ()) e w a w' : finally m f e w = (Ok a, w') →
  ∃ w1, m e w = (Ok a, w1) ∧ f e w1 = (Ok tt, w').
Proof.
  unfold finally. intros (r & w1 & Hr & ([] & w2 & Hf & [-> ->]%run_lift)%run_bind)%run_bind.
  apply run_attempt in Hr as (r0 & [= <-] & Hm). eauto.
Qed.

(** ** Reading *)

(** A program that changes nothing. *)
Definition unchanged (w w' : world) : Prop := w_fs w' = w_fs w ∧ w_hist w' = w_hist w.
Definition read_only {A} (m : M A) : Prop := ∀ e w, unchanged w (m e w).2.

Lemma read_only_ret {A} (a : A) : read_only (mret a).
Proof. done. Qed.
Lemma read_only_raise {A} x : read_only (raise (A:=A) x).
Proof. done. Qed.
Lemma read_only_lift {A} (r : result A) : read_only (lift r).
Proof. done. Qed.
Lemma read_only_rd {A} (f : fs → result A) : read_only (rd f).
Proof. intros e w. unfold rd. by destruct (e_rfault e _). Qed.
Lemma read_only_bind {A B} (m : M A) (f : A → M B) : read_only m → (∀ a, read_only (f a)) → read_only (m ≫= f).
Proof.
  intros Hm Hf e w. unfold mbind, M_bind. specialize (Hm e w). destruct (m e w) as [[a|x] w1]; [|done].
  destruct Hm as [H1 H2]. destruct (Hf a e w1) as [H3 H4]. simpl in *. split; congruence.
Qed.
Lemma read_only_catch {A} (m : M A) c (h : exn → M A) : read_only m → (∀ x, read_only (h x)) → read_only (catch m c h).
Proof.
  intros Hm Hh e w. unfold catch. specialize (Hm e w). destruct (m e w) as [[a|x] w1]; [done|].
  destruct (c x); [|done]. destruct Hm as [H1 H2]. destruct (Hh x e w1) as [H3 H4]. simpl in *. split; congruence.
Qed.
Ltac read_only := repeat first
  [ apply read_only_ret | apply read_only_raise | apply read_only_lift | apply read_only_rd
  | apply read_only_catch; [|intros] | apply read_only_bind; [|intros] | match goal with |- read_only (match ?x with _ => _ end) => destruct x end ].

Lemma read_only_exists p : read_only (exists_ p).
Proof. unfold exists_, test, stat. read_only. Qed.
