(* ===== verification/Staging.v ===== *)
(** * [staging.py]: the queue between the service and the privileged worker

    One definition per function of
    src/scripts/atomixos_provision/src/atomixos_provision/staging.py, on the file
    system of FS.v.  The queue lock serialises the operations; what runs under it
    is one program here.  Times are integers of one unit, [tick_per_second] of
    them a second. *)

From Stdlib Require Import Ascii.
From S2P Require Import Prelude PyStr PyVal ConfigCheck FS.

Local Open Scope Z_scope.

Definition MANIFEST_VERSION : Z := 1.
Definition RESULT_VERSION : Z := 1.
Definition DEFAULT_RUNTIME_ROOT : path := ["run"; "atomixos-provision"].
Definition DEFAULT_MAX_STAGED_JOBS : nat := 4.
Definition MAX_CONTROL_JSON_BYTES : Z := 1024 * 1024.
Definition tick_per_second : Z := 1000000000.
Definition STAGED_RESERVATION_TTL_SECONDS : Z := 300 * tick_per_second.
Definition RUNTIME_ROOT_MODE : Z := 493.    (* 0o755 *)
Definition QUEUE_DIR_MODE : Z := 1528.      (* 0o2770 *)
Definition RESULTS_DIR_MODE : Z := 1512.    (* 0o2750 *)
Definition ACTIVE_DIR_MODE : Z := 1512.     (* 0o2750 *)

(** ** Paths *)

Record RuntimePaths : Type := Paths { root : path }.
Definition queue (p : RuntimePaths) : path := root p // "queue".
Definition active (p : RuntimePaths) : path := root p // "active".
Definition results (p : RuntimePaths) : path := root p // "results".
Definition queue_sequence (p : RuntimePaths) : path := queue p // ".sequence".
Definition used_nonces (p : RuntimePaths) : path := root p // "used-nonces".

Record ClaimedJob : Type := Claimed { cj_job_id : string; cj_path : path }.

Record StagedResult : Type := StagedRes {
  succeeded : bool; sr_payload : dict value; sr_error : option string; rollback_status : option string }.

Variant StagedTimeoutState : Type := WAITING | CLAIMED | ABANDONED | MISSING.

Definition is_permission_error (x : exn) : bool := match x with PermissionError _ => true | _ => false end.

Definition _ensure_directory (p : path) (mode : Z) : M () :=
  _ ← mkdir_parents 511 p;
  catch (chmod mode p) is_permission_error (λ _, mret tt).

Definition ensure_runtime_layout (paths : RuntimePaths) (for_worker : bool) : M () :=
  _ ← _ensure_directory (root paths) RUNTIME_ROOT_MODE;
  _ ← _ensure_directory (queue paths) QUEUE_DIR_MODE;
  want_results ← (if for_worker then mret true else exists_ (results paths));
  _ ← (if want_results : bool then _ensure_directory (results paths) RESULTS_DIR_MODE else mret tt);
  if for_worker then _ensure_directory (active paths) ACTIVE_DIR_MODE else mret tt.

(** ** Names *)

Definition control_suffixes : list string := [".ready"; ".reserve"].
Definition ready_name (job_id : string) : string := job_id +:+ ".ready".
Definition reserve_name (job_id : string) : string := job_id +:+ ".reserve".
Definition ready_path (paths : RuntimePaths) (job_id : string) : path := queue paths // ready_name job_id.
Definition reserve_path (paths : RuntimePaths) (job_id : string) : path := queue paths // reserve_name job_id.

(** [re.match(r"^[A-Za-z0-9][A-Za-z0-9_.-]{0,127}$", s)]; [$] also matches before a
    final newline. *)
Definition is_job_char (c : ascii) : bool :=
  is_alnum_ascii c || Ascii.eqb c "_" || Ascii.eqb c "." || Ascii.eqb c "-".
Definition JOB_ID_RE (s : string) : bool :=
  let body := match rev (chars s) with
              | c :: l => if Ascii.eqb c nl_char then rev l else chars s
              | [] => []
              end in
  match body with
  | c :: l => is_alnum_ascii c && forallb is_job_char l && (length l <=? 127)%nat
  | [] => false
  end.

Definition validate_job_id (job_id : string) : result string :=
  _ ← raise_if (negb (JOB_ID_RE job_id)) (provision_error ("invalid staged job id: " +:+ py_repr job_id));
  _ ← raise_if (has_char "/" job_id || bool_decide (job_id ∈ ["."; ".."]))
        (provision_error ("invalid staged job id: " +:+ py_repr job_id));
  _ ← raise_if (existsb (endswith job_id) control_suffixes)
        (provision_error ("staged job id uses reserved suffix: " +:+ py_repr job_id));
  Ok job_id.
(** The same on a decoded value. *)
Definition validate_job_id_value (v : value) : result string :=
  match v with
  | VStr s => validate_job_id s
  | _ => Err (provision_error ("invalid staged job id: " +:+ value_repr v))
  end.

(** [Path(raw)]: the non-empty components that are not ".". *)
Definition path_parts (raw : string) : list string :=
  filter (λ x, x ≠ "" ∧ x ≠ ".") (split_on "/" raw).
Definition path_is_absolute (raw : string) : bool := startswith raw "/".
(** [as_posix] of a relative path. *)
Definition path_as_posix (raw : string) : string :=
  match path_parts raw with [] => "." | l => join "/" l end.

Definition validate_relative_path (v : value) : result string :=
  match v with
  | VStr raw =>
      _ ← raise_if (bool_decide (raw = "")) (provision_error "staged manifest path must be a non-empty string");
      _ ← raise_if (path_is_absolute raw || bool_decide (".." ∈ path_parts raw) || bool_decide ("." ∈ path_parts raw))
            (provision_error ("unsafe staged manifest path: " +:+ py_repr raw));
      _ ← raise_if (negb (bool_decide (path_as_posix raw = raw)))
            (provision_error ("non-normalized staged manifest path: " +:+ py_repr raw));
      Ok (path_as_posix raw)
  | _ => Err (provision_error "staged manifest path must be a non-empty string")
  end.

(** ** JSON files *)

(** [json.dumps(v, sort_keys=True, indent=2)]. *)
Definition indent_str (n : nat) : string := nl +:+ unchars (repeat " "%char (2 * n)).
Definition key_le (a b : string * string) : Prop := String.le a.1 b.1.
#[export] Instance key_le_dec : RelDecision key_le := λ a b, String.le_dec a.1 b.1.
Fixpoint json_pretty (n : nat) (v : value) : string :=
  match v with
  | VNone => "null"
  | VBool b => if b then "true" else "false"
  | VInt z => str_int z
  | VFloat _ t => t
  | VStr s => json_dumps_str s
  | VList [] => "[]"
  | VList l => "[" +:+ indent_str (S n)
      +:+ join ("," +:+ indent_str (S n)) (map (json_pretty (S n)) l) +:+ indent_str n +:+ "]"
  | VDict [] => "{}"
  | VDict d =>
      let items := (fix go (d : list (string * value)) : list (string * string) :=
                      match d with
                      | [] => []
                      | (k, x) :: d' => (k, json_dumps_str k +:+ ": " +:+ json_pretty (S n) x) :: go d'
                      end) d in
      "{" +:+ indent_str (S n) +:+ join ("," +:+ indent_str (S n)) (map snd (merge_sort key_le items))
      +:+ indent_str n +:+ "}"
  | VOther t => t
  end.
(** The file [json.dump] writes.  Key order is not tracked: no reader of these
    files observes it. *)
Definition json_file (d : dict value) : content :=
  CJson (VDict d) (Z.of_nat (slen (json_pretty 0 (VDict d))) + 1).

Definition fsync_directory (p : path) : M () := catch (fsync p) is_OSError (λ _, mret tt).

Definition write_json_atomic (p : path) (payload : dict value) (mode : Z) (owner : option (Z * Z)) : M () :=
  _ ← mkdir_parents 511 (parent p);
  suffix ← ask e_tmp;
  let tmp := parent p // ("." +:+ name_of p +:+ "." +:+ suffix) in
  _ ← write_new 384 (* 0o600 *) tmp (json_file payload);
  _ ← fsync tmp;
  catch
    (_ ← match owner with Some (u, g) => chown u g tmp | None => mret tt end;
     _ ← chmod mode tmp;
     _ ← rename tmp p;
     fsync_directory (parent p))
    is_Exception
    (λ x, _ ← unlink_missing_ok tmp; raise x).

Definition read_control_at (p : path) (max_bytes : Z) (s : fs) : result content :=
  n ← lstat_at s p;
  match n_kind n with
  | KLnk _ => Err (provision_error ("staged control file must not be a symlink: " +:+ show_path p))
  | KReg c => if max_bytes <? content_size c
              then Err (provision_error ("staged control file is too large: " +:+ show_path p)) else Ok c
  | _ => Err (provision_error ("staged control file must be a regular file: " +:+ show_path p))
  end.
Definition read_control_file (p : path) (max_bytes : Z) : M content := rd (read_control_at p max_bytes).

(** [json.loads(bytes.decode())]: undecodable bytes and malformed JSON raise
    subclasses of [ValueError]. *)
Definition json_loads (c : content) : result value :=
  match c with
  | CJson v _ => Ok v
  | CText _ => Err (ValueError "JSONDecodeError")
  | CBin _ => Err (UnicodeDecodeError "invalid start byte")
  end.
Definition is_io_or_decode (x : exn) : bool := is_OSError x || is_ValueError x.

Definition read_json (p : path) : M (dict value) :=
  payload ← catch (c ← read_control_file p MAX_CONTROL_JSON_BYTES; lift (json_loads c)) is_io_or_decode
              (λ _, raise (provision_error ("invalid staged JSON: " +:+ show_path p)));
  match payload with
  | VDict d => mret d
  | _ => raise (provision_error ("staged JSON must be an object: " +:+ show_path p))
  end.

Definition remove_staged_path (p : path) : M () :=
  r ← attempt (lstat p);
  match r with
  | Err x => if is_not_found x then mret tt else raise x
  | Ok n => if is_dir n then rmtree_ignore_errors p else unlink_missing_ok p
  end.

Definition _is_plain_directory (p : path) : M bool :=
  catch (n ← lstat p; mret (is_dir n)) is_not_found (λ _, mret false).

(** [[f(x) for x in l if ...]] with effects. *)
Definition filterM {A} (f : A → M bool) (l : list A) : M (list A) :=
  forM (λ acc x, b ← f x; mret (if b : bool then acc ++ [x] else acc)) l [].

(** [dir.glob("*" + suffix)]. *)
Definition glob_suffix (p : path) (suffix : string) : M (list string) :=
  l ← listdir p; mret (filter (λ x, endswith x suffix) l).

(** ** The queue lock

    [flock] itself is what lets one program below stand for everything done under
    the lock; opening the lock file is modelled. *)

Definition queue_lock (p : RuntimePaths) : path := root p // "queue.lock".

Definition _open_queue_lock (paths : RuntimePaths) : M () :=
  n ← new_node (KReg (CText "")) 432 (* 0o660 *);
  r ← attempt (lstat (queue_lock paths));
  _ ← match r with
      | Ok st => if is_lnk st
                 then raise (provision_error ("staged queue lock must not be a symlink: " +:+ show_path (queue_lock paths)))
                 else if is_dir st then raise (OSError_ ("EISDIR: " +:+ show_path (queue_lock paths)))
                 else mret tt
      | Err x => if is_not_found x then wr (create_at n (queue_lock paths)) else raise x
      end;
  st ← rd (λ s, lstat_at s (queue_lock paths));
  if negb (is_reg st)
  then raise (provision_error ("staged queue lock must be a regular file: " +:+ show_path (queue_lock paths)))
  else if bool_decide (root paths = DEFAULT_RUNTIME_ROOT) && negb (n_uid st =? 0)
  then raise (provision_error ("staged queue lock must be root-owned: " +:+ show_path (queue_lock paths)))
  else mret tt.

Definition queue_operation_lock {A} (paths : RuntimePaths) (m : M A) : M A :=
  _ ← _open_queue_lock paths; m.

(** ** Control files *)

(** The sequence of a ready marker or a reservation. *)
Definition sequence_of (d : dict value) : option Z :=
  match vget "sequence" d with VInt n => if 0 <? n then Some n else None | _ => None end.
Definition _ready_marker_sort_key (p : path) : M (Z * string) :=
  d ← read_json p;
  n ← lift (of_option (sequence_of d) (provision_error ("staged ready marker missing valid sequence: " +:+ show_path p)));
  mret (n, name_of p).
Definition is_number (v : value) : bool :=
  match v with VInt _ | VFloat _ _ | VBool _ => true | _ => false end.
(** The time of [time.time()] as a JSON number. *)
Definition _reservation_sort_key (time_value : Z → value) (p : path) : M (Z * value) :=
  d ← read_json p;
  n ← lift (of_option (sequence_of d) (provision_error ("staged reservation missing valid sequence: " +:+ show_path p)));
  let created_at := vget "created_at" d in
  if is_number created_at then mret (n, created_at)
  else now ← time_time; mret (n, time_value now).

(** ** The sequence file *)

(** [int(s)] of a stripped text: an optional sign, digits, single underscores
    between digits. *)
Definition py_int (s : string) : option Z :=
  let '(neg, body) := match chars s with
                      | c :: l => if Ascii.eqb c "-" then (true, l) else if Ascii.eqb c "+" then (false, l) else (false, c :: l)
                      | [] => (false, [])
                      end in
  let groups := split_on "_" (unchars body) in
  if forallb (λ g, negb (bool_decide (g = "")) && all_chars is_digit_ascii g) groups
  then let n := dec_value (join "" groups) in Some (if neg : bool then - n else n)
  else None.

(** [int(data.decode().strip() or "0")]. *)
Definition parse_sequence (c : content) : result Z :=
  match c with
  | CText s => let raw := strip s in
               if bool_decide (raw = "") then Ok 0
               else of_option (py_int raw) (ValueError "invalid literal for int() with base 10")
  | CJson (VInt n) _ => Ok n
  | CJson _ _ => Err (ValueError "invalid literal for int() with base 10")
  | CBin _ => Err (UnicodeDecodeError "invalid start byte")
  end.

Definition _next_ready_sequence_locked (paths : RuntimePaths) : M Z :=
  let sequence_path := queue_sequence paths in
  current ← catch
    (c ← read_control_file sequence_path 64; lift (parse_sequence c)) is_io_or_decode
    (λ x, if is_not_found x then mret 0
          else if is_ValueError x then raise (provision_error ("invalid staged queue sequence: " +:+ show_path sequence_path))
          else raise (provision_error ("cannot read staged queue sequence: " +:+ show_path sequence_path)));
  let next_sequence := current + 1 in
  pid ← ask e_tmp;
  let tmp_path := queue paths // (".sequence." +:+ pid) in
  _ ← write_text tmp_path (CText (str_int next_sequence +:+ nl));
  _ ← chmod 432 (* 0o660 *) tmp_path;
  _ ← rename tmp_path sequence_path;
  mret next_sequence.

(** ** Counting and cleaning *)

Definition excluded (exclude : option string) (x : string) : bool := bool_decide (exclude = Some x).

(** [path.suffix in CONTROL_FILE_SUFFIXES]. *)
Definition has_control_suffix (name : string) : bool :=
  existsb (λ x, endswith name x && (slen x <? slen name)%nat) control_suffixes.

(** The job a control file belongs to; [None] for an invalid name. *)
Definition job_of (suffix name : string) : option string :=
  match validate_job_id (removesuffix name suffix) with Ok j => Some j | Err _ => None end.

Definition _count_staged_jobs_locked (paths : RuntimePaths) (exclude_job_id : option string) : M nat :=
  let count_active : M (list string * nat) :=
    ex ← exists_ (active paths);
    if ex : bool then
      names ← listdir (active paths);
      ids ← filterM (λ x, d ← _is_plain_directory (active paths // x);
                          mret (d && negb (excluded exclude_job_id x))) names;
      mret (remove_dups ids, length (remove_dups ids))
    else mret ([], 0%nat) in
  active_info ← catch count_active is_permission_error (λ _, mret ([], 1%nat));
  let '(active_ids, count) := active_info : list string * nat in
  names ← listdir (queue paths);
  queued ← filterM (λ x,
    if startswith x "." || has_control_suffix x then mret false
    else d ← _is_plain_directory (queue paths // x);
         mret (d && is_ok (validate_job_id x) && negb (excluded exclude_job_id x))) names;
  ready_files ← glob_suffix (queue paths) ".ready";
  ready ← forM (λ acc x,
    match job_of ".ready" x with
    | None => mret acc
    | Some j => ex ← exists_ (queue paths // j);
                mret (if ex && negb (excluded exclude_job_id j) then acc ++ [j] else acc)
    end) ready_files [];
  reserve_files ← glob_suffix (queue paths) ".reserve";
  let reserved := filter (λ x, match job_of ".reserve" x with
                               | Some j => negb (excluded exclude_job_id j)
                                           && negb (bool_decide (j ∈ active_ids ++ queued ++ ready))
                               | None => false
                               end = true) reserve_files in
  mret (count + length (remove_dups (queued ++ ready)) + length reserved)%nat.

Definition _remove_unpublished_job_locked (paths : RuntimePaths) (job_id : string) : M () :=
  ready ← exists_ (ready_path paths job_id);
  held ← (if ready : bool then mret true else _is_plain_directory (active paths // job_id));
  if held : bool then mret tt
  else
    _ ← remove_staged_path (queue paths // job_id);
    names ← listdir (queue paths);
    iterM (λ x, remove_staged_path (queue paths // x))
      (filter (λ x, startswith x ("." +:+ job_id +:+ ".staging.")) names).

(** A stale or irregular reservation goes, with the unpublished state of its job. *)
Definition drop_reservation (paths : RuntimePaths) (name : string) : M bool :=
  _ ← remove_staged_path (queue paths // name);
  _ ← match job_of ".reserve" name with
      | Some j => _remove_unpublished_job_locked paths j
      | None => mret tt
      end;
  mret true.
Definition _cleanup_stale_reservations_locked (paths : RuntimePaths) : M () :=
  now ← time_time;
  let deadline := now - STAGED_RESERVATION_TTL_SECONDS in
  names ← glob_suffix (queue paths) ".reserve";
  removed ← forM (λ removed name,
    r ← attempt (lstat (queue paths // name));
    match r with
    | Err x => if is_not_found x then mret removed else raise x
    | Ok n => if negb (is_reg n) || (n_mtime n <? deadline) then drop_reservation paths name else mret removed
    end) names false;
  if removed : bool then fsync_directory (queue paths) else mret tt.

(** ** Reservations and publication *)

Section clock.
(** [time.time()] as the float the JSON files hold. *)
Context (time_value : Z → value).

Definition control_payload (job_id : string) (sequence : Z) (created_at : value) : dict value :=
  [("job_id", VStr job_id); ("sequence", VInt sequence); ("created_at", created_at)].

Definition publish_ready_marker (paths : RuntimePaths) (job_id : string) : M path :=
  _ ← lift (validate_job_id job_id);
  queue_operation_lock paths (
  _ ← _cleanup_stale_reservations_locked paths;
  _ ← catch (lstat (reserve_path paths job_id)) is_not_found
        (λ _, raise (provision_error ("staged job reservation is missing: " +:+ job_id)));
  key ← _reservation_sort_key time_value (reserve_path paths job_id);
  let '(sequence, created_at) := key : Z * value in
  _ ← write_json_atomic (ready_path paths job_id) (control_payload job_id sequence created_at) 416 (* 0o640 *) None;
  _ ← unlink_missing_ok (reserve_path paths job_id);
  _ ← fsync_directory (queue paths);
  mret (ready_path paths job_id)).

Definition reserve_staged_job_slot (paths : RuntimePaths) (job_id : string) (max_jobs : nat) : M bool :=
  _ ← lift (validate_job_id job_id);
  _ ← ensure_runtime_layout paths false;
  queue_operation_lock paths (
  _ ← _cleanup_stale_reservations_locked paths;
  count ← _count_staged_jobs_locked paths None;
  if (max_jobs <=? count)%nat then mret false
  else
    sequence ← _next_ready_sequence_locked paths;
    n ← new_node (KReg (CText "")) 416;
    _ ← catch (wr (create_at n (reserve_path paths job_id)))
          (λ x, match x with FileExistsError _ => true | _ => false end)
          (λ _, raise (provision_error ("staged job reservation already exists: " +:+ job_id)));
    _ ← catch
      (now ← time_time;
       _ ← wr (update_at (set_kind (KReg (json_file (control_payload job_id sequence (time_value now)))) now)
                 (reserve_path paths job_id));
       fsync (reserve_path paths job_id))
      is_Exception (λ x, _ ← unlink_missing_ok (reserve_path paths job_id); raise x);
    _ ← fsync_directory (queue paths);
    mret true).

Definition release_staged_job_slot (paths : RuntimePaths) (job_id : string) : M () :=
  _ ← lift (validate_job_id job_id);
  queue_operation_lock paths (
  _ ← unlink_missing_ok (reserve_path paths job_id);
  fsync_directory (queue paths)).

Definition refresh_staged_job_slot (paths : RuntimePaths) (job_id : string) : M () :=
  _ ← lift (validate_job_id job_id);
  queue_operation_lock paths (
  ex ← exists_ (reserve_path paths job_id);
  if ex : bool then _ ← utime_now (reserve_path paths job_id); fsync_directory (queue paths) else mret tt).

Definition count_staged_jobs (paths : RuntimePaths) (exclude_job_id : option string) : M nat :=
  _ ← match exclude_job_id with Some j => _ ← lift (validate_job_id j); mret tt | None => mret tt end;
  _ ← ensure_runtime_layout paths false;
  queue_operation_lock paths (
  _ ← _cleanup_stale_reservations_locked paths;
  _count_staged_jobs_locked paths exclude_job_id).

Definition has_staged_jobs (paths : RuntimePaths) (exclude_job_id : option string) : M bool :=
  n ← count_staged_jobs paths exclude_job_id; mret (0 <? n)%nat.

(** ** Turns *)

(** [path.suffix == ".ready"] selects the reader; both give the sequence. *)
Definition control_sequence (paths : RuntimePaths) (name : string) : M Z :=
  if endswith name ".ready" && (6 <? slen name)%nat
  then key ← _ready_marker_sort_key (queue paths // name); mret key.1
  else key ← _reservation_sort_key time_value (queue paths // name); mret key.1.

Definition _ready_sequence_for_job_locked (paths : RuntimePaths) (job_id : string) : M (option Z) :=
  forM (λ found name,
    match found with
    | Some n => mret (Some n)
    | None => catch (n ← control_sequence paths name; mret (Some n))
                (λ x, is_not_found x || is_ProvisionError x) (λ _, mret None)
    end) [ready_name job_id; reserve_name job_id] None.

Definition _has_lower_sequence_reservation_locked (paths : RuntimePaths) (sequence : Z) : M bool :=
  reserves ← glob_suffix (queue paths) ".reserve";
  readies ← glob_suffix (queue paths) ".ready";
  forM (λ found name,
    if found : bool then mret true
    else
      r ← attempt (control_sequence paths name);
      match r with
      | Ok n => mret (n <? sequence)
      | Err x =>
          if is_ProvisionError x then
            _ ← remove_staged_path (queue paths // name); _ ← fsync_directory (queue paths); mret false
          else raise x
      end) (reserves ++ readies) false.

(** [any(_is_plain_directory(path) for path in active.iterdir())]. *)
Definition any_active (paths : RuntimePaths) : M bool :=
  names ← listdir (active paths);
  forM (λ (b : bool) x, if b then mret true else _is_plain_directory (active paths // x)) names false.

Definition staged_job_waiting_for_turn (paths : RuntimePaths) (job_id : string) : M bool :=
  _ ← lift (validate_job_id job_id);
  _ ← ensure_runtime_layout paths false;
  queue_operation_lock paths (
  _ ← _cleanup_stale_reservations_locked paths;
  ex ← exists_ (active paths);
  busy ← (if ex : bool then any_active paths else mret false);
  if busy : bool then mret true
  else
    sequence ← _ready_sequence_for_job_locked paths job_id;
    match sequence with
    | Some n => _has_lower_sequence_reservation_locked paths n
    | None => mret false
    end).

(** ** Claiming *)

(** [sorted] of [(sequence, name)] pairs. *)
Definition ready_le (a b : Z * string) : Prop := a.1 < b.1 ∨ (a.1 = b.1 ∧ String.le a.2 b.2).
#[export] Instance ready_le_dec : RelDecision ready_le.
Proof. intros a b. unfold ready_le. apply _. Defined.

(** The readable markers of valid jobs; the others are removed. *)
Definition collect_ready (paths : RuntimePaths) : M (list (Z * string)) :=
  names ← glob_suffix (queue paths) ".ready";
  forM (λ acc name,
    r ← attempt (key ← _ready_marker_sort_key (queue paths // name);
                 _ ← lift (validate_job_id (removesuffix name ".ready"));
                 mret key);
    match r with
    | Ok key => mret (acc ++ [key])
    | Err x =>
        if is_ProvisionError x then
          _ ← remove_staged_path (queue paths // name); _ ← fsync_directory (queue paths); mret acc
        else raise x
    end) (sorted_strs names) [].

(** One marker of the claiming loop: [Some r] stops the loop with [r]. *)
Definition try_claim (paths : RuntimePaths) (key : Z * string) : M (option (option ClaimedJob)) :=
  let '(sequence, name) := key in
  lower ← _has_lower_sequence_reservation_locked paths sequence;
  if lower : bool then mret (Some None)
  else
    job_id ← lift (validate_job_id (removesuffix name ".ready"));
    let queued_path := queue paths // job_id in
    r ← attempt (lstat queued_path);
    match r with
    | Err x => if is_not_found x then _ ← remove_staged_path (queue paths // name); mret None else raise x
    | Ok st =>
        if negb (is_dir st) then _ ← remove_staged_path (queue paths // name); mret None
        else
          let active_path := active paths // job_id in
          moved ← attempt (rename queued_path active_path);
          match moved with
          | Err x => if is_not_found x then mret None else raise x
          | Ok _ =>
              st' ← lstat active_path;
              if negb (is_dir st')
              then raise (provision_error ("claimed staged job is not a directory: " +:+ show_path active_path))
              else
                _ ← remove_staged_path (queue paths // name);
                _ ← fsync_directory (queue paths);
                _ ← fsync_directory (active paths);
                mret (Some (Some (Claimed job_id active_path)))
          end
    end.

Definition _claim_next_job_locked (paths : RuntimePaths) : M (option ClaimedJob) :=
  names ← listdir (active paths);
  active_jobs ← filterM (λ x, _is_plain_directory (active paths // x)) names;
  match active_jobs with
  | _ :: _ => mret None
  | [] =>
      ready_markers ← collect_ready paths;
      r ← forM (λ found key, match found with Some r => mret (Some r) | None => try_claim paths key end)
            (merge_sort ready_le ready_markers) None;
      mret (default None r)
  end.

Definition claim_next_job (paths : RuntimePaths) : M (option ClaimedJob) :=
  _ ← ensure_runtime_layout paths true;
  queue_operation_lock paths (
  _ ← _cleanup_stale_reservations_locked paths;
  _claim_next_job_locked paths).
End clock.

(** ** Abandoning *)

Variant presence : Type := Queued | Active | Missing.
#[export] Instance presence_eq_dec : EqDecision presence.
Proof. solve_decision. Defined.

Definition _job_presence_locked (paths : RuntimePaths) (job_id : string) : M presence :=
  is_active ← catch (n ← lstat (active paths // job_id); mret (is_dir n)) is_OSError
                (λ x, mret (negb (is_not_found x)));
  if is_active : bool then mret Active
  else
    d ← _is_plain_directory (queue paths // job_id);
    queued ← (if d : bool then mret true else exists_ (ready_path paths job_id));
    mret (if queued : bool then Queued else Missing).

Definition can_abandon_queued_job (paths : RuntimePaths) (job_id : string) : M bool :=
  _ ← lift (validate_job_id job_id);
  queue_operation_lock paths (
  p ← _job_presence_locked paths job_id; mret (bool_decide (p = Queued))).

Definition staged_job_presence (paths : RuntimePaths) (job_id : string) : M presence :=
  _ ← lift (validate_job_id job_id); queue_operation_lock paths (_job_presence_locked paths job_id).

Definition try_abandon_queued_job (paths : RuntimePaths) (job_id : string) : M bool :=
  _ ← lift (validate_job_id job_id);
  queue_operation_lock paths (
  p ← _job_presence_locked paths job_id;
  if decide (p = Queued) then
    _ ← remove_staged_path (ready_path paths job_id);
    _ ← rmtree_ignore_errors (queue paths // job_id);
    _ ← fsync_directory (queue paths);
    mret true
  else mret false).

Definition abandon_queued_job (paths : RuntimePaths) (job_id : string) : M () :=
  b ← try_abandon_queued_job paths job_id;
  if b : bool then mret tt
  else raise (provision_error "cannot abandon staged job after privileged apply worker claimed it").

(** The lock is released between the steps, so other processes run there:
    [other k] is what they do to the tree before step [k]. *)
Definition staged_timeout_state (time_value : Z → value) (other : nat → M ())
    (paths : RuntimePaths) (job_id : string) : M StagedTimeoutState :=
  p ← staged_job_presence paths job_id;
  if decide (p = Active) then mret CLAIMED
  else
    _ ← other 1%nat;
    waiting ← staged_job_waiting_for_turn time_value paths job_id;
    if waiting : bool then mret WAITING
    else
      _ ← other 2%nat;
      abandoned ← try_abandon_queued_job paths job_id;
      if abandoned : bool then mret ABANDONED
      else
        _ ← other 3%nat;
        final ← staged_job_presence paths job_id;
        mret (match final with Active => CLAIMED | Queued => WAITING | Missing => MISSING end).

Definition cleanup_claimed_job (job : ClaimedJob) : M () := rmtree_ignore_errors (cj_path job).
