(* ===== verification/StagedJob.v ===== *)
(** * [staging.py]: verifying a claimed job, results, and waiting for them

    The part of src/scripts/atomixos_provision/src/atomixos_provision/staging.py
    that checks a job against its manifest, publishes and reads results, consumes
    authorization nonces, and polls for a result.  SHA-256 is a parameter. *)

From Stdlib Require Import Ascii.
From S2P Require Import Prelude PyStr PyVal ConfigCheck FS Staging.

Local Open Scope Z_scope.

Definition S_IWGRP_OTH : Z := 18.   (* stat.S_IWGRP | stat.S_IWOTH *)
Definition others_write (n : node) : bool := negb (Z.land (n_mode n) S_IWGRP_OTH =? 0).

(** [isinstance(v, int) and not isinstance(v, bool) and v >= 0]. *)
Definition nonneg_int (v : value) : option Z :=
  match v with VInt n => if n <? 0 then None else Some n | _ => None end.
(** [re.fullmatch(r"[0-9a-f]{64}", s)]; also [_is_sha256]. *)
Definition is_sha256_str (s : string) : bool := (slen s =? 64)%nat && all_chars is_hex_lower s.
Definition sha256_value (v : value) : bool := match v with VStr s => is_sha256_str s | _ => false end.

Definition _require_int (payload : dict value) (key : string) : result Z :=
  of_option (nonneg_int (vget key payload))
    (provision_error ("staged manifest " +:+ key +:+ " must be a non-negative integer")).

Definition _entry_key (entry : value) : result (string * string) :=
  match entry with
  | VDict d =>
      path ← validate_relative_path (vget_or "path" (VStr "") d);
      entry_type ← match vget "type" d with
        | VStr "dir" => Ok "dir"
        | VStr "file" => Ok "file"
        | VList _ => Err (TypeError "unhashable type: 'list'")
        | VDict _ => Err (TypeError "unhashable type: 'dict'")
        | v => Err (provision_error ("invalid staged manifest entry type for " +:+ path +:+ ": " +:+ value_repr v))
        end;
      _ ← raise_if (match nonneg_int (vget "mode" d) with Some m => 4095 <? m | None => true end)
            (provision_error ("invalid staged manifest mode for " +:+ path));
      if bool_decide (entry_type = "file") then
        _ ← raise_if (match nonneg_int (vget "size" d) with Some _ => false | None => true end)
              (provision_error ("invalid staged manifest size for " +:+ path));
        _ ← raise_if (negb (sha256_value (vget "sha256" d)))
              (provision_error ("invalid staged manifest hash for " +:+ path));
        Ok (path, entry_type)
      else Ok (path, entry_type)
  | _ => Err (provision_error "staged manifest tree entry must be an object")
  end.

(** [{_entry_key(e): e for e in l}]: the last entry of a key wins, at the place of
    the first. *)
Definition entry_table : Type := list ((string * string) * dict value).
Fixpoint eset (k : string * string) (v : dict value) (l : entry_table) : entry_table :=
  match l with
  | [] => [(k, v)]
  | (k', w) :: l' => if decide (k = k') then (k, v) :: l' else (k', w) :: eset k v l'
  end.
Fixpoint eget (k : string * string) (l : entry_table) : option (dict value) :=
  match l with [] => None | (k', w) :: l' => if decide (k = k') then Some w else eget k l' end.
Definition entries_by_key (l : list value) : result entry_table :=
  forR (λ acc e, k ← _entry_key e; Ok (match e with VDict d => eset k d acc | _ => acc end)) l [].

Section digest.
Context (sha256 : content → string) (sha256_text : string → string) (MAX_SOURCE_BYTES : Z).

Definition sha256_at (p : path) (max_bytes : option Z) (s : fs) : result string :=
  n ← lstat_at s p;
  match n_kind n with
  | KLnk _ => Err (OSError_ ("ELOOP: " +:+ show_path p))
  | KReg c =>
      _ ← raise_if (match max_bytes with Some m => m <? content_size c | None => false end)
            (provision_error ("staged request exceeds " +:+ str_int (default 0 max_bytes) +:+ " byte limit"));
      Ok (sha256 c)
  | _ => Err (provision_error ("staged path must be a regular file: " +:+ show_path p))
  end.
Definition sha256_file (p : path) (max_bytes : option Z) : M string := rd (sha256_at p max_bytes).

(** [pathlib] compares paths by their parts. *)
Fixpoint parts_leb (a b : list string) : bool :=
  match a, b with
  | [], _ => true
  | _ :: _, [] => false
  | x :: a', y :: b' => if decide (x = y) then parts_leb a' b' else bool_decide (String.le x y)
  end.
Definition parts_le (a b : list string) : Prop := parts_leb a b = true.
#[export] Instance parts_le_dec : RelDecision parts_le := λ a b, bool_eq_dec _ _.

Definition dir_entry (rel : string) (mode : Z) : value :=
  VDict [("path", VStr rel); ("type", VStr "dir"); ("mode", VInt mode)].
Definition file_entry (rel : string) (mode size : Z) (digest : string) : value :=
  VDict [("path", VStr rel); ("type", VStr "file"); ("mode", VInt mode);
         ("size", VInt size); ("sha256", VStr digest)].

Definition tree_entry (root : path) (current : path) : M value :=
  st ← catch (lstat current) is_OSError
         (λ _, raise (provision_error ("cannot stat staged path: " +:+ show_path current)));
  if is_lnk st then raise (provision_error ("staged path must not be a symlink: " +:+ show_path current))
  else
    let rel := join "/" (drop (length root) current) in
    let mode := Z.land (n_mode st) 4095 in
    if is_dir st then mret (dir_entry rel mode)
    else if is_reg st then
      digest ← sha256_file current None;
      mret (file_entry rel mode (n_size st) digest)
    else raise (provision_error ("staged path must be a regular file or directory: " +:+ show_path current)).

Definition mapM {A B} (f : A → M B) (l : list A) : M (list B) :=
  forM (λ acc x, y ← f x; mret (acc ++ [y])) l [].

Definition tree_manifest (root : path) : M (list value) :=
  ex ← exists_ root;
  if ex : bool then
    l ← rd (λ s, Ok (filter (λ q, q ≠ root) (subtree s root)));
    mapM (tree_entry root) (merge_sort parts_le l)
  else mret [].

Definition check_metadata (p : path) (st : node) (uid gid : Z) : result () :=
  _ ← raise_if (is_lnk st) (provision_error ("staged path must not be a symlink: " +:+ show_path p));
  _ ← raise_if (negb (bool_decide (n_uid st ∈ [0; uid]))) (provision_error ("staged path has unexpected owner: " +:+ show_path p));
  _ ← raise_if (negb (bool_decide (n_gid st ∈ [0; gid]))) (provision_error ("staged path has unexpected group: " +:+ show_path p));
  raise_if (others_write st) (provision_error ("staged path must not be group/world writable: " +:+ show_path p)).
Definition _verify_path_metadata (p : path) (uid gid : Z) : M () :=
  st ← catch (lstat p) is_OSError (λ _, raise (provision_error ("cannot stat staged path: " +:+ show_path p)));
  lift (check_metadata p st uid gid).

Definition keys_of (t : entry_table) : list (string * string) := t.*1.
Definition tree_mismatch (expected actual : list (string * string)) : exn :=
  let missing := sorted_strs (filter (λ k, k ∉ actual) expected).*1 in
  let unexpected := sorted_strs (filter (λ k, k ∉ expected) actual).*1 in
  provision_error ("staged tree does not match manifest (" +:+ join "; "
    ((if bool_decide (missing = []) then [] else ["missing: " +:+ comma_join missing])
     ++ (if bool_decide (unexpected = []) then [] else ["unexpected: " +:+ comma_join unexpected])) +:+ ")").

Definition _verify_tree (root : path) (expected_entries : value) (uid gid : Z) : M () :=
  match expected_entries with
  | VList l =>
      expected ← lift (entries_by_key l);
      _ ← _verify_path_metadata root uid gid;
      actual_entries ← tree_manifest root;
      actual ← lift (entries_by_key actual_entries);
      let ek := keys_of expected in let ak := keys_of actual in
      _ ← lift (raise_if (negb (forallb (λ k, bool_decide (k ∈ ek)) ak && forallb (λ k, bool_decide (k ∈ ak)) ek))
                  (tree_mismatch ek ak));
      iterM (λ '((rel, ty), e),
        let a := default [] (eget (rel, ty) actual) in
        let p := root ++ split_on "/" rel in
        _ ← _verify_path_metadata p uid gid;
        _ ← lift (raise_if (negb (py_eq (vget "mode" a) (vget "mode" e)))
                    (provision_error ("staged path mode changed: " +:+ show_path p)));
        if bool_decide (ty = "file") then
          _ ← lift (raise_if (negb (py_eq (vget "size" a) (vget "size" e)))
                      (provision_error ("staged file size changed: " +:+ show_path p)));
          lift (raise_if (negb (py_eq (vget "sha256" a) (vget "sha256" e)))
                  (provision_error ("staged file hash changed: " +:+ show_path p)))
        else mret tt) expected
  | _ => raise (provision_error "staged manifest tree entries must be a list")
  end.

(** [v is True] *)
Definition is_true (v : value) : bool := match v with VBool true => true | _ => false end.

Definition _verify_job_top_level (job_path : path) (manifest : dict value) : M () :=
  let allowed := ["manifest.json"; "candidate"]
    ++ (if truthy (vget "bundle_files" manifest) || is_true (vget "bundle_files_present" manifest)
        then ["bundle-files"] else [])
    ++ (if is_none (vget "request" manifest) then [] else ["request.bin"]) in
  actual ← listdir job_path;
  let unexpected := filter (λ x, x ∉ allowed) actual in
  _ ← lift (raise_if (negb (bool_decide (unexpected = [])))
        (provision_error ("staged job contains unexpected top-level entries: " +:+ comma_join (sorted_strs unexpected))));
  uid ← lift (_require_int manifest "service_uid");
  gid ← lift (_require_int manifest "service_gid");
  _ ← _verify_path_metadata (job_path // "candidate") uid gid;
  d ← is_dir_ (job_path // "candidate");
  if d : bool then mret tt else raise (provision_error "staged job missing candidate directory").

Definition _verify_staged_request (job_path : path) (request : value) (uid gid : Z) : M () :=
  match request with
  | VDict r =>
      let request_path := job_path // "request.bin" in
      let limit := provision_error ("staged request exceeds " +:+ str_int MAX_SOURCE_BYTES +:+ " byte limit") in
      _ ← _verify_path_metadata request_path uid gid;
      st ← catch (lstat request_path) is_OSError
             (λ _, raise (provision_error ("cannot stat staged request: " +:+ show_path request_path)));
      _ ← lift (raise_if (negb (is_reg st))
            (provision_error ("staged request must be a regular file: " +:+ show_path request_path)));
      size ← lift (of_option (nonneg_int (vget "size" r))
            (provision_error "staged request size must be a non-negative integer"));
      _ ← lift (raise_if ((MAX_SOURCE_BYTES <? size) || (MAX_SOURCE_BYTES <? n_size st)) limit);
      _ ← lift (raise_if (negb (n_size st =? size)) (provision_error "staged request size changed"));
      _ ← lift (raise_if (negb (sha256_value (vget "sha256" r))) (provision_error "staged request hash is invalid"));
      digest ← sha256_file request_path (Some MAX_SOURCE_BYTES);
      lift (raise_if (negb (eq_str (vget "sha256" r) digest)) (provision_error "staged request hash changed"))
  | _ => raise (provision_error "staged request metadata must be an object")
  end.

(** [path.resolve(strict=False)] *)
Definition resolve_path (p : path) : M path := rd (λ s, Ok (default p (real_path 40 s p))).

Definition verify_staged_job (job : ClaimedJob) (paths : RuntimePaths) (require_active : bool) : M (dict value) :=
  _ ← (if require_active then
         active_root ← resolve_path (active paths);
         job_path ← resolve_path (cj_path job);
         lift (raise_if (negb (bool_decide (below active_root job_path)))
                 (provision_error ("staged job path escaped active directory: " +:+ show_path (cj_path job))))
       else mret tt);
  manifest ← read_json (cj_path job // "manifest.json");
  _ ← lift (raise_if (negb (py_eq (vget "version" manifest) (VInt MANIFEST_VERSION)))
        (provision_error "unsupported staged manifest version"));
  _ ← lift (raise_if (negb (eq_str (vget "job_id" manifest) (cj_job_id job)))
        (provision_error "staged manifest job id mismatch"));
  uid ← lift (_require_int manifest "service_uid");
  gid ← lift (_require_int manifest "service_gid");
  _ ← _verify_job_top_level (cj_path job) manifest;
  _ ← _verify_tree (cj_path job // "candidate") (vget_or "candidate" (VList []) manifest) uid gid;
  let bundle_entries := vget_or "bundle_files" (VList []) manifest in
  _ ← (if truthy bundle_entries || is_true (vget "bundle_files_present" manifest)
       then _verify_tree (cj_path job // "bundle-files") bundle_entries uid gid
       else ex ← exists_ (cj_path job // "bundle-files");
            if ex : bool then raise (provision_error "staged job has unexpected bundle-files directory") else mret tt);
  _ ← (if is_none (vget "request" manifest) then mret tt
       else _verify_staged_request (cj_path job) (vget "request" manifest) uid gid);
  mret manifest.

(** ** Results *)

Definition result_path (paths : RuntimePaths) (job_id : string) : path := results paths // (job_id +:+ ".json").

Definition check_results_directory (p : path) (require_root_owner : bool) (st : node) : result () :=
  _ ← raise_if (negb (is_dir st)) (provision_error ("staged results path must be a directory: " +:+ show_path p));
  _ ← raise_if (require_root_owner && negb (n_uid st =? 0))
        (provision_error ("staged results directory must be root-owned: " +:+ show_path p));
  raise_if (others_write st) (provision_error ("staged results directory must not be group/world writable: " +:+ show_path p)).

Definition _verify_results_directory (p : path) (require_root_owner : bool) : M (option node) :=
  st ← catch (n ← lstat p; mret (Some n)) is_OSError (λ x,
         if is_not_found x then mret None
         else raise (provision_error ("cannot stat staged results directory: " +:+ show_path p)));
  match st with
  | None => mret None
  | Some n => _ ← lift (check_results_directory p require_root_owner n); mret (Some n)
  end.

Definition is_default_root (paths : RuntimePaths) : bool := bool_decide (root paths = DEFAULT_RUNTIME_ROOT).

(** [{"version": ..., **payload}] *)
Definition dict_update (d d' : dict value) : dict value := fold_left (λ acc kv, dset kv.1 kv.2 acc) d' d.

Definition write_result (time_value : Z → value) (service_gid : option Z) (paths : RuntimePaths)
    (job_id : string) (payload : dict value) : M path :=
  _ ← lift (validate_job_id job_id);
  now ← time_time;
  let result := dict_update [("version", VInt RESULT_VERSION); ("job_id", VStr job_id);
                             ("completed_at", time_value now)] payload in
  euid ← ask (λ e _, e_uid e);
  st ← _verify_results_directory (results paths) (is_default_root paths);
  st ← match st with
       | Some n => mret (Some n)
       | None =>
           _ ← ensure_runtime_layout paths true;
           _ ← (if is_default_root paths && (euid =? 0) then
                  match service_gid with Some g => chown 0 g (results paths) | None => mret tt end
                else mret tt);
           _verify_results_directory (results paths) (is_default_root paths)
       end;
  owner ← (if euid =? 0 then
             match st with
             | Some n => mret (Some (n_uid n, n_gid n))
             | None => raise (AttributeError "'NoneType' object has no attribute 'st_uid'")
             end
           else mret None);
  _ ← write_json_atomic (result_path paths job_id) result 416 owner;
  mret (result_path paths job_id).

Definition check_result_stat (p : path) (dir st : node) : result () :=
  _ ← raise_if (is_lnk st) (provision_error ("staged result must not be a symlink: " +:+ show_path p));
  _ ← raise_if (negb (is_reg st)) (provision_error ("staged result must be a regular file: " +:+ show_path p));
  _ ← raise_if (negb (n_uid st =? n_uid dir)) (provision_error ("staged result has unexpected owner: " +:+ show_path p));
  _ ← raise_if (negb (n_gid st =? n_gid dir)) (provision_error ("staged result has unexpected group: " +:+ show_path p));
  raise_if (others_write st) (provision_error ("staged result must not be group/world writable: " +:+ show_path p)).

Definition read_result (paths : RuntimePaths) (job_id : string) : M (option (dict value)) :=
  _ ← lift (validate_job_id job_id);
  let p := result_path paths job_id in
  dir ← _verify_results_directory (results paths) (is_default_root paths);
  match dir with
  | None => mret None
  | Some dir =>
      st ← catch (n ← lstat p; mret (Some n)) is_not_found (λ _, mret None);
      match st with
      | None => mret None
      | Some st =>
          _ ← lift (check_result_stat p dir st);
          result ← read_json p;
          _ ← lift (raise_if (negb (py_eq (vget "version" result) (VInt RESULT_VERSION))
                              || negb (eq_str (vget "job_id" result) job_id))
                (provision_error ("invalid staged result: " +:+ show_path p)));
          mret (Some result)
      end
  end.

Definition str_or_none (v : value) : option string := match v with VStr s => Some s | _ => None end.

Definition interpret_staged_result (r : dict value) : result StagedResult :=
  let rollback := str_or_none (vget "rollback_status" r) in
  let status := vget "status" r in
  if eq_str status "succeeded" then
    match vget "result" r with
    | VDict payload => Ok (StagedRes true payload None rollback)
    | _ => Err (provision_error "staged apply result missing result payload")
    end
  else if eq_str status "failed" then
    Ok (StagedRes false [] (Some (default "failed" (str_or_none (vget "error" r)))) rollback)
  else Err (provision_error "staged apply result has invalid status").

(** ** Authorization nonces *)

(** [auth.nonce_matches_current_boot]. *)
Definition nonce_matches_current_boot (boot_id nonce : string) : bool :=
  let '(prefix, separator, token) := partition_on ":" nonce in
  separator && negb (bool_decide (token = "")) && bool_decide (prefix = boot_id).

Definition nonce_marker (paths : RuntimePaths) (nonce : string) : path := used_nonces paths // sha256_text nonce.

Definition consume_authorization_nonce (boot_id : string) (paths : RuntimePaths) (nonce : string) : M () :=
  _ ← lift (raise_if (negb (nonce_matches_current_boot boot_id nonce))
        (provision_error "staged authorization nonce is not valid for this boot"));
  _ ← mkdir_parents 448 (* 0o700 *) (used_nonces paths);
  _ ← chmod 448 (used_nonces paths);
  let marker := nonce_marker paths nonce in
  n ← new_node (KReg (CText "")) 384;
  _ ← catch (wr (create_at n marker)) (λ x, match x with FileExistsError _ => true | _ => false end)
        (λ _, raise (provision_error "staged authorization nonce was already consumed"));
  t ← time_time;
  _ ← wr (update_at (set_kind (KReg (CText ("used" +:+ nl))) t) marker);
  _ ← fsync marker;
  fsync_directory (used_nonces paths).
End digest.

(** ** Waiting for a result *)

(** The text of an exception. *)
Definition exn_text (x : exn) : string :=
  match x with
  | ProvisionError m | ProvisionSystemError m | StagedQueueBusyError m | ActivationPolicyError m
  | ValueError m | KeyError m | TypeError m | AttributeError m | UnicodeDecodeError m
  | FileNotFoundError m | FileExistsError m | NotADirectoryError m | PermissionError m
  | OSError_ m | TimeoutExpired m | NotAuthorizedException m => m
  | ActivationFailed m _ | ApiError m _ | EnablementError m | MissingGhError m | ClickException m => m
  | NotFoundException => "404: Not Found"
  | SystemExit n => str_int n
  | CancelledError => ""
  end.
(** [getattr(exc, "rollback_status", None)] when there is one. *)
Definition exn_rollback (x : exn) : option string :=
  match x with ActivationFailed _ status => Some status | _ => None end.

Record StagedResultWaiter : Type := Waiter {
  w_interval : Z; w_stage : string; w_liveness_due : Z;
  w_read_error_since : option Z; w_last_read_error : option string }.

Definition new_waiter (interval now : Z) : StagedResultWaiter :=
  Waiter interval "queued" (now + interval) None None.

Definition _RUNNING_DETAIL : string := "privileged apply worker is running".
Definition _QUEUED_DETAIL : string := "waiting for privileged apply worker".

(** What one poll observes; each field is used only if the poll reaches it. *)
Record observation (T : Type) : Type := Observe {
  o_now : Z; o_read : result (option T); o_claimed : result bool;
  o_state : result StagedTimeoutState; o_reread : result (option T) }.
Arguments Observe {T}.
Arguments o_now {T}. Arguments o_read {T}. Arguments o_claimed {T}.
Arguments o_state {T}. Arguments o_reread {T}.

Section waiter.
Context {T : Type}.

(** A poll gives its outcome, the next state and the progress it reports. *)
Definition poll_result : Type := result (option T) * StagedResultWaiter * list (string * string).

Definition _report (stage : string) (w : StagedResultWaiter) : StagedResultWaiter * list (string * string) :=
  if bool_decide (stage = w_stage w) then (w, [])
  else (Waiter (w_interval w) stage (w_liveness_due w) (w_read_error_since w) (w_last_read_error w),
        [(stage, if bool_decide (stage = "running") then _RUNNING_DETAIL else _QUEUED_DETAIL)]).

Definition stage_of (claimed : bool) : string := if claimed then "running" else "queued".

Definition _read_failed (now : Z) (x : exn) (w : StagedResultWaiter)
    : result () * StagedResultWaiter * list (string * string) :=
  let text := exn_text x in
  let since := default now (w_read_error_since w) in
  let w1 := Waiter (w_interval w) (w_stage w) (w_liveness_due w) (Some since) (w_last_read_error w) in
  if match w_read_error_since w with Some t => w_interval w <=? now - t | None => false end
  then (Err (provision_error ("cannot read privileged apply worker result: " +:+ text)), w1, [])
  else if bool_decide (w_last_read_error w = Some text) then (Ok tt, w1, [])
  else (Ok tt, Waiter (w_interval w) (w_stage w) (w_liveness_due w) (Some since) (Some text),
        [(w_stage w, "worker result I/O failed; retrying: " +:+ text)]).

Definition _check_timeout_state (r : result StagedTimeoutState) : result StagedTimeoutState :=
  match r with
  | Ok st => Ok st
  | Err x => if is_ProvisionError x then Err x
             else if is_Exception x
             then Err (provision_error ("cannot determine staged job timeout state: " +:+ exn_text x))
             else Err x
  end.

(** The part of a poll after the result was looked for. *)
Definition poll_liveness (o : observation T) (w : StagedResultWaiter) (log : list (string * string)) : poll_result :=
  if o_now o <? w_liveness_due w then (Ok None, w, log)
  else match _check_timeout_state (o_state o) with
       | Err x => (Err x, w, log)
       | Ok ((WAITING | CLAIMED) as st) =>
           let w1 := Waiter (w_interval w) (w_stage w) (o_now o + w_interval w) (w_read_error_since w) (w_last_read_error w) in
           let '(w2, l) := _report (stage_of (match st with CLAIMED => true | _ => false end)) w1 in
           (Ok None, w2, log ++ l)
       | Ok st =>
           match o_reread o with
           | Err x => (Err (if is_OSError x
                            then provision_error ("cannot read privileged apply worker result: " +:+ exn_text x)
                            else x), w, log)
           | Ok (Some v) => (Ok (Some v), w, log)
           | Ok None => (Err (provision_error (match st with
                          | MISSING => "privileged apply worker did not publish a result"
                          | _ => "timed out waiting for privileged apply worker" end)), w, log)
           end
       end.

Definition poll (o : observation T) (w : StagedResultWaiter) : poll_result :=
  match o_read o with
  | Ok (Some v) => (Ok (Some v), w, [])
  | r =>
      match (match r with Ok _ => o_claimed o | Err x => Err x end) with
      | Ok claimed =>
          let w1 := Waiter (w_interval w) (w_stage w) (w_liveness_due w) None None in
          let '(w2, l) := _report (stage_of claimed) w1 in poll_liveness o w2 l
      | Err x =>
          if is_OSError x then
            let '(r, w1, l) := _read_failed (o_now o) x w in
            match r with Ok _ => poll_liveness o w1 l | Err y => (Err y, w1, l) end
          else (Err x, w, [])
      end
  end.
End waiter.
