(* ===== verification/StagingFacts.v ===== *)
(** * The staged queue: theorems

    What the operations of Staging.v may change, when a job may be abandoned, and
    first-in-first-out claiming by one worker at a time. *)

From Stdlib Require Import Ascii.
From S2P Require Import Prelude PyStr PyVal ConfigCheck FS FSLogic Staging.

Local Open Scope Z_scope.

(** ** What the operations touch *)

Section touches.
Context (D : path → Prop).

Lemma touches_remove_staged_path p : (∀ x, below p x → D x) → touches D (remove_staged_path p).
Proof.
  intros HD. unfold remove_staged_path. touches.
  - by apply touches_rmtree_ignore_errors.
  - apply touches_unlink_missing_ok, HD, below_refl.
Qed.

Lemma touches_fsync_directory p : touches D (fsync_directory p).
Proof. unfold fsync_directory. touches. Qed.

Lemma touches_open_queue_lock paths : D (queue_lock paths) → touches D (_open_queue_lock paths).
Proof. intros HD. unfold _open_queue_lock. touches. by apply touches_create. Qed.

Lemma touches_is_plain_directory p : touches D (_is_plain_directory p).
Proof. unfold _is_plain_directory. touches. Qed.

Lemma touches_glob_suffix p x : touches D (glob_suffix p x).
Proof. unfold glob_suffix. touches. Qed.

Lemma touches_read_json p : touches D (read_json p).
Proof. unfold read_json, read_control_file. touches. Qed.

Lemma touches_mkdir_parents mode p : (∀ x, below x p → D x) → touches D (mkdir_parents mode p).
Proof.
  intros HD. unfold mkdir_parents. generalize (length p). intros n. revert mode p HD.
  assert (∀ mode p, D p → touches D (mkdir_exist_ok mode p)) as Hm.
  { intros mode p Hp. unfold mkdir_exist_ok. touches. by apply touches_mkdir. }
  induction n as [|n IH]; intros mode p HD; simpl; touches; try apply Hm, HD, below_refl.
  apply IH. intros z [k Hx]. apply HD. unfold parent in Hx.
  destruct p as [|y p _] using rev_ind; [by exists k|].
  rewrite removelast_last in Hx. rewrite Hx. exists (k ++ [y]). by rewrite (assoc_L (++)).
Qed.
End touches.
#[export] Hint Resolve touches_fsync_directory touches_is_plain_directory touches_glob_suffix touches_read_json : touches.
#[export] Hint Resolve touches_remove_staged_path touches_open_queue_lock : touches.

(** ** Presence and abandoning *)

Lemma wp_is_plain_directory (P : fs → Prop) p (Q : result bool → fs → Prop) s :
  (∀ x, is_OSError x = true → is_missing_error x = false → Q (Err x) s) →
  (∀ x, is_missing_error x = true → s !! p = None → is_not_found x = false → Q (Err x) s) →
  Q (Ok (is_dir_at s p)) s →
  wp env_ok P (_is_plain_directory p) Q s.
Proof.
  intros HE HM HQ. unfold _is_plain_directory. apply wp_catch, wp_bind, wp_lstat.
  - intros e He n x [Hx Hm]%(eo_rfault e He). destruct (is_not_found x) eqn:E; [by destruct x|auto].
  - unfold lstat_at, is_dir_at in *. destruct (s !! p) as [n|] eqn:E; simpl; [by apply wp_ret|].
    unfold missing. destruct (existsb _ _); simpl; [by apply HM|by apply wp_ret].
Qed.

Lemma wp_exists (P : fs → Prop) p (Q : result bool → fs → Prop) s :
  (∀ x, Q (Err x) s) → (∀ b, Q (Ok b) s) → wp env_ok P (exists_ p) Q s.
Proof.
  intros HE HQ. unfold exists_, test, stat. apply wp_catch, wp_bind, wp_rd.
  - intros e He n x [Hx Hm]%(eo_rfault e He). by rewrite Hm.
  - destruct (stat_at s p) as [n|x]; [by apply wp_ret|]. destruct (is_missing_error x); [by apply wp_ret|done].
Qed.

(** A job whose claim is a directory is seen as active, whatever fails. *)
Lemma wp_job_presence (P : fs → Prop) paths j (Q : result presence → fs → Prop) s :
  (∀ x, Q (Err x) s) →
  (∀ p, (is_dir_at s (active paths // j) = true → p = Active) → Q (Ok p) s) →
  wp env_ok P (_job_presence_locked paths j) Q s.
Proof.
  intros HE HQ. unfold _job_presence_locked. apply wp_bind, wp_catch, wp_bind, wp_lstat.
  - intros e He n x [Hx Hm]%(eo_rfault e He). rewrite Hx. apply wp_ret.
    assert (is_not_found x = false) as -> by by destruct x. simpl. apply wp_ret. by apply HQ.
  - unfold lstat_at, is_dir_at in *. destruct (s !! (active paths // j)) as [n|]; simpl.
    + apply wp_ret. destruct (is_dir n); [apply wp_ret; by apply HQ|].
      apply wp_bind, wp_is_plain_directory; [by auto..|].
      apply wp_bind. destruct (is_dir_at s _); [apply wp_ret, wp_ret; by apply HQ|].
      apply wp_exists; [done|]. intros b. apply wp_ret. by apply HQ.
    + assert (∀ x, x = missing s (active paths // j) → is_OSError x = true) as ->
        by (intros ? ->; apply missing_OSError); [|done].
      apply wp_ret. destruct (is_not_found _); simpl; [|apply wp_ret; by apply HQ].
      apply wp_bind, wp_is_plain_directory; [by auto..|].
      apply wp_bind. destruct (is_dir_at s _); [apply wp_ret, wp_ret; by apply HQ|].
      apply wp_exists; [done|]. intros b. apply wp_ret. by apply HQ.
Qed.

(** The entries an abandoned job owns: its directory and marker in the queue; the
    lock file may be created. *)
Definition queued_entries (paths : RuntimePaths) (j : string) (x : path) : Prop :=
  below (queue paths // j) x ∨ below (ready_path paths j) x ∨ x = queue_lock paths.

Lemma touches_then {A} (D : path → Prop) (P : fs → Prop) (m : M A) Q s0 s :
  touches D m → changes D s0 s → (∀ t, changes D s0 t → P t) →
  (∀ r t, changes D s0 t → Q r t) → wp env_ok P m Q s.
Proof.
  intros Hm Hs HP HQ. eapply wp_weaken; [done|exact HP|]. eapply wp_mono; [by apply Hm|]. auto.
Qed.

Lemma dir_kind s p : is_dir_at s p = true ↔ kind_at s p = Some KDir.
Proof.
  unfold is_dir_at, kind_at, is_dir. destruct (s !! p) as [[[] ? ? ? ?]|]; simpl; naive_solver.
Qed.

Lemma dir_changes (D : path → Prop) s t p : changes D s t → ¬ D p → is_dir_at t p = is_dir_at s p.
Proof.
  intros Hst Hp. apply eq_bool_prop_intro. unfold Is_true.
  pose proof (dir_kind s p). pose proof (dir_kind t p). rewrite (Hst p Hp) in *.
  destruct (is_dir_at t p), (is_dir_at s p); naive_solver.
Qed.

Lemma active_not_queued paths j k x :
  ¬ queued_entries paths j (active paths // k ++ x).
Proof.
  unfold queued_entries, ready_path, active, queue, queue_lock.
  intros [[y Hy]|[[y Hy]|Hy]]; rewrite <-!(assoc_L (++)) in Hy; apply (inj (app (root paths))) in Hy;
    discriminate Hy.
Qed.

(** Abandoning a queued job, under any I/O failures and at any point where
    the process dies, changes nothing but that job's queue entries (and the lock
    file), so it never removes a claimed job; and it reports success only if the
    worker had not claimed the job. *)
Theorem try_abandon_queued_job_safe (paths : RuntimePaths) (job_id : string) (s : fs) :
  wp env_ok (changes (queued_entries paths job_id) s)
    (try_abandon_queued_job paths job_id)
    (λ r t, changes (queued_entries paths job_id) s t ∧
            (r = Ok true → is_dir_at s (active paths // job_id) = false)) s.
Proof.
  set (D := queued_entries paths job_id). pose proof (changes_refl D s) as Hrefl.
  unfold try_abandon_queued_job. apply wp_bind, wp_lift.
  destruct (validate_job_id job_id) as [|x]; [|by split].
  unfold queue_operation_lock. apply wp_bind.
  eapply (touches_then D); [apply touches_open_queue_lock; by right; right|done|done|].
  intros [u|x] t Ht; [|by split]. apply wp_bind, wp_job_presence; [by split|].
  intros p Hp. destruct (decide (p = Queued)) as [->|Hne]; [|by apply wp_ret].
  eapply (touches_then D); [|exact Ht|done|].
  - touches; [apply touches_remove_staged_path; by right; left|].
    apply touches_rmtree_ignore_errors. by left.
  - intros r t' Ht'. split; [done|]. intros _.
    rewrite <-(dir_changes D s t) by (try done; rewrite <-(app_nil_r (active paths // job_id)); apply active_not_queued).
    destruct (is_dir_at t _); [|done]. by discriminate Hp.
Qed.

(** ** Control files *)

Definition is_control (name : string) : Prop :=
  endswith name ".ready" = true ∨ endswith name ".reserve" = true.

(** The sequence a control file holds, if it is readable and valid. *)
Definition read_json_at (p : path) (s : fs) : result (dict value) :=
  match read_control_at p MAX_CONTROL_JSON_BYTES s with
  | Ok (CJson (VDict d) _) => Ok d
  | Ok (CJson _ _) => Err (provision_error ("staged JSON must be an object: " +:+ show_path p))
  | Ok _ => Err (provision_error ("invalid staged JSON: " +:+ show_path p))
  | Err x => Err (if is_io_or_decode x then provision_error ("invalid staged JSON: " +:+ show_path p) else x)
  end.
Definition control_seq (s : fs) (p : path) : option Z :=
  match read_json_at p s with Ok d => sequence_of d | Err _ => None end.

Section reads.
Context (P : fs → Prop).

Lemma wp_rd_ok {A} (f : fs → result A) (Q : result A → fs → Prop) s :
  Q (f s) s → wp reads_ok P (rd f) Q s.
Proof. intros HQ. apply wp_rd; [|done]. intros e [_ He] n x. by rewrite He. Qed.

Lemma wp_read_json p (Q : result (dict value) → fs → Prop) s :
  Q (read_json_at p s) s → wp reads_ok P (read_json p) Q s.
Proof.
  unfold read_json_at. intros HQ. unfold read_json, read_control_file.
  apply wp_bind, wp_catch, wp_bind, wp_rd_ok.
  destruct (read_control_at p MAX_CONTROL_JSON_BYTES s) as [c|x].
  - apply wp_lift. destruct c as [v n| |]; simpl.
    + destruct v; try (apply wp_raise; exact HQ). apply wp_ret. exact HQ.
    + apply wp_raise. exact HQ.
    + apply wp_raise. exact HQ.
  - destruct (is_io_or_decode x); [apply wp_raise|]; exact HQ.
Qed.

Lemma read_json_at_Err p s x : read_json_at p s = Err x → is_ProvisionError x = true.
Proof.
  unfold read_json_at, read_control_at. intros H.
  destruct (lstat_at s p) as [n|y] eqn:E; simpl in H.
  - destruct (n_kind n) as [c| | |]; simpl in H; [|by injection H as <-..].
    destruct (_ <? _); simpl in H; [by injection H as <-|].
    destruct c as [[]| |]; simpl in H; try discriminate; by injection H as <-.
  - unfold lstat_at in E. destruct (s !! p); simpl in E; [discriminate|]. injection E as <-.
    unfold is_io_or_decode in H. rewrite missing_OSError in H. by injection H as <-.
Qed.

Lemma wp_control_sequence tv paths name (Q : result Z → fs → Prop) s :
  match control_seq s (queue paths // name) with
  | Some n => Q (Ok n) s
  | None => ∀ x, is_ProvisionError x = true → Q (Err x) s
  end →
  wp reads_ok P (control_sequence tv paths name) Q s.
Proof.
  unfold control_seq, control_sequence, _ready_marker_sort_key, _reservation_sort_key.
  pose proof (read_json_at_Err (queue paths // name) s) as HE. intros HQ.
  destruct (endswith name ".ready" && _); apply wp_bind, wp_bind, wp_read_json;
    (destruct (read_json_at _ s) as [d|x]; [|by apply HQ, HE]);
    apply wp_bind, wp_lift; destruct (sequence_of d) as [n|]; simpl; try by apply HQ.
  - by apply wp_ret, wp_ret.
  - destruct (is_number _); [by apply wp_ret, wp_ret|]. apply wp_bind, wp_ask. intros. by apply wp_ret, wp_ret.
Qed.
End reads.

(** ** Listings *)

Lemma elem_children s p x : x ∈ children s p ↔ is_Some (s !! (p // x)).
Proof.
  unfold children. rewrite list_elem_of_omap. split.
  - intros ([q n] & Hq%elem_of_map_to_list & Hx). unfold child_name in Hx. simpl in Hx.
    destruct (drop (length p) q) as [|y [|]] eqn:E; try discriminate. case_decide as Hb; [|discriminate].
    injection Hx as ->. apply below_drop in Hb. rewrite E in Hb. subst q. by exists n.
  - intros [n Hn]. exists (p // x, n). split; [by apply elem_of_map_to_list|].
    unfold child_name. simpl. rewrite drop_app_length, decide_True; [done|apply below_app].
Qed.

Lemma name_of_snoc p x : name_of (p // x) = x.
Proof. apply last_last. Qed.

Lemma resolve_dir s p : is_dir_at s p = true → resolve s p = Ok p.
Proof.
  unfold is_dir_at, resolve. intros H. change 40%nat with (S 39). simpl.
  destruct (s !! p) as [n|]; [|discriminate]. unfold is_dir in H. by destruct (n_kind n).
Qed.

Lemma wp_listdir (P : fs → Prop) p (Q : result (list string) → fs → Prop) s :
  is_dir_at s p = true →
  (∀ l, (∀ x, x ∈ l ↔ is_Some (s !! (p // x))) → Q (Ok l) s) →
  wp reads_ok P (listdir p) Q s.
Proof.
  intros Hd HQ. unfold listdir. apply wp_bind, wp_rd_ok.
  rewrite (resolve_dir s p Hd). simpl. unfold need_dir.
  assert (∃ n, s !! p = Some n ∧ is_dir n = true) as (n & -> & ->).
  { unfold is_dir_at in Hd. destruct (s !! p); [eauto|discriminate]. }
  apply wp_bind, wp_rd_ok. rewrite (resolve_dir s p Hd). simpl.
  apply wp_bind, wp_ask. intros e k [He _]. apply wp_ret, HQ. intros x.
  rewrite (eo_perm e He), <-elem_children, list_elem_of_fmap. split.
  - intros (q & -> & (y & -> & Hy)%list_elem_of_fmap). by rewrite name_of_snoc.
  - intros Hx. exists (p // x). rewrite name_of_snoc. split; [done|]. apply list_elem_of_fmap. eauto.
Qed.

(** ** Claiming in order *)

Section claim.
Context (time_value : Z → value) (paths : RuntimePaths).

Definition control (name : string) : path := queue paths // name.

(** A control file that stands for no claimable job: unreadable, invalidly named,
    or a marker without its job directory. *)
Definition bad (s : fs) (name : string) : Prop :=
  is_control name ∧
  (control_seq s (control name) = None ∨
   (endswith name ".ready" = true ∧
    (job_of ".ready" name = None ∨
     ∃ j, job_of ".ready" name = Some j ∧ is_dir_at s (queue paths // j) = false))).

(** [t] is [s] with some bad control files gone. *)
Definition cleaned (s t : fs) : Prop :=
  ∀ x, t !! x = s !! x ∨ ∃ name, bad s name ∧ below (control name) x ∧ t !! x = None.

Lemma cleaned_refl s : cleaned s s.
Proof. intros x. by left. Qed.

Lemma below_snoc_eq (p r : path) (x y : string) : below (p // x) (p // y ++ r) → x = y.
Proof.
  intros [z Hz]. rewrite <-!(assoc_L (++)) in Hz. apply (inj (app p)) in Hz. by injection Hz.
Qed.

Lemma validate_job_id_Ok j k :
  validate_job_id j = Ok k →
  k = j ∧ JOB_ID_RE j = true ∧ has_char "/" j = false ∧ (j ∉ ["."; ".."]) ∧
  endswith j ".ready" = false ∧ endswith j ".reserve" = false.
Proof.
  unfold validate_job_id. intros H. inv_ok. bool_prop. split_and!; auto.
Qed.

Lemma is_ok_validate j : is_ok (validate_job_id j) = true → validate_job_id j = Ok j.
Proof.
  destruct (validate_job_id j) as [k|] eqn:E; [|done].
  by apply validate_job_id_Ok in E as [-> _].
Qed.

Lemma job_not_control j : is_ok (validate_job_id j) = true → ¬ is_control j.
Proof.
  intros (_ & _ & _ & _ & H1 & H2)%is_ok_validate%validate_job_id_Ok [Hc|Hc]; congruence.
Qed.

Lemma job_of_valid suffix name j :
  job_of suffix name = Some j → is_ok (validate_job_id j) = true ∧ removesuffix name suffix = j.
Proof.
  unfold job_of. destruct (validate_job_id (removesuffix name suffix)) as [k|] eqn:E; [|discriminate].
  intros [= ->]. apply validate_job_id_Ok in E as E'. destruct E' as [-> _]. by rewrite E.
Qed.

(** Jobs, and what is not in the queue, survive the cleaning. *)
Lemma cleaned_outside s t x :
  cleaned s t → (∀ name, is_control name → ¬ below (control name) x) → t !! x = s !! x.
Proof. intros Hst Hx. destruct (Hst x) as [|(name & [Hc _] & Hb & _)]; [done|]. by destruct (Hx name Hc). Qed.

Lemma cleaned_job s t j r :
  cleaned s t → is_ok (validate_job_id j) = true → t !! (queue paths // j ++ r) = s !! (queue paths // j ++ r).
Proof.
  intros Hst Hj. apply (cleaned_outside s t); [done|]. intros name Hc Hb.
  apply below_snoc_eq in Hb. subst name. by apply (job_not_control j).
Qed.

Lemma cleaned_active s t x : cleaned s t → t !! (active paths ++ x) = s !! (active paths ++ x).
Proof.
  intros Hst. apply (cleaned_outside s t); [done|]. intros name _ [z Hz].
  unfold control, queue, active in Hz. rewrite <-!(assoc_L (++)) in Hz.
  apply (inj (app (root paths))) in Hz. discriminate Hz.
Qed.

Lemma dir_lookup s t p : t !! p = s !! p → is_dir_at t p = is_dir_at s p.
Proof. unfold is_dir_at. by intros ->. Qed.

Lemma cleaned_job_dir s t j :
  cleaned s t → is_ok (validate_job_id j) = true → is_dir_at t (queue paths // j) = is_dir_at s (queue paths // j).
Proof.
  intros Hst Hj. apply dir_lookup.
  pose proof (cleaned_job s t j [] Hst Hj) as H. by rewrite app_nil_r in H.
Qed.

Lemma control_seq_lookup s t p : t !! p = s !! p → control_seq t p = control_seq s p.
Proof.
  unfold control_seq, read_json_at, read_control_at, lstat_at. intros ->.
  by destruct (s !! p).
Qed.
Lemma control_seq_None s p : s !! p = None → control_seq s p = None.
Proof. unfold control_seq, read_json_at, read_control_at, lstat_at. intros ->. done. Qed.

Lemma cleaned_seq s t name n :
  cleaned s t → control_seq t (control name) = Some n → control_seq s (control name) = Some n.
Proof.
  intros Hst Hn. destruct (Hst (control name)) as [E|(name' & _ & _ & E)].
  - by rewrite <-(control_seq_lookup s t).
  - by rewrite control_seq_None in Hn.
Qed.

Lemma pruned_seq p s t q n : pruned p s t → control_seq t q = Some n → control_seq s q = Some n.
Proof.
  intros Hst Hn. destruct (Hst q) as [E|[_ E]].
  - by rewrite <-(control_seq_lookup s t).
  - by rewrite control_seq_None in Hn.
Qed.

Lemma cleaned_bad s t name : cleaned s t → bad t name → bad s name.
Proof.
  intros Hst [Hc Hbad]. destruct (Hst (control name)) as [E|(name' & Hb & Hbel & _)].
  - split; [done|]. rewrite (control_seq_lookup s t) in Hbad by done.
    destruct Hbad as [?|[Hr [?|(j & Hj & Hd)]]]; [by left|by right; split; [|left]|].
    right. split; [done|]. right. exists j. split; [done|].
    rewrite <-(cleaned_job_dir s t); [done..|]. by apply job_of_valid in Hj as [? _].
  - unfold control in Hbel. rewrite <-(app_nil_r (queue paths // name)) in Hbel.
    apply below_snoc_eq in Hbel. by subst name'.
Qed.

Lemma cleaned_remove s t u name :
  cleaned s t → bad t name → pruned (control name) t u → cleaned s u.
Proof.
  intros Hst Hb Hp x. destruct (Hp x) as [->|[Hx E]]; [apply Hst|].
  right. exists name. split_and!; [by eapply cleaned_bad|done|done].
Qed.

Lemma wp_remove_staged_path (P : fs → Prop) p (Q : result () → fs → Prop) s :
  (∀ t, pruned p s t → P t ∧ ∀ r, Q r t) → wp reads_ok P (remove_staged_path p) Q s.
Proof.
  intros HQ. pose proof (pruned_refl p s) as Hp. unfold remove_staged_path.
  assert (∀ r, Q r s) as HQs by by apply HQ.
  apply wp_bind, wp_attempt, wp_rd_ok. destruct (lstat_at s p) as [n|x].
  - destruct (is_dir n).
    + apply wp_rmtree_ignore_errors; [by intros e [? _]|]. intros t Ht. split; by apply HQ.
    + unfold unlink_missing_ok. apply wp_catch, wp_wr.
      * intros e He k y Hy. destruct (is_not_found y); [by apply wp_ret|done].
      * destruct (unlink_at p s) as [t|y] eqn:E.
        -- assert (t = delete p s) as ->.
           { unfold unlink_at in E. repeat (case_match; try discriminate). by injection E. }
           split; apply HQ, pruned_delete; try done; apply below_refl.
        -- destruct (is_not_found y); [by apply wp_ret|done].
  - destruct (is_not_found x); [by apply wp_ret|by apply wp_raise].
Qed.

Lemma wp_fsync_directory (P : fs → Prop) p (Q : result () → fs → Prop) s :
  P s → (∀ r, Q r s) → wp reads_ok P (fsync_directory p) Q s.
Proof.
  intros HP HQ. unfold fsync_directory, fsync. apply wp_catch, wp_wr; [|done].
  intros e He n x Hx. destruct (is_OSError x); [by apply wp_ret|done].
Qed.

Lemma remove_bad (P : fs → Prop) name (Q : result () → fs → Prop) s t :
  cleaned s t → bad t name →
  (∀ u, cleaned s u → pruned (control name) t u → control_seq u (control name) = None ∨ control_seq t (control name) ≠ None → P u ∧ ∀ r, Q r u) →
  wp reads_ok P (remove_staged_path (control name)) Q t.
Proof.
  intros Hst Hb HQ. apply wp_remove_staged_path. intros u Hu. apply HQ; [by eapply cleaned_remove|done|].
  destruct (control_seq t (control name)) eqn:E; [by right|left].
  destruct (Hu (control name)) as [E'|[_ E']]; [by rewrite (control_seq_lookup t u)|by apply control_seq_None].
Qed.

(** The scan for a lower sequence removes only unreadable control files, and
    answers "no" only if no remaining control file has a lower sequence. *)
Lemma wp_has_lower n (P : fs → Prop) (Q : result bool → fs → Prop) s t :
  is_dir_at s (queue paths) = true →
  (∀ u, cleaned s u → P u) →
  cleaned s t →
  (∀ u x, cleaned s u → Q (Err x) u) →
  (∀ u, cleaned s u → Q (Ok true) u) →
  (∀ u, cleaned s u →
     (∀ name m, is_control name → control_seq u (control name) = Some m → n ≤ m) → Q (Ok false) u) →
  wp reads_ok P (_has_lower_sequence_reservation_locked time_value paths n) Q t.
Proof.
  intros Hq HP Hst HE HT HF.
  assert (is_dir_at t (queue paths) = true) as Hqt.
  { rewrite (dir_lookup s t); [done|]. apply (cleaned_outside s t); [done|]. intros name _ [z Hz].
    unfold control in Hz. apply (f_equal length) in Hz. rewrite !length_app in Hz. simpl in Hz. lia. }
  unfold _has_lower_sequence_reservation_locked, glob_suffix.
  apply wp_bind, wp_bind, wp_listdir; [done|]. intros l1 Hl1. apply wp_ret.
  apply wp_bind, wp_bind, wp_listdir; [done|]. intros l2 Hl2. apply wp_ret.
  apply (wp_forM _ _ _ (λ l (found : bool) u, cleaned s u ∧ (∀ name, name ∈ l → is_control name) ∧
    (found = false → ∀ name m, is_control name → control_seq u (control name) = Some m → n ≤ m ∨ name ∈ l))).
  - split_and!; [done| |].
    + intros name [[? _]%list_elem_of_filter|[? _]%list_elem_of_filter]%elem_of_app; [right|left]; by apply Is_true_true.
    + intros _ name m Hc Hm. right. apply elem_of_app. rewrite !list_elem_of_filter.
      assert (is_Some (t !! control name)) as Hs.
      { destruct (t !! control name) eqn:E; [done|]. by rewrite control_seq_None in Hm. }
      destruct Hc; [right|left]; (split; [by apply Is_true_true|by apply Hl2 || by apply Hl1]).
  - intros name l found u (Hu & Hcs & Hl). destruct found.
    { apply wp_ret. split_and!; [done| |done]. intros name' ?. apply Hcs. by right. }
    assert (is_control name) as Hc by (apply Hcs; by left).
    assert (∀ name', name' ∈ l → is_control name') as Hcl by (intros ? ?; apply Hcs; by right).
    apply wp_bind, wp_attempt, wp_control_sequence.
    change (queue paths // name) with (control name).
    destruct (control_seq u (control name)) as [k|] eqn:Ek.
    + apply wp_ret. split_and!; [done|done|]. intros Hk name' m Hc' Hm.
      destruct (Hl eq_refl name' m Hc' Hm) as [?|[->|?]%elem_of_cons]; [by left| |by right].
      left. simplify_eq. lia.
    + intros x ->. apply wp_bind. eapply (remove_bad _ _ _ s u); [done|by split; [|left]|].
      intros v Hv Hvp [Hnone|]; [|done]. split; [by apply HP|]. intros [[]|y]; [|by apply HE].
      apply wp_bind, wp_fsync_directory; [by apply HP|]. intros [[]|y]; [|by apply HE].
      apply wp_ret. split_and!; [done|done|]. intros _ name' m Hc' Hm.
      destruct (decide (name' = name)) as [->|Hne]; [congruence|].
      assert (control_seq u (control name') = Some m) as Hm'.
      { by eapply pruned_seq. }
      destruct (Hl eq_refl name' m Hc' Hm') as [?|[->|?]%elem_of_cons]; [by left|done|by right].
  - intros [] u (Hu & _ & Hl); [by apply HT|]. apply HF; [done|]. intros name m Hc Hm.
    destruct (Hl eq_refl name m Hc Hm) as [?|?%not_elem_of_nil]; done.
Qed.

(** The markers collected are readable and belong to valid jobs. *)
Definition key_ok (s : fs) (key : Z * string) : Prop :=
  endswith key.2 ".ready" = true ∧ control_seq s (control key.2) = Some key.1 ∧
  ∃ j, job_of ".ready" key.2 = Some j.

Lemma wp_ready_key (P : fs → Prop) name (Q : result (Z * string) → fs → Prop) s :
  match control_seq s (control name) with
  | Some n => Q (Ok (n, name)) s
  | None => ∀ x, is_ProvisionError x = true → Q (Err x) s
  end →
  wp reads_ok P (_ready_marker_sort_key (control name)) Q s.
Proof.
  unfold control_seq, _ready_marker_sort_key. pose proof (read_json_at_Err (control name) s) as HE.
  intros HQ. apply wp_bind, wp_read_json.
  destruct (read_json_at _ s) as [d|x]; [|by apply HQ, HE].
  apply wp_bind, wp_lift. destruct (sequence_of d) as [n|]; simpl; [|by apply HQ].
  apply wp_ret. unfold control. by rewrite name_of_snoc.
Qed.

Lemma validate_job_id_Err j x : validate_job_id j = Err x → is_ProvisionError x = true.
Proof.
  unfold validate_job_id. intros H.
  repeat match type of H with (raise_if ?c _ ≫= _) = _ => destruct c; simpl in H; [by injection H as <-|] end.
  discriminate.
Qed.

Lemma wp_collect_ready (P : fs → Prop) (Q : result (list (Z * string)) → fs → Prop) s :
  is_dir_at s (queue paths) = true →
  (∀ u, cleaned s u → P u) →
  (∀ u x, cleaned s u → Q (Err x) u) →
  (∀ u keys, cleaned s u → Forall (key_ok s) keys → Q (Ok keys) u) →
  wp reads_ok P (collect_ready paths) Q s.
Proof.
  intros Hq HP HE HQ. unfold collect_ready, glob_suffix.
  apply wp_bind, wp_bind, wp_listdir; [done|]. intros l Hl. apply wp_ret.
  apply (wp_forM _ _ _ (λ l' acc u, cleaned s u ∧ (∀ name, name ∈ l' → endswith name ".ready" = true) ∧
           Forall (key_ok s) acc)).
  - split_and!; [apply cleaned_refl| |constructor]. intros name Hn. unfold sorted_strs in Hn.
    rewrite merge_sort_Permutation in Hn. apply list_elem_of_filter in Hn as [? _]. by apply Is_true_true.
  - intros name l' acc u (Hu & Hr & Hacc).
    assert (endswith name ".ready" = true) as Hrn by (apply Hr; by left).
    assert (∀ n, n ∈ l' → endswith n ".ready" = true) as Hrl by (intros ? ?; apply Hr; by right).
    assert (∀ x, is_ProvisionError x = true → bad u name →
      wp reads_ok P (if is_ProvisionError x
        then _ ← remove_staged_path (control name); _ ← fsync_directory (queue paths); mret acc
        else raise x)
        (λ r t', match r with
                 | Ok b' => cleaned s t' ∧ (∀ n, n ∈ l' → endswith n ".ready" = true) ∧ Forall (key_ok s) b'
                 | Err y => Q (Err y) t'
                 end) u) as Hdrop.
    { intros x -> Hb. apply wp_bind. eapply (remove_bad _ _ _ s u); [done..|]. intros v Hv _ _.
      split; [by apply HP|]. intros [[]|y]; [|by apply HE].
      apply wp_bind, wp_fsync_directory; [by apply HP|]. intros [[]|y]; [|by apply HE].
      by apply wp_ret. }
    assert (is_control name) as Hc by by left.
    apply wp_bind, wp_attempt, wp_bind. apply wp_ready_key.
    destruct (control_seq u (control name)) as [n|] eqn:En;
      [|intros x Hx; apply Hdrop; [done|]; by split; [|left]].
    apply wp_bind, wp_lift. destruct (validate_job_id _) as [j|x] eqn:Ej.
    + apply wp_ret, wp_ret. split_and!; [done..|]. apply Forall_app. split; [done|].
      constructor; [|done]. split_and!; [done|by eapply cleaned_seq|]. exists j. unfold job_of. simpl. by rewrite Ej.
    + apply Hdrop; [by eapply validate_job_id_Err|]. split; [done|]. right. split; [done|]. left.
      unfold job_of. by rewrite Ej.
  - intros acc u (Hu & _ & Hacc). by apply HQ.
Qed.

(** ** One claim *)

Definition at_most_one_active (s : fs) : Prop :=
  ∀ x y, is_dir_at s (active paths // x) = true → is_dir_at s (active paths // y) = true → x = y.
Definition none_active (s : fs) : Prop := ∀ x, is_dir_at s (active paths // x) = false.

(** [c] is the next job of [s], and [t] has it moved to the active directory. *)
Record claimed (s : fs) (c : ClaimedJob) (t : fs) : Prop := ClaimedSpec {
  cl_path : cj_path c = active paths // cj_job_id c;
  cl_idle : none_active s;
  cl_dir : is_dir_at s (queue paths // cj_job_id c) = true;
  cl_fifo : ∃ n, control_seq s (control (ready_name (cj_job_id c))) = Some n ∧
            ∀ name m, is_control name → control_seq s (control name) = Some m → m < n → bad s name;
  cl_moved r : t !! (active paths // cj_job_id c ++ r) = s !! (queue paths // cj_job_id c ++ r);
  cl_gone : t !! (queue paths // cj_job_id c) = None }.

Lemma cleaned_none_active s t : cleaned s t → none_active s → none_active t.
Proof. intros Hst Hs x. rewrite (dir_lookup s t); [apply Hs|]. by apply cleaned_active. Qed.

Lemma none_at_most_one s : none_active s → at_most_one_active s.
Proof. intros Hs x y Hx. by rewrite Hs in Hx. Qed.

Lemma queue_active_apart x y : apart (queue paths // x) (active paths // y).
Proof.
  unfold queue, active. split; intros [z Hz]; rewrite <-!(assoc_L (++)) in Hz;
    apply (inj (app (root paths))) in Hz; discriminate Hz.
Qed.

Lemma not_below_queue x y r : ¬ below (queue paths // x) (active paths // y ++ r).
Proof.
  intros [z Hz]. unfold queue, active in Hz. rewrite <-!(assoc_L (++)) in Hz.
  apply (inj (app (root paths))) in Hz. discriminate Hz.
Qed.

(** The tree after the claiming rename. *)
Lemma move_job s j :
  none_active s →
  let t := move (queue paths // j) (active paths // j) s in
  (∀ r, t !! (active paths // j ++ r) = s !! (queue paths // j ++ r)) ∧
  t !! (queue paths // j) = None ∧
  at_most_one_active t ∧
  (∀ name, name ≠ j → t !! control name = s !! control name).
Proof.
  intros Hs t. pose proof (queue_active_apart j j) as Hap. unfold t. split_and!.
  - intros r. rewrite lookup_move, decide_True by (done || apply below_app). by rewrite drop_app_length.
  - rewrite lookup_move by done. rewrite decide_False by apply Hap.
    by rewrite decide_True by apply below_refl.
  - assert (∀ x, is_dir_at t (active paths // x) = true → x = j) as Hj.
    { intros x Hx. destruct (decide (x = j)) as [|Hne]; [done|]. exfalso.
      rewrite (dir_lookup s t), Hs in Hx; [done|]. unfold t. rewrite lookup_move by done.
      rewrite decide_False, decide_False; [done| |].
      - rewrite <-(app_nil_r (active paths // x)). apply not_below_queue.
      - intros Hb. rewrite <-(app_nil_r (active paths // x)) in Hb. apply below_snoc_eq in Hb. done. }
    intros x y Hx Hy. by rewrite (Hj x Hx), (Hj y Hy).
  - intros name Hne. rewrite lookup_move by done. unfold control. rewrite decide_False, decide_False; [done| |].
    + intros Hb. rewrite <-(app_nil_r (queue paths // name)) in Hb. by apply below_snoc_eq in Hb.
    + intros [z Hz]. unfold queue, active in Hz. rewrite <-!(assoc_L (++)) in Hz.
      apply (inj (app (root paths))) in Hz. discriminate Hz.
Qed.

Lemma cleaned_at_most_one s t : cleaned s t → none_active s → at_most_one_active t.
Proof. intros Hst Hs. apply none_at_most_one. by eapply cleaned_none_active. Qed.

Lemma key_ok_name s n name :
  key_ok s (n, name) → ∃ j, job_of ".ready" name = Some j ∧ name = ready_name j ∧
    is_ok (validate_job_id j) = true ∧ control_seq s (control (ready_name j)) = Some n.
Proof.
  intros (Hr & Hn & j & Hj). simpl in *. exists j. destruct (job_of_valid _ _ _ Hj) as [Hv Hs].
  apply removesuffix_endswith in Hr. rewrite Hs in Hr. unfold ready_name. by rewrite <-Hr.
Qed.

(** What is left after the rename of the chosen job [j] only removes its marker. *)
Lemma claim_tail (s t : fs) (n : Z) (j : string) (Q : result (option (option ClaimedJob)) → fs → Prop) :
  none_active s → cleaned s t → is_dir_at s (queue paths // j) = true → is_ok (validate_job_id j) = true →
  control_seq s (control (ready_name j)) = Some n →
  (∀ name m, is_control name → control_seq s (control name) = Some m → m < n → bad s name) →
  (∀ x u, at_most_one_active u → Q (Err x) u) →
  (∀ u, claimed s (Claimed j (active paths // j)) u → at_most_one_active u →
     Q (Ok (Some (Some (Claimed j (active paths // j))))) u) →
  wp reads_ok at_most_one_active
    (_ ← remove_staged_path (control (ready_name j));
     _ ← fsync_directory (queue paths);
     _ ← fsync_directory (active paths);
     mret (Some (Some (Claimed j (active paths // j))))) Q
    (move (queue paths // j) (active paths // j) t).
Proof.
  intros Hs Hst Hd Hj Hn Hlow HE HQ.
  destruct (move_job t j (cleaned_none_active s t Hst Hs)) as (Hact & Hgone & Hone & _).
  set (t' := move _ _ t) in *.
  assert (∀ u, pruned (control (ready_name j)) t' u →
    at_most_one_active u ∧ claimed s (Claimed j (active paths // j)) u) as Hu.
  { intros u Hu. assert (∀ x r, u !! (active paths // x ++ r) = t' !! (active paths // x ++ r)) as Ha.
    { intros x r. apply (pruned_outside _ _ _ _ Hu). apply not_below_queue. }
    split.
    - intros x y Hx Hy. apply Hone; [rewrite <-Hx|rewrite <-Hy]; apply dir_lookup; symmetry;
        [specialize (Ha x [])|specialize (Ha y [])]; by rewrite !app_nil_r in Ha.
    - constructor; simpl; [done|done|done|eauto| |].
      + intros r. rewrite Ha, Hact. by apply (cleaned_job s t).
      + destruct (Hu (queue paths // j)) as [->|[_ ?]]; done. }
  apply wp_bind, wp_remove_staged_path. intros u Hpu. destruct (Hu u Hpu) as [H1 H2].
  split; [done|]. intros [[]|x]; [|by apply HE].
  apply wp_bind, wp_fsync_directory; [done|]. intros [[]|x]; [|by apply HE].
  apply wp_bind, wp_fsync_directory; [done|]. intros [[]|x]; [|by apply HE].
  apply wp_ret. by apply HQ.
Qed.

Lemma wp_rename_job (P : fs → Prop) j (Q : result () → fs → Prop) s :
  is_dir_at s (queue paths // j) = true →
  P (move (queue paths // j) (active paths // j) s) →
  Q (Ok tt) (move (queue paths // j) (active paths // j) s) →
  (∀ x, Q (Err x) s) →
  wp reads_ok P (rename (queue paths // j) (active paths // j)) Q s.
Proof.
  intros Hd HP HQ HE. apply wp_wr; [intros; apply HE|].
  destruct (rename_at _ _ s) as [t|x] eqn:E; [|apply HE].
  apply rename_at_Ok in E as [[E _]|[_ ->]]; [|done].
  exfalso. destruct (queue_active_apart j j) as [Hap _]. apply Hap. rewrite E. apply below_refl.
Qed.

Lemma wp_lstat_ok (P : fs → Prop) p (Q : result node → fs → Prop) s :
  Q (lstat_at s p) s → wp reads_ok P (lstat p) Q s.
Proof. intros HQ. by apply (wp_rd_ok P (λ s, lstat_at s p)). Qed.

Lemma wp_try_claim key (Q : result (option (option ClaimedJob)) → fs → Prop) s t :
  is_dir_at s (queue paths) = true → none_active s → cleaned s t → key_ok s key →
  (∀ x u, at_most_one_active u → Q (Err x) u) →
  (∀ u, cleaned s u → Q (Ok None) u ∧ Q (Ok (Some None)) u) →
  (∀ c u, claimed s c u → at_most_one_active u → Q (Ok (Some (Some c))) u) →
  wp reads_ok at_most_one_active (try_claim time_value paths key) Q t.
Proof.
  intros Hq Hs Hst Hk HE HN HQ. destruct key as [n name].
  destruct (key_ok_name s n name Hk) as (j & Hj & -> & Hv & Hn). apply is_ok_validate in Hv as Hv'.
  assert (∀ u, cleaned s u → at_most_one_active u) as Hone by (intros; by eapply cleaned_at_most_one).
  unfold try_claim. apply wp_bind. eapply (wp_has_lower n _ _ s t); auto.
  { intros u Hu. by apply wp_ret, HN. }
  intros u Hu Hlow. apply wp_bind, wp_lift.
  assert (removesuffix (ready_name j) ".ready" = j) as -> by apply removesuffix_app. rewrite Hv'.
  assert (∀ name m, is_control name → control_seq s (control name) = Some m → m < n → bad s name) as Hfifo.
  { intros name m Hc Hm Hlt. destruct (Hu (control name)) as [E|(name' & Hb & Hbel & _)].
    - rewrite <-(control_seq_lookup s u) in Hm by done. specialize (Hlow name m Hc Hm). lia.
    - unfold control in Hbel. rewrite <-(app_nil_r (queue paths // name)) in Hbel.
      apply below_snoc_eq in Hbel. by subst. }
  assert (is_control (ready_name j)) as Hcj by (left; apply endswith_spec; by exists j).
  assert (is_dir_at u (queue paths // j) = false → wp reads_ok at_most_one_active
    (_ ← remove_staged_path (control (ready_name j)); mret None) Q u) as Hdrop.
  { intros Hd. apply wp_bind. eapply (remove_bad _ _ _ s u); [done| |].
    - split; [done|]. right. split; [apply Hk|]. right. eauto.
    - intros v Hv2 _ _. split; [by apply Hone|]. intros [[]|x]; [|by apply HE, Hone].
      by apply wp_ret, HN. }
  apply wp_bind, wp_attempt, wp_lstat_ok. unfold lstat_at.
  change (queue paths // ready_name j) with (control (ready_name j)).
  destruct (u !! (queue paths // j)) as [st|] eqn:Est; simpl.
  2: { destruct (is_not_found _); [|by apply wp_raise, HE, Hone]. apply Hdrop.
       unfold is_dir_at. by rewrite Est. }
  destruct (is_dir st) eqn:Ed; simpl.
  2: { apply Hdrop. unfold is_dir_at. by rewrite Est. }
  assert (is_dir_at u (queue paths // j) = true) as Hd by (unfold is_dir_at; by rewrite Est).
  destruct (move_job u j (cleaned_none_active s u Hu Hs)) as (Hact & _ & Hmone & _).
  apply wp_bind, wp_attempt, wp_rename_job; [done|done| |].
  2: { intros x. destruct (is_not_found x); [by apply wp_ret, HN|by apply wp_raise, HE, Hone]. }
  apply wp_bind, wp_lstat_ok. unfold lstat_at.
  pose proof (Hact []) as Hst'. rewrite !app_nil_r, Est in Hst'. rewrite Hst'. simpl. rewrite Ed. simpl.
  eapply (claim_tail s u n j); auto.
  rewrite <-Hd. symmetry. by apply (cleaned_job_dir s u).
Qed.

Lemma wp_claim_next_job_locked s :
  is_dir_at s (queue paths) = true → is_dir_at s (active paths) = true → at_most_one_active s →
  wp reads_ok at_most_one_active (_claim_next_job_locked time_value paths)
    (λ r t, at_most_one_active t ∧ match r with Ok (Some c) => claimed s c t | _ => True end) s.
Proof.
  intros Hq Ha Hone. unfold _claim_next_job_locked. apply wp_bind, wp_listdir; [done|]. intros names Hnames.
  apply wp_bind. unfold filterM.
  apply (wp_forM _ _ _ (λ l acc t, t = s ∧ ∀ x, x ∈ names → is_dir_at s (active paths // x) = true → x ∈ l ∨ x ∈ acc)).
  { split; [done|]. auto. }
  { intros x l acc t [-> Hl]. apply wp_bind. unfold _is_plain_directory.
    assert (∀ b : bool, (b = false → is_dir_at s (active paths // x) = false) →
      s = s ∧ ∀ y, y ∈ names → is_dir_at s (active paths // y) = true → y ∈ l ∨ y ∈ (if b then acc ++ [x] else acc)) as HI.
    { intros b Hb. split; [done|]. intros y Hy Hdy.
      destruct (Hl y Hy Hdy) as [[->|?]%elem_of_cons|?]; [right|by left|right].
      - destruct b; [set_solver|]. by rewrite Hb in Hdy.
      - destruct b; set_solver. }
    apply wp_catch, wp_bind, wp_lstat_ok. unfold lstat_at, is_dir_at in *.
    destruct (s !! (active paths // x)) as [n|]; simpl; [apply wp_ret, wp_ret; by apply (HI (is_dir n))|].
    destruct (is_not_found _); [apply wp_ret, wp_ret; by apply (HI false)|done]. }
  intros acc t [-> Hacc]. destruct acc as [|a acc]; [|by apply wp_ret].
  assert (none_active s) as Hs.
  { intros x. destruct (is_dir_at s (active paths // x)) eqn:E; [|done].
    assert (x ∈ names) as Hx.
    { apply Hnames. unfold is_dir_at in E. by destruct (s !! (active paths // x)). }
    destruct (Hacc x Hx E) as [?%not_elem_of_nil|?%not_elem_of_nil]; done. }
  apply wp_bind, wp_collect_ready; [done|..].
  { intros u Hu. by eapply cleaned_at_most_one. }
  { intros u x Hu. split; [by eapply cleaned_at_most_one|done]. }
  intros u keys Hu Hkeys. apply wp_bind.
  apply (wp_forM _ _ _ (λ l (found : option (option ClaimedJob)) t, Forall (key_ok s) l ∧
    at_most_one_active t ∧ match found with Some (Some c) => claimed s c t | Some None => True | None => cleaned s t end)).
  - split_and!; [|by eapply cleaned_at_most_one|done]. by rewrite merge_sort_Permutation.
  - intros key l found t (Hl & Ht & Hf). apply Forall_cons in Hl as [Hk Hl].
    destruct found as [r|]; [by apply wp_ret|].
    eapply (wp_try_claim key _ s t); try done.
    + intros v Hv. split; split_and!; try done; by eapply cleaned_at_most_one.
  - intros found t (_ & Ht & Hf). apply wp_ret. split; [done|]. by destruct found as [[c|]|].
Qed.
End claim.

(** C7 — Claiming under the queue lock is exclusive and first in, first out.  At
    every point, even when a change fails or the worker dies, at most one job
    directory is active.  A job is claimed only when none was active; it had a
    directory and a readable marker in the queue; every control file with a lower
    sequence stood for no claimable job; and afterwards the whole job directory is
    in the active directory and no longer in the queue. *)
Theorem claim_next_job_fifo (time_value : Z → value) (paths : RuntimePaths) (s : fs) :
  is_dir_at s (queue paths) = true → is_dir_at s (active paths) = true → at_most_one_active paths s →
  wp reads_ok (at_most_one_active paths) (_claim_next_job_locked time_value paths)
    (λ r t, at_most_one_active paths t ∧
            match r with Ok (Some c) => claimed paths s c t | _ => True end) s.
Proof. apply wp_claim_next_job_locked. Qed.

(** ** A queue with two jobs *)

Definition dir_node : node := Node KDir 0 0 493 0.
Definition json_node (d : dict value) : node := Node (KReg (json_file d)) 0 0 416 0.
Definition sample_paths : RuntimePaths := Paths ["run"].
Definition sample_queue : fs :=
  list_to_map
    [ (["run"], dir_node); (["run"; "queue"], dir_node); (["run"; "active"], dir_node);
      (["run"; "queue"; "job-a"], dir_node); (["run"; "queue"; "job-b"], dir_node);
      (["run"; "queue"; "job-b"; "manifest.json"], json_node []);
      (["run"; "queue"; "job-a.ready"], json_node [("sequence", VInt 7)]);
      (["run"; "queue"; "job-b.ready"], json_node [("sequence", VInt 3)]) ].


(** The job with the lower sequence is claimed first. *)
Example claim_job_b :
  (run_op (_claim_next_job_locked VInt sample_paths) sample_env sample_queue).1
  = Ok (Some (Claimed "job-b" ["run"; "active"; "job-b"])).
Proof. vm_compute. reflexivity. Qed.

Lemma sample_queue_idle : none_active sample_paths sample_queue.
Proof.
  intros x. unfold is_dir_at. destruct (sample_queue !! (active sample_paths // x)) eqn:E; [|done].
  unfold sample_queue in E. apply elem_of_list_to_map_2 in E.
  repeat (apply elem_of_cons in E as [E|E]; [injection E as E _; discriminate E|]).
  by apply not_elem_of_nil in E.
Qed.

Lemma claim_next_job_fifo_witness :
  let '(r, w) := run_op (_claim_next_job_locked VInt sample_paths) sample_env sample_queue in
  at_most_one_active sample_paths (w_fs w) ∧
  match r with Ok (Some c) => claimed sample_paths sample_queue c (w_fs w) | _ => True end.
Proof.
  pose proof (claim_next_job_fifo VInt sample_paths sample_queue eq_refl eq_refl
    (none_at_most_one _ _ sample_queue_idle)) as H.
  unfold run_op. pose proof (wp_run _ _ _ _ _ _ H sample_reads_ok) as Hrun.
  destruct (_claim_next_job_locked _ _ _ _) as [r w]. exact (proj1 Hrun).
Defined.

(** ** Timeouts under interference *)

Section timeout.
Context (time_value : Z → value) (paths : RuntimePaths).
Local Abbreviation anywhere := (λ _ : path, True).

Lemma touches_ensure_layout b : touches anywhere (ensure_runtime_layout paths b).
Proof.
  unfold ensure_runtime_layout, _ensure_directory. touches; by apply touches_mkdir_parents.
Qed.

Lemma touches_remove_any p : touches anywhere (remove_staged_path p).
Proof. by apply touches_remove_staged_path. Qed.

Lemma touches_cleanup : touches anywhere (_cleanup_stale_reservations_locked paths).
Proof.
  unfold _cleanup_stale_reservations_locked, drop_reservation, _remove_unpublished_job_locked, iterM.
  touches; by apply touches_remove_any.
Qed.

Lemma touches_control_sequence name : touches anywhere (control_sequence time_value paths name).
Proof. unfold control_sequence, _ready_marker_sort_key, _reservation_sort_key. touches. Qed.
#[local] Hint Resolve touches_ensure_layout touches_remove_any touches_cleanup touches_control_sequence : touches.

Lemma touches_waiting job_id : touches anywhere (staged_job_waiting_for_turn time_value paths job_id).
Proof.
  unfold staged_job_waiting_for_turn, queue_operation_lock, any_active, _ready_sequence_for_job_locked,
    _has_lower_sequence_reservation_locked. touches. by apply touches_open_queue_lock.
Qed.

Lemma touches_presence job_id : touches anywhere (staged_job_presence paths job_id).
Proof. unfold staged_job_presence, queue_operation_lock, _job_presence_locked. touches. by apply touches_open_queue_lock. Qed.

Lemma wp_anywhere {A} (m : M A) (Q : result A → fs → Prop) s :
  touches anywhere m → (∀ r t, Q r t) → wp env_ok (λ _, True) m Q s.
Proof. intros Hm HQ. eapply (touches_then anywhere); eauto using changes_refl. Qed.

(** What the timeout reconciliation is allowed to assume of other processes:
    that their steps end. *)
Definition any_steps (m : M ()) : Prop := ∀ s, wp env_ok (λ _, True) m (λ _ _, True) s.

Lemma wp_any_steps (m : M ()) (Q : result () → fs → Prop) s :
  any_steps m → (∀ r t, Q r t) → wp env_ok (λ _, True) m Q s.
Proof. intros Hm HQ. eapply wp_mono; [apply Hm|]. auto. Qed.

Lemma wp_try_abandon job_id s :
  wp env_ok (λ _, True) (try_abandon_queued_job paths job_id)
    (λ r t, r = Ok true → is_dir_at t (active paths // job_id) = false) s.
Proof.
  unfold try_abandon_queued_job. apply wp_bind, wp_lift. destruct (validate_job_id job_id); [|done].
  unfold queue_operation_lock. apply wp_bind, wp_anywhere; [by apply touches_open_queue_lock|].
  intros [u|x] t; [|done]. apply wp_bind, wp_job_presence; [done|].
  intros p Hp. destruct (decide (p = Queued)) as [->|]; [|by apply wp_ret].
  eapply (touches_then (queued_entries paths job_id) _ _ _ t); [|apply changes_refl|done|].
  - touches; [apply touches_remove_staged_path; by right; left|].
    apply touches_rmtree_ignore_errors. by left.
  - intros r t' Ht' _. rewrite (dir_changes _ _ _ _ Ht').
    + destruct (is_dir_at t _); [|done]. by discriminate Hp.
    + rewrite <-(app_nil_r (active paths // job_id)). apply active_not_queued.
Qed.
End timeout.

(** C34 — A timeout is reconciled in four locked steps with other processes free
    to act between them, and under any I/O failures: the answer ABANDONED is only
    ever given for a job the worker does not hold. *)
Theorem staged_timeout_abandons_unclaimed (time_value : Z → value) (other : nat → M ())
    (paths : RuntimePaths) (job_id : string) (s : fs) :
  (∀ k, any_steps (other k)) →
  wp env_ok (λ _, True) (staged_timeout_state time_value other paths job_id)
    (λ r t, r = Ok ABANDONED → is_dir_at t (active paths // job_id) = false) s.
Proof.
  intros Hother. unfold staged_timeout_state.
  apply wp_bind, wp_anywhere; [apply touches_presence|]. intros [p|x] t1; [|done].
  destruct (decide (p = Active)); [by apply wp_ret|].
  apply wp_bind, wp_any_steps; [done|]. intros [[]|x] t2; [|done].
  apply wp_bind, wp_anywhere; [apply touches_waiting|]. intros [[]|x] t3; [by apply wp_ret| |done].
  apply wp_bind, wp_any_steps; [done|]. intros [[]|x] t4; [|done].
  apply wp_bind. eapply wp_mono; [apply wp_try_abandon|]. intros [[]|x] t5 H5; [by apply wp_ret; auto| |done].
  apply wp_bind, wp_any_steps; [done|]. intros [[]|x] t6; [|done].
  apply wp_bind, wp_anywhere; [apply touches_presence|]. intros [[]|x] t7; (done || by apply wp_ret).
Qed.

Lemma staged_timeout_abandons_unclaimed_witness :
  wp env_ok (λ _, True) (staged_timeout_state VInt (λ _, mret tt) sample_paths "job-a")
    (λ r t, r = Ok ABANDONED → is_dir_at t (active sample_paths // "job-a") = false) sample_queue.
Proof. apply staged_timeout_abandons_unclaimed. intros k s. by apply wp_ret. Defined.
