(* ===== verification/StagedJobFacts.v ===== *)
(** * Staged jobs, results and waiting: theorems

    What an accepted manifest guarantees about the tree on disk, what a result
    that is read back can be trusted for, single use of nonces, and when the
    polling loop gives up. *)

From Stdlib Require Import Ascii.
From S2P Require Import Prelude PyStr PyVal ConfigCheck FS FSLogic Staging StagedJob StagingFacts.

Local Open Scope Z_scope.

(** ** Paths and names *)

Lemma path_parts_ok raw x : x ∈ path_parts raw → x ≠ "" ∧ x ≠ "." ∧ has_char "/" x = false.
Proof.
  unfold path_parts. intros [[H1 H2] Hx]%list_elem_of_filter. split_and!; [done|done|].
  unfold split_on in Hx. apply list_elem_of_fmap in Hx as (w & -> & Hw).
  pose proof (split_chars_no_sep "/"%char (chars raw)) as Hn. rewrite Forall_forall in Hn.
  apply Hn in Hw. unfold has_char. apply any_char_false. rewrite chars_unchars.
  apply Forall_forall. intros c Hc. destruct (Ascii.eqb_spec "/"%char c) as [<-|]; [done|done].
Qed.

(** A manifest path that is accepted is relative and normalized: except for
    ".", which slips through because [Path] drops the dot, it is the join of its
    components, and none of them is empty, a dot, a dot-dot, or contains a slash.
    So it stays below the tree it is joined to. *)
Theorem validate_relative_path_safe (raw : value) (p : string) :
  validate_relative_path raw = Ok p →
  raw = VStr p ∧
  (p = "." ∨
   p = join "/" (path_parts p) ∧ path_parts p ≠ [] ∧
   Forall (λ x, x ≠ "" ∧ x ≠ "." ∧ x ≠ ".." ∧ has_char "/" x = false) (path_parts p)).
Proof.
  unfold validate_relative_path. destruct raw; try discriminate. intros H. inv_ok. bool_prop.
  assert (path_as_posix s = s) as Hs by done. rewrite Hs. split; [done|].
  unfold path_as_posix in Hs. destruct (path_parts s) as [|x l] eqn:E; [by left|right].
  split_and!; [done|done|]. rewrite <-E in *.
  apply Forall_forall. intros y Hy. destruct (path_parts_ok s y Hy) as (? & ? & ?). split_and!; try done.
  intros ->. done.
Qed.

Lemma validate_relative_path_safe_witness :
  VStr "etc/app.conf" = VStr "etc/app.conf" ∧
  ("etc/app.conf" = "." ∨
   "etc/app.conf" = join "/" (path_parts "etc/app.conf") ∧ path_parts "etc/app.conf" ≠ [] ∧
   Forall (λ x, x ≠ "" ∧ x ≠ "." ∧ x ≠ ".." ∧ has_char "/" x = false) (path_parts "etc/app.conf")).
Proof. apply (validate_relative_path_safe (VStr "etc/app.conf")). vm_compute. reflexivity. Defined.

Example dot_is_accepted : validate_relative_path (VStr ".") = Ok ".".
Proof. reflexivity. Qed.

Lemma job_chars j c : JOB_ID_RE j = true → c ∈ chars j → is_job_char c = true ∨ c = nl_char.
Proof.
  unfold JOB_ID_RE. destruct (rev (chars j)) as [|d l] eqn:E; [done|].
  assert (chars j = rev l ++ [d]) as Hj by (rewrite <-(rev_involutive (chars j)), E; done).
  assert (∀ body, match body with
    | c :: l => is_alnum_ascii c && forallb is_job_char l && (length l <=? 127)%nat
    | [] => false end = true → c ∈ body → is_job_char c = true) as Hb.
  { intros [|x b] H Hc; [done|]. bool_prop. apply elem_of_cons in Hc as [->|Hc].
    - unfold is_job_char. by rewrite H.
    - rewrite forallb_forall in H1. apply H1. by apply list_elem_of_In. }
  destruct (Ascii.eqb_spec d nl_char) as [->|Hd]; intros H Hc.
  - rewrite Hj in Hc. apply elem_of_app in Hc as [Hc|Hc%list_elem_of_singleton]; [left|by right]. by eapply Hb.
  - left. by eapply Hb.
Qed.

(** [$] in the job id pattern also matches before a final newline: a valid id
    followed by a newline is accepted, even one with a reserved suffix. *)
Theorem validate_job_id_newline (j : string) :
  JOB_ID_RE j = true → has_char nl_char j = false →
  validate_job_id (j +:+ nl) = Ok (j +:+ nl).
Proof.
  intros Hj Hn. unfold validate_job_id.
  assert (JOB_ID_RE (j +:+ nl) = true) as ->.
  { unfold JOB_ID_RE in *. rewrite chars_app, rev_app_distr. simpl. rewrite rev_involutive.
    destruct (rev (chars j)) as [|c l] eqn:E; [discriminate|].
    destruct (Ascii.eqb_spec c nl_char) as [->|]; [|done].
    exfalso. unfold has_char in Hn. apply any_char_false in Hn. rewrite Forall_forall in Hn.
    specialize (Hn nl_char). rewrite Ascii.eqb_refl in Hn. discriminate Hn.
    rewrite <-(rev_involutive (chars j)), E. simpl. set_solver. }
  assert (∀ s : string, endswith s ".ready" = true → has_char nl_char s = true → s ≠ j +:+ nl) as Hend1.
  { intros s [t ->]%endswith_spec _ Ht. apply (f_equal (λ s, rev (chars s))) in Ht.
    rewrite !chars_app, !rev_app_distr in Ht. discriminate Ht. }
  assert (∀ s : string, endswith s ".reserve" = true → has_char nl_char s = true → s ≠ j +:+ nl) as Hend2.
  { intros s [t ->]%endswith_spec _ Ht. apply (f_equal (λ s, rev (chars s))) in Ht.
    rewrite !chars_app, !rev_app_distr in Ht. discriminate Ht. }
  assert (has_char nl_char (j +:+ nl) = true) as Hnl.
  { rewrite <-not_false_iff_true. intros H. apply (any_char_false (Ascii.eqb nl_char)) in H.
    rewrite chars_app in H. apply Forall_app in H as [_ H]. inversion H. done. }
  assert (has_char "/" (j +:+ nl) = false) as ->.
  { apply any_char_false. rewrite chars_app. apply Forall_app. split; [|by repeat constructor].
    apply Forall_forall. intros c Hc. destruct (job_chars j c Hj Hc) as [Hc'| ->]; [|done].
    destruct (Ascii.eqb_spec "/"%char c) as [<-|]; [discriminate Hc'|done]. }
  assert (bool_decide (j +:+ nl ∈ ["."; ".."]) = false) as ->.
  { apply bool_decide_false. intros [E|[E|[]%not_elem_of_nil]%elem_of_cons]%elem_of_cons;
      rewrite E in Hnl; discriminate Hnl. }
  assert (existsb (endswith (j +:+ nl)) control_suffixes = false) as ->; [|done].
  simpl. destruct (endswith _ ".ready") eqn:E1; [by destruct (Hend1 _ E1 Hnl)|].
  destruct (endswith _ ".reserve") eqn:E2; [by destruct (Hend2 _ E2 Hnl)|done].
Qed.

Lemma validate_job_id_newline_witness : validate_job_id ("job.ready" +:+ nl) = Ok ("job.ready" +:+ nl).
Proof. apply (validate_job_id_newline "job.ready"); reflexivity. Defined.

(** ** Nonces *)

Lemma kind_present s t p : kind_at t p = kind_at s p → (is_Some (t !! p) ↔ is_Some (s !! p)).
Proof. unfold kind_at. intros H. rewrite <-(fmap_is_Some n_kind), H. apply fmap_is_Some. Qed.

(** No nonce marker is ever lost. *)
Definition markers_kept (sha256_text : string → string) (paths : RuntimePaths) (s t : fs) : Prop :=
  ∀ nonce, is_Some (s !! nonce_marker sha256_text paths nonce) → is_Some (t !! nonce_marker sha256_text paths nonce).

Section consume_nonce.
Context (sha256_text : string → string) (paths : RuntimePaths).
Local Abbreviation kept := (markers_kept sha256_text paths).
Local Abbreviation marker := (nonce_marker sha256_text paths).

Lemma markers_kept_refl s : kept s s.
Proof. by intros nonce. Qed.
Lemma markers_kept_trans s t u : kept s t → kept t u → kept s u.
Proof. unfold markers_kept. auto. Qed.
Lemma markers_kept_insert s x n : kept s (<[x:=n]> s).
Proof. intros nonce H. destruct (decide (x = marker nonce)) as [->|]; [by rewrite lookup_insert_eq|by rewrite lookup_insert_ne]. Qed.
(** Changes that avoid the markers. *)
Lemma changes_markers (D : path → Prop) s t : (∀ nonce, ¬ D (marker nonce)) → changes D s t →
  ∀ nonce, is_Some (t !! marker nonce) ↔ is_Some (s !! marker nonce).
Proof. intros HD Ht nonce. apply kind_present, Ht, HD. Qed.
Lemma changes_markers_kept (D : path → Prop) s t : (∀ nonce, ¬ D (marker nonce)) → changes D s t → kept s t.
Proof. intros HD Ht nonce. by apply (changes_markers D s t HD Ht). Qed.

(** A consumption finds no marker and leaves one, or fails. *)
Lemma wp_consume_nonce (boot_id nonce : string) (s : fs) :
  wp env_ok (kept s) (consume_authorization_nonce sha256_text boot_id paths nonce)
    (λ r t, kept s t ∧
            (r = Ok tt → s !! marker nonce = None ∧ is_Some (t !! marker nonce) ∧
                         nonce_matches_current_boot boot_id nonce = true)) s.
Proof.
  set (D := λ x, below x (used_nonces paths)).
  assert (∀ n, ¬ D (marker n)) as HD by (intros n; apply snoc_not_below).
  unfold consume_authorization_nonce. fold (marker nonce). apply wp_bind, wp_lift.
  destruct (nonce_matches_current_boot boot_id nonce); simpl; [|by split; [apply markers_kept_refl|]].
  apply wp_bind. eapply (touches_then D); [by apply touches_mkdir_parents|apply changes_refl|by intros t; apply changes_markers_kept|].
  intros [[]|x] t Ht; [|by split; [eapply changes_markers_kept|]].
  apply wp_bind. eapply (touches_then D); [apply touches_chmod|done|by intros u; apply changes_markers_kept|].
  intros [[]|x] u Hu; [|by split; [eapply changes_markers_kept|]].
  pose proof (changes_markers D s u HD Hu nonce) as Hn. apply (changes_markers_kept D) in Hu; [|done].
  apply wp_bind, wp_ask. intros e n He.
  apply wp_bind, wp_catch, wp_wr.
  - intros e' He' k x [Hx _]%(eo_wfault e' He'). destruct x; try done; by apply wp_raise.
  - destruct (create_at _ (marker nonce) u) as [v|x] eqn:Ev.
    2: { destruct x; try done; by apply wp_raise. }
    unfold create_at in Ev. inv_ok.
    assert (s !! marker nonce = None) as Hs by (apply eq_None_not_Some; rewrite <-Hn; apply eq_None_not_Some; done).
    set (v := <[marker nonce:=_]> u). assert (kept s v) as Hv by (eapply markers_kept_trans, markers_kept_insert; done).
    assert (is_Some (v !! marker nonce)) as Hm by (unfold v; rewrite lookup_insert_eq; eauto).
    split; [done|]. apply wp_bind, wp_ask. intros e1 n1 He1. apply wp_bind, wp_wr; [done|].
    unfold update_at. destruct (v !! marker nonce) as [m|] eqn:Em; [|by destruct Hm].
    set (w := <[marker nonce:=_]> v). assert (kept s w) as Hw by (eapply markers_kept_trans, markers_kept_insert; done).
    assert (is_Some (w !! marker nonce)) as Hwm by (unfold w; rewrite lookup_insert_eq; eauto).
    split; [done|]. apply wp_bind, wp_wr; [done|]. split; [done|].
    unfold fsync_directory, fsync. apply wp_catch, wp_wr.
    + intros e2 He2 k x [Hx _]%(eo_wfault e2 He2). rewrite Hx. by apply wp_ret.
    + by split.
Qed.
End consume_nonce.

(** A nonce is consumed at most once, whatever fails or crashes: a consumed
    nonce is refused, its marker survives every call, and a call that succeeds
    found no marker and left one. *)
Theorem consume_authorization_nonce_once (sha256_text : string → string) (boot_id : string)
    (paths : RuntimePaths) (nonce : string) (s : fs) :
  let marker := nonce_marker sha256_text paths nonce in
  wp env_ok (λ t, is_Some (s !! marker) → is_Some (t !! marker))
    (consume_authorization_nonce sha256_text boot_id paths nonce)
    (λ r t, (is_Some (s !! marker) → is_Some (t !! marker) ∧ r ≠ Ok tt) ∧
            (r = Ok tt → s !! marker = None ∧ is_Some (t !! marker) ∧
                         nonce_matches_current_boot boot_id nonce = true)) s.
Proof.
  intros marker. eapply wp_weaken; [done| |eapply wp_mono; [apply wp_consume_nonce|]]; [by intros t Ht; apply Ht|].
  intros r t [Ht Hr]. split; [|done]. intros Hs. split; [by apply Ht|].
  intros E. destruct (Hr E) as [Hn _]. unfold marker in Hs. rewrite Hn in Hs. by destruct Hs.
Qed.

(** ** Waiting *)

(** Polls that kept waiting, oldest first. *)
Inductive waited {T} (w0 : StagedResultWaiter) : list (observation T) → StagedResultWaiter → Prop :=
  | waited_nil : waited w0 [] w0
  | waited_snoc obs w o w' l :
      waited w0 obs w → poll o w = (Ok None, w', l) → waited w0 (obs ++ [o]) w'.

(** The read, or the claim check after it, failed with an I/O error. *)
Definition read_failed {T} (o : observation T) : Prop :=
  ∃ x, is_OSError x = true ∧
    (o_read o = Err x ∨ (o_read o = Ok None ∧ o_claimed o = Err x)).

Definition io_error (x : exn) : exn := provision_error ("cannot read privileged apply worker result: " +:+ exn_text x).

Section waiting.
Context {T : Type}.
Implicit Types o : observation T.

Lemma report_since stage w : w_read_error_since (_report stage w).1 = w_read_error_since w ∧
  w_interval (_report stage w).1 = w_interval w.
Proof. unfold _report. by destruct (bool_decide _). Qed.

Lemma poll_liveness_since o w log r w' l :
  poll_liveness o w log = (r, w', l) →
  w_read_error_since w' = w_read_error_since w ∧ w_interval w' = w_interval w.
Proof.
  unfold poll_liveness. intros H. destruct (_ <? _); [by simplify_eq|].
  destruct (_check_timeout_state _) as [st|x]; [|by simplify_eq].
  assert (∀ b, (let '(w2, l0) := _report (stage_of b) (Waiter (w_interval w) (w_stage w) (o_now o + w_interval w)
      (w_read_error_since w) (w_last_read_error w)) in (@Ok (option T) None, w2, log ++ l0)) = (r, w', l) →
      w_read_error_since w' = w_read_error_since w ∧ w_interval w' = w_interval w) as Hrep.
  { clear H. intros b Hb. pose proof (report_since (stage_of b) (Waiter (w_interval w) (w_stage w) (o_now o + w_interval w)
      (w_read_error_since w) (w_last_read_error w))) as Hr.
    destruct (_report _ _). simplify_eq/=. exact Hr. }
  destruct st; try (by eapply Hrep); destruct (o_reread o) as [[v|]|x]; by simplify_eq.
Qed.

(** One poll that keeps waiting either read well and forgot earlier errors, or
    failed and remembers since when. *)
Lemma poll_step o w w' l :
  poll o w = (Ok None, w', l) →
  w_interval w' = w_interval w ∧
  (w_read_error_since w' = None ∨
   read_failed o ∧ w_read_error_since w' = Some (default (o_now o) (w_read_error_since w))).
Proof.
  unfold poll. intros H. destruct (o_read o) as [[v|]|x] eqn:Er; [by simplify_eq|..].
  - destruct (o_claimed o) as [b|x] eqn:Ec.
    + pose proof (report_since (stage_of b) (Waiter (w_interval w) (w_stage w) (w_liveness_due w) None None)) as Hr.
      destruct (_report _ _) as [w2 l2]. apply poll_liveness_since in H as [-> ->]. simpl in Hr.
      destruct Hr. auto.
    + destruct (is_OSError x) eqn:Ex; [|by simplify_eq].
      destruct (_read_failed _ x w) as [[[u|y] w1] l1] eqn:Ef; [|by simplify_eq].
      apply poll_liveness_since in H as [-> ->]. unfold _read_failed in Ef. simpl in Ef.
      destruct (match w_read_error_since w with Some t => _ | None => _ end); [by simplify_eq|].
      split; [by destruct (bool_decide _); simplify_eq|right].
      split; [exists x; auto|]. by destruct (bool_decide _); simplify_eq.
  - destruct (is_OSError x) eqn:Ex; [|by simplify_eq].
    destruct (_read_failed _ x w) as [[[u|y] w1] l1] eqn:Ef; [|by simplify_eq].
    apply poll_liveness_since in H as [-> ->]. unfold _read_failed in Ef. simpl in Ef.
    destruct (match w_read_error_since w with Some t => _ | None => _ end); [by simplify_eq|].
    split; [by destruct (bool_decide _); simplify_eq|right].
    split; [exists x; auto|]. by destruct (bool_decide _); simplify_eq.
Qed.

(** The waiter remembers the time of the first failure of the current unbroken
    run of failures. *)
Definition failing_since (t : Z) (obs : list (observation T)) : Prop :=
  ∃ before o after, obs = before ++ o :: after ∧ o_now o = t ∧ read_failed o ∧ Forall read_failed after.

Lemma waited_since interval now obs w :
  waited (new_waiter interval now) obs w →
  w_interval w = interval ∧ ∀ t, w_read_error_since w = Some t → failing_since t obs.
Proof.
  induction 1 as [|obs w o w' l Hw [IHi IH] Hp]; [done|].
  destruct (poll_step o w w' l Hp) as [-> [E|[Hf E]]].
  - split; [done|]. intros t. by rewrite E.
  - split; [done|]. intros t Ht. rewrite E in Ht. injection Ht as <-.
    destruct (w_read_error_since w) as [t|]; simpl.
    + destruct (IH t eq_refl) as (before & o' & after & -> & Ht & Ho' & Ha).
      exists before, o', (after ++ [o]). split_and!; try done.
      * by rewrite <-(assoc_L (++)).
      * apply Forall_app. by repeat constructor.
    + exists obs, o, []. by split_and!.
Qed.
End waiting.

(** The wait fails because of read errors only after they lasted a whole
    interval without a successful read: if a poll gives up because its read just
    failed, then every poll since one at least [interval] earlier failed too. *)
Theorem poll_read_errors_persist {T} (interval now : Z) (obs : list (observation T))
    (w w' : StagedResultWaiter) (o : observation T) (x : exn) (l : list (string * string)) :
  waited (new_waiter interval now) obs w →
  o_now o < w_liveness_due w →
  o_read o = Err x → is_OSError x = true →
  poll o w = (Err (io_error x), w', l) →
  ∃ t, failing_since t obs ∧ interval <= o_now o - t.
Proof.
  intros Hw Hlive Hr Hx Hp. destruct (waited_since interval now obs w Hw) as [Hi Hsince].
  unfold poll in Hp. rewrite Hr, Hx in Hp.
  destruct (_read_failed (o_now o) x w) as [[[u|y] w1] l1] eqn:Ef; unfold _read_failed in Ef; simpl in Ef.
  - destruct (match w_read_error_since w with Some t => _ | None => _ end); [by simplify_eq|].
    exfalso. unfold poll_liveness in Hp.
    assert (w_liveness_due w1 = w_liveness_due w) as E by (by destruct (bool_decide _); simplify_eq).
    apply Z.ltb_lt in Hlive. rewrite E, Hlive in Hp. simplify_eq.
  - destruct (w_read_error_since w) as [t|]; [|by destruct (bool_decide _); simplify_eq].
    destruct (_ <=? _) eqn:E; [|by destruct (bool_decide _); simplify_eq].
    exists t. split; [by apply Hsince|]. bool_prop. lia.
Qed.

Definition failing_poll (now : Z) : observation () :=
  Observe now (Err (OSError_ "EIO")) (Ok false) (Ok WAITING) (Ok None).

Lemma poll_read_errors_persist_witness :
  ∃ t, failing_since t [failing_poll 3; failing_poll 6] ∧ 5 <= 9 - t.
Proof.
  apply (poll_read_errors_persist 5 0 [failing_poll 3; failing_poll 6]
    (Waiter 5 "queued" 11 (Some 3) (Some "EIO")) (Waiter 5 "queued" 11 (Some 3) (Some "EIO"))
    (failing_poll 9) (OSError_ "EIO") []).
  - apply (waited_snoc _ [failing_poll 3] (Waiter 5 "queued" 5 (Some 3) (Some "EIO")) _ _ []).
    + apply (waited_snoc _ [] (new_waiter 5 0) _ _ [("queued", "worker result I/O failed; retrying: EIO")]).
      * constructor.
      * reflexivity.
    + reflexivity.
  - reflexivity.
  - reflexivity.
  - reflexivity.
  - reflexivity.
Defined.

(** ** What an accepted tree looks like *)

Section verify.
Context (sha256 : content → string) (root : path) (uid gid : Z) (s : fs).

Definition rel_of (x : path) : string := join "/" x.

(** The manifest entry of a node. *)
Definition entry_of (x : path) (n : node) : option (dict value) :=
  let mode := Z.land (n_mode n) 4095 in
  match n_kind n with
  | KDir => Some [("path", VStr (rel_of x)); ("type", VStr "dir"); ("mode", VInt mode)]
  | KReg c => Some [("path", VStr (rel_of x)); ("type", VStr "file"); ("mode", VInt mode);
                    ("size", VInt (content_size c)); ("sha256", VStr (sha256 c))]
  | _ => None
  end.

(** Directory entries have proper names. *)
Definition proper_names : Prop :=
  ∀ x n, s !! (root ++ x) = Some n → Forall (λ y, has_char "/" y = false) x.

Lemma wp_tree_entry (P : fs → Prop) x n (Q : result value → fs → Prop) :
  s !! (root ++ x) = Some n → x ≠ [] →
  (∀ e, Q (Err e) s) → (∀ d, entry_of x n = Some d → Q (Ok (VDict d)) s) →
  wp reads_ok P (tree_entry sha256 root (root ++ x)) Q s.
Proof.
  intros Hx Hne HE HQ. unfold tree_entry. apply wp_bind, wp_catch, wp_lstat_ok.
  unfold lstat_at. rewrite Hx. simpl. rewrite drop_app_length.
  destruct n as [k u g m t]. unfold entry_of in HQ. unfold is_lnk, is_dir, is_reg, n_size. simpl in *.
  destruct k; simpl.
  - apply wp_bind, wp_rd_ok. unfold sha256_at, lstat_at. rewrite Hx. simpl. apply wp_ret. by apply HQ.
  - apply wp_ret. by apply HQ.
  - by apply wp_raise.
  - by apply wp_raise.
Qed.

Lemma wp_tree_manifest (P : fs → Prop) (Q : result (list value) → fs → Prop) :
  (∀ e, Q (Err e) s) →
  (∀ l, (∀ v, v ∈ l → ∃ x n d, x ≠ [] ∧ s !! (root ++ x) = Some n ∧ entry_of x n = Some d ∧ v = VDict d) →
        (∀ x n, x ≠ [] → s !! (root ++ x) = Some n → is_dir_at s root = true → ∃ d, entry_of x n = Some d ∧ VDict d ∈ l) →
        Q (Ok l) s) →
  wp reads_ok P (tree_manifest sha256 root) Q s.
Proof.
  intros HE HQ. unfold tree_manifest. apply wp_bind. unfold exists_, test, stat.
  apply wp_catch, wp_bind, wp_rd_ok.
  assert (is_dir_at s root = true → is_ok (stat_at s root) = true) as Hex.
  { intros Hd. unfold stat_at. rewrite resolve_dir by done. simpl. unfold lstat_at, is_dir_at in *.
    by destruct (s !! root). }
  destruct (stat_at s root) as [n|x].
  2: { destruct (is_missing_error x); [|done]. apply wp_ret, wp_ret, HQ.
       - by intros v ?%not_elem_of_nil.
       - intros y n _ _ Hd. by apply Hex in Hd. }
  apply wp_ret. apply wp_bind, wp_rd_ok. unfold mapM.
  set (l := merge_sort parts_le _).
  assert (∀ q, q ∈ l ↔ ∃ x, q = root ++ x ∧ x ≠ [] ∧ is_Some (s !! q)) as Hl.
  { intros q. unfold l. rewrite merge_sort_Permutation, list_elem_of_filter, elem_subtree. split.
    - intros (Hne & [x ->] & Hs). exists x. split_and!; [done| |done]. intros ->. by rewrite app_nil_r in Hne.
    - intros (x & -> & Hne & Hs). split_and!; [|apply below_app|done]. intros E.
      apply Hne, (app_inv_head root). by rewrite app_nil_r. }
  clearbody l.
  apply (wp_forM _ _ _ (λ l' acc t, t = s ∧ (∀ q, q ∈ l' → q ∈ l) ∧
    (∀ v, v ∈ acc → ∃ x n d, x ≠ [] ∧ s !! (root ++ x) = Some n ∧ entry_of x n = Some d ∧ v = VDict d) ∧
    (∀ q, q ∈ l → q ∈ l' ∨ ∃ x n d, q = root ++ x ∧ s !! q = Some n ∧ entry_of x n = Some d ∧ VDict d ∈ acc))).
  - split_and!; auto. by intros v ?%not_elem_of_nil.
  - intros q l' acc t (-> & Hsub & Hacc & Hdone).
    destruct (proj1 (Hl q) (Hsub q (proj2 (elem_of_cons l' q q) (or_introl eq_refl)))) as (x & -> & Hne & [m Hm]).
    apply wp_bind. eapply (wp_tree_entry _ x m); [done|done|done|]. intros d Hd. apply wp_ret.
    split_and!; [done|intros q ?; apply Hsub; by right| |].
    + intros v [Hv|Hv%list_elem_of_singleton]%elem_of_app; [by apply Hacc|]. subst v. eauto 8.
    + intros q Hq. destruct (Hdone q Hq) as [[->|?]%elem_of_cons|(y & k & d' & -> & Hk & Hd' & Hin)].
      * right. exists x, m, d. split_and!; try done. set_solver.
      * by left.
      * right. exists y, k, d'. split_and!; try done. set_solver.
  - intros acc t (-> & _ & Hacc & Hdone). apply HQ; [done|]. intros x m Hne Hm _.
    destruct (Hdone (root ++ x)) as [?%not_elem_of_nil|(y & k & d & Hq & Hk & Hd & Hin)]; [|done|].
    + apply Hl. exists x. split_and!; eauto.
    + apply (inj (app root)) in Hq. subst y. exists d. split; [|done]. congruence.
Qed.

(** ** The table of entries *)

Lemma eget_eset k k' d t : eget k (eset k' d t) = if decide (k = k') then Some d else eget k t.
Proof.
  induction t as [|[j w] t IH]; simpl; [done|].
  destruct (decide (k' = j)) as [->|Hj]; simpl; [by destruct (decide (k = j))|].
  rewrite IH. destruct (decide (k = j)) as [->|]; [by rewrite decide_False|done].
Qed.

Lemma eget_elem k t : (∃ d, eget k t = Some d) ↔ k ∈ keys_of t.
Proof.
  unfold keys_of. induction t as [|[j w] t IH]; csimpl.
  - split; [by intros [? ?]|by intros ?%not_elem_of_nil].
  - rewrite elem_of_cons, <-IH. case_decide; naive_solver.
Qed.

Lemma NoDup_eset k d t : NoDup (keys_of t) → NoDup (keys_of (eset k d t)) ∧
  ∀ j, j ∈ keys_of (eset k d t) ↔ j = k ∨ j ∈ keys_of t.
Proof.
  unfold keys_of. induction t as [|[j w] t IH]; csimpl.
  - intros _. split; [apply NoDup_singleton|]. intros j. by rewrite elem_of_cons.
  - intros [Hj Ht]%NoDup_cons. destruct (IH Ht) as [Hn Hk]. case_decide as E; csimpl.
    + subst. split; [by apply NoDup_cons|]. intros i. rewrite elem_of_cons. tauto.
    + split; [|intros i; rewrite !elem_of_cons, Hk; tauto].
      apply NoDup_cons. split; [|done]. rewrite Hk. naive_solver.
Qed.

(** The table has one entry per key, taken from the list, and every listed key. *)
Lemma entries_by_key_spec l t :
  entries_by_key l = Ok t →
  NoDup (keys_of t) ∧
  (∀ k d, eget k t = Some d → ∃ v, v ∈ l ∧ v = VDict d ∧ _entry_key v = Ok k) ∧
  (∀ v, v ∈ l → ∃ k d, _entry_key v = Ok k ∧ eget k t = Some d).
Proof.
  unfold entries_by_key. assert (∀ l t0 t, NoDup (keys_of t0) →
    forR (λ acc e, k ← _entry_key e; Ok (match e with VDict d => eset k d acc | _ => acc end)) l t0 = Ok t →
    NoDup (keys_of t) ∧
    (∀ k d, eget k t = Some d → eget k t0 = Some d ∨ ∃ v, v ∈ l ∧ v = VDict d ∧ _entry_key v = Ok k) ∧
    (∀ k, k ∈ keys_of t0 → k ∈ keys_of t) ∧
    (∀ v, v ∈ l → ∃ k d, _entry_key v = Ok k ∧ eget k t = Some d)) as Hgen.
  { clear l t. induction l as [|e l IH]; intros t0 t Ht0; simpl.
    - intros [= <-]. split_and!; auto. by intros v ?%not_elem_of_nil.
    - intros (t1 & (k & Hk & [= <-])%bind_Ok & Hl)%bind_Ok.
      assert (∃ d, e = VDict d) as [d ->] by (destruct e; try discriminate; eauto).
      destruct (NoDup_eset k d t0 Ht0) as [Hn1 Hk1].
      destruct (IH _ _ Hn1 Hl) as (Hn & Hget & Hsub & Hall). split_and!.
      + done.
      + intros k' d' Hd'. destruct (Hget k' d' Hd') as [Hg|(v & Hv & -> & Hkv)].
        * rewrite eget_eset in Hg. case_decide; [|by left]. simplify_eq. right. exists (VDict d').
          split_and!; [by left|done|done].
        * right. exists (VDict d'). split_and!; [by right|done|done].
      + intros k' Hk'. apply Hsub, Hk1. by right.
      + intros v [->|Hv]%elem_of_cons; [|by apply Hall]. exists k.
        destruct (proj2 (eget_elem k t)) as [d' Hd']; [apply Hsub, Hk1; by left|]. eauto. }
  intros Hl. destruct (Hgen l [] t) as (Hn & Hget & _ & Hall); [constructor|done|].
  split_and!; [done| |done]. intros k d Hd. by destruct (Hget k d Hd) as [|].
Qed.

Lemma entry_key_of x n d k :
  x ≠ [] → Forall (λ y, has_char "/" y = false) x →
  entry_of x n = Some d → _entry_key (VDict d) = Ok k →
  k = (rel_of x, if is_dir n then "dir" else "file") ∧ split_on "/" (rel_of x) = x.
Proof.
  intros Hne Hx He Hk. split; [|by apply split_on_join_sep].
  unfold entry_of, is_dir in *. destruct (n_kind n); try discriminate; injection He as <-; simpl in Hk;
    inv_ok; unfold validate_relative_path in *; simpl in *; inv_ok; bool_prop; by f_equal.
Qed.
End verify.

Definition type_name_of (n : node) : string := if is_dir n then "dir" else "file".

(** The node of a manifest entry: safe owner, group and mode, not a link, with the
    recorded mode, and for a file the recorded size and digest. *)
Definition listed_ok (sha256 : content → string) (root : path) (uid gid : Z) (s : fs)
    (rel ty : string) (d : dict value) : Prop :=
  ∃ n, s !! (root ++ split_on "/" rel) = Some n ∧ ty = type_name_of n ∧
    check_metadata (root ++ split_on "/" rel) n uid gid = Ok tt ∧
    py_eq (VInt (Z.land (n_mode n) 4095)) (vget "mode" d) = true ∧
    (is_dir n = true ∨
     ∃ c, n_kind n = KReg c ∧ py_eq (VInt (content_size c)) (vget "size" d) = true ∧
          py_eq (VStr (sha256 c)) (vget "sha256" d) = true).

Lemma wp_verify_metadata (P : fs → Prop) p uid gid (Q : result () → fs → Prop) s :
  (∀ x, Q (Err x) s) → (∀ n, s !! p = Some n → check_metadata p n uid gid = Ok tt → Q (Ok tt) s) →
  wp reads_ok P (_verify_path_metadata p uid gid) Q s.
Proof.
  intros HE HQ. unfold _verify_path_metadata. apply wp_bind, wp_catch, wp_lstat_ok. unfold lstat_at.
  destruct (s !! p) as [n|] eqn:E; simpl.
  - apply wp_lift. destruct (check_metadata p n uid gid) as [[]|x] eqn:Ec; eauto.
  - rewrite missing_OSError. by apply wp_raise.
Qed.

Lemma wp_raise_if (P : fs → Prop) c x (Q : result () → fs → Prop) s :
  Q (Err x) s → (c = false → Q (Ok tt) s) → wp reads_ok P (lift (raise_if c x)) Q s.
Proof. intros HE HQ. apply wp_lift. destruct c; simpl; auto. Qed.

(** The check of one expected entry against the actual table. *)
Lemma verify_entry sha256 root s (uid gid : Z) x n a rel ty d :
  entry_of sha256 x n = Some a → s !! (root ++ x) = Some n → split_on "/" rel = x →
  ty = type_name_of n → check_metadata (root ++ x) n uid gid = Ok tt →
  py_eq (vget "mode" a) (vget "mode" d) = true →
  (ty = "file" → py_eq (vget "size" a) (vget "size" d) = true ∧ py_eq (vget "sha256" a) (vget "sha256" d) = true) →
  listed_ok sha256 root uid gid s rel ty d.
Proof.
  intros Ha Hn Hx Hty Hc Hm Hf. exists n. rewrite Hx. unfold entry_of, type_name_of, is_dir in *.
  destruct (n_kind n) as [c| | |]; try discriminate; injection Ha as <-; simpl in *; split_and!; auto.
  right. exists c. destruct (Hf Hty). auto.
Qed.

(** C14 — When the verification of a staged tree succeeds, the tree on disk is the
    tree of the manifest: every listed entry exists with a safe owner, group and
    mode, is not a link, and has the recorded type, mode, size and digest; and
    every entry below the root is listed. *)
Theorem verify_tree_sound (sha256 : content → string) (root : path) (uid gid : Z) (s : fs) (entries : value) :
  proper_names root s →
  wp reads_ok (λ t, t = s) (_verify_tree sha256 root entries uid gid)
    (λ r t, t = s ∧ (r = Ok tt →
       ∃ l table, entries = VList l ∧ entries_by_key l = Ok table ∧
         (∀ rel ty d, eget (rel, ty) table = Some d → listed_ok sha256 root uid gid s rel ty d) ∧
         (is_dir_at s root = true → ∀ x n, x ≠ [] → s !! (root ++ x) = Some n →
            ∃ d, eget (rel_of x, type_name_of n) table = Some d))) s.
Proof.
  intros Hnames. unfold _verify_tree. destruct entries as [| | | | |l| |]; try by apply wp_raise.
  apply wp_bind, wp_lift. destruct (entries_by_key l) as [table|e] eqn:Et; [|done].
  destruct (entries_by_key_spec l table Et) as (Hnd & _ & _).
  apply wp_bind, wp_verify_metadata; [done|]. intros _ _ _.
  apply wp_bind, wp_tree_manifest; [done|]. intros la Hla1 Hla2.
  apply wp_bind, wp_lift. destruct (entries_by_key la) as [actual|e] eqn:Ea; [|done].
  destruct (entries_by_key_spec la actual Ea) as (_ & Hget & Hall).
  apply wp_bind, wp_raise_if; [done|]. intros Hkeys. apply negb_false_iff, andb_true_iff in Hkeys as [H H0].
  rewrite forallb_forall in H, H0.
  apply (wp_forM _ _ _ (λ rest _ t, t = s ∧ ∃ seen, table = seen ++ rest ∧
    ∀ rel ty d, ((rel, ty), d) ∈ seen → listed_ok sha256 root uid gid s rel ty d)).
  - split; [done|]. exists []. split; [done|]. by intros ? ? ? ?%not_elem_of_nil.
  - intros [[rel ty] d] rest [] t (-> & seen & Htab & Hseen).
    assert ((rel, ty) ∈ keys_of actual) as [a Ha]%eget_elem.
    { eapply bool_decide_eq_true_1, H0. apply list_elem_of_In. rewrite Htab. unfold keys_of.
      rewrite fmap_app. csimpl. set_solver. }
    rewrite Ha. simpl.
    destruct (Hget _ _ Ha) as (v & Hv & Hva & Hk). destruct (Hla1 v Hv) as (x & n & a' & Hne & Hn & He & Hva').
    assert (a' = a) as -> by congruence. subst v.
    destruct (entry_key_of sha256 x n a _ Hne (Hnames x n Hn) He Hk) as [[= -> ->] Hsplit].
    rewrite Hsplit.
    apply wp_bind, wp_verify_metadata; [done|]. intros n' Hn' Hmeta. assert (n' = n) as -> by congruence.
    apply wp_bind, wp_raise_if; [done|]. intros Hmode%negb_false_iff.
    assert ((type_name_of n = "file" → py_eq (vget "size" a) (vget "size" d) = true ∧
       py_eq (vget "sha256" a) (vget "sha256" d) = true) →
      s = s ∧ ∃ seen0, table = seen0 ++ rest ∧
        ∀ rel ty d0, ((rel, ty), d0) ∈ seen0 → listed_ok sha256 root uid gid s rel ty d0) as Hstep.
    { intros Hf. split; [done|]. exists (seen ++ [((rel_of x, type_name_of n), d)]).
      split; [by rewrite <-(assoc_L (++))|]. intros rel ty d0 [?|E%list_elem_of_singleton]%elem_of_app; [by apply Hseen|].
      simplify_eq. by eapply (verify_entry sha256 root s uid gid x n a). }
    fold (type_name_of n). case_bool_decide as Hty.
    + apply wp_bind, wp_raise_if; [done|]. intros Hsize%negb_false_iff.
      apply wp_raise_if; [done|]. intros Hsha%negb_false_iff. by apply Hstep.
    + apply wp_ret. by apply Hstep.
  - intros [] t (-> & seen & -> & Hseen). split; [done|]. intros _.
    rewrite app_nil_r in *. exists l, seen. split_and!; [done|done| |].
    + intros rel ty d Hd. destruct (entries_by_key_spec l seen Et) as (Hn & _ & _).
      apply Hseen. clear -Hd. induction seen as [|[k w] t IH]; simpl in *; [done|].
      case_decide; simplify_eq; [by left|right; auto].
    + intros Hd x n Hne Hn. destruct (Hla2 x n Hne Hn Hd) as (d & He & Hin).
      destruct (Hall _ Hin) as (k & d' & Hk & Hd').
      destruct (entry_key_of sha256 x n d k Hne (Hnames x n Hn) He Hk) as [-> _].
      apply eget_elem. eapply bool_decide_eq_true_1, H. apply list_elem_of_In.
      apply eget_elem. eauto.
Qed.

Definition sample_digest : content → string := λ _, "".
Definition sample_tree : fs :=
  list_to_map [ (["c"], Node KDir 0 0 493 0); (["c"; "etc"], Node KDir 0 0 493 0) ].
Definition sample_entries : value :=
  VList [VDict [("path", VStr "etc"); ("type", VStr "dir"); ("mode", VInt 493)]].

Lemma sample_proper : proper_names ["c"] sample_tree.
Proof.
  intros x n Hx. unfold sample_tree in Hx. apply elem_of_list_to_map_2 in Hx.
  apply elem_of_cons in Hx as [Hx|Hx]; [injection Hx as -> _; by constructor|].
  apply list_elem_of_singleton in Hx. injection Hx as -> _. by repeat constructor.
Qed.

Lemma verify_tree_sound_witness :
  (run_op (_verify_tree sample_digest ["c"] sample_entries 0 0) sample_env sample_tree).1 = Ok tt ∧
  wp reads_ok (λ t, t = sample_tree) (_verify_tree sample_digest ["c"] sample_entries 0 0)
    (λ r t, t = sample_tree ∧ (r = Ok tt →
       ∃ l table, sample_entries = VList l ∧ entries_by_key l = Ok table ∧
         (∀ rel ty d, eget (rel, ty) table = Some d → listed_ok sample_digest ["c"] 0 0 sample_tree rel ty d) ∧
         (is_dir_at sample_tree ["c"] = true → ∀ x n, x ≠ [] → sample_tree !! (["c"] ++ x) = Some n →
            ∃ d, eget (rel_of x, type_name_of n) table = Some d))) sample_tree.
Proof.
  split; [vm_compute; reflexivity|].
  exact (verify_tree_sound sample_digest ["c"] 0 0 sample_tree sample_entries sample_proper).
Defined.

(** ** Results *)

(** A result is handed out only if it can be trusted: its directory is a real
    directory that only its owner can write (root's, under the default runtime
    root), the result is a regular file of the same owner and group that others
    cannot write, and it is a version 1 result of the job asked for.  Reading
    changes nothing. *)
Theorem read_result_trusted (paths : RuntimePaths) (job_id : string) (s : fs) :
  wp reads_ok (λ t, t = s) (read_result paths job_id)
    (λ r t, t = s ∧ match r with
     | Ok (Some d) =>
         ∃ dir st, s !! results paths = Some dir ∧ is_dir dir = true ∧ others_write dir = false ∧
           (root paths = DEFAULT_RUNTIME_ROOT → n_uid dir = 0) ∧
           s !! result_path paths job_id = Some st ∧ is_reg st = true ∧ others_write st = false ∧
           n_uid st = n_uid dir ∧ n_gid st = n_gid dir ∧
           read_json_at (result_path paths job_id) s = Ok d ∧
           py_eq (vget "version" d) (VInt RESULT_VERSION) = true ∧ vget "job_id" d = VStr job_id
     | _ => True
     end) s.
Proof.
  unfold read_result. apply wp_bind, wp_lift. destruct (validate_job_id job_id); [|done].
  unfold _verify_results_directory. apply wp_bind, wp_bind, wp_catch, wp_bind, wp_lstat_ok.
  unfold lstat_at at 1. destruct (s !! results paths) as [dir|] eqn:Edir; simpl.
  2: { rewrite missing_OSError. destruct (is_not_found _); [|by apply wp_raise]. by apply wp_ret, wp_ret, wp_ret. }
  apply wp_ret, wp_bind, wp_lift.
  destruct (check_results_directory _ _ dir) as [[]|x] eqn:Ec; [|done]. apply wp_ret.
  unfold check_results_directory in Ec. inv_ok. bool_prop.
  apply wp_bind, wp_catch, wp_bind, wp_lstat_ok. unfold lstat_at at 1.
  destruct (s !! result_path paths job_id) as [st|] eqn:Est; simpl.
  2: { destruct (is_not_found _); [|done]. by apply wp_ret, wp_ret. }
  apply wp_ret, wp_bind, wp_lift.
  destruct (check_result_stat _ dir st) as [[]|x] eqn:Er; [|done].
  unfold check_result_stat in Er. inv_ok. bool_prop.
  apply wp_bind, wp_read_json. destruct (read_json_at _ s) as [d|x] eqn:Ed; [|done].
  apply wp_bind, wp_raise_if; [done|]. intros Hv. bool_prop. apply wp_ret. split; [done|].
  exists dir, st. split_and!; try done; try lia.
  - intros Hroot. unfold is_default_root in *. rewrite bool_decide_true in * by done. simpl in *. bool_prop. lia.
  - unfold eq_str in *. destruct (vget "job_id" d); try done. by bool_prop; subst.
Qed.
