(* ===== verification/KeepLogic.v ===== *)
(** * Invariants of programs, against an interface

    [keeps I m]: wherever the program is interrupted and whatever fails, [I] holds.
    The rules for the file calls are proved once, against the interface [Keeps]: a
    policy says which entries a program may write (following links), create, make,
    unlink, remove or move,
    and an invariant promises to survive what its policy allows.  Two
    invariants: what is outside a set of entries stays ([framed]), and a
    directory stays one ([keeps_dir]). *)

From S2P Require Import Prelude PyStr PyVal FS FSLogic RunLogic Staging StagingFacts.

Definition keeps {A} (I : fs → Prop) (m : M A) : Prop := ∀ s, I s → wp env_ok I m (λ _ t, I t) s.

(** ** Structure *)

Section keeps.
Context (I : fs → Prop) {A B : Type}.

Lemma keeps_ret (a : A) : keeps I (mret a).
Proof. intros s Hs. by apply wp_ret. Qed.
Lemma keeps_raise (x : exn) : keeps I (raise (A:=A) x).
Proof. intros s Hs. by apply wp_raise. Qed.
Lemma keeps_lift (r : result A) : keeps I (lift r).
Proof. intros s Hs. by apply wp_lift. Qed.
Lemma keeps_rd (f : fs → result A) : keeps I (rd f).
Proof. intros s Hs. by apply wp_rd. Qed.
Lemma keeps_ask (f : env → nat → A) : keeps I (ask f).
Proof. intros s Hs. by apply wp_ask. Qed.
Lemma keeps_wr (f : fs → result fs) : (∀ s t, I s → f s = Ok t → I t) → keeps I (wr f).
Proof. intros Hf s Hs. apply wp_wr; [done|]. destruct (f s) as [t|x] eqn:E; [|done]. split; by eapply Hf. Qed.
Lemma keeps_bind (m : M A) (f : A → M B) : keeps I m → (∀ a, keeps I (f a)) → keeps I (m ≫= f).
Proof. intros Hm Hf s Hs. apply wp_bind. eapply wp_mono; [by apply Hm|]. intros [a|x] t Ht; [by apply Hf|done]. Qed.
Lemma keeps_catch (m : M A) (c : exn → bool) (h : exn → M A) : keeps I m → (∀ x, keeps I (h x)) → keeps I (catch m c h).
Proof.
  intros Hm Hh s Hs. apply wp_catch. eapply wp_mono; [by apply Hm|].
  intros [a|x] t Ht; [done|]. destruct (c x); [by apply Hh|done].
Qed.
Lemma keeps_attempt (m : M A) : keeps I m → keeps I (attempt m).
Proof. intros Hm s Hs. apply wp_attempt. eapply wp_mono; [by apply Hm|]. done. Qed.
Lemma keeps_finally (m : M A) (f : M ()) : keeps I m → keeps I f → keeps I (finally m f).
Proof.
  intros Hm Hf s Hs. apply wp_finally. eapply wp_mono; [by apply Hm|]. intros r t Ht.
  eapply wp_mono; [by apply Hf|]. by intros [u|x] t' Ht'.
Qed.
Lemma keeps_forM (f : B → A → M B) l b : (∀ x b, x ∈ l → keeps I (f b x)) → keeps I (forM f l b).
Proof.
  intros Hf s Hs. apply (wp_forM env_ok _ _ (λ l' _ t, (∀ x, x ∈ l' → x ∈ l) ∧ I t)); [done| |naive_solver].
  intros x l' b' t [Hl Ht]. eapply wp_mono; [apply Hf; [apply Hl; by left|done]|].
  intros [b''|y] t' Ht'; [|done]. split; [|done]. intros z Hz. apply Hl. by right.
Qed.
End keeps.

(** A program that touches nothing the invariant depends on. *)
Lemma keeps_touches {A} (I : fs → Prop) (D : path → Prop) (m : M A) :
  touches D m → (∀ s t, I s → changes D s t → I t) → keeps I m.
Proof. intros Hm HI s Hs. eapply (touches_then D); [exact Hm|apply changes_refl|by eauto..]. Qed.

(** ** The interface *)

Record policy : Type := Policy {
  may_write : path → Prop;
  may_create : path → Prop;
  may_mkdir : path → Prop;
  may_unlink : path → Prop;
  may_rmdir : path → Prop;
  may_move : path → path → Prop }.

Class Keeps (I : fs → Prop) (π : policy) : Prop := {
  kept_meta s p n m : I s → s !! p = Some n → n_kind m = n_kind n → I (<[p:=m]> s);
  kept_write s p q n : may_write π p → I s → resolve s p = Ok q → is_dir_at s q = false → is_reg n = true → I (<[q:=n]> s);
  kept_create s p n : may_create π p → I s → (∀ m, s !! p = Some m → is_reg m = true) → is_reg n = true → I (<[p:=n]> s);
  kept_mkdir s p n : may_mkdir π p → I s → s !! p = None → is_dir n = true → I (<[p:=n]> s);
  kept_unlink s p : may_unlink π p → I s → is_dir_at s p = false → I (delete p s);
  kept_rmdir s p : may_rmdir π p → I s → is_dir_at s p = true → I (delete p s);
  kept_move s p q : may_move π p q → I s → apart p q → (is_dir_at s q = true → is_dir_at s p = true ∧ is_empty_at s q = true) →
    I (move p q s) }.

Section calls.
Context {I : fs → Prop} {π : policy} `{!Keeps I π}.

Lemma keeps_unlink p : may_unlink π p → keeps I (unlink p).
Proof.
  intros Hp. apply keeps_wr. intros s t Hs. unfold unlink_at. destruct (s !! p) as [n|] eqn:E; [|done].
  destruct (is_dir n) eqn:Hd; [done|]. intros [= <-]. eapply kept_unlink; [done..|]. unfold is_dir_at. by rewrite E.
Qed.
Lemma keeps_unlink_missing_ok p : may_unlink π p → keeps I (unlink_missing_ok p).
Proof. intros Hp. apply keeps_catch; [by apply keeps_unlink|]. intros x. apply keeps_ret. Qed.
Lemma keeps_new_node {A} k mode (f : node → M A) : (∀ n, n_kind n = k → keeps I (f n)) → keeps I (n ← new_node k mode; f n).
Proof. intros Hf s Hs. apply wp_bind, wp_ask. intros e n _. by apply Hf. Qed.
Lemma keeps_update_meta f p : (∀ n, n_kind (f n) = n_kind n) → keeps I (wr (update_real f p)).
Proof.
  intros Hf. apply keeps_wr. intros s t Hs. unfold update_real, update_at. intros Hu. inv_ok.
  destruct (s !! a) eqn:E; [|done]. injection Hu as <-. by eapply kept_meta.
Qed.
Lemma keeps_update_meta_at f p : (∀ n, n_kind (f n) = n_kind n) → keeps I (wr (update_at f p)).
Proof.
  intros Hf. apply keeps_wr. intros s t Hs. unfold update_at. destruct (s !! p) eqn:E; [|done]. intros [= <-]. by eapply kept_meta.
Qed.
Lemma keeps_chmod m p : keeps I (chmod m p).
Proof. by apply keeps_update_meta. Qed.
Lemma keeps_chown u g p : keeps I (chown u g p).
Proof. by apply keeps_update_meta. Qed.
Lemma keeps_utime p : keeps I (utime_now p).
Proof. apply keeps_bind; [apply keeps_ask|]. intros t. by apply keeps_update_meta. Qed.
Lemma keeps_fsync p : keeps I (fsync p).
Proof. apply keeps_wr. by intros s t Hs [= <-]. Qed.

Lemma keeps_mkdir mode p : may_mkdir π p → keeps I (mkdir mode p).
Proof.
  intros Hp. apply keeps_new_node. intros n Hn. apply keeps_wr. intros s t Hs. unfold mkdir_at. intros Hu. inv_ok.
  eapply kept_mkdir; [done..|]. unfold is_dir. by rewrite Hn.
Qed.
Lemma keeps_mkdir_exist_ok mode p : may_mkdir π p → keeps I (mkdir_exist_ok mode p).
Proof.
  intros Hp. apply keeps_catch; [by apply keeps_mkdir|]. intros x. destruct (is_not_found x); [apply keeps_raise|].
  apply keeps_bind; [|intros []; [apply keeps_ret|apply keeps_raise]]. apply keeps_catch; [|intros; apply keeps_ret].
  apply keeps_bind; [apply keeps_rd|intros; apply keeps_ret].
Qed.
Lemma below_parent_below (x p : path) : below x (parent p) → below x p.
Proof.
  intros [k Hx]. unfold parent in Hx. destruct p as [|y p _] using rev_ind; [by exists k|].
  rewrite removelast_last in Hx. rewrite Hx. exists (k ++ [y]). by rewrite (assoc_L (++)).
Qed.
Lemma keeps_mkdir_parents mode p : (∀ x, below x p → may_mkdir π x) → keeps I (mkdir_parents mode p).
Proof.
  intros HD. unfold mkdir_parents. generalize (length p). intros n. revert mode p HD.
  induction n as [|n IH]; intros mode p HD; simpl;
    (apply keeps_catch; [by apply keeps_mkdir_exist_ok, HD, below_refl|intros x]); [apply keeps_raise|].
  apply keeps_bind; [|intros _; by apply keeps_mkdir_exist_ok, HD, below_refl].
  apply IH. intros z Hz. by apply HD, below_parent_below.
Qed.

(** ** Writing *)

Lemma real_path_plain fuel s p q : real_path fuel s p = Some q → ∀ n, s !! q = Some n → is_lnk n = false.
Proof.
  revert p. induction fuel as [|fuel IH]; intros p; simpl; [done|]. destruct (s !! p) as [m|] eqn:E.
  - destruct (n_kind m) eqn:Hk; try (intros [= <-] n Hn; rewrite E in Hn; injection Hn as <-; unfold is_lnk; by rewrite Hk).
    apply IH.
  - intros [= <-] n Hn. congruence.
Qed.
(** Making an entry regular that is no link does not change where paths lead. *)
Lemma real_path_insert fuel s p q r n : real_path fuel s p = Some r → is_lnk n = false →
  (∀ m, s !! q = Some m → is_lnk m = false) → real_path fuel (<[q:=n]> s) p = Some r.
Proof.
  intros H Hn Hq. revert p H. induction fuel as [|fuel IH]; intros p; simpl; [done|].
  destruct (decide (q = p)) as [->|Hne].
  - rewrite lookup_insert_eq. intros H.
    assert (r = p) as -> by (destruct (s !! p) as [m|] eqn:E; [specialize (Hq m eq_refl); unfold is_lnk in Hq; by destruct (n_kind m); simplify_eq|congruence]).
    unfold is_lnk in Hn. by destruct (n_kind n).
  - rewrite lookup_insert_ne by done. destruct (s !! p) as [m|]; [|done]. by destruct (n_kind m); eauto.
Qed.
Lemma resolve_insert s p q n : resolve s p = Ok q → is_lnk n = false → resolve (<[q:=n]> s) p = Ok q.
Proof.
  unfold resolve. rewrite !of_option_Ok. intros Hr Hn. apply real_path_insert; [done..|]. by eapply real_path_plain.
Qed.
Lemma resolve_absent s p : s !! p = None → resolve s p = Ok p.
Proof. intros H. unfold resolve. simpl. by rewrite H. Qed.
Lemma reg_facts (n : node) : is_reg n = true → is_lnk n = false ∧ is_dir n = false.
Proof. unfold is_reg, is_lnk, is_dir. by destruct (n_kind n). Qed.

Lemma keeps_create n p : may_create π p → is_reg n = true → keeps I (wr (create_at n p)).
Proof.
  intros Hp Hn. apply keeps_wr. intros s t Hs. unfold create_at. intros Hu. inv_ok.
  eapply kept_create; [done..| |done]. by rewrite E.
Qed.
Lemma keeps_write_new mode p c : may_create π p → keeps I (write_new mode p c).
Proof.
  intros Hp. apply keeps_new_node. intros n Hn s Hs. assert (is_reg n = true) as Hr by (unfold is_reg; by rewrite Hn).
  apply wp_bind, wp_wr; [done|]. unfold create_at. destruct (need_dir s (parent p) "open"); [simpl|done].
  destruct (s !! p) eqn:E; [done|].
  assert (∀ m, is_reg m = true → I (<[p:=m]> (<[p:=n]> s)) ∧ I (<[p:=n]> s)) as HI.
  { intros m Hm. assert (I (<[p:=n]> s)) as Hn' by (eapply kept_create; [done..| |done]; by rewrite E). split; [|done].
    eapply kept_create; [done..| |done]. intros m'. rewrite lookup_insert_eq. by intros [= <-]. }
  destruct (HI n Hr) as [_ Hn']. split; [done|]. apply wp_bind, wp_ask. intros e k _. apply wp_wr; [done|].
  unfold update_at. rewrite lookup_insert_eq. split; by apply HI.
Qed.
Lemma wp_rewrite p c q n s : may_write π p → I s → s !! q = Some n → is_reg n = true → resolve s p = Ok q →
  wp env_ok I (t ← time_time; wr (update_real (set_kind (KReg c) t) p)) (λ _ t, I t) s.
Proof.
  intros Hp Hs Hn Hr Hq. apply wp_bind, wp_ask. intros e k _. apply wp_wr; [done|].
  unfold update_real, update_at. rewrite Hq. simpl. rewrite Hn.
  assert (I (<[q:=set_kind (KReg c) (e_time e k) n]> s)); [|done].
  eapply kept_write; [done..| |done]. unfold is_dir_at. rewrite Hn. by apply reg_facts.
Qed.
Lemma keeps_write_text p c : may_write π p → keeps I (write_text p c).
Proof.
  intros Hp. apply keeps_new_node. intros n Hn s Hs. assert (is_reg n = true) as Hr by (unfold is_reg; by rewrite Hn).
  apply wp_bind, wp_wr; [done|]. unfold truncate_at. destruct (resolve s p) as [q|x] eqn:Hq; [simpl|done].
  destruct (need_dir s (parent q) "open"); [simpl|done].
  assert (∀ m, is_dir_at s q = false → is_reg m = true → I (<[q:=m]> s) ∧
    wp env_ok I (t ← time_time; wr (update_real (set_kind (KReg c) t) p)) (λ _ t, I t) (<[q:=m]> s)) as Hgo.
  { intros m Hd Hm. assert (I (<[q:=m]> s)) as HI by (by eapply kept_write). split; [done|].
    eapply (wp_rewrite p c q m); [done|done|apply lookup_insert_eq|done|]. apply resolve_insert; [done|by apply reg_facts]. }
  destruct (s !! q) as [m|] eqn:E; [destruct (is_dir m) eqn:Hd; [done|]|]; (apply Hgo; [|done]); unfold is_dir_at; by rewrite E.
Qed.

(** ** Moving and removing *)

Lemma keeps_rename p q : may_move π p q → keeps I (rename p q).
Proof.
  intros Hp. apply keeps_wr. intros s t Hs Ht. pose proof Ht as Hr. apply rename_at_Ok in Hr as [[_ ->]|[Ha ->]]; [done|].
  eapply kept_move; [done..|]. intros Hd. unfold rename_at, is_dir_at in *. destruct (s !! p) as [n|]; [|done]. inv_ok.
  case_decide as Hpq; [subst; destruct Ha as [Hr _]; by destruct (Hr (below_refl _))|]. do 2 (case_decide; [done|]). destruct (s !! q) as [m|]; [|done]. rewrite Hd in Ht. simpl in Ht.
  destruct (is_dir n); [|done]. simpl in Ht. by destruct (is_empty_at s q).
Qed.
Lemma keeps_remove x : may_rmdir π x → may_unlink π x → keeps I (wr (remove_at x)).
Proof.
  intros Hd Hu. apply keeps_wr. intros s t Hs. unfold remove_at. destruct (is_dir_at s x) eqn:E.
  - unfold rmdir_at. intros H. destruct (s !! x) as [n|] eqn:Hx; [|done]. unfold is_dir_at in E. rewrite Hx in E. rewrite E in H.
    simpl in H. destruct (is_empty_at s x); [|done]. injection H as <-. eapply kept_rmdir; [done..|]. unfold is_dir_at. by rewrite Hx.
  - unfold unlink_at. intros H. destruct (s !! x) as [n|] eqn:Hx; [|done]. destruct (is_dir n); [done|]. injection H as <-.
    by eapply kept_unlink.
Qed.
Lemma keeps_remove_all p (h : path → M ()) : (∀ x, below p x → may_rmdir π x ∧ may_unlink π x) →
  (∀ x, keeps I (wr (remove_at x)) → keeps I (h x)) →
  keeps I (l ← rd (λ s, Ok (subtree s p)); l' ← ask (λ e k, e_order e k l); iterM h l').
Proof.
  intros Hp Hh s Hs. apply wp_bind, wp_rd; [done|]. apply wp_bind, wp_ask. intros e k He.
  assert (∀ x, x ∈ e_order e k (subtree s p) → below p x) as Hl.
  { intros x Hx. rewrite (eo_perm e He) in Hx. by apply elem_subtree in Hx as [? _]. }
  apply keeps_forM; [|done]. intros x _ Hx. apply Hh. destruct (Hp x (Hl x Hx)). by apply keeps_remove.
Qed.
Lemma keeps_rmtree p : (∀ x, below p x → may_rmdir π x ∧ may_unlink π x) → keeps I (rmtree p).
Proof.
  intros Hp. apply keeps_bind; [apply keeps_rd|]. intros n. destruct (is_lnk n); [apply keeps_raise|].
  destruct (negb (is_dir n)); [apply keeps_raise|]. by apply keeps_remove_all.
Qed.
Lemma keeps_rmtree_ignore_errors p : (∀ x, below p x → may_rmdir π x ∧ may_unlink π x) → keeps I (rmtree_ignore_errors p).
Proof.
  intros Hp. apply keeps_catch; [|intros; apply keeps_ret]. apply keeps_bind; [apply keeps_rd|]. intros n.
  destruct (is_dir n); [|apply keeps_ret]. apply keeps_remove_all; [done|]. intros x Hx.
  apply keeps_catch; [done|intros; apply keeps_ret].
Qed.
End calls.

(** [keeps] goes through a program; what is left are the entries it changes. *)
Create HintDb keeps.
Ltac keeps_step :=
  match goal with
  | |- keeps _ (mret _) => apply keeps_ret
  | |- keeps _ (raise _) => apply keeps_raise
  | |- keeps _ (lift _) => apply keeps_lift
  | |- keeps _ (rd _) => apply keeps_rd
  | |- keeps _ (ask _) => apply keeps_ask
  | |- keeps _ (fsync _) => apply keeps_fsync
  | |- keeps _ (chmod _ _) => apply keeps_chmod
  | |- keeps _ (chown _ _ _) => apply keeps_chown
  | |- keeps _ (utime_now _) => apply keeps_utime
  | |- keeps _ (unlink _) => apply keeps_unlink
  | |- keeps _ (unlink_missing_ok _) => apply keeps_unlink_missing_ok
  | |- keeps _ (mkdir _ _) => apply keeps_mkdir
  | |- keeps _ (mkdir_parents _ _) => apply keeps_mkdir_parents; intros
  | |- keeps _ (write_text _ _) => apply keeps_write_text
  | |- keeps _ (write_new _ _ _) => apply keeps_write_new
  | |- keeps _ (rename _ _) => apply keeps_rename
  | |- keeps _ (rmtree _) => apply keeps_rmtree; intros
  | |- keeps _ (rmtree_ignore_errors _) => apply keeps_rmtree_ignore_errors; intros
  | |- keeps _ (wr (update_at (set_owner _ _) _)) => apply keeps_update_meta_at; done
  | |- keeps _ (wr (update_at (set_mode _) _)) => apply keeps_update_meta_at; done
  | |- keeps _ (new_node _ _ ≫= _) => apply keeps_new_node; intros
  | |- keeps _ (_ ≫= _) => apply keeps_bind; [|intros ?]
  | |- keeps _ (catch _ _ _) => apply keeps_catch; [|intros ?]
  | |- keeps _ (attempt _) => apply keeps_attempt
  | |- keeps _ (finally _ _) => apply keeps_finally
  | |- keeps _ (forM _ _ _) => apply keeps_forM; intros
  | |- keeps _ (iterM _ _) => apply keeps_forM; intros
  | |- keeps _ (if ?c then _ else _) => destruct c
  | |- keeps _ (match ?x with _ => _ end) => destruct x
  | |- keeps _ (let _ := _ in _) => cbv zeta
  | |- keeps _ _ => solve [eauto with keeps nocore]
  end.
Ltac keeps := repeat (cbv beta zeta; keeps_step).

Section reads.
Context (I : fs → Prop).
Lemma keeps_lstat p : keeps I (lstat p).
Proof. apply keeps_rd. Qed.
Lemma keeps_stat p : keeps I (stat p).
Proof. apply keeps_rd. Qed.
Lemma keeps_time : keeps I time_time.
Proof. apply keeps_ask. Qed.
Lemma keeps_node k m : keeps I (new_node k m).
Proof. apply keeps_ask. Qed.
Lemma keeps_test f p : keeps I (test f p).
Proof. unfold test, stat. keeps. Qed.
Lemma keeps_listdir p : keeps I (listdir p).
Proof. unfold listdir. keeps. Qed.
Lemma keeps_read_content p : keeps I (read_content p).
Proof. apply keeps_rd. Qed.
Lemma keeps_command_input argv input : keeps I (run_command_input argv input).
Proof. unfold run_command_input. keeps. Qed.
Lemma keeps_command argv : keeps I (run_command argv).
Proof. apply keeps_command_input. Qed.
End reads.
#[export] Hint Resolve keeps_lstat keeps_stat keeps_time keeps_node keeps_test keeps_listdir keeps_read_content : keeps.
#[export] Hint Resolve keeps_command_input keeps_command : keeps.
#[export] Hint Extern 0 (keeps _ (exists_ _)) => apply keeps_test : keeps.
#[export] Hint Extern 0 (keeps _ (is_dir_ _)) => apply keeps_test : keeps.
#[export] Hint Extern 0 (keeps _ (is_file_ _)) => apply keeps_test : keeps.

(** ** What is outside stays *)

(** Outside [D] nothing changes, and there are no links below [p]. *)
Definition framed (D : path → Prop) (p : path) (s0 t : fs) : Prop :=
  changes D s0 t ∧ ∀ y n, below p y → t !! y = Some n → is_lnk n = false.
Definition framed_policy (D : path → Prop) (p : path) : policy :=
  Policy (λ x, below p x ∧ D x) D D D D (λ _ _, False).

Lemma framed_insert D p s0 t x n : D x → is_lnk n = false → framed D p s0 t → framed D p s0 (<[x:=n]> t).
Proof.
  intros Hx Hn [Hc Hl]. split; [eapply changes_trans; [done|]; by apply changes_insert|].
  intros y m Hy. destruct (decide (x = y)) as [->|Hne]; [rewrite lookup_insert_eq; by intros [= <-]|].
  rewrite lookup_insert_ne by done. eauto.
Qed.
Lemma framed_delete D p s0 t x : D x → framed D p s0 t → framed D p s0 (delete x t).
Proof.
  intros Hx [Hc Hl]. split; [eapply changes_trans; [done|]; by apply changes_delete|].
  intros y m Hy [_ Hm]%lookup_delete_Some. eauto.
Qed.
#[export] Instance framed_keeps D p s0 : Keeps (framed D p s0) (framed_policy D p).
Proof.
  split; simpl.
  - intros s x n m [Hc Hl] Hn Hk. split; [eapply changes_trans; [done|]; by eapply changes_meta|].
    intros y m' Hy. destruct (decide (x = y)) as [->|Hne]; [|rewrite lookup_insert_ne by done; eauto].
    rewrite lookup_insert_eq. intros [= <-]. unfold is_lnk. rewrite Hk. by apply (Hl y n).
  - intros s x q n [Hx HD] Hs Hr Hd Hn. apply framed_insert; [|by apply reg_facts|done].
    rewrite resolve_plain in Hr by (intros m; by apply (proj2 Hs)). by injection Hr as <-.
  - intros s x n HD Hs _ Hn. apply framed_insert; [done|by apply reg_facts|done].
  - intros s x n HD Hs _ Hn. apply framed_insert; [done| |done]. unfold is_lnk, is_dir in *. by destruct (n_kind n).
  - intros s x HD Hs _. by apply framed_delete.
  - intros s x HD Hs _. by apply framed_delete.
  - done.
Qed.

(** ** A directory stays *)

Definition dir_kept (a : path) (t : fs) : Prop := is_dir_at t a = true.
Definition dir_policy (a : path) : policy :=
  let any := λ _ : path, True in
  Policy any any any any (λ x, x ≠ a) (λ x y, ¬ below x a ∧ ¬ below y a).

#[export] Instance dir_kept_keeps a : Keeps (dir_kept a) (dir_policy a).
Proof.
  assert (∀ s x n, dir_kept a s → (x = a → is_dir n = true) → dir_kept a (<[x:=n]> s)) as Hins.
  { unfold dir_kept, is_dir_at. intros s x n Hs Hn. destruct (decide (x = a)) as [->|Hne]; [rewrite lookup_insert_eq; auto|].
    by rewrite lookup_insert_ne. }
  assert (∀ s x, dir_kept a s → x ≠ a → dir_kept a (delete x s)) as Hdel.
  { unfold dir_kept, is_dir_at. intros s x Hs Hne. by rewrite lookup_delete_ne. }
  split; simpl.
  - intros s x n m Hs Hn Hk. apply Hins; [done|]. intros ->. unfold dir_kept, is_dir_at, is_dir in *. rewrite Hn in Hs. by rewrite Hk.
  - intros s x q n _ Hs _ Hd _. apply Hins; [done|]. intros ->. unfold dir_kept in Hs. congruence.
  - intros s x n _ Hs Hr _. apply Hins; [done|]. intros ->. unfold dir_kept, is_dir_at in Hs.
    destruct (s !! a) as [m|]; [|done]. specialize (Hr m eq_refl). apply reg_facts in Hr as [_ Hr]. congruence.
  - intros s x n _ Hs _ Hn. by apply Hins.
  - intros s x _ Hs Hd. apply Hdel; [done|]. intros ->. unfold dir_kept in Hs. congruence.
  - intros s x Hne Hs _. by apply Hdel.
  - intros s x y [Hx Hy] Hs Ha _. unfold dir_kept, is_dir_at in *. rewrite lookup_move by done. by rewrite !decide_False.
Qed.
