(* ===== verification/Activation.v ===== *)
(** * [activation.py]: promotion, rollback, recovery, and service activation

    One definition per function of
    src/scripts/atomixos_provision/src/atomixos_provision/activation.py (and
    state.py), on the file system of FS.v.  Progress reporting only notifies an
    observer and is left out.  Commands run outside the program: their results
    come from the environment. *)

From Stdlib Require Import Ascii.
From S2P Require Import Prelude PyStr PyVal ConfigCheck FS Staging.

Local Open Scope Z_scope.

Definition FIRST_CONFIG_MARKER : string := ".first-config".
Definition CANDIDATE_SUFFIX : string := "-candidate".
Definition ROLLBACK_SUFFIX : string := "-rollback".
Definition PROMOTION_MARKER : string := ".atomixos-promotion-pending".
Definition ROLLBACK_ACTIVATION_MARKER : string := ".atomixos-rollback-activation-pending".
Definition BOOTSTRAP_ACTIVATION_TIMEOUT_SECONDS : Z := 300.
Definition APP_RUNTIME_USER : string := "appsvc".

(** ** state.py *)

Definition _is_regular_file (p : path) : M bool :=
  catch (n ← lstat p; mret (is_reg n)) is_not_found (λ _, mret false).
Definition is_provisioned_config_root (config_root : path) : M bool :=
  first ← _is_regular_file (config_root // FIRST_CONFIG_MARKER);
  if first : bool then mret true else _is_regular_file (config_root // "config.toml").

(** ** Paths and durability *)

(** [p.parent / f"{p.name}{suffix}"] *)
Definition sibling (p : path) (suffix : string) : path := parent p // (name_of p +:+ suffix).
Definition promotion_marker_path (config_root : path) : path := sibling config_root PROMOTION_MARKER.
Definition rollback_activation_marker_path (config_root : path) : path :=
  sibling config_root ROLLBACK_ACTIVATION_MARKER.
Definition candidate_root_path (config_root : path) : path := sibling config_root CANDIDATE_SUFFIX.
Definition rollback_root_path (config_root : path) : path := sibling config_root ROLLBACK_SUFFIX.

Definition _fsync_directory (p : path) : M () :=
  _ ← rd (λ s, q ← resolve s p; need_dir s q "open"); fsync p.
Definition _fsync_file (p : path) : M () := _ ← stat p; fsync p.

(** The recursion follows directories; [fuel] bounds its depth by the number of
    entries, which every path without link cycles respects. *)
Fixpoint fsync_tree_go (fuel : nat) (p : path) : M () :=
  match fuel with
  | O => raise (OSError_ "RecursionError")
  | S fuel =>
      names ← listdir p;
      _ ← iterM (λ x,
        d ← is_dir_ (p // x);
        if d : bool then fsync_tree_go fuel (p // x)
        else f ← is_file_ (p // x); if f : bool then _fsync_file (p // x) else mret tt) names;
      _fsync_directory p
  end.
Definition _fsync_tree (p : path) : M () :=
  n ← rd (λ s, Ok (S (size s))); fsync_tree_go n p.

(** ** Managed users *)

Definition managed_file (config_root : path) : path := config_root // "managed-users.json".

Definition carry_forward_managed_state (previous_root candidate_root : path) : M () :=
  ex ← exists_ (managed_file previous_root);
  if ex : bool then
    c ← read_content (managed_file previous_root);
    _ ← write_text (managed_file candidate_root) c;
    chmod 384 (managed_file candidate_root)
  else mret tt.

(** [except (json.JSONDecodeError, OSError)]: undecodable bytes are not caught. *)
Definition is_json_or_os (x : exn) : bool :=
  match x with ValueError _ => true | _ => is_OSError x end.
Definition strings_in (v : value) : list string :=
  match v with VList l => omap (λ x, match x with VStr s => Some s | _ => None end) l | _ => [] end.

Definition read_managed_state (config_root : path) : M (list string) :=
  ex ← exists_ (managed_file config_root);
  if ex : bool then
    catch (c ← read_content (managed_file config_root); v ← lift (json_loads c); mret (remove_dups (strings_in v)))
      is_json_or_os (λ _, mret [])
  else mret [].

(** [a | b] *)
Definition union_names (a b : list string) : list string := remove_dups (a ++ b).

Definition managed_content (names : list string) : content :=
  let v := VList (map VStr (sorted_strs names)) in CJson v (Z.of_nat (slen (json_pretty 0 v)) + 1).
Definition managed_tmp (config_root : path) : path := config_root // ".managed-users.json.tmp".

Definition write_managed_state (config_root : path) (names : list string) : M () :=
  _ ← write_text (managed_tmp config_root) (managed_content names);
  _ ← chmod 384 (managed_tmp config_root);
  _ ← _fsync_file (managed_tmp config_root);
  _ ← rename (managed_tmp config_root) (managed_file config_root);
  _fsync_directory config_root.

(** ** Rollback *)

(** [if p.exists(): shutil.rmtree(p)] *)
Definition rmtree_if_exists (p : path) : M () :=
  ex ← exists_ p; if ex : bool then rmtree p else mret tt.

Section root.
Context (config_root : path).
Let rollback_root := rollback_root_path config_root.
Let candidate_root := candidate_root_path config_root.
Let marker_path := promotion_marker_path config_root.
Let parent_dir := parent config_root.

Definition restore_rollback : M bool :=
  ex ← exists_ rollback_root;
  if negb ex then
    _ ← unlink_missing_ok marker_path; _ ← _fsync_directory parent_dir; mret false
  else
    failed_managed ← read_managed_state config_root;
    rollback_managed ← read_managed_state rollback_root;
    _ ← rmtree_if_exists config_root;
    _ ← rename rollback_root config_root;
    _ ← _fsync_directory parent_dir;
    let merged_managed := union_names rollback_managed failed_managed in
    _ ← (if bool_decide (merged_managed = []) then mret tt else write_managed_state config_root merged_managed);
    _ ← unlink_missing_ok marker_path;
    _ ← _fsync_directory parent_dir;
    mret true.

Definition _prune_to_managed_state : M () :=
  entries ← listdir config_root;
  let markers := [FIRST_CONFIG_MARKER; "config.toml"] in
  _ ← iterM (λ x,
        if bool_decide (x = "managed-users.json") then mret tt
        else
          d ← is_dir_ (config_root // x);
          plain ← (if d : bool then
                     catch (n ← lstat (config_root // x); mret (negb (is_lnk n))) is_missing_error (λ _, mret true)
                   else mret false);
          if plain : bool then rmtree (config_root // x) else unlink (config_root // x))
        (filter (λ x, x ∈ markers) entries ++ filter (λ x, x ∉ markers) entries);
  _fsync_directory config_root.

Definition discard_initial_config : M () :=
  here ← read_managed_state config_root;
  there ← read_managed_state candidate_root;
  let managed := union_names here there in
  ex ← exists_ config_root;
  _ ← (if ex : bool then
         if bool_decide (managed = []) then rmtree config_root else _prune_to_managed_state
       else mret tt);
  _ ← (if bool_decide (managed = []) then mret tt
       else
         _ ← mkdir_exist_ok 511 config_root;
         _ ← write_managed_state config_root managed;
         _fsync_directory parent_dir);
  _ ← rmtree_if_exists candidate_root;
  _ ← rmtree_if_exists rollback_root;
  _ ← unlink_missing_ok marker_path;
  _fsync_directory parent_dir.

Definition cleanup_rollback : M () :=
  _ ← rmtree_if_exists rollback_root;
  _ ← unlink_missing_ok marker_path;
  _fsync_directory parent_dir.

(** ** Crash recovery and promotion *)

Definition recover_config_root : M () :=
  marker1 ← exists_ marker_path;
  rollback1 ← (if marker1 : bool then exists_ rollback_root else mret false);
  if rollback1 : bool then
    _ ← restore_rollback;
    _ ← rmtree_if_exists candidate_root;
    _fsync_directory parent_dir
  else
    marker2 ← exists_ marker_path;
    rollback2 ← (if marker2 : bool then exists_ rollback_root else mret true);
    if marker2 && negb rollback2 then
      root_ex ← exists_ config_root;
      toml ← (if root_ex : bool then exists_ (config_root // "config.toml") else mret false);
      if toml : bool then
        _ ← rmtree_if_exists candidate_root;
        _ ← unlink_missing_ok marker_path;
        _fsync_directory parent_dir
      else discard_initial_config
    else
      toml ← exists_ (config_root // "config.toml");
      if toml : bool then rmtree_if_exists candidate_root
      else
        cand ← exists_ candidate_root;
        if cand : bool then rmtree candidate_root
        else
          rb ← exists_ rollback_root;
          if rb : bool then rename rollback_root config_root else mret tt.

Definition atomic_promote (candidate : path) : M () :=
  _ ← rmtree_if_exists rollback_root;
  _ ← _fsync_tree candidate;
  _ ← write_text marker_path (CText ("pending" +:+ nl));
  _ ← _fsync_directory parent_dir;
  _ ← rename config_root rollback_root;
  _ ← _fsync_directory parent_dir;
  _ ← rename candidate config_root;
  _fsync_directory parent_dir.

Definition atomic_promote_initial (candidate : path) : M () :=
  ex ← exists_ rollback_root;
  _ ← (if ex : bool then _ ← rmtree rollback_root; _fsync_directory parent_dir else mret tt);
  _ ← _fsync_tree candidate;
  _ ← write_text marker_path (CText ("pending" +:+ nl));
  _ ← _fsync_directory parent_dir;
  ex ← exists_ config_root;
  _ ← (if ex : bool then _ ← rmtree config_root; _fsync_directory parent_dir else mret tt);
  _ ← rename candidate config_root;
  _fsync_directory parent_dir.

Definition begin_rollback_activation : M () :=
  _ ← write_text (rollback_activation_marker_path config_root) (CText ("pending" +:+ nl));
  _fsync_directory parent_dir.
End root.

(** ** Policy *)

Definition DEFAULT_ACTIVATION_POLICY : dict value :=
  [("required", VList []); ("timeout_seconds", VInt 300); ("settle_seconds", VInt 0);
   ("restart", VList []); ("allow_degraded", VList []); ("strategy", VStr "rollback")].

Definition policy_error (m : string) : exn := ActivationPolicyError m.

(** [json.loads(path.read_text())] under [except (json.JSONDecodeError, OSError)]. *)
Definition load_json (p : path) (h : exn → M value) : M value :=
  catch (c ← read_content p; lift (json_loads c)) is_json_or_os h.

(** Iterating over a decoded value. *)
Definition iter_value (v : value) : result (list value) :=
  match v with
  | VList l => Ok l
  | VStr s => Ok (map (λ c, VStr (String c "")) (chars s))
  | VDict d => Ok (map VStr (dkeys d))
  | _ => Err (TypeError "object is not iterable")
  end.
Definition dicts_in (l : list value) : list (dict value) :=
  omap (λ v, match v with VDict d => Some d | _ => None end) l.

(** The unit metadata rendered next to the configuration. *)
Definition runtime_units (metadata : value) : result (list (dict value)) :=
  match metadata with
  | VDict d => l ← iter_value (vget_or "units" (VList []) d); Ok (dicts_in l)
  | _ => Err (AttributeError "object has no attribute 'get'")
  end.
Definition _load_runtime_units (config_root : path) : M (list (dict value)) :=
  let metadata_path := config_root // "quadlet-runtime.json" in
  ex ← exists_ metadata_path;
  if negb ex then mret []
  else
    r ← catch (c ← read_content metadata_path; v ← lift (json_loads c); mret (Some v)) is_json_or_os (λ _, mret None);
    match r with None => mret [] | Some metadata => lift (runtime_units metadata) end.

Definition hashable (v : value) : result value :=
  match v with
  | VList _ => Err (TypeError "unhashable type: 'list'")
  | VDict _ => Err (TypeError "unhashable type: 'dict'")
  | _ => Ok v
  end.

(** [{unit["service"]: unit["mode"]}]: the last unit of a service wins. *)
Definition _load_runtime_unit_modes (config_root : path) : M (list (value * value)) :=
  units ← _load_runtime_units config_root;
  lift (mapR (λ u, k ← hashable (vget_or "service" (VStr "") u);
                   Ok (k, vget_or "mode" (VStr "rootful") u)) units).
Definition mode_of (modes : list (value * value)) (service : string) : option value :=
  List.fold_left (λ acc kv, if eq_str kv.1 service then Some kv.2 else acc) modes None.

Definition service_name (unit_ : string) : string :=
  if endswith unit_ ".service" then unit_ else unit_ +:+ ".service".

Definition check_policy_units (services : list value) (strict_units : bool) (policy : dict value) (key : string) : result () :=
  match vget_or key (VList []) policy with
  | VList values =>
      forR (λ _ v, match v with
        | VStr u => raise_if (strict_units && negb (existsb (λ s, eq_str s (service_name u)) services))
                      (policy_error ("activation policy " +:+ key +:+ " references unknown provisioned service: " +:+ u))
        | _ => Err (policy_error ("activation policy " +:+ key +:+ " entries must be strings"))
        end) values tt
  | _ => Err (policy_error ("activation policy " +:+ key +:+ " must be a list"))
  end.

Definition check_policy_int (policy : dict value) (key : string) (dflt : Z) : result () :=
  match vget_or key (VInt dflt) policy with
  | VInt _ => Ok tt
  | _ => Err (policy_error ("activation policy " +:+ key +:+ " must be an integer"))
  end.
Definition policy_int (policy : dict value) (key : string) (dflt : Z) : Z :=
  match vget_or key (VInt dflt) policy with VInt n => n | _ => dflt end.

Definition check_policy (services : list value) (strict_units : bool) (policy : dict value) : result () :=
  _ ← forR (λ _ key, check_policy_units services strict_units policy key) ["required"; "restart"; "allow_degraded"] tt;
  _ ← check_policy_int policy "timeout_seconds" 300;
  _ ← check_policy_int policy "settle_seconds" 0;
  let timeout := policy_int policy "timeout_seconds" 300 in
  let settle := policy_int policy "settle_seconds" 0 in
  _ ← raise_if (negb ((1 <=? timeout) && (timeout <=? 3600)))
        (policy_error "activation policy timeout_seconds must be in range 1..3600");
  _ ← raise_if (negb ((0 <=? settle) && (settle <=? 300)))
        (policy_error "activation policy settle_seconds must be in range 0..300");
  _ ← raise_if (negb (eq_str (vget_or "strategy" (VStr "rollback") policy) "rollback"))
        (policy_error "activation policy strategy must be rollback");
  raise_if (dmem "allow_degraded_configured" policy
            && negb (match vget "allow_degraded_configured" policy with VBool _ => true | _ => false end))
    (policy_error "activation policy allow_degraded_configured must be a boolean").

Definition validate_runtime_activation_policy (config_root : path) (policy : dict value) (strict_units : bool) : M () :=
  units ← _load_runtime_units config_root;
  services ← lift (mapR (λ u, hashable (vget_or "service" (VStr "") u)) units);
  lift (check_policy services strict_units policy).

Definition load_activation_policy (config_root : path) : M (dict value) :=
  let policy_path := config_root // "activation-policy.json" in
  ex ← exists_ policy_path;
  if ex : bool then
    raw ← load_json policy_path (λ _, raise (policy_error ("invalid activation policy: " +:+ show_path policy_path)));
    match raw with
    | VDict d =>
        let policy := dset "strict_units" (VBool true) (List.fold_left (λ acc kv, dset kv.1 kv.2 acc) d DEFAULT_ACTIVATION_POLICY) in
        _ ← validate_runtime_activation_policy config_root policy true;
        mret policy
    | _ => raise (policy_error ("activation policy must be an object: " +:+ show_path policy_path))
    end
  else
    let health_path := config_root // "health-required.json" in
    ex ← exists_ health_path;
    r ← (if ex : bool then
           catch (c ← read_content health_path; v ← lift (json_loads c); mret (Some v)) is_json_or_os (λ _, mret None)
         else mret (Some VNone));
    match r with
    | None => mret DEFAULT_ACTIVATION_POLICY
    | Some required =>
        let policy := match required with
                      | VList l => dset "required" (VList (filter (λ v, is_str v = true) l)) DEFAULT_ACTIVATION_POLICY
                      | _ => DEFAULT_ACTIVATION_POLICY
                      end in
        let policy := dset "strict_units" (VBool false) policy in
        _ ← validate_runtime_activation_policy config_root policy false;
        mret policy
    end.

(** ** Services *)

Section services.
(** The activation hook of the environment, as the text and the path it names,
    and the uid of the rootless user. *)
Context (activation_command : option (string * path)) (app_uid : option Z).

Definition is_timeout (x : exn) : bool := match x with TimeoutExpired _ => true | _ => false end.
Definition not_found_or_timeout (x : exn) : bool := is_not_found x || is_timeout x.

Definition activate_services (timeout_seconds : Z) : M (list string) :=
  match activation_command with
  | None => mret []
  | Some (command, command_path) =>
      if bool_decide (command = "") then mret []
      else if negb (path_is_absolute command)
      then mret ["activation command must be an absolute path, got: " +:+ command]
      else
        f ← is_file_ command_path;
        if negb f then mret ["activation command not found: " +:+ command]
        else
          catch
            (r ← run_command [command];
             mret (if returncode r =? 0 then []
                   else ["activation script failed (exit " +:+ str_int (returncode r) +:+ "): "
                         +:+ str_take 200 (strip (stderr r))]))
            not_found_or_timeout
            (λ x, mret [if is_timeout x then "activation script timed out after " +:+ str_int timeout_seconds +:+ "s"
                        else "activation script not found"])
  end.

(** Times are in ticks. *)
Definition remaining_timeout (deadline : Z) : M Z := now ← time_time; mret (Z.max 0 (deadline - now)).
Definition command_timeout (deadline : option Z) : M Z :=
  match deadline with
  | None => mret (10 * tick_per_second)
  | Some d => r ← remaining_timeout d; mret (Z.max (tick_per_second / 1000) (Z.min (10 * tick_per_second) r))
  end.

(** [systemctl] for the rootless user. *)
Definition rootless_command (verb : list string) (service : string) (uid : Z) : list string :=
  let runtime_dir := "/run/user/" +:+ str_int uid in
  ["runuser"; "-u"; APP_RUNTIME_USER; "--"; "env"; "HOME=/var/lib/" +:+ APP_RUNTIME_USER;
   "XDG_RUNTIME_DIR=" +:+ runtime_dir; ("DBUS_SESSION_BUS_ADDRESS=unix:path=" +:+ runtime_dir +:+ "/bus");
   "systemctl"; "--user"] ++ verb ++ [service].
Definition systemctl (verb : list string) (service : string) (mode : value) (deadline : option Z) : M Z :=
  if eq_str mode "rootless" then
    match app_uid with
    | None => mret 1
    | Some uid => _ ← command_timeout deadline; r ← run_command (rootless_command verb service uid); mret (returncode r)
    end
  else _ ← command_timeout deadline; r ← run_command ("systemctl" :: verb ++ [service]); mret (returncode r).
Definition _check_service (service : string) (mode : value) (deadline : option Z) : M Z :=
  systemctl ["is-active"; "--quiet"] service mode deadline.
Definition _restart_service (service : string) (mode : value) (deadline : option Z) : M Z :=
  systemctl ["restart"] service mode deadline.

Definition report_runtime_services (config_root : path) (deadline : option Z) : M (list (string * string)) :=
  units ← _load_runtime_units config_root;
  forM (λ statuses u,
    match vget_or "service" (VStr "") u with
    | VStr service =>
        if bool_decide (service = "") then mret statuses
        else
          status ← catch (rc ← _check_service service (vget_or "mode" (VStr "rootful") u) deadline;
                          mret (if rc =? 0 then "running" else "failed"))
                     not_found_or_timeout (λ _, mret "unknown");
          mret (dset service status statuses)
    | v => if truthy v then raise (TypeError "expected str") else mret statuses
    end) units [].

Definition unit_strings (policy : dict value) (key : string) : list string :=
  map service_name (strings_in (vget_or key (VList []) policy)).
Definition degraded_service_failures (policy : dict value) (statuses : list (string * string)) : list string :=
  if negb (truthy (vget_or "strict_units" (VBool false) policy))
     || negb (truthy (vget_or "allow_degraded_configured" (VBool false) policy)) then []
  else
    let required := unit_strings policy "required" in
    let allowed := unit_strings policy "allow_degraded" in
    (filter (λ kv : string * string, kv.2 ≠ "running" ∧ (kv.1 ∉ required) ∧ kv.1 ∉ allowed) statuses).*1.

(** [deadline is not None and remaining_timeout(deadline) <= 0] *)
Definition past (deadline : option Z) : M bool :=
  match deadline with Some d => r ← remaining_timeout d; mret (r <=? 0) | None => mret false end.

(** One turn of each loop: the failures so far, and whether the loop has stopped. *)
Definition check_unit (modes : list (value * value)) (strict_units : bool) (deadline : option Z)
    (st : list string * bool) (unit_ : value) : M (list string * bool) :=
  let '(failed, stopped) := st in
  if stopped : bool then mret (failed, true)
  else
    late ← past deadline;
    if late : bool then mret (failed ++ ["activation health checks timed out"], true)
    else match unit_ with
    | VStr name =>
        let service := service_name name in
        match mode_of modes service with
        | None =>
            if strict_units then mret (failed ++ [service], false)
            else
              rc ← catch (_check_service service (VStr "rootful") deadline) not_found_or_timeout (λ _, mret 1);
              mret (if rc =? 0 then failed else failed ++ [service], false)
        | Some mode =>
            rc ← catch (_check_service service mode deadline) not_found_or_timeout (λ _, mret 1);
            mret (if rc =? 0 then failed else failed ++ [service], false)
        end
    | _ => mret (failed, false)
    end.

Definition check_required_services (config_root : path) (policy : dict value) (deadline : option Z) : M (list string) :=
  match vget_or "required" (VList []) policy with
  | VList ((_ :: _) as required) =>
      modes ← _load_runtime_unit_modes config_root;
      let strict_units := truthy (vget_or "strict_units" (VBool false) policy) in
      r ← forM (check_unit modes strict_units deadline) required ([], false);
      mret r.1
  | _ => mret []
  end.

Definition restart_unit (modes : list (value * value)) (deadline : option Z)
    (st : list string * bool) (unit_ : value) : M (list string * bool) :=
  let '(failures, stopped) := st in
  if stopped : bool then mret (failures, true)
  else
    late ← past deadline;
    if late : bool then mret (failures ++ ["activation restart timed out"], true)
    else match unit_ with
    | VStr name =>
        let service := service_name name in
        match mode_of modes service with
        | None => mret (failures ++ [service], false)
        | Some mode =>
            rc ← catch (_restart_service service mode deadline) not_found_or_timeout (λ _, mret 1);
            mret (if rc =? 0 then failures else failures ++ [service], false)
        end
    | _ => mret (failures, false)
    end.

Definition restart_activation_services (config_root : path) (policy : dict value) (deadline : option Z) : M (list string) :=
  match vget_or "restart" (VList []) policy with
  | VList ((_ :: _) as restart) =>
      modes ← _load_runtime_unit_modes config_root;
      r ← forM (restart_unit modes deadline) restart ([], false);
      mret r.1
  | _ => mret []
  end.

(** ** Orchestration *)

Definition run_activation_sequence (config_root : path) : M (list string) :=
  policy ← load_activation_policy config_root;
  let timeout_seconds := policy_int policy "timeout_seconds" 300 in
  let settle_seconds := policy_int policy "settle_seconds" 0 in
  now ← time_time;
  let deadline := now + timeout_seconds * tick_per_second in
  activation_failures ← activate_services timeout_seconds;
  restart_failures ← (if bool_decide (activation_failures = [])
                      then restart_activation_services config_root policy (Some deadline) else mret []);
  let healthy := bool_decide (activation_failures = []) && bool_decide (restart_failures = []) in
  late ← (if healthy && negb (settle_seconds =? 0) then
            r ← remaining_timeout deadline; mret (r <? settle_seconds * tick_per_second)
          else mret false);
  if late : bool then mret ["activation timed out before health checks"]
  else
    degraded_failures ← (if healthy then
        statuses ← report_runtime_services config_root (Some deadline);
        mret (degraded_service_failures policy statuses)
      else mret []);
    health_failures ← (if healthy then check_required_services config_root policy (Some deadline) else mret []);
    mret (activation_failures ++ restart_failures ++ degraded_failures ++ health_failures).

Definition is_policy_error (x : exn) : bool := match x with ActivationPolicyError _ => true | _ => false end.
Definition policy_message (x : exn) : list string := match x with ActivationPolicyError m => [m] | _ => [] end.

Definition run_rollback_activation (config_root : path) : M (list string) :=
  failures ← catch (run_activation_sequence config_root) is_policy_error (λ x, mret (policy_message x));
  _ ← unlink_missing_ok (rollback_activation_marker_path config_root);
  _ ← _fsync_directory (parent config_root);
  mret failures.

(** The outcome of a reapply: success, failures, and "skipped", "completed" or
    "failed". *)
Definition complete_reapply (config_root : path) (before_commit : option (M ())) : M (bool * list string * string) :=
  failures ← catch (run_activation_sequence config_root) is_policy_error (λ x, mret (policy_message x));
  if bool_decide (failures = []) then
    _ ← match before_commit with Some commit => commit | None => mret tt end;
    _ ← cleanup_rollback config_root;
    mret (true, [], "skipped")
  else
    ex ← exists_ (rollback_root_path config_root);
    _ ← (if ex : bool then begin_rollback_activation config_root else mret tt);
    restored ← restore_rollback config_root;
    if restored : bool then
      rollback_failures ← run_rollback_activation config_root;
      if bool_decide (rollback_failures = []) then mret (false, failures, "completed")
      else mret (false, failures ++ map (λ f, "rollback activation/health failed: " +:+ f) rollback_failures, "failed")
    else mret (false, failures, "skipped").
End services.
