(* ===== verification/ApplyTransaction.v ===== *)
(** * [apply_transaction.py]: receipts and interrupted applies

    One definition per function of
    src/scripts/atomixos_provision/src/atomixos_provision/apply_transaction.py. *)

From S2P Require Import Prelude PyStr PyVal ConfigCheck FS Staging StagedJob Activation.

Local Open Scope Z_scope.

Definition APPLY_RECEIPT_FILENAME : string := ".atomixos-apply-receipt.json".
Definition APPLY_RECEIPT_VERSION : Z := 2.

Variant ApplyReceiptPhase : Type := PROMOTED | COMMITTED.
#[export] Instance phase_eq_dec : EqDecision ApplyReceiptPhase.
Proof. solve_decision. Defined.
Definition phase_value (p : ApplyReceiptPhase) : string :=
  match p with PROMOTED => "promoted" | COMMITTED => "committed" end.
Definition phase_of (v : value) : option ApplyReceiptPhase :=
  if eq_str v "promoted" then Some PROMOTED else if eq_str v "committed" then Some COMMITTED else None.

Record StagedApplyReceipt : Type := Receipt {
  r_job_id : string; r_source_sha256 : string; r_result : dict value; r_phase : ApplyReceiptPhase }.

Record ApplyRecovery : Type := MkRecovery {
  rec_receipt : option StagedApplyReceipt; discarded_initial : bool; restored_rollback : bool;
  rollback_failures : list string }.
Definition Recovery (receipt : option StagedApplyReceipt) (discarded restored : bool) : ApplyRecovery :=
  MkRecovery receipt discarded restored [].

Record StagedApplyTransaction : Type := Transaction {
  t_job_id : string; t_source_sha256 : string; t_result : dict value }.

(** [_is_sha256]: 64 lower-case hexadecimal digits. *)
Definition _is_sha256 (v : value) : bool := sha256_value v.
Definition str_of (v : value) : string := match v with VStr s => s | _ => "" end.

Definition from_manifest (manifest result_ : dict value) : result StagedApplyTransaction :=
  job_id ← validate_job_id_value (vget_or "job_id" (VStr "") manifest);
  let source := vget "source_sha256" manifest in
  _ ← raise_if (negb (_is_sha256 source)) (provision_error "staged manifest is missing a valid source digest");
  Ok (Transaction job_id (str_of source) result_).

Definition receipt_path (config_root : path) : path := config_root // APPLY_RECEIPT_FILENAME.
Definition receipt_payload (t : StagedApplyTransaction) (phase : ApplyReceiptPhase) : dict value :=
  [("version", VInt APPLY_RECEIPT_VERSION); ("job_id", VStr (t_job_id t));
   ("source_sha256", VStr (t_source_sha256 t)); ("result", VDict (t_result t));
   ("phase", VStr (phase_value phase))].

Definition _write_receipt (t : StagedApplyTransaction) (config_root : path) (phase : ApplyReceiptPhase) : M () :=
  write_json_atomic (receipt_path config_root) (receipt_payload t phase) 384 (* 0o600 *) None.

(** [stat.S_IRWXG | stat.S_IRWXO] *)
Definition others_access (n : node) : bool := negb (Z.land (n_mode n) 63 =? 0).

Definition decode_receipt (p : path) (receipt : dict value) : result StagedApplyReceipt :=
  _ ← raise_if (negb (py_eq (vget "version" receipt) (VInt APPLY_RECEIPT_VERSION)))
        (provision_error ("unsupported apply receipt version: " +:+ show_path p));
  job_id ← validate_job_id_value (vget_or "job_id" (VStr "") receipt);
  let source := vget "source_sha256" receipt in
  _ ← raise_if (negb (_is_sha256 source)) (provision_error ("apply receipt has invalid source digest: " +:+ show_path p));
  result_ ← match vget "result" receipt with
            | VDict d => Ok d
            | _ => Err (provision_error ("apply receipt has invalid result: " +:+ show_path p))
            end;
  phase ← of_option (phase_of (vget "phase" receipt))
            (provision_error ("apply receipt has invalid phase: " +:+ show_path p));
  Ok (Receipt job_id (str_of source) result_ phase).

Definition read_apply_receipt (config_root : path) : M (option StagedApplyReceipt) :=
  let p := receipt_path config_root in
  st ← catch (n ← lstat p; mret (Some n)) is_not_found (λ _, mret None);
  match st with
  | None => mret None
  | Some n =>
      _ ← lift (raise_if (negb (is_reg n)) (provision_error ("apply receipt must be a regular file: " +:+ show_path p)));
      _ ← lift (raise_if (others_access n) (provision_error ("apply receipt must be owner-only: " +:+ show_path p)));
      receipt ← read_json p;
      r ← lift (decode_receipt p receipt);
      mret (Some r)
  end.

Definition mark_promoted (t : StagedApplyTransaction) (candidate_root : path) : M () :=
  _write_receipt t candidate_root PROMOTED.

(** The receipt of this transaction, in the promoted phase. *)
Definition is_promoted_receipt (t : StagedApplyTransaction) (r : option StagedApplyReceipt) : bool :=
  match r with
  | None => false
  | Some r => bool_decide (r_phase r = PROMOTED) && bool_decide (r_job_id r = t_job_id t)
              && bool_decide (r_source_sha256 r = t_source_sha256 t)
              && py_eq (VDict (r_result r)) (VDict (t_result t))
  end.
Definition mark_committed (t : StagedApplyTransaction) (config_root : path) : M () :=
  receipt ← read_apply_receipt config_root;
  if is_promoted_receipt t receipt then _write_receipt t config_root COMMITTED
  else raise (provision_error "cannot commit staged apply without its promoted receipt").

Definition committed_result_for_manifest (receipt : option StagedApplyReceipt) (job_id : string)
    (manifest : option (dict value)) : option (dict value) :=
  match receipt, manifest with
  | Some r, Some m =>
      if bool_decide (r_phase r = COMMITTED) && bool_decide (r_job_id r = job_id)
         && eq_str (vget "source_sha256" m) (r_source_sha256 r)
      then Some (r_result r) else None
  | _, _ => None
  end.

Definition is_phase (phase : ApplyReceiptPhase) (r : option StagedApplyReceipt) : bool :=
  match r with Some r => bool_decide (r_phase r = phase) | None => false end.

Definition recover_interrupted_apply (config_root : path) : M ApplyRecovery :=
  pending ← exists_ (rollback_activation_marker_path config_root);
  if pending : bool then
    _ ← recover_config_root config_root;
    r ← read_apply_receipt config_root;
    mret (Recovery r false true)
  else
    receipt ← read_apply_receipt config_root;
    if is_phase COMMITTED receipt then
      _ ← rmtree_if_exists (candidate_root_path config_root);
      _ ← cleanup_rollback config_root;
      mret (Recovery receipt false false)
    else
      initial ← (if is_phase PROMOTED receipt then rb ← exists_ (rollback_root_path config_root); mret (negb rb)
                 else mret false);
      if initial : bool then
        _ ← discard_initial_config config_root; mret (Recovery None true false)
      else
        marker ← exists_ (promotion_marker_path config_root);
        restored ← (if marker : bool then exists_ (rollback_root_path config_root) else mret false);
        _ ← (if restored : bool then begin_rollback_activation config_root else mret tt);
        _ ← recover_config_root config_root;
        r ← read_apply_receipt config_root;
        mret (Recovery r false restored).

Definition is_os_or_provision (x : exn) : bool := is_OSError x || is_ProvisionError x.

Definition manifest_matches (manifest : dict value) (job_id source : string) : bool :=
  eq_str (vget "job_id" manifest) job_id && eq_str (vget "source_sha256" manifest) source.

Definition _committed_receipt_for_active_job (active_path : path) (job_id : string)
    (receipt : option StagedApplyReceipt) : M (option StagedApplyReceipt) :=
  match receipt with
  | None => mret None
  | Some r =>
      if bool_decide (r_phase r = COMMITTED) && bool_decide (r_job_id r = job_id) then
        m ← catch (d ← read_json (active_path // "manifest.json"); mret (Some d)) is_os_or_provision (λ _, mret None);
        match m with
        | None => mret None
        | Some manifest => mret (if manifest_matches manifest job_id (r_source_sha256 r) then Some r else None)
        end
      else mret None
  end.

Definition unfinished_committed_receipt (paths : RuntimePaths) (receipt : option StagedApplyReceipt)
    : M (option StagedApplyReceipt) :=
  match receipt with
  | None => mret None
  | Some r =>
      if bool_decide (r_phase r = COMMITTED) then
        let active_path := active paths // r_job_id r in
        st ← catch (n ← lstat active_path; mret (Some n)) is_not_found (λ _, mret None);
        match st with
        | None => mret None
        | Some n =>
            if negb (is_dir n) then mret None
            else
              result_ ← read_result paths (r_job_id r);
              match result_ with
              | Some _ => mret None
              | None => _committed_receipt_for_active_job active_path (r_job_id r) receipt
              end
        end
      else mret None
  end.

Section finalize.
Context (time_value : Z → value) (service_gid : option Z).

Definition final_payload (committed : option StagedApplyReceipt) (reason : string) : dict value :=
  match committed with
  | Some r => [("status", VStr "succeeded"); ("result", VDict (r_result r))]
  | None => [("status", VStr "failed"); ("error", VStr reason)]
  end.

(** One entry of the active directory; [true] when it was a job claim. *)
Definition finalize_entry (paths : RuntimePaths) (reason : string) (receipt : option StagedApplyReceipt)
    (name : string) : M bool :=
  let active_path := active paths // name in
  st ← catch (n ← lstat active_path; mret (Some n)) is_not_found (λ _, mret None);
  match st with
  | None => mret false
  | Some n =>
      if negb (is_dir n) then _ ← remove_staged_path active_path; mret false
      else
        job_id ← lift (validate_job_id name);
        existing ← read_result paths job_id;
        _ ← match existing with
            | Some _ => mret tt
            | None =>
                committed ← _committed_receipt_for_active_job active_path job_id receipt;
                _ ← write_result time_value service_gid paths job_id (final_payload committed reason); mret tt
            end;
        _ ← rmtree_ignore_errors active_path;
        mret true
  end.

Definition finalize_abandoned_active_jobs (paths : RuntimePaths) (reason : string)
    (receipt : option StagedApplyReceipt) : M nat :=
  _ ← ensure_runtime_layout paths true;
  queue_operation_lock paths (
    names ← listdir (active paths);
    finalized ← forM (λ n name, claim ← finalize_entry paths reason receipt name;
                                mret (if claim : bool then S n else n)) (sorted_strs names) 0%nat;
    _ ← fsync_directory (active paths);
    mret finalized).
End finalize.
