(* ===== verification/ActivationFacts.v ===== *)
(** * Promotion and recovery: theorems

    A promotion may be interrupted at any system call, and so may every recovery
    after it; whenever a recovery completes, the configuration root holds the old
    configuration again.  And discarding a failed initial configuration never
    loses the record of managed users. *)

From S2P Require Import Prelude PyStr PyVal ConfigCheck FS FSLogic Staging StagingFacts Activation.

Local Open Scope Z_scope.

(** ** Calls that leave the tree alone *)

Section calls.
Context (P : fs → Prop).

Lemma wp_exists_any p (Q : result bool → fs → Prop) s :
  (∀ r, Q r s) → wp reads_ok P (exists_ p) Q s.
Proof.
  intros HQ. eapply wp_weaken; [|done|by apply (wp_exists P)]. by intros e [? _].
Qed.

Lemma wp_exists_plain p (Q : result bool → fs → Prop) s :
  not_link s p →
  (is_Some (s !! p) → Q (Ok true) s) → (s !! p = None → Q (Ok false) s) →
  wp reads_ok P (exists_ p) Q s.
Proof.
  intros Hp HT HF. unfold exists_, test, stat. apply wp_catch, wp_bind, wp_rd_ok.
  rewrite stat_plain by done. unfold lstat_at. destruct (s !! p); simpl.
  - apply wp_ret. eauto.
  - rewrite missing_is_missing. apply wp_ret. auto.
Qed.

Lemma wp_fsync_quiet p (Q : result () → fs → Prop) s :
  P s → (∀ r, Q r s) → wp reads_ok P (fsync p) Q s.
Proof. intros HP HQ. by apply wp_wr. Qed.

Lemma wp_fsync_dir p (Q : result () → fs → Prop) s :
  P s → (∀ r, Q r s) → wp reads_ok P (_fsync_directory p) Q s.
Proof.
  intros HP HQ. unfold _fsync_directory. apply wp_bind, wp_rd_ok.
  destruct (_ ≫= _); [|done]. by apply wp_fsync_quiet.
Qed.

Lemma wp_fsync_file p (Q : result () → fs → Prop) s :
  P s → (∀ r, Q r s) → wp reads_ok P (_fsync_file p) Q s.
Proof.
  intros HP HQ. unfold _fsync_file, stat. apply wp_bind, wp_rd_ok.
  destruct (stat_at s p); [|done]. by apply wp_fsync_quiet.
Qed.

Lemma wp_listdir_any p (Q : result (list string) → fs → Prop) s :
  (∀ r, Q r s) → wp reads_ok P (listdir p) Q s.
Proof.
  intros HQ. unfold listdir. apply wp_bind, wp_rd_ok. destruct (_ ≫= _); [|done].
  apply wp_bind, wp_rd_ok. destruct (_ ≫= _); [|done].
  apply wp_bind, wp_ask. intros e n _. by apply wp_ret.
Qed.

Lemma wp_test_any f p (Q : result bool → fs → Prop) s :
  (∀ r, Q r s) → wp reads_ok P (test f p) Q s.
Proof.
  intros HQ. unfold test, stat. apply wp_catch, wp_bind, wp_rd_ok.
  destruct (stat_at s p) as [n|x]; [by apply wp_ret|]. destruct (is_missing_error x); [by apply wp_ret|done].
Qed.

Lemma wp_fsync_tree p (Q : result () → fs → Prop) s :
  P s → (∀ r, Q r s) → wp reads_ok P (_fsync_tree p) Q s.
Proof.
  intros HP. unfold _fsync_tree. intros HQ. apply wp_bind, wp_rd_ok. generalize (S (size s)). intros n.
  revert p Q HQ. induction n as [|n IH]; intros p Q HQ; simpl; [by apply wp_raise|].
  apply wp_bind, wp_listdir_any. intros [names|x]; [|done]. apply wp_bind.
  apply (wp_forM _ _ _ (λ _ _ t, t = s)); [done| |intros [] t ->; by apply wp_fsync_dir].
  intros x l [] t ->. apply wp_bind, wp_test_any. intros [[]|y]; [| |done].
  - apply IH. by intros [[]|y].
  - apply wp_bind, wp_test_any. intros [[]|y]; [|by apply wp_ret|done].
    apply wp_fsync_file; [done|]. by intros [[]|z].
Qed.

Lemma wp_rmtree_ok p (Q : result () → fs → Prop) s :
  (∀ t, pruned p s t → P t) → (∀ x t, pruned p s t → Q (Err x) t) → Q (Ok tt) (del_subtree p s) →
  wp reads_ok P (rmtree p) Q s.
Proof. apply wp_rmtree. by intros e [? _]. Qed.

Lemma wp_rmtree_if_exists p (Q : result () → fs → Prop) s :
  (∀ t, pruned p s t → P t ∧ (∀ x, Q (Err x) t)) →
  Q (Ok tt) (del_subtree p s) → Q (Ok tt) s →
  wp reads_ok P (rmtree_if_exists p) Q s.
Proof.
  intros HP HQ HQ'. pose proof (HP s (pruned_refl p s)) as [? ?]. unfold rmtree_if_exists.
  apply wp_bind, wp_exists_any. intros [[]|x]; [|by apply wp_ret|done].
  apply wp_rmtree_ok; [intros t Ht|intros x t Ht|done]; by apply HP.
Qed.

(** The same for a path that is no link: afterwards it is gone. *)
Lemma wp_rmtree_if_exists_plain p (Q : result () → fs → Prop) s :
  not_link s p →
  (∀ t, pruned p s t → P t ∧ (∀ x, Q (Err x) t)) →
  (∀ t, pruned p s t → t !! p = None → Q (Ok tt) t) →
  wp reads_ok P (rmtree_if_exists p) Q s.
Proof.
  intros Hl HP HQ. pose proof (HP s (pruned_refl p s)) as [? ?]. unfold rmtree_if_exists.
  apply wp_bind, wp_exists_plain; [done| |].
  - intros _. apply wp_rmtree_ok; [intros t Ht|intros x t Ht|]; [by apply HP..|].
    apply HQ; [|by rewrite lookup_del_subtree, decide_True by apply below_refl].
    intros x. rewrite lookup_del_subtree. case_decide; auto.
  - intros E. apply wp_ret. apply HQ; [apply pruned_refl|done].
Qed.

Lemma wp_unlink_missing_ok p (Q : result () → fs → Prop) s :
  (∀ x, Q (Err x) s) → P (delete p s) → Q (Ok tt) (delete p s) → (s !! p = None → Q (Ok tt) s) →
  wp reads_ok P (unlink_missing_ok p) Q s.
Proof.
  intros HE HP HQ HN. unfold unlink_missing_ok, unlink. apply wp_catch.
  apply wp_wr.
  - intros e [He _] n x [_ Hx]%(eo_wfault e He). destruct (is_not_found x) eqn:E; [by destruct x|done].
  - unfold unlink_at. destruct (s !! p) as [n|] eqn:E.
    + destruct (is_dir n); [apply HE|by split].
    + destruct (is_not_found _); [by apply wp_ret, HN|done].
Qed.
End calls.

(** ** The managed-user record

    What it holds, and what writing it may touch. *)
Definition record_names (s : fs) (root : path) : list string :=
  match s !! managed_file root with
  | Some n => match n_kind n with KReg (CJson v _) => strings_in v | _ => [] end
  | None => []
  end.
Definition holds_names (s : fs) (root : path) (names : list string) : Prop :=
  ∃ n, s !! managed_file root = Some n ∧ n_kind n = KReg (managed_content names).

Lemma holds_names_spec s root names u : holds_names s root names → u ∈ names → u ∈ record_names s root.
Proof.
  intros (n & Hn & Hk) Hu. unfold record_names. rewrite Hn, Hk. unfold managed_content. simpl.
  apply list_elem_of_omap. exists (VStr u). split; [|done]. apply list_elem_of_fmap. exists u. split; [done|].
  unfold sorted_strs. by rewrite merge_sort_Permutation.
Qed.

(** [t] is [s] except at the record and its temporary file. *)
Definition record_only (root : path) (s t : fs) : Prop :=
  ∀ x, ¬ below (managed_tmp root) x → ¬ below (managed_file root) x → t !! x = s !! x.

Lemma managed_apart root : apart (managed_tmp root) (managed_file root).
Proof.
  unfold managed_tmp, managed_file.
  split; intros Hb; rewrite <-(app_nil_r (root // _)) in Hb at 1; rewrite <-(app_nil_r (root // _)) in Hb;
    rewrite ?app_nil_r in Hb.
  - assert (".managed-users.json.tmp" = "managed-users.json") by (eapply below_snoc_eq; by rewrite app_nil_r). done.
  - assert ("managed-users.json" = ".managed-users.json.tmp") by (eapply below_snoc_eq; by rewrite app_nil_r). done.
Qed.

Lemma record_only_insert root s t p n :
  record_only root s t → below (managed_tmp root) p ∨ below (managed_file root) p → record_only root s (<[p:=n]> t).
Proof.
  intros Hst Hp x H1 H2. rewrite lookup_insert_ne; [by apply Hst|]. intros ->. by destruct Hp.
Qed.

(** Writing the record replaces it in one step: at every point it is the old
    record or the new one. *)
Lemma wp_write_managed_state (P : fs → Prop) root names (Q : result () → fs → Prop) s :
  not_link s (managed_tmp root) →
  (∀ t, record_only root s t → not_link t (managed_tmp root) →
     t !! managed_file root = s !! managed_file root ∨ holds_names t root names → P t ∧ ∀ x, Q (Err x) t) →
  (∀ t, record_only root s t → not_link t (managed_tmp root) → holds_names t root names → Q (Ok tt) t) →
  wp reads_ok P (write_managed_state root names) Q s.
Proof.
  intros Hl HP HQ. pose proof (managed_apart root) as Hap.
  assert (managed_tmp root ≠ managed_file root) as Hne by (intros E; apply Hap; rewrite E; apply below_refl).
  assert (∀ n, is_reg n = true → let u := <[managed_tmp root := n]> s in record_only root s u ∧
     not_link u (managed_tmp root) ∧ (u !! managed_file root = s !! managed_file root ∨ holds_names u root names)) as Hins.
  { intros n Hn u. unfold u. split_and!; [| |left; by rewrite lookup_insert_ne].
    - apply record_only_insert; [by intros x|left; apply below_refl].
    - intros k. rewrite lookup_insert_eq. intros [= <-]. by apply reg_not_link. }
  assert (∀ x, Q (Err x) s) as HEs by (apply HP; [by intros x|done|by left]).
  unfold write_managed_state. apply wp_bind, wp_write_text; [done|done| |].
  { intros n Hn. by apply HP; apply Hins. }
  intros n Hn. assert (is_reg n = true) as Hrn by (unfold is_reg; by rewrite Hn). set (s1 := <[managed_tmp root := n]> s).
  apply wp_bind. eapply (wp_chmod_plain _ _ 384 _ n); [by unfold s1; rewrite lookup_insert_eq|by unfold is_lnk; rewrite Hn| | |].
  { by apply HP; apply Hins. }
  { unfold s1. rewrite insert_insert_eq. by apply HP; apply Hins. }
  unfold s1. rewrite insert_insert_eq. clear s1. set (m := set_mode 384 n). set (s1 := <[managed_tmp root := m]> s).
  destruct (Hins m Hrn) as (Hr1 & Hl1 & Hm1). fold s1 in Hr1, Hl1, Hm1. destruct (HP s1 Hr1 Hl1 Hm1) as [HP1 HE1].
  apply wp_bind, wp_fsync_file; [done|]. intros [[]|x]; [|done].
  assert (∀ t, record_only root s t → not_link t (managed_tmp root) → holds_names t root names →
    wp reads_ok P (_fsync_directory root) Q t) as Hend.
  { intros t Ht Hlt Hh. destruct (HP t Ht Hlt (or_intror Hh)) as [HPt HEt].
    apply wp_fsync_dir; [done|]. intros [[]|x]; [by apply HQ|done]. }
  apply wp_bind, wp_wr; [by intros|].
  destruct (rename_at _ _ s1) as [t|x] eqn:E; [|done].
  apply rename_at_Ok in E as [[E _]|[_ ->]]; [done|].
  set (t := move _ _ s1).
  assert (record_only root s t) as Ht.
  { intros x H1 H2. unfold t. rewrite lookup_move, !decide_False by done. by apply Hr1. }
  assert (holds_names t root names) as Hh.
  { exists m. split; [|done]. unfold t. rewrite lookup_move, decide_True by (done || apply below_refl).
    assert (managed_tmp root ++ drop (length (managed_file root)) (managed_file root) = managed_tmp root) as ->
      by (rewrite drop_ge, app_nil_r; done).
    unfold s1. by rewrite lookup_insert_eq. }
  assert (not_link t (managed_tmp root)) as Hlt.
  { intros k. unfold t. rewrite lookup_move by done. rewrite decide_False by apply Hap.
    by rewrite decide_True by apply below_refl. }
  split; [by apply HP; auto|by apply Hend].
Qed.

(** ** Phases of a promotion *)

Section promote.
Context (base : path) (name : string) (old : path → option node).

Definition C : path := base // name.
Definition R : path := base // (name +:+ ROLLBACK_SUFFIX).
Definition K : path := base // (name +:+ CANDIDATE_SUFFIX).
Definition Mk : path := base // (name +:+ PROMOTION_MARKER).

Lemma parent_C : parent C = base.
Proof. unfold parent, C. apply removelast_last. Qed.
Lemma sibling_C suffix : sibling C suffix = base // (name +:+ suffix).
Proof. unfold sibling. rewrite parent_C. unfold C. by rewrite name_of_snoc. Qed.

Lemma apart_snoc (x y : string) : x ≠ y → apart (base // x) (base // y).
Proof.
  intros Hne. split; intros Hb.
  - apply Hne. eapply below_snoc_eq. by rewrite app_nil_r.
  - apply Hne. symmetry. eapply below_snoc_eq. by rewrite app_nil_r.
Qed.

Lemma suffix_ne (s : string) : s ≠ "" → name ≠ name +:+ s.
Proof.
  intros Hs E. apply Hs. apply (f_equal chars) in E. rewrite chars_app in E.
  rewrite <-(app_nil_r (chars name)) in E at 1. apply (inj (app (chars name))) in E.
  by destruct s.
Qed.
Lemma suffixes_ne (s t : string) : s ≠ t → name +:+ s ≠ name +:+ t.
Proof. intros Hs E. by apply (inj (String.append name)) in E. Qed.

Lemma apart_CR : apart C R.
Proof. by apply apart_snoc, suffix_ne. Qed.
Lemma apart_CK : apart C K.
Proof. by apply apart_snoc, suffix_ne. Qed.
Lemma apart_CM : apart C Mk.
Proof. by apply apart_snoc, suffix_ne. Qed.
Lemma apart_RK : apart R K.
Proof. by apply apart_snoc, suffixes_ne. Qed.
Lemma apart_RM : apart R Mk.
Proof. by apply apart_snoc, suffixes_ne. Qed.
Lemma apart_KM : apart K Mk.
Proof. by apply apart_snoc, suffixes_ne. Qed.

Lemma apart_app p q x : apart p q → ¬ below p (q ++ x).
Proof.
  intros [H1 H2] Hb. destruct (below_both p q (q ++ x) Hb (below_app q x)); auto.
Qed.
Lemma apart_sym p q : apart p q → apart q p.
Proof. by intros [? ?]. Qed.

(** The parts of a configuration the managed-user record occupies. *)
Definition aside (x : path) : Prop := below [".managed-users.json.tmp"] x ∨ below ["managed-users.json"] x.

(** [p] holds the old configuration, up to the managed-user record. *)
Record holds (t : fs) (p : path) : Prop := Holds {
  h_tree x : ¬ aside x → t !! (p ++ x) = old x;
  h_tmp : not_link t (managed_tmp p) }.

(** The old configuration is a directory with a regular config.toml. *)
Definition old_complete : Prop :=
  (∃ n, old [] = Some n ∧ is_dir n = true) ∧ (∃ n, old ["config.toml"] = Some n ∧ is_reg n = true).

Definition marker_plain (t : fs) : Prop := ∃ n, t !! Mk = Some n ∧ is_lnk n = false.

(** Where the old configuration is, by what the marker and the rollback root say. *)
Inductive phase (t : fs) : Prop :=
  | phase_idle : t !! Mk = None → holds t C → phase t
  | phase_marked : marker_plain t → t !! R = None → holds t C → phase t
  | phase_moved : marker_plain t → holds t R → not_link t C → phase t.

Lemma holds_ext t u p : (∀ x, u !! (p ++ x) = t !! (p ++ x)) → holds t p → holds u p.
Proof.
  intros Hx [Ht Hl]. split.
  - intros x Ha. rewrite Hx. by apply Ht.
  - intros n. unfold managed_tmp. rewrite Hx. apply Hl.
Qed.

Lemma holds_pruned t u p q : apart q p → pruned q t u → holds t p → holds u p.
Proof. intros Hap Hu. apply holds_ext. intros x. apply (pruned_outside q t u); [done|]. by apply apart_app. Qed.

Lemma lookup_pruned t u p q : apart q p → pruned q t u → u !! p = t !! p.
Proof. intros [Hap _] Hu. by apply (pruned_outside q t u). Qed.

Lemma marker_pruned t u q : apart q Mk → pruned q t u → marker_plain t → marker_plain u.
Proof. intros Hap Hu (n & Hn & Hl). exists n. by rewrite (lookup_pruned t u Mk q). Qed.

(** Removing (part of) the candidate changes no phase. *)
Lemma phase_pruned_K t u : pruned K t u → phase t → phase u.
Proof.
  pose proof apart_CK as H1. pose proof apart_RK as H2. pose proof apart_KM as H3.
  intros Hu [Hm Hh|Hm Hr Hh|Hm Hh Hc].
  - apply phase_idle; [by rewrite (lookup_pruned t u Mk K)|]. eapply holds_pruned; [by apply apart_sym|done..].
  - apply phase_marked; [by eapply marker_pruned|rewrite (lookup_pruned t u R K); [done|by apply apart_sym|done]|].
    eapply holds_pruned; [by apply apart_sym|done..].
  - apply phase_moved; [by eapply marker_pruned| |].
    + eapply holds_pruned; [by apply apart_sym|done..].
    + intros n. rewrite (lookup_pruned t u C K); [apply Hc|by apply apart_sym|done].
Qed.

Lemma aside_below x p : (below (managed_tmp p) (p ++ x) ∨ below (managed_file p) (p ++ x)) → aside x.
Proof.
  unfold aside, managed_tmp, managed_file. intros [[k Hk]|[k Hk]]; [left|right]; exists k;
    rewrite <-(assoc_L (++)) in Hk; by apply (inj (app p)) in Hk.
Qed.

Lemma record_outside t u p q : apart p q → record_only p t u → ∀ x, u !! (q ++ x) = t !! (q ++ x).
Proof.
  intros Hap Hu x. apply Hu; intros [k Hk]; apply (apart_app p q x Hap); eexists;
    rewrite Hk; unfold managed_tmp, managed_file; by rewrite <-!(assoc_L (++)).
Qed.

Lemma holds_record t u : record_only C t u → not_link u (managed_tmp C) → holds t C → holds u C.
Proof.
  intros Hu Hl [Ht _]. split; [|done]. intros x Ha. rewrite Hu; [by apply Ht|..]; intros Hb; apply Ha;
    eapply (aside_below x C); auto.
Qed.

(** Moving the rollback root back. *)
Lemma move_R_C t :
  marker_plain t → holds t R →
  let u := move R C t in marker_plain u ∧ u !! R = None ∧ holds u C.
Proof.
  intros (n & Hn & Hl) Hh u. pose proof (apart_sym _ _ apart_CR) as Hap. unfold u. split_and!.
  - exists n. split; [|done]. rewrite lookup_move by done. rewrite !decide_False; [done| |].
    + apply apart_RM. + apply apart_CM.
  - rewrite lookup_move by done. rewrite decide_False by apply Hap. by rewrite decide_True by apply below_refl.
  - destruct Hh as [Ht Hlt]. split.
    + intros x Ha. rewrite lookup_move, decide_True by (done || apply below_app). rewrite drop_app_length. by apply Ht.
    + intros m. unfold managed_tmp. rewrite lookup_move, decide_True by (done || apply below_app).
      rewrite drop_app_length. apply Hlt.
Qed.

Lemma rename_R_C t u : rename_at R C t = Ok u → u = move R C t.
Proof.
  intros E. apply rename_at_Ok in E as [[E _]|[_ ->]]; [|done].
  exfalso. apply (proj1 apart_CR). rewrite E. apply below_refl.
Qed.

Lemma wp_read_managed root (Q : result (list string) → fs → Prop) (P : fs → Prop) t :
  (∀ r, Q r t) → wp reads_ok P (read_managed_state root) Q t.
Proof.
  intros HQ. unfold read_managed_state. apply wp_bind, wp_exists_any. intros [[]|x]; [|by apply wp_ret|done].
  apply wp_catch, wp_bind, wp_rd_ok.
  assert (∀ x, if is_json_or_os x then wp reads_ok P (mret []) Q t else Q (Err x) t) as Hc.
  { intros x. destruct (is_json_or_os x); [by apply wp_ret|done]. }
  destruct (_ ≫= _) as [c|x]; [|apply Hc]. apply wp_bind, wp_lift.
  destruct (json_loads c); [by apply wp_ret|apply Hc].
Qed.

Hypothesis Hold : old_complete.

Lemma holds_dir t p : holds t p → not_link t p ∧ is_Some (t !! p).
Proof.
  intros [Ht _]. destruct Hold as [(n & Hn & Hd) _]. specialize (Ht []). rewrite app_nil_r, Hn in Ht.
  unfold not_link. rewrite Ht by (intros [[k Hk]|[k Hk]]; discriminate Hk).
  split; [|done]. intros m [= <-]. unfold is_dir, is_lnk in *. by destruct (n_kind n).
Qed.

Lemma holds_toml t p : holds t p → not_link t (p // "config.toml") ∧ is_Some (t !! (p // "config.toml")).
Proof.
  intros [Ht _]. destruct Hold as [_ (n & Hn & Hd)]. specialize (Ht ["config.toml"]). rewrite Hn in Ht.
  unfold not_link. rewrite Ht by (intros [[k Hk]|[k Hk]]; discriminate Hk).
  split; [|done]. intros m [= <-]. unfold is_reg, is_lnk in *. by destruct (n_kind n).
Qed.

Lemma marker_not_link t : marker_plain t → not_link t Mk ∧ is_Some (t !! Mk).
Proof. intros (n & Hn & Hl). unfold not_link. rewrite Hn. split; [by intros m [= <-]|done]. Qed.

Definition restored (t : fs) : Prop := t !! Mk = None ∧ holds t C.

(** What remains once the old configuration is back in place. *)
Lemma wp_finish_marker (Q : result () → fs → Prop) t :
  marker_plain t → t !! R = None → holds t C →
  (∀ x u, phase u → Q (Err x) u) → (∀ u, restored u → Q (Ok tt) u) →
  wp reads_ok phase (_ ← unlink_missing_ok Mk; _fsync_directory base) Q t.
Proof.
  intros Hm HR HC HE HQ. assert (restored (delete Mk t)) as Hres.
  { split; [by rewrite lookup_delete_eq|]. eapply holds_pruned; [apply apart_sym, apart_CM| |exact HC].
    apply pruned_delete; [apply below_refl|apply pruned_refl]. }
  assert (phase (delete Mk t)) as Hph by (destruct Hres; by apply phase_idle).
  apply wp_bind, wp_unlink_missing_ok; [by intros; apply HE, phase_marked|done| |].
  - apply wp_fsync_dir; [done|]. intros [[]|x]; [by apply HQ|by apply HE].
  - destruct Hm as (n & Hn & _). by rewrite Hn.
Qed.

Lemma wp_restore_rollback (Q : result bool → fs → Prop) t :
  marker_plain t → holds t R → not_link t C →
  (∀ x u, phase u → Q (Err x) u) → (∀ u, restored u → Q (Ok true) u) →
  wp reads_ok phase (restore_rollback C) Q t.
Proof.
  intros Hm HR HCl HE HQ. assert (phase t) as Hpt by by apply phase_moved.
  unfold restore_rollback, rollback_root_path, promotion_marker_path. rewrite !sibling_C, parent_C. fold R Mk.
  destruct (holds_dir t R HR) as [HRl HRs].
  apply wp_bind, wp_exists_plain; [done| |by intros E; rewrite E in HRs; destruct HRs]. intros _. simpl.
  apply wp_bind, wp_read_managed. intros [fm|x]; [|by apply HE].
  apply wp_bind, wp_read_managed. intros [rm|x]; [|by apply HE].
  apply wp_bind.
  assert (∀ u, pruned C t u → marker_plain u ∧ holds u R ∧ not_link u C) as Hpr.
  { intros u Hu. split_and!.
    - eapply marker_pruned; [apply apart_CM|done..].
    - eapply holds_pruned; [apply apart_CR|done..].
    - intros n Hn. eapply HCl, pruned_Some; done. }
  assert (∀ u, pruned C t u → phase u) as Hph.
  { intros u Hu. destruct (Hpr u Hu) as (?&?&?). by apply phase_moved. }
  apply wp_rmtree_if_exists_plain; [done| |].
  { intros u Hu. split; [by apply Hph|]. intros x. by apply HE, Hph. }
  intros u Hu _. destruct (Hpr u Hu) as (Hmu & HRu & _).
  apply wp_bind, wp_wr; [by intros; apply HE, Hph|].
  destruct (rename_at _ _ u) as [v|x] eqn:E; [|by apply HE, Hph].
  apply rename_R_C in E as ->. destruct (move_R_C u Hmu HRu) as (Hmv & HRv & HCv).
  set (v := move R C u) in *. assert (phase v) as Hpv by by apply phase_marked.
  split; [done|]. apply wp_bind, wp_fsync_dir; [done|]. intros [[]|x]; [|by apply HE].
  apply wp_bind.
  assert (∀ w, marker_plain w → w !! R = None → holds w C →
    wp reads_ok phase (_ ← unlink_missing_ok Mk; _ ← _fsync_directory base; mret true) Q w) as Hfin.
  { intros w H1 H2 H3.
    pose proof (wp_finish_marker (λ r u, match r with Ok _ => Q (Ok true) u | Err x => Q (Err x) u end) w H1 H2 H3 HE HQ) as Hw.
    intros e w0 He Hw0. destruct (Hw e w0 He Hw0) as (r & w1 & Hrun & HQ1 & Hnew).
    unfold mbind, M_bind in *. destruct (unlink_missing_ok Mk e w0) as [[[]|x] w2].
    - rewrite Hrun. destruct r as [[]|x]; [exists (Ok true), w1|exists (Err x), w1]; done.
    - injection Hrun as <- <-. exists (Err x), w2. done. }
  case_bool_decide as Eb; [by apply wp_ret, Hfin|].
  assert (∀ w, record_only C v w → marker_plain w ∧ w !! R = None) as Hrec.
  { intros w Hw. destruct Hmv as (n & Hn & Hl).
    pose proof (record_outside v w C Mk apart_CM Hw []) as E1.
    pose proof (record_outside v w C R apart_CR Hw []) as E2. rewrite !app_nil_r in *.
    split; [exists n; by rewrite E1|by rewrite E2]. }
  assert (∀ w, record_only C v w → not_link w (managed_tmp C) → phase w ∧ holds w C) as Hphw.
  { intros w Hw Hl. destruct (Hrec w Hw). pose proof (holds_record v w Hw Hl HCv). split; [by apply phase_marked|done]. }
  apply wp_write_managed_state; [apply HCv| |].
  - intros w Hw Hl _. destruct (Hphw w Hw Hl). split; [done|]. intros x. by apply HE.
  - intros w Hw Hl _. destruct (Hphw w Hw Hl), (Hrec w Hw). by apply Hfin.
Qed.

Lemma restored_phase t : restored t → phase t.
Proof. intros [? ?]. by apply phase_idle. Qed.

Lemma restored_pruned_K t u : pruned K t u → restored t → restored u.
Proof.
  intros Hu [Hm Hh]. split.
  - by rewrite (lookup_pruned t u Mk K) by (done || apply apart_KM).
  - eapply holds_pruned; [apply apart_sym, apart_CK|done..].
Qed.

(** Dropping the candidate when the old configuration is in place. *)
Lemma wp_drop_candidate (Q : result () → fs → Prop) (G : fs → Prop) t :
  G t → (∀ u v, pruned K u v → G u → G v) → (∀ u, G u → phase u) →
  (∀ x u, G u → Q (Err x) u) → (∀ u, G u → Q (Ok tt) u) →
  wp reads_ok phase (rmtree_if_exists K) Q t.
Proof.
  intros Ht HG HP HE HQ. apply wp_rmtree_if_exists.
  - intros u Hu. assert (G u) by by eapply HG. split; [by apply HP|]. intros x. by apply HE.
  - apply HQ. eapply HG; [|exact Ht]. intros x. rewrite lookup_del_subtree. case_decide; auto.
  - by apply HQ.
Qed.

Definition marked (t : fs) : Prop := marker_plain t ∧ t !! R = None ∧ holds t C.
Lemma marked_pruned_K t u : pruned K t u → marked t → marked u.
Proof.
  intros Hu (Hm & Hr & Hh). split_and!.
  - eapply marker_pruned; [apply apart_KM|done..].
  - rewrite (lookup_pruned t u R K); [done|apply apart_sym, apart_RK|done].
  - eapply holds_pruned; [apply apart_sym, apart_CK|done..].
Qed.

Lemma wp_recover t :
  phase t →
  wp reads_ok phase (recover_config_root C) (λ r u, phase u ∧ (r = Ok tt → restored u)) t.
Proof.
  intros Hp. unfold recover_config_root, rollback_root_path, promotion_marker_path, candidate_root_path.
  rewrite !sibling_C, parent_C. fold R Mk K.
  assert (∀ G (u : fs), G u → (∀ v w, pruned K v w → G v → G w) → (∀ v, G v → restored v) →
    wp reads_ok phase (rmtree_if_exists K) (λ r v, phase v ∧ (r = Ok tt → restored v)) u) as Hdrop.
  { intros G u Hu HG Hres. eapply (wp_drop_candidate _ G); eauto using restored_phase. }
  destruct Hp as [Hm HC|Hm HR HC|Hm HR HCl].
  - assert (not_link t Mk) as HMl by (intros n; by rewrite Hm).
    apply wp_bind, wp_exists_plain; [done|by rewrite Hm; intros []|]. intros _. apply wp_bind, wp_ret. simpl.
    apply wp_bind, wp_exists_plain; [done|by rewrite Hm; intros []|]. intros _. apply wp_bind, wp_ret. simpl.
    destruct (holds_toml t C HC) as [HTl HTs].
    apply wp_bind, wp_exists_plain; [done| |by intros E; rewrite E in HTs; destruct HTs]. intros _.
    apply (Hdrop restored); [done|apply restored_pruned_K|done].
  - destruct (marker_not_link t Hm) as [HMl HMs].
    assert (not_link t R) as HRl by (intros n; by rewrite HR).
    assert (phase t) as Hpt by by apply phase_marked.
    apply wp_bind, wp_exists_plain; [done| |by intros E; rewrite E in HMs; destruct HMs]. intros _.
    apply wp_bind, wp_exists_plain; [done|by rewrite HR; intros []|]. intros _.
    apply wp_bind, wp_exists_plain; [done| |by intros E; rewrite E in HMs; destruct HMs]. intros _.
    apply wp_bind, wp_exists_plain; [done|by rewrite HR; intros []|]. intros _. simpl.
    destruct (holds_dir t C HC) as [HCl HCs], (holds_toml t C HC) as [HTl HTs].
    apply wp_bind, wp_exists_plain; [done| |by intros E; rewrite E in HCs; destruct HCs]. intros _.
    apply wp_bind, wp_exists_plain; [done| |by intros E; rewrite E in HTs; destruct HTs]. intros _.
    apply wp_bind. apply (wp_drop_candidate _ marked); [done|apply marked_pruned_K| | |].
    + intros u (?&?&?). by apply phase_marked.
    + intros x u (?&?&?). split; [by apply phase_marked|done].
    + intros u (Hmu & HRu & HCu). apply wp_finish_marker; [done|done|done|done|].
      intros v Hv. split; [by apply restored_phase|done].
  - destruct (marker_not_link t Hm) as [HMl HMs], (holds_dir t R HR) as [HRl HRs].
    apply wp_bind, wp_exists_plain; [done| |by intros E; rewrite E in HMs; destruct HMs]. intros _.
    apply wp_bind, wp_exists_plain; [done| |by intros E; rewrite E in HRs; destruct HRs]. intros _.
    apply wp_bind, wp_restore_rollback; [done|done|done|done|]. intros u Hu.
    apply wp_bind. eapply (wp_drop_candidate _ restored); [done|apply restored_pruned_K|apply restored_phase| |].
    + intros x v Hv. split; [by apply restored_phase|done].
    + intros v Hv. apply wp_fsync_dir; [by apply restored_phase|]. intros r. split; [by apply restored_phase|done].
Qed.

(** ** Promotion *)

(** Before a promotion: nothing pending, the old configuration in place, and a
    candidate directory. *)
Record ready_to_promote (s : fs) : Prop := Ready {
  rp_marker : s !! Mk = None;
  rp_old : holds s C;
  rp_rollback : not_link s R;
  rp_candidate : ∃ n, s !! K = Some n ∧ is_dir n = true }.

(** The new configuration is in place and the old one kept for rollback. *)
Definition promoted (s t : fs) : Prop :=
  marker_plain t ∧ holds t R ∧ (∀ x, t !! (C ++ x) = s !! (K ++ x)).

Lemma move_holds p q t : apart p q → holds t p → holds (move p q t) q.
Proof.
  intros Hap [Ht Hl]. split.
  - intros x Ha. rewrite lookup_move, decide_True by (done || apply below_app). rewrite drop_app_length. by apply Ht.
  - intros m. unfold managed_tmp. rewrite lookup_move, decide_True by (done || apply below_app).
    rewrite drop_app_length. apply Hl.
Qed.

Lemma move_other p q t x r : apart p q → apart p x → apart q x → move p q t !! (x ++ r) = t !! (x ++ r).
Proof. intros H1 H2 H3. rewrite lookup_move by done. by rewrite !decide_False by by apply apart_app. Qed.

Lemma move_marker p q t : apart p q → apart p Mk → apart q Mk → marker_plain t → marker_plain (move p q t).
Proof.
  intros H1 H2 H3 (n & Hn & Hl). exists n. split; [|done].
  pose proof (move_other p q t Mk [] H1 H2 H3) as E. rewrite !app_nil_r in E. by rewrite E.
Qed.

Lemma wp_rename_move (P : fs → Prop) p q (Q : result () → fs → Prop) t :
  apart p q → (∀ x, Q (Err x) t) → P (move p q t) → Q (Ok tt) (move p q t) →
  wp reads_ok P (rename p q) Q t.
Proof.
  intros Hap HE HP HQ. apply wp_wr; [by intros|].
  destruct (rename_at p q t) as [u|x] eqn:E; [|done].
  apply rename_at_Ok in E as [[-> _]|[_ ->]]; [|done]. destruct Hap as [Hap _]. by destruct Hap.
Qed.

Lemma wp_promote s :
  ready_to_promote s →
  wp reads_ok phase (atomic_promote C K) (λ r t, phase t ∧ (r = Ok tt → promoted s t)) s.
Proof.
  intros [Hm HC HRl Hcand]. unfold atomic_promote, rollback_root_path, promotion_marker_path.
  rewrite !sibling_C, parent_C. fold R Mk.
  assert (∀ t, pruned R s t → t !! Mk = None ∧ holds t C ∧ (∀ x, t !! (K ++ x) = s !! (K ++ x))) as Hpr.
  { intros t Ht. split_and!.
    - rewrite (lookup_pruned s t Mk R); [done|apply apart_RM|done].
    - eapply holds_pruned; [apply apart_sym, apart_CR|done..].
    - intros x. apply (pruned_outside R s t); [done|]. apply apart_app, apart_RK. }
  apply wp_bind, wp_rmtree_if_exists_plain; [done| |].
  { intros t Ht. destruct (Hpr t Ht) as (?&?&_). assert (phase t) by by apply phase_idle. by split. }
  intros t Ht HRn. destruct (Hpr t Ht) as (Hmt & HCt & HKt). assert (phase t) as Hpt by by apply phase_idle.
  apply wp_bind, wp_fsync_tree; [done|]. intros [[]|x]; [|done].
  assert (∀ n, is_reg n = true → let u := <[Mk:=n]> t in marker_plain u ∧ u !! R = None ∧ holds u C ∧
    ∀ x, u !! (K ++ x) = s !! (K ++ x)) as Hmark.
  { intros n Hn u. unfold u.
    assert (∀ p x, apart Mk p → <[Mk:=n]> t !! (p ++ x) = t !! (p ++ x)) as Hu.
    { intros p x Hap. rewrite lookup_insert_ne; [done|]. intros E. apply (apart_app Mk p x Hap). rewrite <-E. apply below_refl. }
    split_and!.
    - exists n. rewrite lookup_insert_eq. split; [done|by apply reg_not_link].
    - pose proof (Hu R [] (apart_sym _ _ apart_RM)) as E. rewrite !app_nil_r in E. by rewrite E.
    - eapply holds_ext; [|exact HCt]. intros x. apply Hu, apart_sym, apart_CM.
    - intros x. rewrite Hu; [apply HKt|]. apply apart_sym, apart_KM. }
  apply wp_bind, wp_write_text; [by intros n; rewrite Hmt|done| |].
  { intros n Hn. destruct (Hmark n Hn) as (?&?&?&_). assert (phase (<[Mk:=n]> t)) by by apply phase_marked. by split. }
  intros n Hn. assert (is_reg n = true) as Hr by (unfold is_reg; by rewrite Hn).
  destruct (Hmark n Hr) as (Hmu & HRu & HCu & HKu). set (u := <[Mk:=n]> t) in *.
  assert (phase u) as Hpu by by apply phase_marked.
  apply wp_bind, wp_fsync_dir; [done|]. intros [[]|x]; [|done].
  assert (let v := move C R u in marker_plain v ∧ holds v R ∧ v !! C = None ∧ ∀ x, v !! (K ++ x) = s !! (K ++ x))
    as (Hmv & HRv & HCv & HKv).
  { split_and!.
    - apply move_marker; [apply apart_CR|apply apart_CM|apply apart_RM|done].
    - apply move_holds; [apply apart_CR|done].
    - rewrite lookup_move by apply apart_CR. rewrite decide_False by apply apart_CR.
      by rewrite decide_True by apply below_refl.
    - intros x. rewrite move_other; [apply HKu|apply apart_CR|apply apart_CK|apply apart_RK]. }
  set (v := move C R u) in *.
  assert (phase v) as Hpv by (apply phase_moved; [done|done|by intros k; rewrite HCv]).
  apply wp_bind, wp_rename_move; [apply apart_CR|done|done|].
  apply wp_bind, wp_fsync_dir; [done|]. intros [[]|x]; [|done].
  pose proof (apart_sym _ _ apart_CK) as Hap.
  assert (promoted s (move K C v)) as Hprom.
  { split_and!.
    - apply move_marker; [done|apply apart_KM|apply apart_CM|done].
    - eapply holds_ext; [|exact HRv]. intros x. apply move_other; [done|apply apart_sym, apart_RK|apply apart_CR].
    - intros x. rewrite lookup_move, decide_True by (done || apply below_app). rewrite drop_app_length. apply HKv. }
  assert (phase (move K C v)) as Hpw.
  { destruct Hprom as (H1 & H2 & H3). apply phase_moved; [done|done|].
    intros k Hk. pose proof (H3 []) as E. rewrite !app_nil_r in E. rewrite E in Hk.
    destruct Hcand as (c & Hc & Hd). rewrite Hc in Hk. injection Hk as <-.
    unfold is_dir, is_lnk in *. by destruct (n_kind c). }
  apply wp_bind, wp_rename_move; [done|done|done|].
  apply wp_fsync_dir; [done|]. intros r. by split.
Qed.

(** A tree a run of [m] from [s] passes through or ends in. *)
Definition visited {A} (m : M A) (s t : fs) : Prop :=
  ∃ e, reads_ok e ∧ (t ∈ w_hist (run_op m e s).2 ∨ t = w_fs (run_op m e s).2).

(** A promotion and then any number of recoveries, each killed at any point. *)
Inductive crashed (s : fs) : fs → Prop :=
  | crashed_promote t : visited (atomic_promote C K) s t → crashed s t
  | crashed_recover t u : crashed s t → visited (recover_config_root C) t u → crashed s u.

Lemma wp_visited {A} (m : M A) (G : fs → Prop) s t :
  wp reads_ok G m (λ _ u, G u) s → visited m s t → G t.
Proof.
  intros Hm (e & He & Ht). pose proof (wp_run _ _ _ _ _ _ Hm He) as Hrun. unfold run_op in Ht.
  destruct (m e (World s [] 0)) as [r w]. simpl in Ht. destruct Hrun as [H1 H2].
  destruct Ht as [Ht| ->]; [|done]. rewrite Forall_forall in H2. by apply H2.
Qed.

Lemma crashed_phase s t : ready_to_promote s → crashed s t → phase t.
Proof.
  intros Hs Ht. induction Ht as [t Ht|t u Ht IH Hu].
  - eapply wp_visited; [|exact Ht]. eapply wp_mono; [by apply wp_promote|]. by intros r u [? _].
  - eapply wp_visited; [|exact Hu]. eapply wp_mono; [by apply wp_recover|]. by intros r v [? _].
Qed.
End promote.

(** C1 — Promotion is crash-safe.  Start from a configuration in place and a
    candidate, kill the promotion after any system call, and kill any number of
    recoveries after that; as soon as one recovery completes, the configuration
    root holds exactly the old configuration (up to the managed-user record, which
    recovery may extend) and no promotion is pending.  Changing calls may fail at
    any point. *)
Theorem promote_crash_recovery (base : path) (name : string) (old : path → option node) (s t : fs)
    (e : env) (w : world) :
  old_complete old → ready_to_promote base name old s → crashed base name s t → reads_ok e →
  run_op (recover_config_root (base // name)) e t = (Ok tt, w) →
  w_fs w !! Mk base name = None ∧ holds old (w_fs w) (base // name).
Proof.
  intros Hold Hs Ht He Hrun. pose proof (crashed_phase base name old Hold s t Hs Ht) as Hp.
  pose proof (wp_run _ _ _ _ _ _ (wp_recover base name old Hold t Hp) He) as H.
  unfold run_op in Hrun. unfold C in H. rewrite Hrun in H. destruct H as [[_ H] _]. by apply H.
Qed.

(** A promotion that returns has put the candidate in place: the
    configuration root is the candidate's tree, entry by entry, the rollback root
    holds the old configuration, and the promotion is still marked as pending. *)
Theorem atomic_promote_result (base : path) (name : string) (old : path → option node) (s : fs)
    (e : env) (w : world) :
  old_complete old → ready_to_promote base name old s → reads_ok e →
  run_op (atomic_promote (base // name) (K base name)) e s = (Ok tt, w) →
  marker_plain base name (w_fs w) ∧ holds old (w_fs w) (R base name) ∧
  ∀ x, w_fs w !! ((base // name) ++ x) = s !! (K base name ++ x).
Proof.
  intros Hold Hs He Hrun.
  pose proof (wp_run _ _ _ _ _ _ (wp_promote base name old s Hs) He) as H.
  unfold run_op in Hrun. unfold C in H at 1. rewrite Hrun in H. destruct H as [[_ H] _]. by apply H.
Qed.

(** ** A concrete promotion *)

Definition sample_data : fs :=
  list_to_map
    [ (["data"], plain_dir); (["data"; "config"], plain_dir);
      (["data"; "config"; "config.toml"], plain_file (CText "old"));
      (["data"; "config-candidate"], plain_dir);
      (["data"; "config-candidate"; "config.toml"], plain_file (CText "new")) ].
Definition sample_old (x : path) : option node := sample_data !! (["data"; "config"] ++ x).

Lemma sample_old_complete : old_complete sample_old.
Proof. split; eexists; (split; [vm_compute; reflexivity|reflexivity]). Qed.

Lemma sample_ready : ready_to_promote ["data"] "config" sample_old sample_data.
Proof.
  split.
  - vm_compute. reflexivity.
  - split; [done|]. intros n Hn. vm_compute in Hn. discriminate Hn.
  - intros n Hn. vm_compute in Hn. discriminate Hn.
  - eexists. split; [vm_compute; reflexivity|reflexivity].
Qed.

(** The device loses power between the two renames of the promotion. *)
Definition promote_run : result () * world :=
  run_op (atomic_promote ["data"; "config"] (K ["data"] "config")) sample_env sample_data.
Definition half_promoted : fs := default ∅ (w_hist promote_run.2 !! 2%nat).
Definition recover_run : result () * world :=
  run_op (recover_config_root ["data"; "config"]) sample_env half_promoted.

Lemma atomic_promote_result_witness :
  w_fs promote_run.2 !! ["data"; "config"; "config.toml"] = Some (plain_file (CText "new")).
Proof.
  destruct (atomic_promote_result ["data"] "config" sample_old sample_data sample_env promote_run.2
    sample_old_complete sample_ready sample_reads_ok) as (_ & _ & H).
  - vm_compute. reflexivity.
  - etrans; [apply (H ["config.toml"])|vm_compute; reflexivity].
Defined.

Lemma promote_crash_recovery_witness :
  half_promoted !! ["data"; "config"] = None ∧
  w_fs recover_run.2 !! ["data"; "config"; "config.toml"] = Some (plain_file (CText "old")).
Proof.
  split; [vm_compute; reflexivity|].
  destruct (promote_crash_recovery ["data"] "config" sample_old sample_data half_promoted sample_env recover_run.2
    sample_old_complete sample_ready) as (_ & H).
  - apply crashed_promote. exists sample_env. split; [apply sample_reads_ok|left].
    apply (list_elem_of_lookup_2 _ 2%nat). vm_compute. reflexivity.
  - apply sample_reads_ok.
  - vm_compute. reflexivity.
  - destruct H as [H _]. etrans; [apply (H ["config.toml"])|vm_compute; reflexivity].
    intros [[k Hk]|[k Hk]]; discriminate Hk.
Defined.
