(* ===== verification/ManagedFacts.v ===== *)
(** * The managed-user record survives a discard; not so a rollback *)

From S2P Require Import Prelude PyStr PyVal ConfigCheck FS FSLogic Staging StagingFacts Activation ActivationFacts.

Local Open Scope Z_scope.

Section calls.
Context (P : fs → Prop).

(** The record is read exactly when it is a plain file. *)
Lemma wp_read_record root (Q : result (list string) → fs → Prop) t :
  not_link t (managed_file root) →
  (∀ x, Q (Err x) t) → (∀ l, (∀ u, u ∈ l ↔ u ∈ record_names t root) → Q (Ok l) t) →
  wp reads_ok P (read_managed_state root) Q t.
Proof.
  intros Hl HE HQ. unfold read_managed_state. unfold record_names in HQ.
  apply wp_bind, wp_exists_plain; [done| |].
  - intros [n Hn]. rewrite Hn in HQ. apply wp_catch, wp_bind, wp_rd_ok. rewrite stat_plain by done.
    unfold lstat_at. rewrite Hn. simpl. specialize (Hl n Hn). unfold is_lnk in Hl.
    destruct (n_kind n) as [c| | |]; [|by apply wp_ret, HQ|done|by apply wp_ret, HQ].
    apply wp_bind, wp_lift. destruct c as [v z|txt|z]; simpl.
    + apply wp_ret, HQ. intros u. apply elem_of_remove_dups.
    + by apply wp_ret, HQ.
    + apply HE.
  - intros E. rewrite E in HQ. by apply wp_ret, HQ.
Qed.

Lemma wp_mkdir_exist_ok mode p (Q : result () → fs → Prop) t :
  (∀ x, Q (Err x) t) → Q (Ok tt) t →
  (∀ n, t !! p = None → P (<[p:=n]> t) ∧ Q (Ok tt) (<[p:=n]> t)) →
  wp reads_ok P (mkdir_exist_ok mode p) Q t.
Proof.
  intros HE HQ HN. unfold mkdir_exist_ok, mkdir.
  assert (∀ x, if is_OSError x then wp reads_ok P (if is_not_found x then raise x
    else d ← is_dir_ p; if d : bool then mret tt else raise x) Q t else Q (Err x) t) as Hc.
  { intros x. destruct (is_OSError x); [|done]. destruct (is_not_found x); [by apply wp_raise|].
    apply wp_bind, wp_test_any. intros [[]|y]; [by apply wp_ret|by apply wp_raise|done]. }
  apply wp_catch, wp_bind, wp_ask. intros e k _. apply wp_wr; [by intros; apply Hc|].
  unfold mkdir_at. destruct (need_dir t (parent p) "mkdir"); [|apply Hc]. simpl.
  destruct (t !! p) eqn:E; [apply Hc|by apply HN].
Qed.
End calls.

Section discard.
Context (base : path) (name : string).
Local Abbreviation C := (C base name).
Local Abbreviation R := (R base name).
Local Abbreviation K := (K base name).
Local Abbreviation Mk := (Mk base name).

Definition recorded (s : fs) (u : string) : Prop := u ∈ record_names s C ∨ u ∈ record_names s K.

(** Every user on record is still on record. *)
Definition keeps (s t : fs) : Prop := ∀ u, recorded s u → recorded t u.

Record discardable (s : fs) : Prop := Discardable {
  ds_root : is_dir_at s C = true ∨ s !! C = None;
  ds_record : not_link s (managed_file C);
  ds_tmp : not_link s (managed_tmp C);
  ds_other : not_link s (managed_file K) }.

(** Nothing in the root but the record (and its temporary file). *)
Definition pruned_root (t : fs) : Prop := ∀ x, x ≠ "managed-users.json" → x ≠ ".managed-users.json.tmp" → t !! (C // x) = None.

Lemma record_names_same s t root : t !! managed_file root = s !! managed_file root → record_names t root = record_names s root.
Proof. unfold record_names. by intros ->. Qed.

Lemma keeps_same s t : t !! managed_file C = s !! managed_file C → t !! managed_file K = s !! managed_file K → keeps s t.
Proof. intros H1 H2 u. unfold recorded. by rewrite (record_names_same s t C), (record_names_same s t K). Qed.

(** Before the record is rewritten. *)
Record pruning (s t : fs) : Prop := Pruning {
  pg_record : t !! managed_file C = s !! managed_file C;
  pg_other : t !! managed_file K = s !! managed_file K;
  pg_tmp : not_link t (managed_tmp C) }.

Lemma below_file p x q : below (p // x) (q // "managed-users.json") → apart p q → False.
Proof.
  intros [k Hk] [H1 H2]. destruct (below_both p q (q // "managed-users.json")) as [|]; auto.
  - exists ([x] ++ k). by rewrite Hk, <-(assoc_L (++)).
  - apply below_app.
Qed.

Lemma pruning_pruned s t u x : x ≠ "managed-users.json" → pruned (C // x) t u → pruning s t → pruning s u.
Proof.
  intros Hx Hu [H1 H2 H3]. split.
  - rewrite <-H1. apply (pruned_outside _ _ _ _ Hu). intros Hb. apply Hx.
    unfold managed_file in Hb. rewrite <-(app_nil_r (C // "managed-users.json")) in Hb. by apply below_snoc_eq in Hb.
  - rewrite <-H2. apply (pruned_outside _ _ _ _ Hu). intros Hb. eapply below_file; [exact Hb|apply apart_CK].
  - intros n Hn. eapply H3, pruned_Some; done.
Qed.

Lemma wp_unlink_pruned (P : fs → Prop) p (Q : result () → fs → Prop) t :
  (∀ x, Q (Err x) t) → (pruned p t (delete p t) → P (delete p t) ∧ Q (Ok tt) (delete p t)) →
  wp reads_ok P (unlink p) Q t.
Proof.
  intros HE HQ. apply wp_wr; [by intros|]. unfold unlink_at.
  destruct (t !! p) as [n|]; [|done]. destruct (is_dir n); [done|].
  apply HQ, pruned_delete; [apply below_refl|apply pruned_refl].
Qed.

Lemma wp_prune (Q : result () → fs → Prop) s :
  is_dir_at s C = true → pruning s s →
  (∀ t, pruning s t → keeps s t) →
  (∀ x t, pruning s t → Q (Err x) t) →
  (∀ t, pruning s t → (∀ x, x ≠ "managed-users.json" → t !! (C // x) = None) → Q (Ok tt) t) →
  wp reads_ok (keeps s) (_prune_to_managed_state C) Q s.
Proof.
  intros Hd Hs HK HE HQ. unfold _prune_to_managed_state.
  apply wp_bind, wp_listdir; [done|]. intros entries Hent. apply wp_bind.
  set (l := filter _ entries ++ filter _ entries).
  assert (∀ x, x ∈ l ↔ is_Some (s !! (C // x))) as Hl.
  { intros x. unfold l. rewrite elem_of_app, !list_elem_of_filter, Hent. destruct (decide (x ∈ [FIRST_CONFIG_MARKER; "config.toml"])); tauto. }
  clearbody l.
  apply (wp_forM _ _ _ (λ rest _ t, pruning s t ∧
    ∀ x, x ≠ "managed-users.json" → t !! (C // x) = None ∨ x ∈ rest)).
  - split; [done|]. intros x _. destruct (s !! (C // x)) eqn:E; [right|by left]. apply Hl. by rewrite E.
  - intros x rest [] t [Ht Hx].
    case_bool_decide as Ex.
    { subst x. apply wp_ret. split; [done|]. intros y Hy. destruct (Hx y Hy) as [?|[->|?]%elem_of_cons]; auto. done. }
    assert (∀ u, pruned (C // x) t u → pruning s u) as Hpr by (intros u Hu; by eapply pruning_pruned).
    assert (∀ u, pruned (C // x) t u → u !! (C // x) = None →
      pruning s u ∧ ∀ y, y ≠ "managed-users.json" → u !! (C // y) = None ∨ y ∈ rest) as Hdone.
    { intros u Hu Hn. split; [by apply Hpr|]. intros y Hy.
      destruct (decide (y = x)) as [->|Hne]; [by left|].
      destruct (Hx y Hy) as [E|[->|?]%elem_of_cons]; [left|done|by right].
      destruct (Hu (C // y)) as [E'|[_ E']]; [by rewrite E'|done]. }
    apply wp_bind, wp_test_any. intros [d|y]; [|by apply HE].
    apply wp_bind.
    assert (∀ b : bool, wp reads_ok (keeps s) (if b then rmtree (C // x) else unlink (C // x))
      (λ r t', match r with
               | Ok _ => pruning s t' ∧ ∀ y, y ≠ "managed-users.json" → t' !! (C // y) = None ∨ y ∈ rest
               | Err y => Q (Err y) t' end) t) as Hrm.
    { intros [].
      - apply wp_rmtree_ok; [intros u Hu; by apply HK, Hpr|intros y u Hu; by apply HE, Hpr|].
        assert (pruned (C // x) t (del_subtree (C // x) t)) as Hu.
        { intros y. rewrite lookup_del_subtree. case_decide; auto. }
        apply Hdone; [done|]. by rewrite lookup_del_subtree, decide_True by apply below_refl.
      - apply wp_unlink_pruned; [intros y; by apply HE|]. intros Hu. split; [by apply HK, Hpr|].
        apply Hdone; [done|]. by rewrite lookup_delete_eq. }
    destruct d; [|apply wp_ret, (Hrm false)].
    apply wp_catch, wp_bind, wp_lstat_ok. unfold lstat_at.
    destruct (t !! (C // x)) as [n|]; simpl; [apply wp_ret, (Hrm (negb (is_lnk n)))|].
    rewrite missing_is_missing. apply wp_ret, (Hrm true).
  - intros [] t [Ht Hx]. apply wp_fsync_dir; [by apply HK|]. intros [[]|y]; [|by apply HE].
    apply HQ; [done|]. intros x Hne. destruct (Hx x Hne) as [?|?%not_elem_of_nil]; done.
Qed.
(** After the record is rewritten with every managed user. *)
Record rewritten (s : fs) (t : fs) : Prop := Rewritten {
  rw_record u : recorded s u → u ∈ record_names t C;
  rw_pruned : is_dir_at s C = true → pruned_root t }.

Lemma rewritten_keeps s t : rewritten s t → keeps s t.
Proof. intros [H _] u Hu. left. by apply H. Qed.

Lemma rewritten_pruned s t u p : apart p C → pruned p t u → rewritten s t → rewritten s u.
Proof.
  intros Hap Hu [H1 H2]. assert (∀ x, u !! (C ++ x) = t !! (C ++ x)) as HC.
  { intros x. apply (pruned_outside p t u); [done|]. by apply apart_app. }
  split.
  - intros v Hv. rewrite (record_names_same t u); [by apply H1|apply HC].
  - intros Hd x Hx Hx2. rewrite HC. by apply H2.
Qed.

Lemma apart_RC : apart R C.
Proof. apply apart_sym, apart_CR. Qed.
Lemma apart_KC : apart K C.
Proof. apply apart_sym, apart_CK. Qed.
Lemma apart_MC : apart Mk C.
Proof. apply apart_sym, apart_CM. Qed.

(** The end of a discard: candidate, rollback root and marker go. *)
Lemma wp_discard_tail (Q : result () → fs → Prop) s t :
  rewritten s t →
  (∀ x u, rewritten s u → Q (Err x) u) →
  (∀ u, rewritten s u → Q (Ok tt) u) →
  wp reads_ok (keeps s)
    (_ ← rmtree_if_exists K; _ ← rmtree_if_exists R; _ ← unlink_missing_ok Mk; _fsync_directory base) Q t.
Proof.
  intros Ht HE HQ.
  assert (∀ p (Q' : result () → fs → Prop) u, apart p C → rewritten s u →
    (∀ x v, rewritten s v → Q' (Err x) v) → (∀ v, rewritten s v → Q' (Ok tt) v) →
    wp reads_ok (keeps s) (rmtree_if_exists p) Q' u) as Hrm.
  { intros p Q' u Hap Hu HE' HQ'. apply wp_rmtree_if_exists; [|apply HQ'|by apply HQ'].
    - intros v Hv. assert (rewritten s v) as Hrv by by eapply rewritten_pruned.
      split; [by apply rewritten_keeps|]. intros x. by apply HE'.
    - eapply rewritten_pruned; [done| |done]. intros x. rewrite lookup_del_subtree. case_decide; auto. }
  apply wp_bind, Hrm; [apply apart_KC|done|done|]. intros u1 Hu1.
  apply wp_bind, Hrm; [apply apart_RC|done|done|]. intros u2 Hu2.
  assert (rewritten s (delete Mk u2)) as Hdel.
  { eapply rewritten_pruned; [apply apart_MC|apply pruned_delete, pruned_refl; apply below_refl|done]. }
  assert (∀ v, rewritten s v → wp reads_ok (keeps s) (_fsync_directory base) Q v) as Hend.
  { intros v Hv. apply wp_fsync_dir; [by apply rewritten_keeps|]. intros [[]|x]; [by apply HQ|by apply HE]. }
  apply wp_bind, wp_unlink_missing_ok.
  - intros x. by apply HE.
  - by apply rewritten_keeps.
  - by apply Hend.
  - intros _. by apply Hend.
Qed.

Lemma pruning_refl s : discardable s → pruning s s.
Proof. intros [_ _ H _]. by split. Qed.

Lemma pruning_keeps s t : pruning s t → keeps s t.
Proof. intros [H1 H2 _]. by apply keeps_same. Qed.

Lemma snoc_ne (p : path) x : p // x ≠ p.
Proof. intros E. apply (snoc_not_below p x). rewrite E. apply below_refl. Qed.

(** Creating the root, and rewriting the record in it. *)
Lemma wp_rewrite_record (Q : result () → fs → Prop) s t names :
  pruning s t → (∀ u, recorded s u → u ∈ names) →
  (is_dir_at s C = true → ∀ x, x ≠ "managed-users.json" → t !! (C // x) = None) →
  (∀ x u, keeps s u → Q (Err x) u) →
  (∀ u, rewritten s u → Q (Ok tt) u) →
  wp reads_ok (keeps s) (_ ← mkdir_exist_ok 511 C; _ ← write_managed_state C names; _fsync_directory base) Q t.
Proof.
  intros Hp Hn Hgone HE HQ.
  assert (∀ v, pruning s v → (is_dir_at s C = true → ∀ x, x ≠ "managed-users.json" → v !! (C // x) = None) →
    wp reads_ok (keeps s) (_ ← write_managed_state C names; _fsync_directory base) Q v) as Hwrite.
  { intros v Hv Hgv. apply wp_bind, wp_write_managed_state; [apply Hv| |].
    - intros w Hw Hl Hrec. assert (keeps s w) as Hk; [|by split; [|intros x; apply HE]].
      assert (w !! managed_file K = s !! managed_file K) as HKw.
      { rewrite <-(pg_other s v Hv). apply (record_outside v w C K (apart_CK base name) Hw ["managed-users.json"]). }
      destruct Hrec as [Hrec|Hh].
      + apply keeps_same; [|done]. rewrite Hrec. apply Hv.
      + intros u [Hu|Hu]; left; (eapply holds_names_spec; [exact Hh|]); apply Hn; [by left|by right].
    - intros w Hw Hl Hh. assert (rewritten s w) as Hrw.
      { split.
        - intros u Hu. eapply holds_names_spec; [exact Hh|]. by apply Hn.
        - intros Hd x Hx1 Hx2. rewrite Hw; [by apply Hgv|..].
          + intros Hb. apply Hx2. symmetry. unfold managed_tmp in Hb.
            rewrite <-(app_nil_r (C // x)) in Hb. by apply below_snoc_eq in Hb.
          + intros Hb. apply Hx1. symmetry. unfold managed_file in Hb.
            rewrite <-(app_nil_r (C // x)) in Hb. by apply below_snoc_eq in Hb. }
      apply wp_fsync_dir; [by apply rewritten_keeps|]. intros [[]|x]; [by apply HQ|by apply HE, rewritten_keeps]. }
  apply wp_bind, wp_mkdir_exist_ok; [intros x; by apply HE, pruning_keeps|by apply Hwrite|].
  intros n HN. assert (∀ x, <[C:=n]> t !! (C // x) = t !! (C // x)) as Hx.
  { intros x. rewrite lookup_insert_ne; [done|]. intros E. symmetry in E. by apply snoc_ne in E. }
  assert (pruning s (<[C:=n]> t)) as Hp'.
  { destruct Hp as [H1 H2 H3]. split.
    - rewrite <-H1. apply Hx.
    - rewrite <-H2. apply lookup_insert_ne. intros E. destruct (apart_CK base name) as [_ HA].
      destruct (apart_CK base name) as [HB _]. apply (apart_app C K ["managed-users.json"]); [apply apart_CK|].
      fold (managed_file K). rewrite <-E. apply below_refl.
    - intros k. unfold managed_tmp. rewrite Hx. apply H3. }
  split; [by apply pruning_keeps|]. apply Hwrite; [done|]. intros Hd x Hne. rewrite Hx. by apply Hgone.
Qed.

End discard.

(** ** A rollback loses the record when it is interrupted *)

Definition failed_reapply : fs :=
  list_to_map
    [ (["data"], plain_dir); (["data"; "config"], plain_dir);
      (["data"; "config"; "config.toml"], plain_file (CText "new"));
      (["data"; "config"; "managed-users.json"], plain_file (CJson (VList [VStr "carol"]) 13));
      (["data"; "config-rollback"], plain_dir);
      (["data"; "config-rollback"; "config.toml"], plain_file (CText "old"));
      (["data"; "config.atomixos-promotion-pending"], plain_file (CText "pending")) ].

(** The tree after the failed root was removed and the rollback root moved back. *)
Definition interrupted_restore : fs :=
  default ∅ (rev (w_hist (run_op (restore_rollback ["data"; "config"]) sample_env failed_reapply).2) !! 3%nat).

Lemma interrupted_visited : visited (restore_rollback ["data"; "config"]) failed_reapply interrupted_restore.
Proof.
  exists sample_env. split; [apply sample_reads_ok|left].
  assert (∀ (l : list fs) i t, rev l !! i = Some t → t ∈ l) as Hrev.
  { intros l i t H%list_elem_of_lookup_2. by apply list_elem_of_In, in_rev, list_elem_of_In. }
  apply (Hrev _ 3%nat). vm_compute. reflexivity.
Qed.

(** An interrupted rollback does lose managed users: the failed root holds
    "carol" on record; uninterrupted, the rollback keeps her; but it removes the
    failed root before the merged record is on disk, so after a crash in between
    the recovery completes without her. *)
Theorem restore_rollback_loses_record :
  "carol" ∈ record_names failed_reapply ["data"; "config"] ∧
  "carol" ∈ record_names (w_fs (run_op (restore_rollback ["data"; "config"]) sample_env failed_reapply).2) ["data"; "config"] ∧
  ∃ t, visited (restore_rollback ["data"; "config"]) failed_reapply t ∧
    let '(r, w) := run_op (recover_config_root ["data"; "config"]) sample_env t in
    r = Ok tt ∧ is_dir_at (w_fs w) ["data"; "config"] = true ∧
    record_names (w_fs w) ["data"; "config"] = [].
Proof.
  split_and!.
  - vm_compute. by left.
  - vm_compute. by left.
  - exists interrupted_restore. split; [apply interrupted_visited|]. vm_compute. done.
Qed.

