(* ===== verification/ApplyFacts.v ===== *)
(** * Applies as durable transactions: theorems

    Receipts survive the round trip through disk, commits follow promotions, a
    committed apply is never undone, and an uncommitted one always is. *)

From Stdlib Require Import Ascii.
From S2P Require Import Prelude PyStr PyVal ConfigCheck FS FSLogic Staging StagedJob StagingFacts StagedJobFacts Activation ActivationFacts ManagedFacts ApplyTransaction.

Local Open Scope Z_scope.

(** ** Receipts *)

(** What reading the receipt of a tree gives. *)
Definition read_receipt_at (root : path) (s : fs) : result (option StagedApplyReceipt) :=
  let p := receipt_path root in
  match s !! p with
  | None => if is_not_found (missing s p) then Ok None else Err (missing s p)
  | Some n =>
      _ ← raise_if (negb (is_reg n)) (provision_error ("apply receipt must be a regular file: " +:+ show_path p));
      _ ← raise_if (others_access n) (provision_error ("apply receipt must be owner-only: " +:+ show_path p));
      d ← read_json_at p s;
      r ← decode_receipt p d;
      Ok (Some r)
  end.

Lemma wp_read_receipt (P : fs → Prop) root (Q : result (option StagedApplyReceipt) → fs → Prop) s :
  Q (read_receipt_at root s) s → wp reads_ok P (read_apply_receipt root) Q s.
Proof.
  unfold read_receipt_at, read_apply_receipt. intros HQ.
  apply wp_bind, wp_catch, wp_bind, wp_lstat_ok. unfold lstat_at.
  destruct (s !! receipt_path root) as [n|]; simpl.
  - apply wp_ret, wp_bind, wp_lift.
    destruct (raise_if (negb (is_reg n)) _) as [[]|x]; [|exact HQ]. simpl in HQ.
    apply wp_bind, wp_lift. destruct (raise_if (others_access n) _) as [[]|x]; [|exact HQ]. simpl in HQ.
    apply wp_bind, wp_read_json. destruct (read_json_at _ s) as [d|x]; [|exact HQ]. simpl in HQ.
    apply wp_bind, wp_lift. destruct (decode_receipt _ d) as [r|x]; [|exact HQ]. by apply wp_ret.
  - destruct (is_not_found (missing s (receipt_path root))); [|exact HQ]. by apply wp_ret, wp_ret.
Qed.

Lemma decode_receipt_payload (manifest result_ : dict value) (t : StagedApplyTransaction)
    (phase : ApplyReceiptPhase) (p : path) :
  from_manifest manifest result_ = Ok t →
  decode_receipt p (receipt_payload t phase) =
    Ok (Receipt (t_job_id t) (t_source_sha256 t) result_ phase) ∧ t_result t = result_.
Proof.
  unfold from_manifest. intros H. inv_ok. bool_prop.
  unfold validate_job_id_value in Ha. destruct (vget_or _ _ manifest) as [| | | |j| | |]; try discriminate.
  apply validate_job_id_Ok in Ha as Hj. destruct Hj as [-> _].
  destruct (vget "source_sha256" manifest) as [| | | |sha| | |] eqn:Es; try discriminate.
  split; [|done]. unfold decode_receipt, receipt_payload. simpl.
  unfold validate_job_id_value. unfold vget_or. simpl. rewrite Ha. simpl.
  unfold _is_sha256, sha256_value, vget in *. simpl.
  match goal with E : is_sha256_str _ = true |- _ => rewrite E end. simpl. by destruct phase.
Qed.

(** Receipts round trip: the receipt a transaction writes in either phase
    decodes to the transaction's job, source digest, result and that phase. *)
Theorem receipt_round_trip (manifest result_ : dict value) (t : StagedApplyTransaction)
    (phase : ApplyReceiptPhase) (p : path) :
  from_manifest manifest result_ = Ok t →
  decode_receipt p (receipt_payload t phase) =
    Ok (Receipt (t_job_id t) (t_source_sha256 t) result_ phase) ∧ t_result t = result_.
Proof. apply decode_receipt_payload. Qed.

Definition sample_manifest : dict value :=
  [("job_id", VStr "job-a"); ("source_sha256", VStr (unchars (repeat "a"%char 64)))].
Definition sample_transaction : StagedApplyTransaction :=
  Transaction "job-a" (unchars (repeat "a"%char 64)) [("changed", VBool true)].

Lemma receipt_round_trip_witness :
  decode_receipt ["r"] (receipt_payload sample_transaction COMMITTED) =
    Ok (Receipt "job-a" (unchars (repeat "a"%char 64)) [("changed", VBool true)] COMMITTED) ∧
  t_result sample_transaction = [("changed", VBool true)].
Proof.
  apply (receipt_round_trip sample_manifest [("changed", VBool true)] sample_transaction COMMITTED ["r"]).
  vm_compute. reflexivity.
Defined.

(** ** Committing *)

Lemma touches_write_json_atomic (D : path → Prop) p payload mode owner :
  (∀ x, below x (parent p) → D x) → (∀ y x, below (parent p // y) x → D x) → p = parent p // name_of p →
  touches D (write_json_atomic p payload mode owner).
Proof.
  intros H1 H2 Hp. unfold write_json_atomic, write_new.
  assert (∀ y, D (parent p // y)) as H3 by (intros y; eapply H2, below_refl).
  touches; try apply H3; try by apply touches_mkdir_parents.
  - by apply touches_create.
  - by apply touches_update.
  - apply touches_rename. intros x [Hb|Hb]; [by eapply H2|]. rewrite Hp in Hb. by eapply H2.
  - by apply touches_unlink_missing_ok.
Qed.

(** A commit only ever follows the promotion it belongs to: when
    [mark_committed] succeeds, the active root held the promoted receipt of the
    same job, source digest and result; when it is refused, nothing was changed. *)
Theorem mark_committed_from_promoted (t : StagedApplyTransaction) (config_root : path) (s : fs) :
  wp reads_ok (λ u, is_promoted_receipt t (match read_receipt_at config_root s with Ok r => r | Err _ => None end) = true)
    (mark_committed t config_root)
    (λ r u, match read_receipt_at config_root s with
            | Ok receipt => if is_promoted_receipt t receipt then True else u = s ∧ ∃ x, r = Err x
            | Err x => u = s ∧ r = Err x
            end) s.
Proof.
  unfold mark_committed. apply wp_bind, wp_read_receipt.
  destruct (read_receipt_at config_root s) as [receipt|x] eqn:E; [|done].
  destruct (is_promoted_receipt t receipt); [|apply wp_raise; eauto].
  eapply wp_weaken with (H := env_ok) (P := λ _, True); [by intros e [? _]|done|].
  apply (touches_then (λ _, True) _ _ _ s); [|apply changes_refl|done|done].
  unfold _write_receipt. apply touches_write_json_atomic; [done|done|].
  unfold receipt_path, parent. by rewrite removelast_last, name_of_snoc.
Qed.

(** ** Recovering an interrupted apply *)

Section recovery.
Context (base : path) (name : string).
Local Abbreviation C := (C base name).
Local Abbreviation R := (R base name).
Local Abbreviation K := (K base name).
Local Abbreviation Mk := (Mk base name).
Definition Act : path := base // (name +:+ ROLLBACK_ACTIVATION_MARKER).

Definition same_config (s t : fs) : Prop := ∀ x, t !! (C ++ x) = s !! (C ++ x).

Lemma same_config_pruned s t u p : apart p C → pruned p t u → same_config s t → same_config s u.
Proof.
  intros Hap Hu Hst x. rewrite <-(Hst x). apply (pruned_outside p t u); [done|]. by apply apart_app.
Qed.

Lemma wp_rmtree_same (Q : result () → fs → Prop) p s t :
  apart p C → same_config s t →
  (∀ r u, same_config s u → Q r u) →
  wp reads_ok (same_config s) (rmtree_if_exists p) Q t.
Proof.
  intros Hap Ht HQ. apply wp_rmtree_if_exists; [|apply HQ|by apply HQ].
  - intros u Hu. assert (same_config s u) by by eapply same_config_pruned. auto.
  - eapply same_config_pruned; [exact Hap| |exact Ht]. intros x. rewrite lookup_del_subtree. case_decide; auto.
Qed.

(** The active root holds the receipt of a committed apply, and no rollback
    activation is pending. *)
Definition committed_root (s : fs) (r : StagedApplyReceipt) : Prop :=
  s !! Act = None ∧ read_receipt_at C s = Ok (Some r) ∧ r_phase r = COMMITTED.

Lemma wp_recover_committed s r :
  committed_root s r →
  wp reads_ok (same_config s) (recover_interrupted_apply C)
    (λ res t, same_config s t ∧
       match res with Ok rec => rec = Recovery (Some r) false false ∧ t !! Mk = None | Err _ => True end) s.
Proof.
  intros (HA & Hr & Hp). assert (same_config s s) as Hss by by intros x.
  unfold recover_interrupted_apply, cleanup_rollback, rollback_activation_marker_path, candidate_root_path,
    rollback_root_path, promotion_marker_path. rewrite !sibling_C, parent_C. fold R K Mk Act.
  apply wp_bind, wp_exists_plain; [by intros n; rewrite HA|by rewrite HA; intros []|]. intros _.
  apply wp_bind, wp_read_receipt. rewrite Hr. simpl. rewrite bool_decide_true by done.
  apply wp_bind, wp_rmtree_same; [apply apart_sym, apart_CK|done|]. intros [[]|x] t Ht; [|by split].
  apply wp_bind, wp_bind, wp_rmtree_same; [apply apart_sym, apart_CR|done|]. intros [[]|x] u Hu; [|by split].
  assert (∀ v, same_config s v → v !! Mk = None → wp reads_ok (same_config s) (_fsync_directory base)
    (λ r0 t0, match r0 with
       | Ok _ => wp reads_ok (same_config s) (mret (Recovery (Some r) false false))
           (λ res t, same_config s t ∧ match res with Ok rec => rec = Recovery (Some r) false false ∧ t !! Mk = None | Err _ => True end) t0
       | Err x => same_config s t0 ∧ True end) v) as Hend.
  { intros v Hv Hm. apply wp_fsync_dir; [done|]. intros [[]|x]; [by apply wp_ret|done]. }
  apply wp_bind, wp_unlink_missing_ok; [done| | |].
  - eapply same_config_pruned; [apply apart_sym, apart_CM|apply pruned_delete, pruned_refl; apply below_refl|done].
  - apply Hend; [|by rewrite lookup_delete_eq].
    eapply same_config_pruned; [apply apart_sym, apart_CM|apply pruned_delete, pruned_refl; apply below_refl|done].
  - intros Hm. by apply Hend.
Qed.

Context (old : path → option node) (Hold : old_complete old).

Lemma apart_act : apart Act C ∧ apart Act R ∧ apart Act Mk.
Proof.
  split_and!; apply apart_snoc; [apply not_eq_sym, suffix_ne; done|by apply suffixes_ne|by apply suffixes_ne].
Qed.

Definition moved_away (s : fs) : Prop := marker_plain base name s ∧ holds old s R ∧ not_link s C.

Lemma moved_away_phase s : moved_away s → phase base name old s.
Proof. intros (?&?&?). by apply phase_moved. Qed.

Lemma moved_away_act s n : moved_away s → moved_away (<[Act:=n]> s).
Proof.
  intros (Hm & HR & HC). destruct apart_act as (HAC & HAR & HAM).
  assert (∀ p x, apart Act p → <[Act:=n]> s !! (p ++ x) = s !! (p ++ x)) as Hs.
  { intros p x Hap. rewrite lookup_insert_ne; [done|]. intros E. apply (apart_app Act p x Hap). rewrite <-E. apply below_refl. }
  split_and!.
  - destruct Hm as (m & Hm & Hl). exists m. split; [|done]. rewrite <-Hm.
    pose proof (Hs Mk [] HAM) as E. by rewrite !app_nil_r in E.
  - eapply holds_ext; [|exact HR]. intros x. by apply Hs.
  - intros m. pose proof (Hs C [] HAC) as E. rewrite !app_nil_r in E. rewrite E. apply HC.
Qed.

(** The end of the recovery: mark the pending reactivation, then restore. *)
Lemma wp_uncommitted_tail (Q : result ApplyRecovery → fs → Prop) s :
  moved_away s → not_link s Act → phase base name old s →
  (∀ u, phase base name old u →
    wp reads_ok (phase base name old)
      (_ ← recover_config_root C; r ← read_apply_receipt C; mret (Recovery r false true)) Q u) →
  (∀ x u, phase base name old u → Q (Err x) u) →
  wp reads_ok (phase base name old)
    (marker ← exists_ Mk;
     restored ← (if marker : bool then exists_ R else mret false);
     _ ← (if restored : bool then _ ← write_text Act (CText ("pending" +:+ nl)); _fsync_directory base else mret tt);
     _ ← recover_config_root C;
     r ← read_apply_receipt C;
     mret (Recovery r false restored)) Q s.
Proof.
  intros Hs HA Hps Hrec HE. destruct Hs as (Hm & HR & HC).
  destruct (marker_not_link base name s Hm) as [HMl HMs], (holds_dir old Hold s R HR) as [HRl HRs].
  apply wp_bind, wp_exists_plain; [done| |by intros E; rewrite E in HMs; destruct HMs]. intros _.
  apply wp_bind, wp_exists_plain; [done| |by intros E; rewrite E in HRs; destruct HRs]. intros _.
  assert (∀ n, phase base name old (<[Act:=n]> s)) as Hact.
  { intros n. apply moved_away_phase, moved_away_act. by split_and!. }
  apply wp_bind, wp_bind, wp_write_text; [done|by intros; apply HE| |].
  - intros n _. split; [done|]. intros x. by apply HE.
  - intros n _. apply wp_fsync_dir; [done|]. intros [[]|x]; [by apply Hrec|by apply HE].
Qed.

Lemma wp_recover_uncommitted s receipt :
  moved_away s → not_link s Act →
  read_receipt_at C s = Ok receipt → is_phase COMMITTED receipt = false →
  wp reads_ok (phase base name old) (recover_interrupted_apply C)
    (λ res t, phase base name old t ∧
       match res with Ok rec => restored base name old t ∧ restored_rollback rec = true ∧
                                discarded_initial rec = false | Err _ => True end) s.
Proof.
  intros Hs HA Hr Hph. pose proof (moved_away_phase s Hs) as Hps.
  destruct Hs as (Hm & HR & HC). destruct (marker_not_link base name s Hm) as [HMl HMs].
  destruct (holds_dir old Hold s R HR) as [HRl HRs].
  assert (∀ u, phase base name old u →
    wp reads_ok (phase base name old)
      (_ ← recover_config_root C; r ← read_apply_receipt C; mret (Recovery r false true))
      (λ res t, phase base name old t ∧
         match res with Ok rec => restored base name old t ∧ restored_rollback rec = true ∧
                                  discarded_initial rec = false | Err _ => True end) u) as Hrec.
  { intros u Hu. apply wp_bind. eapply wp_mono; [by apply wp_recover|].
    intros [[]|x] t [Ht Hres]; [|done]. apply wp_bind, wp_read_receipt.
    destruct (read_receipt_at C t); [|done]. apply wp_ret. split; [done|]. split; [by apply Hres|by split]. }
  unfold recover_interrupted_apply, begin_rollback_activation, rollback_activation_marker_path,
    candidate_root_path, rollback_root_path, promotion_marker_path.
  rewrite !sibling_C, parent_C. fold R K Mk Act.
  apply wp_bind, wp_exists_plain; [done|by intros _; apply Hrec|]. intros _.
  apply wp_bind, wp_read_receipt. rewrite Hr. rewrite Hph.
  assert (∀ u, moved_away u → phase base name old u) as Hmp by apply moved_away_phase.
  assert (moved_away s) as Hs by by split_and!.
  apply wp_bind. destruct (is_phase PROMOTED receipt).
  - apply wp_bind, wp_exists_plain; [done| |by intros E; rewrite E in HRs; destruct HRs]. intros _. apply wp_ret. simpl.
    apply wp_uncommitted_tail; done.
  - apply wp_ret. apply wp_uncommitted_tail; done.
Qed.
End recovery.

(** C3 — A committed apply is never undone: when the active root holds a committed
    receipt and no rollback activation is pending, recovery leaves the whole
    configuration as it is at every point, returns that receipt, and clears the
    promotion marker. *)
Theorem committed_apply_kept (base : path) (name : string) (s : fs) (r : StagedApplyReceipt) :
  committed_root base name s r →
  wp reads_ok (same_config base name s) (recover_interrupted_apply (base // name))
    (λ res t, same_config base name s t ∧
       match res with
       | Ok rec => rec = Recovery (Some r) false false ∧ t !! Mk base name = None
       | Err _ => True
       end) s.
Proof. apply wp_recover_committed. Qed.

(** C2 — An uncommitted reapply is always undone: when the promotion marker and the
    rollback root are on disk and the active root's receipt is absent or not
    committed, a recovery that completes has put the old configuration back,
    cleared the marker, and reports that services must be reactivated; a recovery
    that dies half-way leaves a tree from which the next one can finish. *)
Theorem uncommitted_apply_rolled_back (base : path) (name : string) (old : path → option node) (s : fs)
    (receipt : option StagedApplyReceipt) :
  old_complete old → moved_away base name old s → not_link s (Act base name) →
  read_receipt_at (base // name) s = Ok receipt → is_phase COMMITTED receipt = false →
  wp reads_ok (phase base name old) (recover_interrupted_apply (base // name))
    (λ res t, phase base name old t ∧
       match res with
       | Ok rec => restored base name old t ∧ restored_rollback rec = true ∧ discarded_initial rec = false
       | Err _ => True
       end) s.
Proof. intros Hold. by apply wp_recover_uncommitted. Qed.

(** ** Concrete recoveries *)

Definition sample_committed : fs :=
  list_to_map
    [ (["data"], plain_dir); (["data"; "config"], plain_dir);
      (["data"; "config"; "config.toml"], plain_file (CText "new"));
      (["data"; "config"; ".atomixos-apply-receipt.json"], plain_file (json_file (receipt_payload sample_transaction COMMITTED)));
      (["data"; "config-rollback"], plain_dir);
      (["data"; "config-rollback"; "config.toml"], plain_file (CText "old"));
      (["data"; "config.atomixos-promotion-pending"], plain_file (CText "pending")) ].
Definition sample_receipt : StagedApplyReceipt :=
  Receipt "job-a" (unchars (repeat "a"%char 64)) [("changed", VBool true)] COMMITTED.

Lemma committed_apply_kept_witness :
  wp reads_ok (same_config ["data"] "config" sample_committed) (recover_interrupted_apply (["data"] // "config"))
    (λ res t, same_config ["data"] "config" sample_committed t ∧
       match res with
       | Ok rec => rec = Recovery (Some sample_receipt) false false ∧ t !! Mk ["data"] "config" = None
       | Err _ => True
       end) sample_committed.
Proof.
  apply (committed_apply_kept ["data"] "config" sample_committed sample_receipt).
  split_and!; vm_compute; reflexivity.
Defined.

(** The rollback really happens in a run. *)
Example committed_run :
  (run_op (recover_interrupted_apply ["data"; "config"]) sample_env sample_committed).1
  = Ok (Recovery (Some sample_receipt) false false).
Proof. vm_compute. reflexivity. Qed.
Example uncommitted_run :
  (run_op (recover_interrupted_apply ["data"; "config"]) sample_env failed_reapply).1
  = Ok (Recovery None false true).
Proof. vm_compute. reflexivity. Qed.

Definition failed_old (x : path) : option node := failed_reapply !! (["data"; "config-rollback"] ++ x).

Lemma uncommitted_apply_rolled_back_witness :
  wp reads_ok (phase ["data"] "config" failed_old) (recover_interrupted_apply (["data"] // "config"))
    (λ res t, phase ["data"] "config" failed_old t ∧
       match res with
       | Ok rec => restored ["data"] "config" failed_old t ∧ restored_rollback rec = true ∧ discarded_initial rec = false
       | Err _ => True
       end) failed_reapply.
Proof.
  apply (uncommitted_apply_rolled_back ["data"] "config" failed_old failed_reapply None).
  - split; eexists; (split; [vm_compute; reflexivity|reflexivity]).
  - split_and!.
    + eexists. split; [vm_compute; reflexivity|reflexivity].
    + split; [done|]. intros n Hn. vm_compute in Hn. discriminate Hn.
    + intros n Hn. vm_compute in Hn. by injection Hn as <-.
  - intros n Hn. vm_compute in Hn. discriminate Hn.
  - vm_compute. reflexivity.
  - reflexivity.
Defined.

(** ** Finalizing abandoned claims *)

(** A claim left by an interrupted worker is only reported as succeeded with
    the committed receipt of that very job: the receipt is in the committed phase,
    names the job, and the manifest in the claim's directory carries the same job
    id and source digest.  Looking changes nothing. *)
Theorem committed_receipt_for_active_job_sound (active_path : path) (job_id : string)
    (receipt : option StagedApplyReceipt) (s : fs) :
  wp reads_ok (λ t, t = s) (_committed_receipt_for_active_job active_path job_id receipt)
    (λ res t, t = s ∧ match res with
       | Ok (Some r) => receipt = Some r ∧ r_phase r = COMMITTED ∧ r_job_id r = job_id ∧
           ∃ manifest, read_json_at (active_path // "manifest.json") s = Ok manifest ∧
             vget "job_id" manifest = VStr job_id ∧ vget "source_sha256" manifest = VStr (r_source_sha256 r)
       | Ok None => match receipt with
           | Some r => r_phase r = COMMITTED → r_job_id r = job_id →
               match read_json_at (active_path // "manifest.json") s with
               | Ok manifest => manifest_matches manifest job_id (r_source_sha256 r) = false
               | Err _ => True
               end
           | None => True
           end
       | Err _ => False
       end) s.
Proof.
  unfold _committed_receipt_for_active_job. destruct receipt as [r|]; [|by apply wp_ret].
  destruct (bool_decide (r_phase r = COMMITTED) && bool_decide (r_job_id r = job_id)) eqn:E.
  2: { apply wp_ret. split; [done|]. intros H1 H2. rewrite !bool_decide_true in E by done. done. }
  bool_prop. apply wp_bind, wp_catch, wp_bind, wp_read_json.
  destruct (read_json_at _ s) as [d|x] eqn:Ed.
  - apply wp_ret, wp_ret. split; [done|]. destruct (manifest_matches d job_id (r_source_sha256 r)) eqn:Em; [|done].
    unfold manifest_matches, eq_str in Em. split_and!; try done. exists d.
    destruct (vget "job_id" d) as [| | | |j| | |], (vget "source_sha256" d) as [| | | |h| | |];
      bool_prop; try done. by subst.
  - apply read_json_at_Err in Ed. unfold is_os_or_provision. rewrite Ed, orb_true_r. by apply wp_ret, wp_ret.
Qed.
