(* ===== verification/PolicyFacts.v ===== *)
(** * Activation: theorems about the policy and the health checks *)

From S2P Require Import Prelude PyStr PyVal ConfigCheck FS FSLogic RunLogic Staging Activation.

Local Open Scope Z_scope.

(** ** Policies *)

(** A policy the orchestration can run. *)
Definition policy_ok (policy : dict value) : Prop :=
  1 <= policy_int policy "timeout_seconds" 300 <= 3600 ∧
  0 <= policy_int policy "settle_seconds" 0 <= 300 ∧
  vget_or "strategy" (VStr "rollback") policy = VStr "rollback" ∧
  ∀ key, key ∈ ["required"; "restart"; "allow_degraded"] →
    ∃ l, vget_or key (VList []) policy = VList l ∧ Forall (λ v, is_str v = true) l.

Lemma check_policy_units_Ok services strict policy key u :
  check_policy_units services strict policy key = Ok u →
  ∃ l, vget_or key (VList []) policy = VList l ∧
    Forall (λ v, ∃ s, v = VStr s ∧ (strict = true → ∃ x, x ∈ services ∧ eq_str x (service_name s) = true)) l.
Proof.
  unfold check_policy_units. destruct (vget_or key (VList []) policy) as [| | | | |l| |]; try discriminate.
  intros H. exists l. split; [done|]. revert u H.
  assert (∀ s0 u, forR (λ _ v, match v with
        | VStr u => raise_if (strict && negb (existsb (λ s, eq_str s (service_name u)) services))
                      (policy_error ("activation policy " +:+ key +:+ " references unknown provisioned service: " +:+ u))
        | _ => Err (policy_error ("activation policy " +:+ key +:+ " entries must be strings"))
        end) l s0 = Ok u → Forall (λ v, ∃ s, v = VStr s ∧ (strict = true → ∃ x, x ∈ services ∧ eq_str x (service_name s) = true)) l) as Hg.
  { induction l as [|v l IH]; intros s0 u; [constructor|]. simpl. intros (s1 & Hv & Hl)%bind_Ok.
    constructor; [|by eapply IH]. destruct v; try discriminate. apply raise_if_Ok in Hv.
    exists s. split; [done|]. intros ->. simpl in Hv. apply negb_false_iff in Hv.
    apply existsb_exists in Hv as (x & Hx & He). exists x. split; [by apply list_elem_of_In|done]. }
  intros u. apply Hg.
Qed.

Lemma check_policy_Ok services strict policy u : check_policy services strict policy = Ok u → policy_ok policy.
Proof.
  unfold check_policy. intros H. inv_ok. bool_prop.
  assert (∀ key, key ∈ ["required"; "restart"; "allow_degraded"] → ∃ v, check_policy_units services strict policy key = Ok v) as Hk.
  { intros key. rewrite !elem_of_cons, elem_of_nil.
    repeat match goal with E : _ = Ok _ |- _ => apply bind_Ok in E as (? & ? & ?) end. naive_solver. }
  split_and!; try lia.
  - match goal with E : eq_str _ "rollback" = true |- _ => unfold eq_str in E end.
    destruct (vget_or "strategy" _ policy); try done. by bool_prop; subst.
  - intros key Hkey. destruct (Hk key Hkey) as [v Hv]. apply check_policy_units_Ok in Hv as (l & Hl & Hf).
    exists l. split; [done|]. eapply Forall_impl; [exact Hf|]. by intros ? (s & -> & _).
Qed.

Lemma forward_fsync_directory p : forward (_fsync_directory p).
Proof. unfold _fsync_directory, fsync. forward. Qed.
#[export] Hint Resolve forward_fsync_directory : forward.
Lemma forward_load_runtime_units root : forward (_load_runtime_units root).
Proof. unfold _load_runtime_units. forward. Qed.
#[export] Hint Resolve forward_load_runtime_units : forward.
Lemma forward_load_policy root : forward (load_activation_policy root).
Proof. unfold load_activation_policy, load_json, validate_runtime_activation_policy. forward. Qed.
Lemma forward_cleanup_rollback root : forward (cleanup_rollback root).
Proof. unfold cleanup_rollback, rmtree_if_exists. forward. Qed.
Lemma forward_systemctl uid verb service mode d : forward (systemctl uid verb service mode d).
Proof. unfold systemctl, command_timeout, remaining_timeout, time_time, run_command, run_command_input. forward. Qed.
#[export] Hint Resolve forward_load_policy forward_cleanup_rollback forward_systemctl : forward.




(** The command of a systemctl call, as the caller's mode selects it. *)
Definition service_command (uid : option Z) (verb : list string) (service : string) (argv : list string) : Prop :=
  argv = "systemctl" :: verb ++ [service] ∨ ∃ u, uid = Some u ∧ argv = rootless_command verb service u.

Lemma forward_command_timeout d : forward (command_timeout d).
Proof. unfold command_timeout, remaining_timeout, time_time. forward. Qed.
Lemma forward_past d : forward (past d).
Proof. unfold past, remaining_timeout, time_time. forward. Qed.
#[export] Hint Resolve forward_command_timeout forward_past : forward.

Lemma run_timed_command e w d argv z w' :
  (_ ← command_timeout d; r ← run_command argv; mret (returncode r)) e w = (Ok z, w') → z = 0 → runs e w w' argv.
Proof.
  intros (t & w1 & Ht & (r & w2 & Hr & Hz)%run_bind)%run_bind ->. apply run_ret in Hz as [Hz ->].
  apply run_run_command in Hr as [Hr Hn]. apply forward_of in Ht; [|auto with forward].
  exists (w_n w1), r. split_and!; [lia|lia|done|done].
Qed.
Lemma run_systemctl uid verb service mode d e w w' :
  systemctl uid verb service mode d e w = (Ok 0, w') → ∃ argv, service_command uid verb service argv ∧ runs e w w' argv.
Proof.
  unfold systemctl. destruct (eq_str mode "rootless").
  - destruct uid as [u|]; [|intros [? _]%run_ret; discriminate]. intros H.
    eapply run_timed_command in H; [|done]. eexists. split; [right; eauto|done].
  - intros H. eapply run_timed_command in H; [|done]. eexists. split; [by left|done].
Qed.

(** What both loops establish for a unit. *)
Definition unit_ran (uid : option Z) (verb : list string) (e : env) (w w' : world) (u : value) : Prop :=
  ∀ name, u = VStr name → ∃ argv, service_command uid verb (service_name name) argv ∧ runs e w w' argv.
Lemma unit_ran_weaken uid verb e w1 w2 w w' u : (w_n w ≤ w_n w1)%nat → (w_n w2 ≤ w_n w')%nat →
  unit_ran uid verb e w1 w2 u → unit_ran uid verb e w w' u.
Proof. intros ?? H name Hu. destruct (H name Hu) as (argv & ? & ?). exists argv. split; [done|]. by eapply runs_weaken. Qed.

(** A loop that stops only with a failure on record. *)
Definition failing (st : list string * bool) : Prop := st.2 = true → st.1 ≠ [].

Lemma run_guarded uid verb service mode d e w (failed : list string) st w' :
  (rc ← catch (systemctl uid verb service mode d) not_found_or_timeout (λ _, mret 1);
   mret (if rc =? 0 then failed else failed ++ [service], false)) e w = (Ok st, w') →
  st.2 = false ∧ (st.1 = [] → failed = [] ∧ ∃ argv, service_command uid verb service argv ∧ runs e w w' argv).
Proof.
  intros (rc & w1 & Hc & Hst)%run_bind. apply run_ret in Hst as [<- ->]. split; [done|]. simpl.
  destruct (rc =? 0) eqn:Hrc; [|intros H; by destruct (app_eq_nil _ _ H)]. apply Z.eqb_eq in Hrc as ->. intros ->.
  split; [done|]. apply run_catch in Hc as [Hc|(x & w2 & _ & _ & Hc)]; [by eapply run_systemctl|].
  by apply run_ret in Hc as [? _].
Qed.

Lemma snoc_not_nil {A} (l : list A) x : l ++ [x] ≠ [].
Proof. by destruct l. Qed.

Lemma run_check_unit uid modes strict d st u e w st' w' :
  check_unit uid modes strict d st u e w = (Ok st', w') → failing st →
  failing st' ∧ (st'.1 = [] → st.1 = [] ∧ unit_ran uid ["is-active"; "--quiet"] e w w' u).
Proof.
  destruct st as [failed stopped]. unfold check_unit, failing; simpl. intros H Hf. destruct stopped.
  { apply run_ret in H as [<- ->]. split; [done|]. intros E. by destruct (Hf eq_refl). }
  apply run_bind in H as (late & w1 & Hlate & H). apply forward_of in Hlate; [|auto with forward]. destruct late.
  { apply run_ret in H as [<- ->]. split; [intros _; apply snoc_not_nil|]. intros E. by apply snoc_not_nil in E. }
  assert (st'.2 = false ∧ (st'.1 = [] → failed = [] ∧ unit_ran uid ["is-active"; "--quiet"] e w1 w' u)) as [Hs Hr].
  { destruct u as [| | | |name| | | ]; try (apply run_ret in H as [<- ->]; split; [done|]; simpl; intros ->; split; [done|]; by intros ? [=]).
    destruct (mode_of modes (service_name name)) as [mode|]; [|destruct strict].
    2: { apply run_ret in H as [<- ->]. split; [done|]. intros E. by apply snoc_not_nil in E. }
    all: apply run_guarded in H as [Hs Hr]; split; [done|]; intros E; destruct (Hr E) as [-> Hx]; split; [done|]; intros ? [= <-]; exact Hx. }
  rewrite Hs. split; [done|]. intros E. destruct (Hr E) as [-> Hu]. split; [done|]. by eapply unit_ran_weaken.
Qed.

Lemma run_restart_unit uid modes d st u e w st' w' :
  restart_unit uid modes d st u e w = (Ok st', w') → failing st →
  failing st' ∧ (st'.1 = [] → st.1 = [] ∧ unit_ran uid ["restart"] e w w' u).
Proof.
  destruct st as [failed stopped]. unfold restart_unit, failing; simpl. intros H Hf. destruct stopped.
  { apply run_ret in H as [<- ->]. split; [done|]. intros E. by destruct (Hf eq_refl). }
  apply run_bind in H as (late & w1 & Hlate & H). apply forward_of in Hlate; [|auto with forward]. destruct late.
  { apply run_ret in H as [<- ->]. split; [intros _; apply snoc_not_nil|]. intros E. by apply snoc_not_nil in E. }
  assert (st'.2 = false ∧ (st'.1 = [] → failed = [] ∧ unit_ran uid ["restart"] e w1 w' u)) as [Hs Hr].
  { destruct u as [| | | |name| | | ]; try (apply run_ret in H as [<- ->]; split; [done|]; simpl; intros ->; split; [done|]; by intros ? [=]).
    destruct (mode_of modes (service_name name)) as [mode|].
    2: { apply run_ret in H as [<- ->]. split; [done|]. intros E. by apply snoc_not_nil in E. }
    apply run_guarded in H as [Hs Hr]; split; [done|]; intros E; destruct (Hr E) as [-> Hx]; split; [done|]; intros ? [= <-]; exact Hx. }
  rewrite Hs. split; [done|]. intros E. destruct (Hr E) as [-> Hu]. split; [done|]. by eapply unit_ran_weaken.
Qed.

Lemma forward_check_unit uid modes strict d st u : forward (check_unit uid modes strict d st u).
Proof. unfold check_unit, _check_service. forward. Qed.
Lemma forward_restart_unit uid modes d st u : forward (restart_unit uid modes d st u).
Proof. unfold restart_unit, _restart_service. forward. Qed.
#[export] Hint Resolve forward_check_unit forward_restart_unit : forward.

Lemma run_unit_loop uid verb (f : list string * bool → value → M (list string * bool)) :
  (∀ st u, forward (f st u)) →
  (∀ st u e w st' w', f st u e w = (Ok st', w') → failing st →
     failing st' ∧ (st'.1 = [] → st.1 = [] ∧ unit_ran uid verb e w w' u)) →
  ∀ l st e w st' w', forM f l st e w = (Ok st', w') → failing st → st'.1 = [] →
    st.1 = [] ∧ ∀ u, u ∈ l → unit_ran uid verb e w w' u.
Proof.
  intros Hfw Hf. induction l as [|u l IH]; intros st e w st' w' H Hst Hnil.
  - simpl in H; apply run_ret in H as [<- ->]. split; [done|]. by intros u ?%elem_of_nil.
  - apply run_bind in H as (st1 & w1 & H1 & H2). destruct (Hf _ _ _ _ _ _ H1 Hst) as [Hst1 Hu].
    destruct (IH _ _ _ _ _ H2 Hst1 Hnil) as [Hnil1 Hl]. destruct (Hu Hnil1) as [Hnil0 Hhead]. split; [done|].
    apply forward_of in H1; [|done]. apply forward_of in H2; [|by apply forward_forM].
    intros v [->|Hv]%elem_of_cons;
      [eapply unit_ran_weaken; [reflexivity|exact H2|exact Hhead]|eapply unit_ran_weaken; [exact H1|reflexivity|by apply Hl]].
Qed.

Lemma forward_modes root : forward (_load_runtime_unit_modes root).
Proof. unfold _load_runtime_unit_modes. forward. Qed.
#[export] Hint Resolve forward_modes : forward.

Lemma run_unit_list uid verb (f : list (value * value) → list string * bool → value → M (list string * bool)) v root e w w' :
  (∀ modes st u, forward (f modes st u)) →
  (∀ modes st u e w st' w', f modes st u e w = (Ok st', w') → failing st →
     failing st' ∧ (st'.1 = [] → st.1 = [] ∧ unit_ran uid verb e w w' u)) →
  match v with
  | VList ((_ :: _) as us) => modes ← _load_runtime_unit_modes root; r ← forM (f modes) us ([], false); mret r.1
  | _ => mret []
  end e w = (Ok [], w') →
  ∀ us, v = VList us → ∀ u, u ∈ us → unit_ran uid verb e w w' u.
Proof.
  intros Hfw Hf H us -> u Hu. destruct us as [|u0 us]; [by apply elem_of_nil in Hu|].
  apply run_bind in H as (modes & w1 & Hm & (r & w2 & Hr & Hret)%run_bind). apply run_ret in Hret as [Hr1 ->].
  apply forward_of in Hm; [|auto with forward].
  destruct (run_unit_loop uid verb (f modes) (Hfw modes) (Hf modes) _ _ _ _ _ _ Hr) as [_ Hl]; [done..|].
  eapply unit_ran_weaken; [exact Hm|reflexivity|]. by apply Hl.
Qed.

Lemma run_check_required uid root policy d e w w' us :
  check_required_services uid root policy d e w = (Ok [], w') → vget_or "required" (VList []) policy = VList us →
  ∀ u, u ∈ us → unit_ran uid ["is-active"; "--quiet"] e w w' u.
Proof.
  intros H Hv. eapply (run_unit_list uid _ (λ modes, check_unit uid modes (truthy (vget_or "strict_units" (VBool false) policy)) d));
    [intros; apply forward_check_unit|intros; by eapply run_check_unit|exact H|exact Hv].
Qed.
Lemma run_restart uid root policy d e w w' us :
  restart_activation_services uid root policy d e w = (Ok [], w') → vget_or "restart" (VList []) policy = VList us →
  ∀ u, u ∈ us → unit_ran uid ["restart"] e w w' u.
Proof.
  intros H Hv. eapply (run_unit_list uid _ (λ modes, restart_unit uid modes d));
    [intros; apply forward_restart_unit|intros; by eapply run_restart_unit|exact H|exact Hv].
Qed.

Lemma forward_restart uid root policy d : forward (restart_activation_services uid root policy d).
Proof. unfold restart_activation_services. forward. Qed.
Lemma forward_check_required uid root policy d : forward (check_required_services uid root policy d).
Proof. unfold check_required_services. forward. Qed.
Lemma forward_report uid root d : forward (report_runtime_services uid root d).
Proof. unfold report_runtime_services, _check_service. forward. Qed.
Lemma forward_activate cmd t : forward (activate_services cmd t).
Proof. unfold activate_services, run_command, run_command_input, is_file_. forward. Qed.
Lemma forward_remaining d : forward (remaining_timeout d).
Proof. unfold remaining_timeout, time_time. forward. Qed.
#[export] Hint Resolve forward_restart forward_check_required forward_report forward_activate forward_remaining : forward.

(** What an activation without failures went through. *)
Definition activation_passed (cmd : option (string * path)) (uid : option Z) (root : path) (e : env) (w w' : world) : Prop :=
  ∃ policy w1, load_activation_policy root e w = (Ok policy, w1) ∧
    (∀ c q, cmd = Some (c, q) → c ≠ "" → runs e w1 w' [c]) ∧
    (∀ us u, vget_or "restart" (VList []) policy = VList us → u ∈ us → unit_ran uid ["restart"] e w1 w' u) ∧
    (∀ us u, vget_or "required" (VList []) policy = VList us → u ∈ us → unit_ran uid ["is-active"; "--quiet"] e w1 w' u).

Lemma run_activate cmd t e w w' :
  activate_services cmd t e w = (Ok [], w') → ∀ c q, cmd = Some (c, q) → c ≠ "" → runs e w w' [c].
Proof.
  unfold activate_services. intros H c q -> Hc. rewrite bool_decide_false in H by done.
  destruct (path_is_absolute c); [|by apply run_ret in H as [? _]]. simpl in H.
  apply run_bind in H as (f & w1 & Hf & H). destruct f; [|by apply run_ret in H as [? _]]. simpl in H.
  apply forward_of in Hf; [|apply forward_test].
  apply run_catch in H as [H|(x & w2 & _ & _ & H)]; [|apply run_ret in H as [H _]; by destruct (is_timeout x)].
  apply run_bind in H as (r & w2 & Hr & H). apply run_ret in H as [H ->].
  destruct (returncode r =? 0) eqn:Hz; [|discriminate]. apply Z.eqb_eq in Hz.
  apply run_run_command in Hr as [Hr Hn]. exists (w_n w1), r. split_and!; [lia|lia|done|done].
Qed.

Lemma run_activation_passed cmd uid root e w w' :
  run_activation_sequence cmd uid root e w = (Ok [], w') → activation_passed cmd uid root e w w'.
Proof.
  unfold run_activation_sequence. intros (policy & w1 & Hp & H)%run_bind. exists policy, w1. split; [done|].
  cbv zeta in H. apply run_bind in H as (now & w2 & Hnow & H). apply forward_of in Hnow; [|unfold time_time; auto with forward].
  apply run_bind in H as (af & w3 & Haf & H). pose proof (forward_of _ _ _ _ _ (forward_activate _ _) Haf) as F3.
  apply run_bind in H as (rf & w4 & Hrf & H).
  assert (w_n w3 ≤ w_n w4)%nat as F4 by (eapply forward_of; [|exact Hrf]; destruct (bool_decide _); auto with forward).
  apply run_bind in H as (late & w5 & Hlate & H).
  assert (w_n w4 ≤ w_n w5)%nat as F5 by (eapply forward_of; [|exact Hlate]; forward). clear Hlate.
  destruct late; [by apply run_ret in H as [? _]|].
  apply run_bind in H as (df & w6 & Hdf & H).
  assert (w_n w5 ≤ w_n w6)%nat as F6 by (eapply forward_of; [|exact Hdf]; forward). clear Hdf.
  apply run_bind in H as (hf & w7 & Hhf & H). apply run_ret in H as [H ->].
  apply app_eq_nil in H as [-> [-> [-> ->]%app_eq_nil]%app_eq_nil]. rewrite bool_decide_true in Hrf, Hhf by done. simpl in Hhf.
  pose proof (forward_of _ _ _ _ _ (forward_check_required _ _ _ _) Hhf) as F7.
  split_and!.
  - intros c q Hc Hne. eapply runs_weaken; [| |by eapply run_activate]; lia.
  - intros us u Hus Hu. eapply unit_ran_weaken; [| |eapply run_restart; eauto]; lia.
  - intros us u Hus Hu. eapply unit_ran_weaken; [| |eapply run_check_required; eauto]; lia.
Qed.

Lemma forward_run_activation cmd uid root : forward (run_activation_sequence cmd uid root).
Proof. unfold run_activation_sequence, time_time. forward. Qed.

(** C12 — A reapply is only reported as successful, and its rollback root only
    given up, after a clean activation: the policy was loaded, the activation hook
    exited with status 0, every unit the policy restarts was restarted with status
    0 and every unit it requires was found active, each by a command run during
    this call; success carries no failures.  A refused reapply names one. *)
Theorem complete_reapply_gate (cmd : option (string * path)) (uid : option Z) (root : path)
    (commit : option (M ())) (success : bool) (failures : list string) (rollback_status : string) (e : env) (w w' : world) :
  complete_reapply cmd uid root commit e w = (Ok (success, failures, rollback_status), w') →
  if success
  then failures = [] ∧ rollback_status = "skipped" ∧ ∃ w1 w2,
         activation_passed cmd uid root e w w1 ∧
         match commit with Some m => m e w1 = (Ok tt, w2) | None => w2 = w1 end ∧
         cleanup_rollback root e w2 = (Ok tt, w')
  else failures ≠ [].
Proof.
  unfold complete_reapply. intros (fl & w1 & Ha & H)%run_bind. apply run_catch in Ha. case_bool_decide as Hfl.
  - subst fl. apply run_bind in H as ([] & w2 & Hc & ([] & w3 & Hcl & H)%run_bind). apply run_ret in H as [H ->].
    injection H as <- <- <-. split; [reflexivity|]. split; [reflexivity|]. exists w1, w2. split_and!; [|by destruct commit; [|by apply run_ret in Hc as [_ ->]]|done].
    apply run_activation_passed. destruct Ha as [Ha|(x & w4 & _ & Hx & Hr)]; [done|].
    apply run_ret in Hr as [Hr _]. destruct x; discriminate.
  - apply run_bind in H as (ex & w2 & _ & ([] & w3 & _ & (restored & w4 & _ & H)%run_bind)%run_bind).
    destruct restored.
    + apply run_bind in H as (rb & w5 & _ & H). case_bool_decide; apply run_ret in H as [H ->]; simplify_eq; [done|].
      intros [E _]%app_eq_nil. exact (Hfl E).
    + apply run_ret in H as [H ->]. by simplify_eq.
Qed.


Lemma run_validate root policy strict e w u w' :
  validate_runtime_activation_policy root policy strict e w = (Ok u, w') → policy_ok policy.
Proof.
  unfold validate_runtime_activation_policy. intros (us & w1 & _ & (sv & w2 & _ & H)%run_bind)%run_bind.
  apply run_lift in H as [H _]. by eapply check_policy_Ok.
Qed.

Lemma default_policy_ok : policy_ok DEFAULT_ACTIVATION_POLICY.
Proof.
  split_and!; try (vm_compute; congruence). intros key Hk. exists []. split; [|done].
  rewrite !elem_of_cons, elem_of_nil in Hk. destruct Hk as [-> |[-> |[-> |[]]]]; reflexivity.
Qed.

(** Whatever is on disk, a policy that loads can be run: the timeout lies
    between 1 s and an hour, the settle time between 0 and 300 s, the strategy is
    rollback, and the three unit lists are lists of strings. *)
Theorem load_activation_policy_bounds (root : path) (policy : dict value) (e : env) (w w' : world) :
  load_activation_policy root e w = (Ok policy, w') → policy_ok policy.
Proof.
  unfold load_activation_policy. intros (ex & w1 & _ & [[_ H]|[_ H]]%run_if)%run_bind.
  - apply run_bind in H as (raw & w2 & _ & H). destruct raw as [| | | | | |d|]; try discriminate.
    apply run_bind in H as (u & w3 & Hv & [<- _]%run_ret). by eapply run_validate.
  - apply run_bind in H as (ex2 & w2 & _ & (r & w3 & _ & H)%run_bind). destruct r as [required|].
    + apply run_bind in H as (u & w4 & Hv & [<- _]%run_ret). by eapply run_validate.
    + apply run_ret in H as [<- _]. apply default_policy_ok.
Qed.

(** ** A concrete activation *)

(** A root whose policy requires and restarts a rootful container service. *)
Definition policy_root : path := ["data"; "config"].
Definition sample_active : fs :=
  list_to_map
    [ (["data"], plain_dir); (policy_root, plain_dir);
      (policy_root // "activation-policy.json",
       plain_file (CJson (VDict [("required", VList [VStr "web"]); ("restart", VList [VStr "web"]); ("timeout_seconds", VInt 60)]) 80));
      (policy_root // "quadlet-runtime.json",
       plain_file (CJson (VDict [("units", VList [VDict [("service", VStr "web.service"); ("mode", VStr "rootful")]])]) 80));
      (["data"; "config-rollback"], plain_dir) ].
Definition activation_run : result (bool * list string * string) * world :=
  run_op (complete_reapply None None policy_root None) sample_env sample_active.
Definition policy_run : result (dict value) * world :=
  run_op (load_activation_policy policy_root) sample_env sample_active.

Lemma load_activation_policy_bounds_witness :
  policy_int (default [] (match policy_run.1 with Ok d => Some d | _ => None end)) "timeout_seconds" 300 = 60 ∧
  ∃ d, policy_run.1 = Ok d ∧ policy_ok d.
Proof.
  split; [vm_compute; reflexivity|].
  assert (is_ok policy_run.1 = true) as Hok by (vm_compute; reflexivity).
  destruct policy_run as [[d|x] w'] eqn:E; [|discriminate Hok]. exists d. split; [reflexivity|].
  exact (load_activation_policy_bounds policy_root d sample_env (World sample_active [] 0) w' E).
Defined.

Lemma complete_reapply_gate_witness :
  activation_run.1 = Ok (true, [], "skipped") ∧
  ∃ w1 w2, activation_passed None None policy_root sample_env (World sample_active [] 0) w1 ∧ w2 = w1 ∧
    cleanup_rollback policy_root sample_env w2 = (Ok tt, activation_run.2).
Proof.
  assert (activation_run.1 = Ok (true, [], "skipped")) as Hr by (vm_compute; reflexivity).
  split; [exact Hr|].
  assert (activation_run = (Ok (true, [], "skipped"), activation_run.2)) as E.
  { rewrite <- Hr. by destruct activation_run. }
  exact (proj2 (proj2 (complete_reapply_gate None None policy_root None true [] "skipped" sample_env
    (World sample_active [] 0) activation_run.2 E))).
Defined.
