(* ===== verification/Auth.v ===== *)
(** * [auth.py]: nonces and SSH request authentication

    One definition per function of
    src/scripts/atomixos_provision/src/atomixos_provision/auth.py.  A [NonceStore]
    is changed under its lock, one method at a time; the clock readings of a call
    are arguments of the store's methods and calls to the environment in the
    guards.  SHA-256 and the text of a JSON document are parameters. *)

From Stdlib Require Import Ascii.
From S2P Require Import Prelude PySort PyStr PyVal ConfigCheck FS Staging StagedJob Activation.

Local Open Scope Z_scope.

Definition MAX_OUTSTANDING_NONCES_PER_CLIENT : Z := 16.
Definition MAX_OUTSTANDING_NONCES : Z := 1024.
Definition NONCE_TTL_SECONDS : Z := 300.
Definition AUTH_REQUIRED_MESSAGE : string :=
  "authentication required: provide X-AtomixOS-Nonce and X-AtomixOS-Signature headers".

(** ** The nonce store

    Times are in clock ticks; [_nonces] maps a nonce to its time of issue and its
    client, in order of insertion. *)

Definition nonce_table : Type := dict (Z * string).
Record NonceStore : Type := Store { _ttl : Z; _max_outstanding : Z; _nonces : nonce_table }.

Definition new_store (ttl max_outstanding : Z) : NonceStore := Store ttl (Z.max 1 max_outstanding) [].
Definition with_nonces (s : NonceStore) (d : nonce_table) : NonceStore := Store (_ttl s) (_max_outstanding s) d.

Definition expired (ttl now : Z) (kv : string * (Z * string)) : bool := ttl <=? now - kv.2.1.
Definition _prune (now : Z) (s : NonceStore) : NonceStore :=
  with_nonces s (filter (λ kv, expired (_ttl s) now kv = false) (_nonces s)).

Definition client_entries (client_id : string) (d : nonce_table) : list (string * Z) :=
  omap (λ kv, if bool_decide (kv.2.2 = client_id) then Some (kv.1, kv.2.1) else None) d.
Definition per_client_limit (s : NonceStore) : Z :=
  Z.max 1 (Z.min MAX_OUTSTANDING_NONCES_PER_CLIENT (_max_outstanding s)).

(** [while len(client_nonces) >= per_client_limit]: drop the oldest. *)
Fixpoint evict_client_loop (limit : Z) (client_nonces : list (string * Z)) (d : nonce_table) : nonce_table :=
  match client_nonces with
  | [] => d
  | (nonce, _) :: rest =>
      if limit <=? Z.of_nat (length client_nonces) then evict_client_loop limit rest (dpop nonce d) else d
  end.
Definition _evict_client_over_limit (client_id : string) (s : NonceStore) : NonceStore :=
  with_nonces s (evict_client_loop (per_client_limit s) (sort_by snd (client_entries client_id (_nonces s))) (_nonces s)).

(** [min(self._nonces, key=...)]: the first of the oldest. *)
Fixpoint oldest (best : string * Z) (d : nonce_table) : string :=
  match d with
  | [] => best.1
  | (n, (t, _)) :: d' => if t <? best.2 then oldest (n, t) d' else oldest best d'
  end.
(** Each turn removes one nonce, so as many turns as nonces are enough. *)
Fixpoint evict_loop (fuel : nat) (max_outstanding : Z) (d : nonce_table) : nonce_table :=
  match fuel, d with
  | S fuel, (n, (t, _)) :: d' =>
      if max_outstanding <=? Z.of_nat (length d)
      then evict_loop fuel max_outstanding (dpop (oldest (n, t) d') d) else d
  | _, _ => d
  end.
Definition _evict_over_limit (s : NonceStore) : NonceStore :=
  with_nonces s (evict_loop (length (_nonces s)) (_max_outstanding s) (_nonces s)).

(** [issue]: the nonce is new, its two clock readings [t_prune] and [t_issue]. *)
Definition issue (client_id nonce : string) (t_prune t_issue : Z) (s : NonceStore) : NonceStore :=
  let s := _evict_over_limit (_evict_client_over_limit client_id (_prune t_prune s)) in
  with_nonces s (dset nonce (t_issue, client_id) (_nonces s)).

Definition consume (nonce : string) (t_prune t_check : Z) (s : NonceStore) : NonceStore * bool :=
  let s := _prune t_prune s in
  match dget nonce (_nonces s) with
  | None => (s, false)
  | Some (issued_at, _) => (with_nonces s (dpop nonce (_nonces s)), t_check - issued_at <? _ttl s)
  end.

(** ** Encodings *)

Definition base64_value (c : ascii) : option Z :=
  if is_upper_ascii c then Some (Z.of_N (ord c) - 65)
  else if is_lower_ascii c then Some (Z.of_N (ord c) - 71)
  else if is_digit_ascii c then Some (Z.of_N (ord c) + 4)
  else if Ascii.eqb c "+" then Some 62 else if Ascii.eqb c "/" then Some 63 else None.
Definition byte_of (n : Z) : ascii := ascii_of_N (Z.to_N (Z.land n 255)).

(** [base64.b64decode(s, validate=True)]: strict, groups of four characters, with
    padding only at the end. *)
Fixpoint b64_chars (l : list ascii) : option (list ascii) :=
  match l with
  | [] => Some []
  | [a; b; c; d] =>
      if Ascii.eqb d "=" then
        if Ascii.eqb c "=" then
          x ← base64_value a; y ← base64_value b; Some [byte_of (Z.lor (Z.shiftl x 2) (Z.shiftr y 4))]
        else
          x ← base64_value a; y ← base64_value b; z ← base64_value c;
          Some [byte_of (Z.lor (Z.shiftl x 2) (Z.shiftr y 4)); byte_of (Z.lor (Z.shiftl y 4) (Z.shiftr z 2))]
      else
        x ← base64_value a; y ← base64_value b; z ← base64_value c; w ← base64_value d;
        Some [byte_of (Z.lor (Z.shiftl x 2) (Z.shiftr y 4)); byte_of (Z.lor (Z.shiftl y 4) (Z.shiftr z 2));
              byte_of (Z.lor (Z.shiftl z 6) w)]
  | a :: b :: c :: d :: l' =>
      x ← base64_value a; y ← base64_value b; z ← base64_value c; w ← base64_value d;
      rest ← b64_chars l';
      Some (byte_of (Z.lor (Z.shiftl x 2) (Z.shiftr y 4)) :: byte_of (Z.lor (Z.shiftl y 4) (Z.shiftr z 2))
            :: byte_of (Z.lor (Z.shiftl z 6) w) :: rest)
  | _ => None
  end.
Definition b64decode (s : string) : result string :=
  of_option (unchars <$> b64_chars (chars s)) (ValueError "binascii.Error").

(** [s.upper()] of a method: ASCII. *)
Definition upper (s : string) : string := str_map upper_ascii_char s.

(** [str.splitlines]: a line ends at LF, CR, CR LF, VT, FF, FS, GS, RS or NEL. *)
Definition is_line_end (c : ascii) : bool :=
  between 10 13 c || between 28 30 c || (ord c =? 133)%N.
Fixpoint splitlines_go (cur : list ascii) (l : list ascii) : list (list ascii) :=
  match l with
  | [] => match cur with [] => [] | _ => [rev cur] end
  | c :: l' =>
      if is_line_end c then
        rev cur :: match l' with
                   | d :: l'' => if (ord c =? 13)%N && (ord d =? 10)%N then splitlines_go [] l'' else splitlines_go [] l'
                   | [] => []
                   end
      else splitlines_go (c :: cur) l'
  end.
Definition splitlines (s : string) : list string := map unchars (splitlines_go [] (chars s)).

(** ** Requests *)

Record request : Type := Request {
  q_nonce : string; q_signature : string; q_method : string; q_path : string; q_body : string }.
Record authorization : Type := Authorization {
  a_nonce : string; a_signature : string; a_method : string; a_path : string }.

Section auth.
Context (sha256_text : string → string) (json_text : value → Z → string).

Definition reapply_signature_message (nonce method path payload : string) : string :=
  "atomixos-reapply-v2" +:+ nl +:+ "nonce:" +:+ nonce +:+ nl +:+ "method:" +:+ upper method +:+ nl
  +:+ "path:" +:+ path +:+ nl +:+ "sha256:" +:+ sha256_text payload +:+ nl.

(** [Path.read_text] *)
Definition read_text (p : path) : M string :=
  c ← read_content p;
  match c with
  | CText s => mret s
  | CJson v n => mret (json_text v n)
  | CBin _ => raise (UnicodeDecodeError "invalid start byte")
  end.

Definition boot_id_path : path := ["proc"; "sys"; "kernel"; "random"; "boot_id"].
Definition current_boot_id (fallback : string) : M string :=
  catch (value ← read_text boot_id_path;
         let value := strip value in mret (if bool_decide (value = "") then fallback else value))
    is_OSError (λ _, mret fallback).

Definition tmp_dir : path := ["tmp"].
(** [NamedTemporaryFile(delete=False)] *)
Definition named_temporary_file (suffix : string) (c : content) : M path :=
  name ← ask (λ e n, e_tmp e n);
  _ ← write_new 384 (tmp_dir // (name +:+ suffix)) c;
  mret (tmp_dir // (name +:+ suffix)).

Definition verify_command (ssh_keygen : string) (allowed sig : path) : list string :=
  [ssh_keygen; "-Y"; "verify"; "-f"; show_path allowed; "-I"; "atomixos-reapply"; "-n"; "atomixos-reapply"; "-s"; show_path sig].
Definition verify_ssh_signature (ssh_keygen message signature_blob : string) (allowed_keys_path : path) : M bool :=
  sig_path ← named_temporary_file ".sig" (CText signature_blob);
  finally
    (catch (r ← run_command_input (verify_command ssh_keygen allowed_keys_path sig_path) message; mret (returncode r =? 0))
       not_found_or_timeout (λ _, mret false))
    (unlink_missing_ok sig_path).

Definition signer_lines (text : string) : list string :=
  filter (λ k, k ≠ "") (map strip (splitlines text)).
Definition build_allowed_signers (config_root : path) : M (option path) :=
  let admin_keys_path := config_root // "admin-signers" in
  ex ← exists_ admin_keys_path;
  if negb ex then mret None
  else
    text ← read_text admin_keys_path;
    let keys := signer_lines text in
    if bool_decide (keys = []) then mret None
    else
      p ← named_temporary_file ".allowed_signers"
            (CText (join nl (map (λ k, "atomixos-reapply " +:+ k) keys) +:+ nl));
      mret (Some p).

(** ** Guards

    A guard threads the nonce store, which keeps what was consumed even when the
    request is refused: the exception is in the result beside the store. *)

Definition unauthorized {A} (detail : string) : result A := Err (NotAuthorizedException detail).

Definition verify_request (ssh_keygen : string) (store : NonceStore) (q : request) (allowed_path : path)
    : M (NonceStore * result authorization) :=
  if bool_decide (q_nonce q = "") || bool_decide (q_signature q = "")
  then mret (store, unauthorized AUTH_REQUIRED_MESSAGE)
  else
    t_prune ← time_time; t_check ← time_time;
    let '(store, accepted) := consume (q_nonce q) t_prune t_check store in
    if negb accepted then mret (store, unauthorized "invalid or expired nonce")
    else
      let method := upper (q_method q) in
      let message := reapply_signature_message (q_nonce q) method (q_path q) (q_body q) in
      match b64decode (q_signature q) with
      | Err _ => mret (store, unauthorized "invalid signature encoding")
      | Ok signature_blob =>
          valid ← attempt (verify_ssh_signature ssh_keygen message signature_blob allowed_path);
          mret (store, match valid with
                       | Err x => Err x
                       | Ok false => unauthorized "signature verification failed"
                       | Ok true => Ok (Authorization (q_nonce q) (q_signature q) method (q_path q))
                       end)
      end.

Definition _verify_ssh_auth (ssh_keygen : string) (store : NonceStore) (q : request) (allowed_path : path)
    : M (NonceStore * result authorization) :=
  r ← verify_request ssh_keygen store q allowed_path;
  u ← attempt (unlink_missing_ok allowed_path);
  mret (r.1, match u with Ok _ => r.2 | Err x => Err x end).

(** What a guard concluded: the request passes unauthenticated, or with the
    evidence kept in its scope. *)
Definition ssh_auth_guard (ssh_keygen : string) (config_root : path) (signers_initialized : bool) (store : NonceStore) (q : request)
    : M (NonceStore * bool * result (option authorization)) :=
  r ← attempt (is_provisioned_config_root config_root);
  match r with
  | Err x => mret (store, signers_initialized, Err x)
  | Ok false => mret (store, signers_initialized, Ok None)
  | Ok true =>
      s ← attempt (build_allowed_signers config_root);
      match s with
      | Err x => mret (store, signers_initialized, Err x)
      | Ok None =>
          p ← attempt (if signers_initialized then mret true else is_provisioned_config_root config_root);
          mret (store, signers_initialized,
                match p with
                | Err x => Err x
                | Ok true => unauthorized "admin signers temporarily unavailable"
                | Ok false => Ok None
                end)
      | Ok (Some allowed_path) =>
          v ← _verify_ssh_auth ssh_keygen store q allowed_path;
          mret (v.1, true, match v.2 with Ok a => Ok (Some a) | Err x => Err x end)
      end
  end.

Definition ssh_auth_required_guard (ssh_keygen : string) (config_root : path) (store : NonceStore) (q : request)
    : M (NonceStore * result authorization) :=
  s ← attempt (build_allowed_signers config_root);
  match s with
  | Err x => mret (store, Err x)
  | Ok None => mret (store, unauthorized AUTH_REQUIRED_MESSAGE)
  | Ok (Some allowed_path) => _verify_ssh_auth ssh_keygen store q allowed_path
  end.
End auth.
