(* ===== verification/AuthFacts.v ===== *)
(** * Authentication: theorems

    Over any sequence of calls a nonce is accepted at most once per issue and only
    within its lifetime, and the store stays within its limits; a guard lets a
    request to a provisioned device through only with a live nonce and a signature
    that the verifier accepted over that very request; distinct requests have
    distinct messages. *)

From Stdlib Require Import Ascii.
From S2P Require Import Prelude PySort PyStr PyVal PyDict ConfigCheck FS FSLogic RunLogic Staging StagedJob Activation Auth.

Local Open Scope Z_scope.

(** ** Calls on a store *)

Variant call : Type :=
  | Issue (client_id nonce : string) (t_prune t_issue : Z)
  | Consume (nonce : string) (t_prune t_check : Z).

Definition step (s : NonceStore) (c : call) : NonceStore * bool :=
  match c with
  | Issue client nonce t1 t2 => (issue client nonce t1 t2 s, true)
  | Consume nonce t1 t2 => consume nonce t1 t2 s
  end.

(** The store after the calls, and every call with its answer. *)
Definition exec (st : NonceStore * list (call * bool)) (c : call) : NonceStore * list (call * bool) :=
  let '(s', b) := step st.1 c in (s', st.2 ++ [(c, b)]).
Definition run_calls (s : NonceStore) (calls : list call) : NonceStore * list (call * bool) :=
  fold_left exec calls (s, []).

Lemma run_calls_inv (P : NonceStore → list (call * bool) → Prop) s calls :
  P s [] → (∀ s h c s' b, P s h → step s c = (s', b) → P s' (h ++ [(c, b)])) →
  P (run_calls s calls).1 (run_calls s calls).2.
Proof.
  intros H0 Hs. unfold run_calls. induction calls as [|c calls IH] using rev_ind; [done|].
  rewrite fold_left_app. cbn [fold_left]. revert IH. generalize (fold_left exec calls (s, [])). intros [s1 h] IH.
  unfold exec. simpl in *. destruct (step s1 c) as [s' b] eqn:E. by eapply Hs.
Qed.


(** ** Eviction *)

Lemma client_entries_cons c k v (d : nonce_table) :
  client_entries c ((k, v) :: d) = (if bool_decide (v.2 = c) then [(k, v.1)] else []) ++ client_entries c d.
Proof. unfold client_entries. simpl. by case_bool_decide. Qed.

#[local] Arguments client_entries : simpl never.

Lemma client_entries_sublist c (d d' : nonce_table) : d' `sublist_of` d → client_entries c d' `sublist_of` client_entries c d.
Proof.
  induction 1 as [|[k v] d1 d2 _ IH|[k v] d1 d2 _ IH]; [done|..]; rewrite !client_entries_cons.
  - by apply sublist_app.
  - by apply sublist_inserts_l.
Qed.
Lemma client_entries_keys c (d : nonce_table) n : n ∈ (client_entries c d).*1 → n ∈ dkeys d.
Proof.
  unfold dkeys. induction d as [|[k v] d IH]; csimpl; [done|]. rewrite client_entries_cons, fmap_app, elem_of_app, elem_of_cons.
  intros [Hn|Hn]; [|by right; apply IH]. case_bool_decide; csimpl in *; [|by apply elem_of_nil in Hn].
  left. by apply list_elem_of_singleton in Hn.
Qed.
Lemma client_entries_NoDup c (d : nonce_table) : wf_dict d → NoDup (client_entries c d).*1.
Proof.
  unfold wf_dict, dkeys. induction d as [|[k v] d IH]; csimpl; [constructor|]. rewrite NoDup_cons. intros [Hk Hd].
  rewrite client_entries_cons, fmap_app. case_bool_decide; csimpl; [|by apply IH].
  apply NoDup_cons. split; [|by apply IH]. intros Hin. apply Hk. by eapply client_entries_keys.
Qed.
Lemma client_entries_dpop c (d : nonce_table) n t rest :
  wf_dict d → client_entries c d ≡ₚ (n, t) :: rest → client_entries c (dpop n d) ≡ₚ rest.
Proof.
  unfold wf_dict, dkeys. revert rest. induction d as [|[k v] d IH]; intros rest; csimpl.
  { intros _ H. by apply Permutation_nil_cons in H. }
  rewrite NoDup_cons. intros [Hk Hd]. rewrite client_entries_cons. case_decide as Hn.
  - subst k. case_bool_decide; simpl; intros Hp.
    + assert ((n, t) = (n, v.1)) as [= ->]; [|by apply Permutation_cons_inv in Hp].
      assert ((n, t) ∈ (n, v.1) :: client_entries c d) as Hin by (rewrite Hp; left).
      apply elem_of_cons in Hin as [->|Hin]; [done|]. exfalso. apply Hk.
      apply (client_entries_keys c). apply list_elem_of_fmap. by exists (n, t).
    + exfalso. apply Hk. apply (client_entries_keys c). rewrite Hp. csimpl. left.
  - rewrite client_entries_cons. case_bool_decide; simpl; [|by apply IH]. intros Hp.
    assert ((k, v.1) ∈ (n, t) :: rest) as Hin by (rewrite <- Hp; left).
    apply elem_of_cons in Hin as [[= -> ->]|Hin]; [done|].
    apply list_elem_of_split in Hin as (r1 & r2 & ->).
    rewrite <- Permutation_middle. constructor. apply IH; [done|].
    apply (Permutation_cons_inv (a := (k, v.1))). rewrite Hp. rewrite <- Permutation_middle. constructor.
Qed.

Lemma evict_client_loop_spec limit client cs (d : nonce_table) :
  1 <= limit → wf_dict d → client_entries client d ≡ₚ cs →
  evict_client_loop limit cs d `sublist_of` d ∧
  Z.of_nat (length (client_entries client (evict_client_loop limit cs d))) < limit.
Proof.
  intros Hl. revert d. induction cs as [|[n t] cs IH]; intros d Hwf Hp; simpl.
  { split; [done|]. rewrite Hp. simpl. lia. }
  case_match eqn:Hle; [|split; [done|]; rewrite Hp; simpl; apply Z.leb_gt in Hle; simpl in Hle; lia].
  destruct (IH (dpop n d)) as [Hs Hc].
  - by apply wf_dpop.
  - by eapply client_entries_dpop.
  - split; [|done]. etrans; [exact Hs|apply dpop_sublist].
Qed.

Lemma evict_client_loop_sublist limit cs (d : nonce_table) : evict_client_loop limit cs d `sublist_of` d.
Proof.
  revert d. induction cs as [|[n t] cs IH]; intros d; simpl; [done|]. case_match; [|done].
  etrans; [apply IH|apply dpop_sublist].
Qed.
Lemma evict_loop_sublist fuel limit (d : nonce_table) : evict_loop fuel limit d `sublist_of` d.
Proof.
  revert d. induction fuel as [|fuel IH]; intros d; simpl; [done|]. destruct d as [|[n [t c]] d]; [done|].
  case_match; [|done]. etrans; [apply IH|apply (dpop_sublist _ ((n, (t, c)) :: d))].
Qed.

Lemma oldest_key best (d : nonce_table) : oldest best d = best.1 ∨ oldest best d ∈ dkeys d.
Proof.
  unfold dkeys. revert best. induction d as [|[n [t c]] d IH]; intros best; csimpl; [by left|].
  rewrite elem_of_cons. case_match.
  - destruct (IH (n, t)) as [->|Hin]; auto.
  - destruct (IH best) as [->|Hin]; auto.
Qed.

Lemma evict_loop_spec fuel limit (d : nonce_table) :
  1 <= limit → length d = fuel →
  evict_loop fuel limit d `sublist_of` d ∧ Z.of_nat (length (evict_loop fuel limit d)) < limit.
Proof.
  intros Hl. revert d. induction fuel as [|fuel IH]; intros d Hf; [destruct d; simpl in *; [split; [done|lia]|lia]|].
  destruct d as [|[n [t c]] d]; [done|]. simpl evict_loop. case_match eqn:Hle.
  2: { apply Z.leb_gt in Hle. split; [done|]. simpl length. lia. }
  assert (oldest (n, t) d ∈ dkeys ((n, (t, c)) :: d)) as Hk.
  { unfold dkeys. csimpl. apply elem_of_cons. destruct (oldest_key (n, t) d) as [->|?]; auto. }
  assert (length (dpop (oldest (n, t) d) ((n, (t, c)) :: d)) = fuel) as Hlen.
  { apply length_dpop in Hk. lia. }
  destruct (IH _ Hlen) as [Hs Hc]. split; [|exact Hc]. etrans; [exact Hs|]. apply (dpop_sublist _ ((n, (t, c)) :: d)).
Qed.

(** ** The invariant of a store *)

Record bounded (s : NonceStore) : Prop := {
  b_max : 1 <= _max_outstanding s;
  b_wf : wf_dict (_nonces s);
  b_total : Z.of_nat (length (_nonces s)) <= _max_outstanding s;
  b_client c : Z.of_nat (length (client_entries c (_nonces s))) <= per_client_limit s }.

Lemma bounded_sublist s d : d `sublist_of` _nonces s → bounded s → bounded (with_nonces s d).
Proof.
  intros Hs [H1 H2 H3 H4]. split; simpl; [done|by eapply wf_sublist|apply sublist_length in Hs; simpl; unfold nonce_table, dict in *; lia|].
  intros c. specialize (H4 c). apply client_entries_sublist with (c := c) in Hs. apply sublist_length in Hs.
  unfold per_client_limit in *. simpl in *. lia.
Qed.
Lemma client_entries_dset c k v (d : nonce_table) :
  (length (client_entries c (dset k v d)) ≤ length (client_entries c d) + if bool_decide (v.2 = c) then 1 else 0)%nat.
Proof.
  induction d as [|[j w] d IH]; simpl.
  - rewrite client_entries_cons. by case_bool_decide.
  - destruct (decide (k = j)); rewrite !client_entries_cons, !length_app; subst; revert IH; repeat case_bool_decide; simpl; lia.
Qed.

Lemma prune_sublist now s : _nonces (_prune now s) `sublist_of` _nonces s.
Proof. apply sublist_filter. Qed.

(** What is left before a nonce is added: one place for the client, one in all. *)
Definition evicted (client : string) (t_prune : Z) (s : NonceStore) : NonceStore :=
  _evict_over_limit (_evict_client_over_limit client (_prune t_prune s)).
#[local] Arguments evicted : simpl never.
Lemma evicted_spec client t s : bounded s →
  _nonces (evicted client t s) `sublist_of` _nonces (_prune t s) ∧
  Z.of_nat (length (_nonces (evicted client t s))) < _max_outstanding s ∧
  Z.of_nat (length (client_entries client (_nonces (evicted client t s)))) < per_client_limit s.
Proof.
  intros Hb. pose proof (bounded_sublist _ _ (prune_sublist t s) Hb) as [H1 H2 _ _].
  set (s1 := _prune t s) in *.
  set (d2 := evict_client_loop (per_client_limit s1) (sort_by snd (client_entries client (_nonces s1))) (_nonces s1)).
  change (_nonces (evicted client t s)) with (evict_loop (length d2) (_max_outstanding s1) d2).
  destruct (evict_client_loop_spec (per_client_limit s1) client (sort_by snd (client_entries client (_nonces s1))) (_nonces s1)) as [Hs Hc].
  - unfold per_client_limit. lia.
  - done.
  - by rewrite sort_by_perm.
  - fold d2 in Hs, Hc. destruct (evict_loop_spec (length d2) (_max_outstanding s1) d2 H1 eq_refl) as [Hs' Hc'].
    split_and!; [by etrans|done|]. apply client_entries_sublist with (c := client), sublist_length in Hs'.
    change (per_client_limit s1) with (per_client_limit s) in Hc. lia.
Qed.

Lemma issue_bounded client nonce t1 t2 s : bounded s → bounded (issue client nonce t1 t2 s).
Proof.
  intros Hb. destruct (evicted_spec client t1 s Hb) as (Hs & Ht & Hc).
  change (bounded (with_nonces s (dset nonce (t2, client) (_nonces (evicted client t1 s))))).
  revert Hs Ht Hc. generalize (_nonces (evicted client t1 s)). intros d Hs Ht Hc.
  assert (bounded (with_nonces s d)) as [H1 H2 _ H4].
  { apply bounded_sublist; [|done]. etrans; [exact Hs|apply prune_sublist]. }
  split; simpl in *; [done|by apply wf_dset| |].
  - pose proof (length_dset nonce (t2, client) d). lia.
  - intros c. specialize (H4 c). pose proof (client_entries_dset c nonce (t2, client) d) as Hd.
    change (per_client_limit (with_nonces _ _)) with (per_client_limit s) in *. simpl in Hd.
    case_bool_decide; [subst|]; lia.
Qed.
Lemma consume_bounded nonce t1 t2 s : bounded s → bounded (consume nonce t1 t2 s).1.
Proof.
  intros Hb. pose proof (bounded_sublist _ _ (prune_sublist t1 s) Hb) as Hp. unfold consume.
  destruct (dget nonce _) as [[t c]|]; [|exact Hp]. apply (bounded_sublist s); [|done].
  etrans; [apply dpop_sublist|apply prune_sublist].
Qed.

(** However it is used, a nonce store keeps at most [max_outstanding] nonces,
    at most 16 of any one client, and no duplicates. *)
Theorem nonce_store_bounded (ttl max_outstanding : Z) (calls : list call) :
  let s := (run_calls (new_store ttl max_outstanding) calls).1 in
  wf_dict (_nonces s) ∧
  Z.of_nat (length (_nonces s)) <= Z.max 1 max_outstanding ∧
  ∀ client, Z.of_nat (length (client_entries client (_nonces s))) <= MAX_OUTSTANDING_NONCES_PER_CLIENT.
Proof.
  assert (bounded (run_calls (new_store ttl max_outstanding) calls).1 ∧
          _max_outstanding (run_calls (new_store ttl max_outstanding) calls).1 = Z.max 1 max_outstanding) as [[H1 H2 H3 H4] Hm].
  { apply (run_calls_inv (λ s _, bounded s ∧ _max_outstanding s = Z.max 1 max_outstanding)).
    - split; [|done]. split; simpl; [lia|constructor|lia|]. intros c. unfold per_client_limit. simpl. lia.
    - intros s h c s' b [Hb Hm] E. destruct c as [client nonce t1 t2|nonce t1 t2]; simpl in E.
      + injection E as <- <-. split; [by apply issue_bounded|exact Hm].
      + split; [|].
        * change s' with (s', b).1. rewrite <- E. by apply consume_bounded.
        * unfold consume in E. destruct (dget nonce _) as [[t c]|]; by injection E as <- <-. }
  simpl. split_and!; [done|by rewrite <- Hm|]. intros client. specialize (H4 client).
  unfold per_client_limit in H4. unfold MAX_OUTSTANDING_NONCES_PER_CLIENT in *. lia.
Qed.

(** ** Single use *)

(** Nothing after position [j] of the history consumes [n]. *)
Definition unspent_since (h : list (call * bool)) (j : nat) (n : string) : Prop :=
  ∀ k t1 t2, (j < k)%nat → h !! k ≠ Some (Consume n t1 t2, true).
Definition issued_at (h : list (call * bool)) (n : string) (t : Z) : Prop :=
  ∃ j c t1, h !! j = Some (Issue c n t1 t, true) ∧ unspent_since h j n.

(** The history explains the store and every acceptance. *)
Record explained (ttl : Z) (s : NonceStore) (h : list (call * bool)) : Prop := {
  e_ttl : _ttl s = ttl;
  e_wf : wf_dict (_nonces s);
  e_live n t c : dget n (_nonces s) = Some (t, c) → issued_at h n t;
  e_once i n t1 t2 : h !! i = Some (Consume n t1 t2, true) →
    ∃ j c t0 t, (j < i)%nat ∧ h !! j = Some (Issue c n t0 t, true) ∧ t2 - t < ttl ∧
      ∀ k u1 u2, (j < k < i)%nat → h !! k ≠ Some (Consume n u1 u2, true) }.

Lemma issued_at_snoc h n t x : (∀ t1 t2, x ≠ (Consume n t1 t2, true)) → issued_at h n t → issued_at (h ++ [x]) n t.
Proof.
  intros Hx (j & c & t1 & Hj & Hun). exists j, c, t1. split; [by apply lookup_app_l_Some|].
  intros k u1 u2 Hlt [Hk|[_ Hk]]%lookup_app_Some; [by eapply Hun|]. apply list_lookup_singleton_Some in Hk as [_ Hk]. by eapply Hx.
Qed.
Lemma once_snoc ttl h x i n t1 t2 :
  (h !! i = Some (Consume n t1 t2, true) →
    ∃ j c t0 t, (j < i)%nat ∧ h !! j = Some (Issue c n t0 t, true) ∧ t2 - t < ttl ∧
      ∀ k u1 u2, (j < k < i)%nat → h !! k ≠ Some (Consume n u1 u2, true)) →
  (x = (Consume n t1 t2, true) → ∃ t, issued_at h n t ∧ t2 - t < ttl) →
  (h ++ [x]) !! i = Some (Consume n t1 t2, true) →
    ∃ j c t0 t, (j < i)%nat ∧ (h ++ [x]) !! j = Some (Issue c n t0 t, true) ∧ t2 - t < ttl ∧
      ∀ k u1 u2, (j < k < i)%nat → (h ++ [x]) !! k ≠ Some (Consume n u1 u2, true).
Proof.
  intros Hold Hnew [Hi|[Hge Hi]]%lookup_app_Some.
  - destruct (Hold Hi) as (j & c & t0 & t & Hlt & Hj & Ht & Hun). exists j, c, t0, t.
    split_and!; [done|by apply lookup_app_l_Some|done|]. intros k u1 u2 Hk.
    rewrite lookup_app_l; [by apply Hun|]. apply lookup_lt_Some in Hi. lia.
  - apply list_lookup_singleton_Some in Hi as [Hi ->]. assert (i = length h) as -> by lia.
    destruct (Hnew eq_refl) as (t & (j & c & t0 & Hj & Hun) & Ht). exists j, c, t0, t.
    split_and!; [by eapply lookup_lt_Some|by apply lookup_app_l_Some|done|]. intros k u1 u2 Hk.
    rewrite lookup_app_l by lia. apply Hun. lia.
Qed.

Lemma explained_start ttl m : explained ttl (new_store ttl m) [].
Proof. split; [done|constructor|done|]. intros i n t1 t2 H. by rewrite lookup_nil in H. Qed.

Lemma explained_issue ttl client nonce t1 t2 s h :
  explained ttl s h → explained ttl (issue client nonce t1 t2 s) (h ++ [(Issue client nonce t1 t2, true)]).
Proof.
  intros [H1 H2 H3 H4].
  assert (_nonces (evicted client t1 s) `sublist_of` _nonces s) as Hs.
  { etrans; [|apply prune_sublist]. unfold evicted. etrans; [apply evict_loop_sublist|apply evict_client_loop_sublist]. }
  pose proof (wf_sublist _ _ Hs H2) as Hwf.
  change (explained ttl (with_nonces s (dset nonce (t2, client) (_nonces (evicted client t1 s)))) (h ++ [(Issue client nonce t1 t2, true)])).
  revert Hs Hwf. generalize (_nonces (evicted client t1 s)). intros d Hs Hwf.
  split; simpl; [done|by apply wf_dset| |].
  - intros n t c. rewrite dget_dset. case_decide as Hn.
    + intros [= -> ->]. subst n. exists (length h), c, t1. split; [by rewrite lookup_app_r, Nat.sub_diag by lia|].
      intros k u1 u2 Hk Hl. apply lookup_lt_Some in Hl. rewrite length_app in Hl. simpl in Hl. lia.
    + intros Hn'. apply issued_at_snoc; [done|]. eapply H3. by eapply dget_sublist.
  - intros i n u1 u2. apply once_snoc; [apply H4|done].
Qed.

Lemma explained_consume ttl nonce t1 t2 s h :
  explained ttl s h →
  explained ttl (consume nonce t1 t2 s).1 (h ++ [(Consume nonce t1 t2, (consume nonce t1 t2 s).2)]).
Proof.
  intros [H1 H2 H3 H4]. pose proof (prune_sublist t1 s) as Hs. pose proof (wf_sublist _ _ Hs H2) as Hwf.
  assert (∀ n t c, dget n (_nonces (_prune t1 s)) = Some (t, c) → issued_at h n t) as Hlive.
  { intros n t c Hn. eapply H3. by eapply dget_sublist. }
  unfold consume. destruct (dget nonce (_nonces (_prune t1 s))) as [[t c]|] eqn:E; cbn [fst snd].
  - split; simpl; [done|by apply wf_dpop| |].
    + intros n t' c' Hn. destruct (decide (n = nonce)) as [->|Hne].
      * rewrite dget_dpop_eq in Hn by done. discriminate.
      * rewrite dget_dpop_ne in Hn by done. apply issued_at_snoc; [congruence|by eapply Hlive].
    + intros i n u1 u2. apply once_snoc; [apply H4|]. intros [= -> -> -> Hok]. exists t. split; [by eapply Hlive|].
      rewrite H1 in Hok. lia.
  - split; simpl; [done|done| |].
    + intros n t' c' Hn. apply issued_at_snoc; [done|by eapply Hlive].
    + intros i n u1 u2. apply once_snoc; [apply H4|done].
Qed.

(** C26 — A nonce authorizes at most one request.  Over any sequence of calls on a
    new store, each accepted nonce was issued earlier, less than a lifetime ago by
    the acceptance's clock, and was not accepted in between. *)
Theorem nonce_single_use (ttl max_outstanding : Z) (calls : list call) (i : nat) (nonce : string) (t_prune t_check : Z) :
  let history := (run_calls (new_store ttl max_outstanding) calls).2 in
  history !! i = Some (Consume nonce t_prune t_check, true) →
  ∃ j client t0 t_issue, (j < i)%nat ∧ history !! j = Some (Issue client nonce t0 t_issue, true) ∧
    t_check - t_issue < ttl ∧
    ∀ k u1 u2, (j < k < i)%nat → history !! k ≠ Some (Consume nonce u1 u2, true).
Proof.
  simpl. intros H. eapply e_once; [|exact H].
  apply (run_calls_inv (explained ttl) (new_store ttl max_outstanding) calls); [apply explained_start|].
  intros s h c s' b He E. destruct c as [client n t1 t2|n t1 t2]; simpl in E.
  - injection E as <- <-. by apply explained_issue.
  - pose proof (explained_consume ttl n t1 t2 s h He) as Hc. by rewrite E in Hc.
Qed.

(** A nonce is issued, accepted, and refused the second time. *)
Definition sample_calls : list call :=
  [Issue "10.0.0.2" "boot:n1" 0 0; Issue "10.0.0.3" "boot:n2" 1 1; Consume "boot:n1" 5 5; Consume "boot:n1" 6 6;
   Consume "boot:n2" 400 400].
Lemma nonce_single_use_witness :
  map snd (run_calls (new_store 300 1024) sample_calls).2 = [true; true; true; false; false] ∧
  ∃ j client t0 t_issue, (j < 2)%nat ∧
    (run_calls (new_store 300 1024) sample_calls).2 !! j = Some (Issue client "boot:n1" t0 t_issue, true) ∧
    5 - t_issue < 300.
Proof.
  split; [vm_compute; reflexivity|].
  destruct (nonce_single_use 300 1024 sample_calls 2 "boot:n1" 5 5) as (j & c & t0 & t & Hlt & Hj & Ht & _).
  - vm_compute. reflexivity.
  - exists j, c, t0, t. auto.
Defined.

(** ** The signed message *)

Lemma cut_at (c : ascii) (a a' x x' : list ascii) :
  c ∉ a → c ∉ a' → a ++ c :: x = a' ++ c :: x' → a = a' ∧ x = x'.
Proof.
  revert a'. induction a as [|d a IH]; intros [|d' a'] Ha Ha' E; simpl in *.
  - by injection E.
  - injection E as -> _. by destruct Ha'; left.
  - injection E as -> _. by destruct Ha; left.
  - apply not_elem_of_cons in Ha as [_ Ha], Ha' as [_ Ha']. injection E as -> E.
    by destruct (IH a' Ha Ha' E) as [-> ->].
Qed.

Lemma has_char_elem c s : has_char c s = false → c ∉ chars s.
Proof.
  unfold has_char, any_char. intros H Hin. apply not_true_iff_false in H. apply H.
  apply existsb_exists. exists c. split; [by apply list_elem_of_In|apply Ascii.eqb_refl].
Qed.

(** A signed message names one request: two requests whose nonces and methods
    hold no line break and whose messages are equal agree on the nonce, the
    method, the path and the digest of the body, whatever the path holds. *)
Theorem signature_message_binds (sha256_text : string → string)
    (digest_length : ∀ s, slen (sha256_text s) = 64%nat)
    (nonce method path payload nonce' method' path' payload' : string) :
  has_char nl_char nonce = false → has_char nl_char nonce' = false →
  has_char nl_char (upper method) = false → has_char nl_char (upper method') = false →
  reapply_signature_message sha256_text nonce method path payload =
    reapply_signature_message sha256_text nonce' method' path' payload' →
  nonce = nonce' ∧ upper method = upper method' ∧ path = path' ∧ sha256_text payload = sha256_text payload'.
Proof.
  intros Hn%has_char_elem Hn'%has_char_elem Hm%has_char_elem Hm'%has_char_elem E.
  apply (f_equal chars) in E. unfold reapply_signature_message in E. rewrite !chars_app in E.
  do 3 apply app_inv_head in E. apply cut_at in E as [En E]; [|done..].
  apply app_inv_head in E. apply cut_at in E as [Em E]; [|done..]. apply app_inv_head in E.
  assert (∀ d, length (chars (nl +:+ "sha256:" +:+ sha256_text d +:+ nl)) = 73%nat) as Hlen.
  { intros d. rewrite !chars_app, !length_app, <- (slen_chars (sha256_text d)), digest_length. reflexivity. }
  assert (chars path ++ chars (nl +:+ "sha256:" +:+ sha256_text payload +:+ nl) =
          chars path' ++ chars (nl +:+ "sha256:" +:+ sha256_text payload' +:+ nl)) as E'.
  { rewrite !chars_app. exact E. }
  apply app_inj_2 in E' as [Ep E']; [|by rewrite !Hlen].
  rewrite !chars_app in E'. do 2 apply app_inv_head in E'. apply app_inv_tail in E'.
  split_and!; by apply chars_inj.
Qed.

Definition sample_digest (s : string) : string := unchars (take 64 (chars s ++ repeat "0"%char 64)).
Lemma sample_digest_length s : slen (sample_digest s) = 64%nat.
Proof.
  unfold sample_digest. rewrite slen_chars, chars_unchars, length_take, length_app, repeat_length. lia.
Qed.
Lemma signature_message_binds_witness :
  reapply_signature_message sample_digest "boot:n1" "post" "/reapply" "abc" =
    reapply_signature_message sample_digest "boot:n1" "POST" "/reapply" "abc0" ∧
  "/reapply" = "/reapply" ∧ sample_digest "abc" = sample_digest "abc0".
Proof.
  assert (reapply_signature_message sample_digest "boot:n1" "post" "/reapply" "abc" =
    reapply_signature_message sample_digest "boot:n1" "POST" "/reapply" "abc0") as E by (vm_compute; reflexivity).
  split; [exact E|].
  destruct (signature_message_binds sample_digest sample_digest_length "boot:n1" "post" "/reapply" "abc" "boot:n1" "POST" "/reapply" "abc0")
    as (_ & _ & Hp & Hd); [reflexivity..|exact E|]. split; assumption.
Defined.

(** ** Guards *)


(** The verifier accepted this message during the call. *)
Definition verifier_accepted (ssh_keygen message : string) (e : env) (w w' : world) : Prop :=
  ∃ n allowed sig r, (w_n w ≤ n < w_n w')%nat ∧
    e_run e n (verify_command ssh_keygen allowed sig) message = Ok r ∧ returncode r = 0.

Section guard.
Context (sha256_text : string → string) (json_text : value → Z → string) (ssh_keygen : string).

Lemma forward_write_new mode p c : forward (write_new mode p c).
Proof. unfold write_new, new_node, time_time. forward. Qed.
Lemma forward_named_temporary suffix c : forward (named_temporary_file suffix c).
Proof. unfold named_temporary_file. pose proof forward_write_new. forward. Qed.
Lemma forward_attempt {A} (m : M A) : forward m → forward (attempt m).
Proof. intros Hm e w. unfold attempt. specialize (Hm e w). by destruct (m e w). Qed.
Lemma forward_is_regular p : forward (_is_regular_file p).
Proof. unfold _is_regular_file, lstat. forward. Qed.
Lemma forward_is_provisioned root : forward (is_provisioned_config_root root).
Proof. unfold is_provisioned_config_root. pose proof forward_is_regular. forward. Qed.
Lemma forward_build_signers root : forward (build_allowed_signers json_text root).
Proof. unfold build_allowed_signers, read_text. pose proof forward_named_temporary. forward. Qed.

Lemma run_verify message blob allowed e w w' :
  verify_ssh_signature ssh_keygen message blob allowed e w = (Ok true, w') →
  ∃ n sig r, (w_n w ≤ n < w_n w')%nat ∧ e_run e n (verify_command ssh_keygen allowed sig) message = Ok r ∧ returncode r = 0.
Proof.
  unfold verify_ssh_signature. intros (sig & w1 & Hs & H)%run_bind. apply forward_of in Hs; [|apply forward_named_temporary].
  unfold finally in H. apply run_bind in H as (r & w2 & Hr & ([] & w3 & Hu & [-> ->]%run_lift)%run_bind).
  apply forward_of in Hu; [|apply forward_unlink_missing_ok].
  apply run_attempt in Hr as (r0 & [= <-] & Hr).
  apply run_catch in Hr as [Hr|(x & w4 & _ & _ & Hr)]; [|by apply run_ret in Hr as [? _]].
  apply run_bind in Hr as (p & w4 & Hp & Hr). apply run_ret in Hr as [Hz ->]. apply Z.eqb_eq in Hz.
  unfold run_command_input in Hp. apply run_bind in Hp as (q & w5 & Hq & [-> ->]%run_lift). unfold ask in Hq.
  injection Hq as Hq <-. simpl in Hu. exists (w_n w1), sig, p. split_and!; [lia|lia|exact Hq|done].
Qed.

(** The evidence of an authenticated request. *)
Definition authenticated (store : NonceStore) (q : request) (a : authorization) (store' : NonceStore) (e : env) (w w' : world) : Prop :=
  a = Authorization (q_nonce q) (q_signature q) (upper (q_method q)) (q_path q) ∧
  (∃ t_prune t_check, consume (q_nonce q) t_prune t_check store = (store', true)) ∧
  is_ok (b64decode (q_signature q)) = true ∧
  verifier_accepted ssh_keygen
    (reapply_signature_message sha256_text (q_nonce q) (upper (q_method q)) (q_path q) (q_body q)) e w w'.

Lemma run_verify_ssh_auth store q allowed e w store' a w' :
  _verify_ssh_auth sha256_text ssh_keygen store q allowed e w = (Ok (store', Ok a), w') →
  authenticated store q a store' e w w'.
Proof.
  unfold _verify_ssh_auth. intros ([s1 r] & w1 & Hv & (u & w2 & Hu & H)%run_bind)%run_bind.
  apply run_ret in H as [[= -> Hr] ->]. simpl in Hr. apply forward_of in Hu; [|apply forward_attempt, forward_unlink_missing_ok].
  destruct u as [[]|x]; [|discriminate]. subst r. unfold verify_request in Hv.
  case_match; [by apply run_ret in Hv as [? _]|].
  apply run_bind in Hv as (t1 & w3 & H1 & (t2 & w4 & H2 & Hv)%run_bind).
  apply forward_of in H1; [|unfold time_time; auto with forward]. apply forward_of in H2; [|unfold time_time; auto with forward].
  destruct (consume (q_nonce q) t1 t2 store) as [s2 accepted] eqn:Hc. destruct accepted; [|by apply run_ret in Hv as [? _]].
  cbn [negb] in Hv. destruct (b64decode (q_signature q)) as [blob|x] eqn:Hb; [|by apply run_ret in Hv as [? _]].
  apply run_bind in Hv as (valid & w5 & Hvalid & Hv). apply run_attempt in Hvalid as (valid0 & [= <-] & Hvalid).
  apply run_ret in Hv as [[= -> Hres] ->]. destruct valid as [[]|x]; [|discriminate..]. injection Hres as <-.
  apply run_verify in Hvalid as (n & sig & r & Hn & Hrun & Hz).
  split_and!; [done|by exists t1, t2|by rewrite Hb|]. exists n, allowed, sig, r. split_and!; [lia|lia|done|done].
Qed.

End guard.

(** A provisioned device, an admin key, and a signed request. *)
Definition auth_fs : fs :=
  list_to_map
    [ (["tmp"], plain_dir); (["data"], plain_dir); (["data"; "config"], plain_dir);
      (["data"; "config"; "config.toml"], plain_file (CText "version = 2"));
      (["data"; "config"; "admin-signers"], plain_file (CText ("ssh-ed25519 AAAA" +:+ nl))) ].
Definition auth_store : NonceStore := issue "10.0.0.2" "boot:n1" 0 0 (new_store 300 1024).
Definition auth_request : request := Request "boot:n1" "QUJD" "post" "/reapply" "abc".
Definition auth_run : result (NonceStore * bool * result (option authorization)) * world :=
  run_op (ssh_auth_guard sample_digest (λ _ _, "") "ssh-keygen" ["data"; "config"] false auth_store auth_request) sample_env auth_fs.
Definition auth_outcome : option authorization := Some (Authorization "boot:n1" "QUJD" "POST" "/reapply").

