(* ===== verification/ConfigBuilder.v ===== *)
(** * [config_builder.py]: a configuration from the fields of a form

    One definition per function of
    src/scripts/atomixos_provision/src/atomixos_provision/config_builder.py.
    [tomllib.loads] is a parameter: the document of a text, or the message of its
    [TOMLDecodeError]. *)

From Stdlib Require Import Ascii.
From S2P Require Import Prelude PyStr PyVal ConfigCheck Config FS Staging StagedJob Auth.

Local Open Scope Z_scope.

(** [json.dumps] of the texts, numbers and lists the builder writes. *)
Definition json_list (items : list string) : string := "[" +:+ join ", " items +:+ "]".
Definition json_strs (l : list string) : string := json_list (map json_dumps_str l).
Definition json_ints (l : list Z) : string := json_list (map str_int l).

(** [int(s)]: at most 4300 digits. *)
Definition int_text (s : string) : option Z :=
  if (4300 <? length (List.filter is_digit_ascii (chars s)))%nat then None else py_int s.

(** The lines of a field that are not blank, stripped. *)
Definition field_lines (raw : string) : list string := filter (λ s, s ≠ "") (map strip (splitlines raw)).

Definition parse_port (field line : string) : result Z :=
  port ← of_option (int_text line) (provision_error (field +:+ ": " +:+ py_repr line +:+ " is not a valid port number"));
  if (1 <=? port) && (port <=? 65535) then Ok port
  else Err (provision_error (field +:+ ": port " +:+ str_int port +:+ " out of range (1-65535)")).
Definition parse_port_lines (raw field : string) : result (list Z) := mapR (parse_port field) (field_lines raw).

(** ** Sections *)

Section builder.
Context (defaults : lan_defaults) (toml_loads : string → string + dict value).

Definition generated_required_units (quadlet : string) : result (list string) :=
  let snippet := strip quadlet in
  if bool_decide (snippet = "") then Err (provision_error "container TOML snippet is required")
  else match toml_loads snippet with
       | inl exc => Err (provision_error ("invalid container TOML snippet: " +:+ exc))
       | inr parsed =>
           let container := match dget "container" parsed with
                            | Some c => c
                            | None => match dget "containers" parsed with
                                      | Some (VDict containers) => vget "container" containers
                                      | _ => VNone
                                      end
                            end in
           match container with
           | VDict ((_ :: _) as d) => mapR validate_name (dkeys d)
           | _ => Err (provision_error "container TOML snippet must define at least one [container.<name>] table")
           end
       end.

Definition admin_block (index : Z) (ssh_key : string) : list string :=
  ["[users.admin" +:+ str_int index +:+ "]"; "isAdmin = true"; "ssh_key = " +:+ json_dumps_str ssh_key].
Definition generated_extra_users (ssh_keys : list string) : string :=
  join (nl +:+ nl) (imap (λ i key, join nl (admin_block (Z.of_nat i + 2) key)) ssh_keys).

(** [re.sub(r"^\[(?!containers\.)word\.", "[containers.word.", text, flags=MULTILINE)];
    the lookahead holds wherever [word] matches. *)
Definition sub_header (word text : string) : string :=
  join nl (map (λ line, if startswith line ("[" +:+ word +:+ ".")
                        then "[containers." +:+ str_drop 1 line else line) (split_on nl_char text)).
Definition normalize_quadlet_headers (quadlet : string) : string :=
  sub_header "build" (sub_header "volume" (sub_header "network" (sub_header "container" quadlet))).

(** [form.get(key, dflt).strip() or dflt] *)
Definition field (form : dict string) (key : string) : string := default "" (dget key form).
Definition field_or (form : dict string) (key dflt : string) : string :=
  let s := strip (default dflt (dget key form)) in if bool_decide (s = "") then dflt else s.

Definition zone_lines (zone : string) (tcp udp : list Z) : list string :=
  match tcp, udp with
  | [], [] => []
  | _, _ => ("[network.firewall.inbound." +:+ zone +:+ "]")
            :: match tcp with [] => [] | _ => ["tcp = " +:+ json_ints tcp] end
            ++ match udp with [] => [] | _ => ["udp = " +:+ json_ints udp] end
  end.
Definition firewall_section (wan_tcp wan_udp lan_tcp lan_udp : list Z) : list string :=
  let wan := zone_lines "wan" wan_tcp wan_udp in
  match zone_lines "lan" lan_tcp lan_udp with
  | [] => wan
  | lan => wan ++ match wan with [] => [] | _ => [""] end ++ lan
  end.

(** The texts of a list of constants. *)
Definition constant_texts (l : list value) : list string := map py_str l.

Definition lan_section (gateway_cidr dhcp_start dhcp_end lan_domain : string) (gateway_aliases : list string)
    (hostname_pattern : string) : list string :=
  let aliases := match gateway_aliases with [] => constant_texts (DEFAULT_LAN_GATEWAY_ALIASES defaults) | l => l end in
  ["[network.dnsmasq]";
   "gateway_cidr = " +:+ json_dumps_str gateway_cidr;
   "dhcp_start = " +:+ json_dumps_str dhcp_start;
   "dhcp_end = " +:+ json_dumps_str dhcp_end;
   "domain = " +:+ json_dumps_str lan_domain;
   "gateway_aliases = " +:+ json_strs aliases]
  ++ (if bool_decide (hostname_pattern = "") then [] else ["hostname_pattern = " +:+ json_dumps_str hostname_pattern]).
Definition ntp_section : list string :=
  ["[network.ntp]"; "servers = " +:+ json_strs (constant_texts (DEFAULT_NTP_SERVERS defaults))].
Definition os_upgrade_section (server_url : string) : list string :=
  if bool_decide (server_url = "") then [] else ["[os_upgrade]"; "server_url = " +:+ json_dumps_str server_url].

Definition build_config_from_form (form : dict string) : result string :=
  match field_lines (field form "ssh_keys") with
  | [] => Err (provision_error "at least one SSH public key is required")
  | ssh_key :: extra_keys =>
      wan_tcp ← parse_port_lines (field form "wan_tcp") "WAN TCP";
      wan_udp ← parse_port_lines (field form "wan_udp") "WAN UDP";
      lan_tcp ← parse_port_lines (field form "lan_tcp") "LAN TCP";
      lan_udp ← parse_port_lines (field form "lan_udp") "LAN UDP";
      let os_upgrade_server_url := strip (field form "os_upgrade_server_url") in
      let gateway_cidr := field_or form "gateway_cidr" (DEFAULT_LAN_GATEWAY_CIDR defaults) in
      let dhcp_start := field_or form "dhcp_start" (DEFAULT_LAN_DHCP_START defaults) in
      let dhcp_end := field_or form "dhcp_end" (DEFAULT_LAN_DHCP_END defaults) in
      let lan_domain := field_or form "lan_domain" (DEFAULT_LAN_DOMAIN defaults) in
      let gateway_aliases := field_lines (field form "gateway_aliases") in
      let hostname_pattern := field_or form "hostname_pattern" (DEFAULT_LAN_HOSTNAME_PATTERN defaults) in
      let quadlet := normalize_quadlet_headers (strip (field form "quadlet")) in
      required ← match field_lines (field form "required") with
                 | [] => generated_required_units quadlet
                 | l => Ok l
                 end;
      let sections :=
        [ join nl ["version = 1"; ""; "[users.admin]"; "isAdmin = true"; "ssh_key = " +:+ json_dumps_str ssh_key];
          generated_extra_users extra_keys;
          join nl (firewall_section wan_tcp wan_udp lan_tcp lan_udp);
          join nl (lan_section gateway_cidr dhcp_start dhcp_end lan_domain gateway_aliases hostname_pattern);
          join nl ntp_section;
          join nl (os_upgrade_section os_upgrade_server_url);
          join nl ["[activation]"; "required = " +:+ json_strs required];
          quadlet ] in
      Ok (strip (join (nl +:+ nl) (filter (λ s, s ≠ "") sections)) +:+ nl)
  end.
End builder.
