(* ===== verification/ConfigBuilderFacts.v ===== *)
(** * The form builder writes what the form says: theorems

    The lines the builder writes before the container snippet read, in the TOML
    reader of Toml.v, as the document of the fields, and no field can add a line. *)

From Stdlib Require Import Ascii.
From S2P Require Import Prelude PyStr PyVal PyDict ConfigCheck Config PartialConfig PartialFacts Toml TomlFacts FS Staging StagedJob Auth ConfigBuilder.

Local Open Scope Z_scope.

(** ** Texts made of blocks *)

Definition gap : string := nl +:+ nl.
(** The lines of blocks with a blank line between two. *)
Fixpoint spaced (bs : list (list string)) : list string :=
  match bs with
  | [] => []
  | b :: bs' => match bs' with [] => b | _ => b ++ "" :: spaced bs' end
  end.

Lemma join_app sep (l1 l2 : list string) : l1 ≠ [] → l2 ≠ [] → join sep (l1 ++ l2) = join sep l1 +:+ sep +:+ join sep l2.
Proof.
  intros H1 H2. induction l1 as [|x [|y l1] IH]; [done| |].
  - destruct l2 as [|z l2]; [done|]. apply join_cons_line.
  - change ((x :: y :: l1) ++ l2) with (x :: (y :: l1) ++ l2). rewrite <-app_comm_cons, !join_cons_line.
    rewrite app_comm_cons, IH by done. by rewrite <-!str_app_assoc.
Qed.
Lemma spaced_cons b b' bs : spaced (b :: b' :: bs) = b ++ "" :: spaced (b' :: bs).
Proof. done. Qed.
Lemma spaced_ne b bs : b ≠ [] → spaced (b :: bs) ≠ [].
Proof. destruct b; [done|]. by destruct bs. Qed.
Lemma join_spaced bs : Forall (λ b, b ≠ []) bs → join gap (map (join nl) bs) = join nl (spaced bs).
Proof.
  induction bs as [|b [|b' bs] IH]; intros Hb; [done..|]. apply Forall_cons in Hb as [H1 Hb]. pose proof Hb as [H2 _]%Forall_cons.
  rewrite spaced_cons, join_app by done. change (map (join nl) (b :: b' :: bs)) with (join nl b :: map (join nl) (b' :: bs)).
  specialize (IH Hb). change (map (join nl) (b' :: bs)) with (join nl b' :: map (join nl) bs) in *. rewrite join_cons_line, IH.
  pose proof (spaced_ne b' bs H2) as Hs. destruct (spaced (b' :: bs)) as [|s ss]; [done|]. rewrite join_cons_line.
  unfold gap. by rewrite <-!str_app_assoc.
Qed.

(** Groups of non-empty texts, the empty groups left out. *)
Lemma join_groups (groups : list (list string)) : Forall (Forall (λ s, s ≠ "")) groups →
  join gap (filter (λ s, s ≠ "") (map (join gap) groups)) = join gap (concat groups).
Proof.
  induction groups as [|g groups IH]; intros Hg; [done|]. apply Forall_cons in Hg as [H1 Hg]. specialize (IH Hg). csimpl.
  destruct g as [|x g]; [rewrite filter_cons_False by naive_solver; exact IH|].
  assert (join gap (x :: g) ≠ "") as Hne.
  { apply Forall_cons in H1 as [Hx _]. destruct g as [|y g]; [done|]. rewrite join_cons_line. by destruct x. }
  rewrite filter_cons_True by done. destruct (decide (concat groups = [])) as [E|E].
  - rewrite E, app_nil_r in *. assert (filter (λ s, s ≠ "") (map (join gap) groups) = []) as ->; [|done].
    clear -E. induction groups as [|h groups IH]; [done|]. csimpl in E. apply app_nil in E as [-> E]. csimpl.
    rewrite filter_cons_False by naive_solver. by apply IH.
  - rewrite join_app by done. rewrite <-IH. destruct (filter _ _) as [|f fs] eqn:Ef; [|done].
    exfalso. apply E. clear -Ef Hg. induction groups as [|h groups IH]; [done|]. apply Forall_cons in Hg as [Hh Hg]. csimpl in Ef.
    destruct h as [|y h]; [rewrite filter_cons_False in Ef by naive_solver; by apply IH|].
    rewrite filter_cons_True in Ef; [done|]. apply Forall_cons in Hh as [Hy _].
    destruct h as [|z h]; [done|]. rewrite join_cons_line. by destruct y.
Qed.

(** ** Tables *)

(** A table: where it is, and what it holds. *)
Definition table : Type := list string * dict value.
Definition header_line (p : list string) : string := "[" +:+ join "." (map _toml_key p) +:+ "]".
Definition value_line (kv : string * value) : string := match toml_line kv with Ok s => s | Err _ => "" end.
Definition block_of (t : table) : list string := header_line t.1 :: map value_line t.2.

(** A value the builder writes. *)
Definition writable (v : value) : Prop := is_ok (_toml_value v) = true ∧ keys_ok v.
Record table_ok (t : table) : Prop := TableOk {
  tok_path : t.1 ≠ [] ∧ Forall key_ok t.1;
  tok_keys : NoDup (dkeys t.2) ∧ Forall (λ kv, key_ok kv.1 ∧ writable kv.2) t.2 }.

Lemma value_lines (d : dict value) : Forall (λ kv, key_ok kv.1 ∧ writable kv.2) d → mapR toml_line d = Ok (map value_line d).
Proof.
  induction 1 as [|[k v] d [_ [Hv _]] _ IH]; [done|]. simpl. unfold value_line, toml_line in *. simpl in *.
  destruct (_toml_value v); [simpl|done]. rewrite IH. done.
Qed.
Lemma block_no_nl t : table_ok t → Forall no_nl (block_of t).
Proof.
  intros [[_ Hp] [_ Hk]]. constructor.
  - unfold header_line. apply (no_nl_app "["). split; [done|]. apply no_nl_app. split; [|done]. apply no_nl_join; [done|].
    apply Forall_map. eapply Forall_impl; [exact Hp|]. intros k. apply no_nl_toml_key.
  - eapply toml_line_no_nl, value_lines, Hk. eapply Forall_impl; [exact Hk|]. intros [k v] [? [_ ?]]. done.
Qed.
Lemma block_solid t : table_ok t → Forall solid (block_of t).
Proof.
  intros [[_ Hp] [_ Hk]]. constructor; [apply solid_header|].
  eapply solid_lines, value_lines, Hk. eapply Forall_impl; [exact Hk|]. intros [k v] [? [_ ?]]. done.
Qed.

Lemma no_nl_key k : no_nl k → key_ok k.
Proof. intros Hk [t ->]. apply no_nl_app in Hk as [_ Hk]. done. Qed.
Lemma bare_no_nl_key k : forallb is_bare_key_char (chars k) = true → key_ok k.
Proof. intros Hk. apply no_nl_key. rewrite <-(unchars_chars k). by apply bare_no_nl. Qed.
Lemma bare_toml_key k : k ≠ "" → forallb is_bare_key_char (chars k) = true → _toml_key k = k.
Proof.
  intros Hne Hk. pose proof (bare_no_nl_key k Hk) as Hok. unfold _toml_key.
  assert (forallb is_bare_key_char (rev (chars k)) = true) as Hr.
  { rewrite forallb_forall in *. intros c Hc%in_rev. by apply Hk. }
  assert (_BARE_KEY_RE k = true) as ->; [|done]. unfold _BARE_KEY_RE.
  destruct (rev (chars k)) as [|c l] eqn:E.
  - exfalso. apply Hne, chars_inj. by rewrite <-(rev_involutive (chars k)), E.
  - simpl in Hr. destruct (Ascii.eqb_spec c nl_char) as [->|_]; [done|]. by rewrite bool_decide_eq_false_2.
Qed.

Lemma strings_text l : mapR _toml_value (map VStr l) = Ok (map json_dumps_str l).
Proof. induction l as [|x l IH]; [done|]. simpl. by rewrite IH. Qed.
Lemma ints_text l : mapR _toml_value (map VInt l) = Ok (map str_int l).
Proof. induction l as [|x l IH]; [done|]. simpl. by rewrite IH. Qed.
Lemma toml_strs l : _toml_value (VList (map VStr l)) = Ok (json_strs l).
Proof. simpl. by rewrite toml_list, strings_text. Qed.
Lemma toml_ints l : _toml_value (VList (map VInt l)) = Ok (json_ints l).
Proof. simpl. by rewrite toml_list, ints_text. Qed.
Lemma writable_strs l : writable (VList (map VStr l)).
Proof. split; [by rewrite toml_strs|]. induction l as [|x l IH]; done. Qed.
Lemma writable_ints l : writable (VList (map VInt l)).
Proof. split; [by rewrite toml_ints|]. induction l as [|x l IH]; done. Qed.
Lemma writable_str s : writable (VStr s).
Proof. done. Qed.
Lemma writable_bool b : writable (VBool b).
Proof. done. Qed.

(** Reading the block of a table defines it. *)
Lemma read_block t root r cur : table_ok t → put t.1 (VDict t.2) root = Some r → read_lines (block_of t) (root, cur) = Some (r, t.1).
Proof.
  destruct t as [p d]. intros [[Hne Hp] [Hnd Hk]] Hput. simpl in *.
  destruct (put_any p _ (VDict []) root r Hput) as [r0 Hr0]. unfold header_line. rewrite read_header_line by done. simpl. rewrite Hr0. simpl.
  destruct (read_scalars d (map value_line d) p [] root r0) as (r' & Hr & Hput').
  - eapply Forall_impl; [exact Hk|]. by intros kv [? _].
  - by apply value_lines.
  - done.
  - split; [done|]. done.
  - done.
  - simpl in Hput'. rewrite Hput in Hput'. by injection Hput' as <-.
Qed.

Fixpoint put_tables (ts : list table) (root : dict value) : option (dict value) :=
  match ts with [] => Some root | t :: ts => r ← put t.1 (VDict t.2) root; put_tables ts r end.
Definition last_path (ts : list table) (cur : list string) : list string := List.last (map fst ts) cur.

Lemma last_path_cons t ts cur cur' : last_path (t :: ts) cur = last_path (t :: ts) cur'.
Proof. unfold last_path. revert t. induction ts as [|t' ts IH]; intros t; [done|]. apply (IH t'). Qed.

Lemma read_tables ts root r cur : Forall table_ok ts → put_tables ts root = Some r →
  read_lines (spaced (map block_of ts)) (root, cur) = Some (r, last_path ts cur).
Proof.
  revert root cur. induction ts as [|t [|t' ts] IH]; intros root cur Ht Hp.
  - simpl in *. by injection Hp as <-.
  - apply Forall_cons in Ht as [Ht _]. simpl in Hp. destruct (put t.1 _ root) as [r1|] eqn:E; [|done]. injection Hp as <-.
    by apply read_block.
  - apply Forall_cons in Ht as [Ht Hts]. change (put_tables (t :: t' :: ts) root) with (r ← put t.1 (VDict t.2) root; put_tables (t' :: ts) r) in Hp.
    destruct (put t.1 _ root) as [r1|] eqn:E; [|done]. change (map block_of (t :: t' :: ts)) with (block_of t :: block_of t' :: map block_of ts).
    rewrite spaced_cons. eapply read_lines_seq; [by apply read_block|]. change (read_lines (spaced (map block_of (t' :: ts))) (r1, t.1) = Some (r, last_path (t' :: ts) cur)).
    rewrite (IH r1) by done. by rewrite (last_path_cons _ _ _ cur).
Qed.

(** ** The document of a form *)

Section document.
Context (defaults : lan_defaults).

Definition form_user (ssh_key : string) : dict value := [("isAdmin", VBool true); ("ssh_key", VStr ssh_key)].
Definition extra_name (i : nat) : string := "admin" +:+ str_int (Z.of_nat i + 2).
Definition str_values (l : list string) : value := VList (map VStr l).
Definition int_values (l : list Z) : value := VList (map VInt l).
Definition some_ports (key : string) (l : list Z) : dict value := match l with [] => [] | _ => [(key, int_values l)] end.
Definition zone_table (tcp udp : list Z) : dict value := some_ports "tcp" tcp ++ some_ports "udp" udp.
Definition opt_entry (key : string) (d : dict value) : dict value := match d with [] => [] | _ => [(key, VDict d)] end.

(** The fields as the builder takes them. *)
Record fields : Type := Fields {
  ff_key : string; ff_extra : list string; ff_wan_tcp : list Z; ff_wan_udp : list Z; ff_lan_tcp : list Z; ff_lan_udp : list Z;
  ff_cidr : string; ff_start : string; ff_end : string; ff_domain : string; ff_aliases : list string; ff_pattern : string;
  ff_url : string; ff_required : list string }.
Context (f : fields).

Definition users_entries : dict value :=
  ("admin", VDict (form_user (ff_key f))) :: imap (λ i key, (extra_name i, VDict (form_user key))) (ff_extra f).
Definition inbound_entries : dict value :=
  opt_entry "wan" (zone_table (ff_wan_tcp f) (ff_wan_udp f)) ++ opt_entry "lan" (zone_table (ff_lan_tcp f) (ff_lan_udp f)).
Definition dnsmasq_entries : dict value :=
  [("gateway_cidr", VStr (ff_cidr f)); ("dhcp_start", VStr (ff_start f)); ("dhcp_end", VStr (ff_end f)); ("domain", VStr (ff_domain f));
   ("gateway_aliases", str_values (match ff_aliases f with [] => constant_texts (DEFAULT_LAN_GATEWAY_ALIASES defaults) | l => l end))]
  ++ (if bool_decide (ff_pattern f = "") then [] else [("hostname_pattern", VStr (ff_pattern f))]).
Definition ntp_entries : dict value := [("servers", str_values (constant_texts (DEFAULT_NTP_SERVERS defaults)))].
Definition url_entries : dict value := if bool_decide (ff_url f = "") then [] else [("server_url", VStr (ff_url f))].
Definition activation_entries : dict value := [("required", str_values (ff_required f))].

Definition form_document : dict value :=
  [("version", VInt 1); ("users", VDict users_entries);
   ("network", VDict (opt_entry "firewall" (opt_entry "inbound" inbound_entries)
                      ++ [("dnsmasq", VDict dnsmasq_entries); ("ntp", VDict ntp_entries)]))]
  ++ opt_entry "os_upgrade" url_entries ++ [("activation", VDict activation_entries)].

(** The same, table by table. *)
Definition opt_table (p : list string) (d : dict value) : list table := match d with [] => [] | _ => [(p, d)] end.
Definition extra_tables : list table := imap (λ i key, (["users"; extra_name i], form_user key)) (ff_extra f).
Definition zone_tables : list table :=
  opt_table ["network"; "firewall"; "inbound"; "wan"] (zone_table (ff_wan_tcp f) (ff_wan_udp f))
  ++ opt_table ["network"; "firewall"; "inbound"; "lan"] (zone_table (ff_lan_tcp f) (ff_lan_udp f)).
Definition form_tables : list table :=
  (["users"; "admin"], form_user (ff_key f)) :: extra_tables ++ zone_tables
  ++ [(["network"; "dnsmasq"], dnsmasq_entries)] ++ [(["network"; "ntp"], ntp_entries)]
  ++ opt_table ["os_upgrade"] url_entries ++ [(["activation"], activation_entries)].

Lemma put_tables_app a b root : put_tables (a ++ b) root = put_tables a root ≫= put_tables b.
Proof. revert root. induction a as [|t a IH]; intros root; [done|]. simpl. destruct (put _ _ root); [apply IH|done]. Qed.

Lemma extra_name_inj i j : extra_name i = extra_name j → i = j.
Proof.
  unfold extra_name. intros H. apply (f_equal chars) in H. rewrite !chars_app in H. apply (inj _) in H. apply chars_inj in H.
  apply (inj str_int) in H. lia.
Qed.
Lemma extra_name_admin i : extra_name i ≠ "admin".
Proof.
  unfold extra_name. intros H. apply (f_equal (length ∘ chars)) in H. simpl in H. rewrite chars_app, length_app in H.
  destruct (int_head (Z.of_nat i + 2)) as (c & l & E & _). rewrite E in H. simpl in H. lia.
Qed.

(** The users of the extra keys, from the [k]-th on. *)
Definition users_from (k : nat) (l : list string) : dict value := imap (λ i key, (extra_name (k + i), VDict (form_user key))) l.
Definition tables_from (k : nat) (l : list string) : list table := imap (λ i key, (["users"; extra_name (k + i)], form_user key)) l.
Lemma users_from_cons k x l : users_from k (x :: l) = (extra_name k, VDict (form_user x)) :: users_from (S k) l.
Proof.
  unfold users_from. csimpl. rewrite Nat.add_0_r. f_equal. apply imap_ext. intros i y _. simpl. by rewrite Nat.add_succ_r.
Qed.
Lemma tables_from_cons k x l : tables_from k (x :: l) = (["users"; extra_name k], form_user x) :: tables_from (S k) l.
Proof.
  unfold tables_from. csimpl. rewrite Nat.add_0_r. f_equal. apply imap_ext. intros i y _. simpl. by rewrite Nat.add_succ_r.
Qed.
Lemma put_extra k l us : (∀ i, (k ≤ i)%nat → extra_name i ∉ dkeys us) →
  put_tables (tables_from k l) [("version", VInt 1); ("users", VDict us)] = Some [("version", VInt 1); ("users", VDict (us ++ users_from k l))].
Proof.
  revert k us. induction l as [|x l IH]; intros k us Hus; [by rewrite app_nil_r|].
  rewrite tables_from_cons, users_from_cons. simpl put_tables.
  assert (dget (extra_name k) us = None) as Hk by (apply dget_None, Hus; lia).
  rewrite (proj2 (dmem_dget _ _) Hk). simpl. rewrite dset_absent by done.
  rewrite IH; [by rewrite <-app_assoc|]. intros i Hi. unfold dkeys. rewrite fmap_app, elem_of_app. simpl. rewrite list_elem_of_singleton.
  intros [Hin|E%extra_name_inj]; [|lia]. by apply (Hus i); [lia|].
Qed.

Lemma put_form : put_tables form_tables [("version", VInt 1)] = Some form_document.
Proof.
  unfold form_tables. simpl put_tables. rewrite put_tables_app.
  change extra_tables with (tables_from 0 (ff_extra f)). rewrite put_extra.
  2: { intros i _. simpl. rewrite list_elem_of_singleton. apply extra_name_admin. }
  simpl mbind. unfold form_document, users_entries. change (imap _ (ff_extra f)) with (users_from 0 (ff_extra f)).
  generalize (("admin", VDict (form_user (ff_key f))) :: users_from 0 (ff_extra f)). intros us.
  unfold zone_tables, inbound_entries. generalize dnsmasq_entries, ntp_entries, activation_entries. intros d n act.
  destruct (zone_table (ff_wan_tcp f) _), (zone_table (ff_lan_tcp f) _), url_entries; try reflexivity.
Qed.

(** ** The lines of the form *)

Lemma extra_name_bare i : forallb is_bare_key_char (chars (extra_name i)) = true.
Proof.
  unfold extra_name. rewrite chars_app, forallb_app. apply andb_true_iff. split; [done|].
  destruct (Z.of_nat i + 2) as [|p|p] eqn:E; [lia| |lia]. destruct (pretty_pos p) as [Hd _].
  change (str_int (Z.pos p)) with (pretty (N.pos p)). rewrite forallb_forall in *. intros c Hc. specialize (Hd c Hc).
  by destruct c as [[] [] [] [] [] [] [] []].
Qed.
Lemma extra_ok t : t ∈ extra_tables → table_ok t.
Proof.
  unfold extra_tables. intros (i & key & -> & Hi)%elem_of_lookup_imap_1. split; simpl.
  - split; [done|]. repeat constructor; [by apply no_nl_key|]. apply bare_no_nl_key, extra_name_bare.
  - split; [repeat constructor; set_solver|]. repeat constructor; by apply no_nl_key.
Qed.
Lemma zone_ok p tcp udp t : p ≠ [] → Forall key_ok p → t ∈ opt_table p (zone_table tcp udp) → table_ok t.
Proof.
  intros Hne Hp Ht. assert (t = (p, zone_table tcp udp)) as ->.
  { unfold opt_table in Ht. destruct (zone_table tcp udp); [by apply elem_of_nil in Ht|by apply list_elem_of_singleton in Ht]. }
  split; [done|]. unfold zone_table, some_ports, int_values. simpl. split.
  - destruct tcp, udp; repeat constructor; set_solver.
  - destruct tcp, udp; repeat constructor; first [by apply no_nl_key|apply writable_ints].
Qed.
Lemma keys_good l : forallb (forallb is_bare_key_char ∘ chars) l = true → Forall key_ok l.
Proof. rewrite forallb_forall, Forall_forall. intros H k Hk. apply bare_no_nl_key, H. by apply list_elem_of_In. Qed.
Lemma form_tables_ok : Forall table_ok form_tables.
Proof.
  assert (∀ p d, p ≠ [] → forallb (forallb is_bare_key_char ∘ chars) p = true → NoDup (dkeys d) →
    forallb (forallb is_bare_key_char ∘ chars) (dkeys d) = true → Forall (λ kv, writable kv.2) d → table_ok (p, d)) as Hok.
  { intros p d Hne Hp Hnd Hk Hw. split; simpl; [by auto using keys_good|]. split; [done|]. apply keys_good in Hk.
    unfold dkeys in Hk. rewrite Forall_fmap in Hk. by apply Forall_and. }
  apply Forall_forall. intros t. unfold form_tables. rewrite elem_of_cons, !elem_of_app, !list_elem_of_singleton.
  intros [->|[Ht|[Ht|[->|[->|[Ht| ->]]]]]].
  - apply Hok; try done; [repeat constructor; set_solver|repeat constructor].
  - by apply extra_ok.
  - unfold zone_tables in Ht. apply elem_of_app in Ht as [Ht|Ht]; (eapply zone_ok; [| |exact Ht]; [done|by apply keys_good]).
  - unfold dnsmasq_entries, str_values. apply Hok; [done|done|..]; case_bool_decide; cbn [app dkeys map fmap list_fmap fst snd].
    1, 2: by apply (bool_decide_eq_true_1 _); vm_compute.
    1, 2: reflexivity.
    all: repeat lazymatch goal with |- Forall _ _ => constructor end; cbn [snd]; first [apply writable_str|apply writable_strs].
  - apply Hok; try done; [repeat constructor; set_solver|]. repeat constructor; apply writable_strs.
  - unfold url_entries in Ht. case_bool_decide; [by apply elem_of_nil in Ht|]. apply list_elem_of_singleton in Ht as ->.
    apply Hok; try done; [repeat constructor; set_solver|repeat constructor].
  - apply Hok; try done; [repeat constructor; set_solver|]. repeat constructor; apply writable_strs.
Qed.

Lemma admin_block_lines i key : admin_block (Z.of_nat i + 2) key = block_of (["users"; extra_name i], form_user key).
Proof.
  unfold block_of, header_line, admin_block. cbn [fst snd]. change (map _toml_key ["users"; extra_name i]) with ["users"; _toml_key (extra_name i)].
  rewrite bare_toml_key; [|by unfold extra_name|apply extra_name_bare]. reflexivity.
Qed.
Lemma zone_block zone p tcp udp :
  header_line p = "[network.firewall.inbound." +:+ zone +:+ "]" →
  zone_lines zone tcp udp = concat (map block_of (opt_table p (zone_table tcp udp))).
Proof.
  intros Hh. unfold zone_lines, zone_table, some_ports, int_values.
  assert (∀ l key, _toml_key key = key → value_line (key, VList (map VInt l)) = key +:+ " = " +:+ json_ints l) as Hl.
  { intros l key Hk. unfold value_line, toml_line. cbn [fst snd]. by rewrite toml_ints, Hk. }
  destruct tcp as [|x tcp], udp as [|y udp]; [done|..]; cbn [app opt_table map concat block_of fst snd]; rewrite ?app_nil_r; unfold block_of; cbn [map fst snd];
    repeat match goal with |- context [VInt ?y :: map VInt ?l] => change (VInt y :: map VInt l) with (map VInt (y :: l)) end;
    rewrite ?Hl, ?Hh by reflexivity; reflexivity.
Qed.
Lemma firewall_lines : firewall_section (ff_wan_tcp f) (ff_wan_udp f) (ff_lan_tcp f) (ff_lan_udp f) = spaced (map block_of zone_tables).
Proof.
  unfold firewall_section, zone_tables. rewrite map_app.
  rewrite (zone_block "wan" ["network"; "firewall"; "inbound"; "wan"]), (zone_block "lan" ["network"; "firewall"; "inbound"; "lan"]) by done.
  by destruct (zone_table (ff_wan_tcp f) _), (zone_table (ff_lan_tcp f) _); simpl; rewrite ?app_nil_r.
Qed.
Lemma lan_lines : lan_section defaults (ff_cidr f) (ff_start f) (ff_end f) (ff_domain f) (ff_aliases f) (ff_pattern f)
  = block_of (["network"; "dnsmasq"], dnsmasq_entries).
Proof.
  unfold lan_section, dnsmasq_entries, block_of, str_values. cbn [fst snd]. rewrite map_app. cbn [map].
  assert (∀ l, value_line ("gateway_aliases", VList (map VStr l)) = "gateway_aliases = " +:+ json_strs l) as ->.
  { intros l. unfold value_line, toml_line. cbn [fst snd]. by rewrite toml_strs. }
  by destruct (ff_aliases f); case_bool_decide.
Qed.
Lemma ntp_lines : ntp_section defaults = block_of (["network"; "ntp"], ntp_entries).
Proof.
  unfold ntp_section, ntp_entries, block_of, str_values, value_line, toml_line. cbn [map fst snd]. by rewrite toml_strs.
Qed.
Lemma activation_lines : ["[activation]"; "required = " +:+ json_strs (ff_required f)] = block_of (["activation"], activation_entries).
Proof.
  unfold activation_entries, block_of, str_values, value_line, toml_line. cbn [map fst snd]. by rewrite toml_strs.
Qed.
Lemma url_lines : os_upgrade_section (ff_url f) = concat (map block_of (opt_table ["os_upgrade"] url_entries)).
Proof. unfold os_upgrade_section, url_entries. by case_bool_decide. Qed.
Lemma map_imap_l {A B C} (g : B → C) (h : nat → A → B) l : map g (imap h l) = imap (λ i x, g (h i x)) l.
Proof. apply fmap_imap. Qed.
Lemma extra_lines : generated_extra_users (ff_extra f) = join gap (map (join nl) (map block_of extra_tables)).
Proof.
  unfold generated_extra_users, extra_tables. fold gap. f_equal. rewrite map_map, map_imap_l. apply imap_ext. intros i key _. cbv beta. by rewrite admin_block_lines.
Qed.

(** The text of a form: its lines, and the snippet behind a blank line. *)
Definition form_lines : list string := spaced (["version = 1"] :: map block_of form_tables).

Lemma read_form_lines : read_lines form_lines ([], []) = Some (form_document, ["activation"]).
Proof.
  unfold form_lines. change (map block_of form_tables) with (block_of (["users"; "admin"], form_user (ff_key f)) :: map block_of (tail form_tables)).
  rewrite spaced_cons. eapply (read_lines_seq ["version = 1"]); [reflexivity|].
  change (read_lines (spaced (map block_of form_tables)) ([("version", VInt 1)], []) = Some (form_document, ["activation"])).
  rewrite (read_tables _ _ form_document); [|apply form_tables_ok|apply put_form].
  do 2 f_equal. unfold last_path, form_tables. rewrite app_comm_cons, !app_assoc, map_app. apply last_last.
Qed.

Lemma blocks_ne : Forall (λ b, b ≠ []) (["version = 1"] :: map block_of form_tables).
Proof. constructor; [done|]. apply Forall_map, Forall_true. done. Qed.
End document.

(** ** The snippet *)

Definition ends_solid (s : string) : Prop := ∃ d m, rev (chars s) = d :: m ∧ isspace d = false.
Lemma strip_ends s : strip s ≠ "" → ends_solid (strip s).
Proof.
  unfold strip, rstrip_by. set (l := drop_while isspace (rev _)). intros Hne. unfold ends_solid. rewrite chars_unchars, rev_involutive.
  destruct l as [|d m] eqn:E; [by destruct Hne|]. exists d, m. split; [done|]. subst l. by eapply drop_while_head.
Qed.
Lemma ends_app s t : ends_solid t → ends_solid (s +:+ t).
Proof. intros (d & m & Ht & Hd). exists d. eexists. by rewrite chars_app, rev_app_distr, Ht. Qed.
Lemma ends_tail c s : s ≠ "" → ends_solid (String c s) → ends_solid s.
Proof.
  intros Hne (d & m & Hs & Hd). simpl in Hs. destruct (rev (chars s)) as [|d' m'] eqn:E.
  - exfalso. apply Hne, chars_inj. by rewrite <-(rev_involutive (chars s)), E.
  - simpl in Hs. injection Hs as -> _. by exists d, m'.
Qed.
Lemma ends_last_line s : ends_solid s → ∃ k x, split_on nl_char s = k ++ [x] ∧ ends_solid x.
Proof.
  intros Hs. pose proof (join_split_on nl_char s) as Hj. pose proof (split_on_length nl_char s) as Hl.
  destruct (exists_last (l := split_on nl_char s)) as (k & x & E); [by intros E; rewrite E in Hl; simpl in Hl; lia|].
  exists k, x. split; [done|]. rewrite E in Hj. destruct k as [|y k]; [simpl in Hj; by subst|].
  change (String nl_char "") with nl in Hj. rewrite join_app in Hj by done. change (join nl [x]) with x in Hj. rewrite <-Hj in Hs.
  destruct Hs as (d & m & Hr & Hd). rewrite !chars_app, !rev_app_distr in Hr.
  destruct (rev (chars x)) as [|d' m'] eqn:Ex; [|simpl in Hr; injection Hr as -> _; by exists d, m'].
  simpl in Hr. injection Hr as <- _. done.
Qed.
Lemma sub_header_ends word s : ends_solid s → ends_solid (sub_header word s).
Proof.
  intros (k & x & E & Hx)%ends_last_line. unfold sub_header. rewrite E, map_app. apply join_last_line.
  destruct (startswith x _) eqn:Hp; [|done]. apply ends_app. unfold startswith in Hp. apply prefix_spec in Hp as [t ->].
  change (("[" +:+ word +:+ ".") +:+ t) with (String "[" ((word +:+ ".") +:+ t)) in *.
  apply ends_tail in Hx.
  - assert (∀ c x, str_drop 1 (String c x) = x) as -> by (intros c x; apply unchars_chars). done.
  - intros H. apply (f_equal chars) in H. rewrite !chars_app in H. by destruct (chars word).
Qed.
Lemma normalize_ends raw : normalize_quadlet_headers (strip raw) ≠ "" → ends_solid (normalize_quadlet_headers (strip raw)).
Proof.
  intros Hne. unfold normalize_quadlet_headers. do 4 apply sub_header_ends. apply strip_ends. intros E. rewrite E in Hne.
  by vm_compute in Hne.
Qed.

(** The lines of the snippet, behind a blank one. *)
Definition snippet_lines (quadlet : string) : list string :=
  if bool_decide (quadlet = "") then [] else "" :: split_on nl_char quadlet.

Lemma split_no_nl s : Forall no_nl (split_on nl_char s).
Proof.
  unfold split_on. apply Forall_map. eapply Forall_impl; [apply split_chars_no_sep|]. intros w Hw. unfold no_nl, has_char.
  apply any_char_false. rewrite chars_unchars. apply Forall_forall. intros c Hc. apply Ascii.eqb_neq. naive_solver.
Qed.

(** ** The whole text *)

Section text.
Context (defaults : lan_defaults) (toml_loads : string → string + dict value).

Definition port_ok (p : Z) : Prop := 1 ≤ p ≤ 65535.
(** The values the builder takes from a form, and the snippet. *)
Record of_form (form : dict string) (f : fields) (quadlet : string) : Prop := OfForm {
  of_keys : field_lines (field form "ssh_keys") = ff_key f :: ff_extra f;
  of_wan_tcp : parse_port_lines (field form "wan_tcp") "WAN TCP" = Ok (ff_wan_tcp f);
  of_wan_udp : parse_port_lines (field form "wan_udp") "WAN UDP" = Ok (ff_wan_udp f);
  of_lan_tcp : parse_port_lines (field form "lan_tcp") "LAN TCP" = Ok (ff_lan_tcp f);
  of_lan_udp : parse_port_lines (field form "lan_udp") "LAN UDP" = Ok (ff_lan_udp f);
  of_ports : Forall port_ok (ff_wan_tcp f ++ ff_wan_udp f ++ ff_lan_tcp f ++ ff_lan_udp f);
  of_cidr : ff_cidr f = field_or form "gateway_cidr" (DEFAULT_LAN_GATEWAY_CIDR defaults);
  of_start : ff_start f = field_or form "dhcp_start" (DEFAULT_LAN_DHCP_START defaults);
  of_end : ff_end f = field_or form "dhcp_end" (DEFAULT_LAN_DHCP_END defaults);
  of_domain : ff_domain f = field_or form "lan_domain" (DEFAULT_LAN_DOMAIN defaults);
  of_aliases : ff_aliases f = field_lines (field form "gateway_aliases");
  of_pattern : ff_pattern f = field_or form "hostname_pattern" (DEFAULT_LAN_HOSTNAME_PATTERN defaults);
  of_url : ff_url f = strip (field form "os_upgrade_server_url");
  of_quadlet : quadlet = normalize_quadlet_headers (strip (field form "quadlet"));
  of_required : match field_lines (field form "required") with
                | [] => generated_required_units toml_loads quadlet = Ok (ff_required f)
                | l => ff_required f = l
                end }.

Lemma parse_ports_ok raw name ports : parse_port_lines raw name = Ok ports → Forall port_ok ports.
Proof.
  unfold parse_port_lines. generalize (field_lines raw). intros ls. revert ports. induction ls as [|l ls IH]; intros ports H; simpl in H.
  - by injection H as <-.
  - apply bind_Ok in H as (p & Hp & (ps & Hps & [= <-])%bind_Ok). constructor; [|by apply IH].
    unfold parse_port in Hp. apply bind_Ok in Hp as (q & _ & Hq). destruct (_ && _) eqn:E; [|done]. injection Hq as <-.
    unfold port_ok. lia.
Qed.

Lemma builder_fields form text : build_config_from_form defaults toml_loads form = Ok text →
  ∃ f quadlet, of_form form f quadlet ∧
    text = strip (join gap (filter (λ s, s ≠ "") [ join nl (["version = 1"; ""] ++ block_of (["users"; "admin"], form_user (ff_key f)));
      generated_extra_users (ff_extra f); join nl (firewall_section (ff_wan_tcp f) (ff_wan_udp f) (ff_lan_tcp f) (ff_lan_udp f));
      join nl (lan_section defaults (ff_cidr f) (ff_start f) (ff_end f) (ff_domain f) (ff_aliases f) (ff_pattern f));
      join nl (ntp_section defaults); join nl (os_upgrade_section (ff_url f));
      join nl ["[activation]"; "required = " +:+ json_strs (ff_required f)]; quadlet ])) +:+ nl.
Proof.
  unfold build_config_from_form. destruct (field_lines (field form "ssh_keys")) as [|key extra] eqn:Hk; [done|]. intros H.
  apply bind_Ok in H as (wt & Hwt & H). apply bind_Ok in H as (wu & Hwu & H). apply bind_Ok in H as (lt & Hlt & H).
  apply bind_Ok in H as (lu & Hlu & H). apply bind_Ok in H as (req & Hreq & H). injection H as <-.
  eexists (Fields key extra wt wu lt lu _ _ _ _ _ _ _ req), _. split; [|reflexivity]. split; try done; simpl.
  - repeat apply Forall_app_2; by eapply parse_ports_ok.
  - destruct (field_lines (field form "required")); [done|]. by injection Hreq as <-.
Qed.

(** The sections of the text: each a list of blocks. *)
Definition snippet_block (quadlet : string) : list (list string) := if bool_decide (quadlet = "") then [] else [split_on nl_char quadlet].
Definition form_groups (f : fields) (quadlet : string) : list (list (list string)) :=
  [ [["version = 1"]; block_of (["users"; "admin"], form_user (ff_key f))]; map block_of (extra_tables f); map block_of (zone_tables f);
    [block_of (["network"; "dnsmasq"], dnsmasq_entries defaults f)]; [block_of (["network"; "ntp"], ntp_entries defaults)];
    map block_of (opt_table ["os_upgrade"] (url_entries f)); [block_of (["activation"], activation_entries f)]; snippet_block quadlet ].

(** A block whose text is not empty. *)
Definition full (b : list string) : Prop := b ≠ [] ∧ join nl b ≠ "".
Lemma block_full t : full (block_of t).
Proof.
  split; [done|]. unfold block_of. destruct (map value_line t.2) as [|x l]; [done|]. rewrite join_cons_line. by unfold header_line.
Qed.
Lemma blocks_full ts : Forall full (map block_of ts).
Proof. apply Forall_map, Forall_true. apply block_full. Qed.
Lemma snippet_full quadlet : Forall full (snippet_block quadlet).
Proof.
  unfold snippet_block. case_bool_decide; repeat constructor.
  - pose proof (split_on_length nl_char quadlet). by destruct (split_on nl_char quadlet); [simpl in *; lia|].
  - change nl with (String nl_char ""). by rewrite join_split_on.
Qed.
Lemma groups_full f quadlet : Forall (Forall full) (form_groups f quadlet).
Proof. repeat constructor; try done; try apply block_full; first [apply blocks_full|apply snippet_full]. Qed.
Lemma groups_blocks f quadlet : concat (form_groups f quadlet) = (["version = 1"] :: map block_of (form_tables defaults f)) ++ snippet_block quadlet.
Proof. unfold form_groups, form_tables. cbn [concat map app]. rewrite !map_app. cbn [map app]. rewrite app_nil_r. rewrite !map_app. repeat (cbn [map app]; rewrite <-app_assoc). done. Qed.

Lemma spaced_snippet b bs quadlet : spaced ((b :: bs) ++ snippet_block quadlet) = spaced (b :: bs) ++ snippet_lines quadlet.
Proof.
  unfold snippet_block, snippet_lines. case_bool_decide; [by rewrite !app_nil_r|]. revert b. induction bs as [|b' bs IH]; intros b; [done|].
  rewrite <-!app_comm_cons, !spaced_cons, app_comm_cons, IH. by rewrite <-app_assoc.
Qed.
Lemma groups_text f quadlet : map (join gap) (map (map (join nl)) (form_groups f quadlet)) =
  [ join nl (["version = 1"; ""] ++ block_of (["users"; "admin"], form_user (ff_key f)));
    generated_extra_users (ff_extra f); join nl (firewall_section (ff_wan_tcp f) (ff_wan_udp f) (ff_lan_tcp f) (ff_lan_udp f));
    join nl (lan_section defaults (ff_cidr f) (ff_start f) (ff_end f) (ff_domain f) (ff_aliases f) (ff_pattern f));
    join nl (ntp_section defaults); join nl (os_upgrade_section (ff_url f));
    join nl ["[activation]"; "required = " +:+ json_strs (ff_required f)]; quadlet ].
Proof.
  assert (∀ bs, Forall full bs → join gap (map (join nl) bs) = join nl (spaced bs)) as Hs.
  { intros bs Hb. apply join_spaced. eapply Forall_impl; [exact Hb|]. by intros b [? _]. }
  rewrite extra_lines, firewall_lines, lan_lines, ntp_lines, activation_lines, url_lines.
  unfold form_groups. cbn [map]. rewrite (Hs (map block_of (zone_tables f))) by apply blocks_full.
  assert (join gap (map (join nl) (map block_of (opt_table ["os_upgrade"] (url_entries f)))) =
    join nl (concat (map block_of (opt_table ["os_upgrade"] (url_entries f))))) as ->.
  { unfold opt_table. destruct (url_entries f); [done|]. simpl. by rewrite app_nil_r. }
  assert (join gap (map (join nl) (snippet_block quadlet)) = quadlet) as ->; [|done].
  unfold snippet_block. case_bool_decide; [by subst|]. simpl. change nl with (String nl_char ""). apply join_split_on.
Qed.
Lemma sections_text f quadlet : join gap (filter (λ s, s ≠ "") (map (join gap) (map (map (join nl)) (form_groups f quadlet))))
  = join nl (form_lines defaults f ++ snippet_lines quadlet).
Proof.
  pose proof (groups_full f quadlet) as Hf. rewrite join_groups.
  2: { apply Forall_map. eapply Forall_impl; [exact Hf|]. intros g Hg. apply Forall_map. eapply Forall_impl; [exact Hg|]. by intros b [_ ?]. }
  rewrite <-concat_map, join_spaced, groups_blocks.
  - unfold form_lines. by rewrite spaced_snippet.
  - clear -Hf. induction Hf as [|g gs Hg _ IH]; [constructor|]. simpl. apply Forall_app. split; [|exact IH].
    eapply Forall_impl; [exact Hg|]. by intros b [? _].
Qed.

Lemma form_lines_no_nl f : Forall no_nl (form_lines defaults f).
Proof.
  assert (∀ bs, Forall (Forall no_nl) bs → Forall no_nl (spaced bs)) as Hs.
  { intros bs H. induction H as [|b [|b' bs] Hb Hbs IH]; [constructor|done|]. rewrite spaced_cons. apply Forall_app. by repeat constructor. }
  apply Hs. constructor; [by repeat constructor|]. apply Forall_map. eapply Forall_impl; [apply form_tables_ok|]. apply block_no_nl.
Qed.
Lemma snippet_no_nl quadlet : Forall no_nl (snippet_lines quadlet).
Proof. unfold snippet_lines. case_bool_decide; [constructor|]. constructor; [done|apply split_no_nl]. Qed.

Lemma form_ends f : ∃ l t, table_ok t ∧ form_lines defaults f = l ++ block_of t.
Proof.
  assert (∀ bs b, spaced (bs ++ [b]) = spaced bs ++ match bs with [] => [] | _ => [""] end ++ b) as Hs.
  { intros bs b. induction bs as [|x [|y bs] IH]; [done|done|]. rewrite <-!app_comm_cons, spaced_cons, app_comm_cons, IH, spaced_cons.
    by rewrite <-app_assoc. }
  pose proof (form_tables_ok defaults f) as Hok. unfold form_lines, form_tables in *. rewrite app_comm_cons, !app_assoc in *.
  apply Forall_app in Hok as [_ [Hok _]%Forall_cons]. rewrite map_app. cbn [map]. rewrite app_comm_cons, Hs, app_assoc. eauto.
Qed.
Lemma strip_text f form quadlet : of_form form f quadlet →
  strip (join nl (form_lines defaults f ++ snippet_lines quadlet)) = join nl (form_lines defaults f ++ snippet_lines quadlet).
Proof.
  intros Hf. apply strip_solid.
  assert (∃ c l, chars (join nl (form_lines defaults f ++ snippet_lines quadlet)) = c :: l ∧ isspace c = false) as (c & l & Hc & Hcs).
  { unfold form_lines, form_tables. cbn [map]. rewrite spaced_cons. apply join_head. by eexists _, _. }
  assert (ends_solid (join nl (form_lines defaults f ++ snippet_lines quadlet))) as (d & m & Hd & Hds); [|by exists c, l, d, m].
  unfold snippet_lines. case_bool_decide as Hq.
  - rewrite app_nil_r. destruct (form_ends f) as (k & t & Ht & ->). apply block_solid in Ht.
    destruct (exists_last (proj1 (block_full t))) as (k' & x & E). rewrite E in *. apply Forall_app in Ht as [_ [Hx _]%Forall_cons].
    rewrite app_assoc. apply join_last_line. destruct Hx as (_ & _ & d & m & _ & _ & ? & ?). by exists d, m.
  - assert (ends_solid quadlet) as Hs by (rewrite (of_quadlet _ _ _ Hf) in *; by apply normalize_ends).
    destruct (ends_last_line quadlet Hs) as (k & x & -> & Hx). rewrite app_comm_cons, app_assoc. by apply join_last_line.
Qed.

End text.

Definition sample_form : dict string :=
  [("ssh_keys", "ssh-ed25519 AAAA alice" +:+ nl +:+ "ssh-ed25519 BBBB bob"); ("wan_tcp", "443"); ("required", "web.service");
   ("quadlet", "[container.web.Container]" +:+ nl +:+ "Image = 'nginx'")].
Definition sample_loads (_ : string) : string + dict value := inl "not used".

Definition sample_text : string := Eval vm_compute in
  match build_config_from_form repo_lan_defaults sample_loads sample_form with Ok t => t | Err _ => "" end.

