(* ===== verification/Jobs.v ===== *)
(** * [jobs.py]: the single-flight and the staged job managers

    One definition per method of
    src/scripts/atomixos_provision/src/atomixos_provision/jobs.py.  Job objects
    live in a heap, so that the table, the current job and the running coroutines
    can share one.  A coroutine of [JobManager] is cut at its awaits: the manager's
    lock is never held across one, so each piece between two awaits is one step.
    The staged manager's methods run on the file system of FS.v; what its work
    coroutine and its heartbeat did is given to it. *)

From S2P Require Import Prelude PySort PyStr PyVal ConfigCheck FS Staging StagedJob.

Local Open Scope Z_scope.

Definition _MAX_RETAINED_JOBS : nat := 64.

Variant JobState : Type := SUBMITTED | RUNNING | SUCCEEDED | FAILED.
#[export] Instance JobState_eq_dec : EqDecision JobState.
Proof. solve_decision. Defined.

Record Job : Type := MkJob {
  id : string; state : JobState; submitted_at : Z; started_at : option Z; completed_at : option Z;
  job_result : dict value; job_error : option string; rollback_status : option string;
  stage : string; events : list (dict value) }.

Definition new_job (job_id : string) (now : Z) : Job :=
  MkJob job_id SUBMITTED now None None [] None None "submitted" [].

(** [job.state in (SUBMITTED, RUNNING)] *)
Definition active_state (s : JobState) : bool := match s with SUBMITTED | RUNNING => true | _ => false end.
Definition is_active (j : Job) : bool := active_state (state j).

Definition set_state (s : JobState) (j : Job) : Job :=
  MkJob (id j) s (submitted_at j) (started_at j) (completed_at j) (job_result j) (job_error j) (rollback_status j) (stage j) (events j).
Definition set_started (t : Z) (j : Job) : Job :=
  MkJob (id j) (state j) (submitted_at j) (Some t) (completed_at j) (job_result j) (job_error j) (rollback_status j) (stage j) (events j).
Definition set_completed (t : Z) (j : Job) : Job :=
  MkJob (id j) (state j) (submitted_at j) (started_at j) (Some t) (job_result j) (job_error j) (rollback_status j) (stage j) (events j).
Definition set_result (d : dict value) (j : Job) : Job :=
  MkJob (id j) (state j) (submitted_at j) (started_at j) (completed_at j) d (job_error j) (rollback_status j) (stage j) (events j).
Definition set_error (m : option string) (j : Job) : Job :=
  MkJob (id j) (state j) (submitted_at j) (started_at j) (completed_at j) (job_result j) m (rollback_status j) (stage j) (events j).
Definition set_rollback (m : option string) (j : Job) : Job :=
  MkJob (id j) (state j) (submitted_at j) (started_at j) (completed_at j) (job_result j) (job_error j) m (stage j) (events j).
Definition set_stage_name (m : string) (j : Job) : Job :=
  MkJob (id j) (state j) (submitted_at j) (started_at j) (completed_at j) (job_result j) (job_error j) (rollback_status j) m (events j).
Definition add_event (ev : dict value) (j : Job) : Job :=
  MkJob (id j) (state j) (submitted_at j) (started_at j) (completed_at j) (job_result j) (job_error j) (rollback_status j) (stage j) (events j ++ [ev]).

(** What an exception carries to a job: its text and, when it has the attribute,
    its [rollback_status]. *)
Record failure : Type := Failure { f_text : string; f_rollback : option (option string) }.

(** How the awaited work ended. *)
Variant outcome : Type := Returned (d : dict value) | Raised (f : failure) | WasCancelled.

Section jobs.
(** [round(seconds, 2)] of a number of ticks. *)
Context (elapsed : Z → value).

Definition set_stage (name detail : string) (fields : dict value) (now : Z) (j : Job) : Job :=
  let event := [("step", VStr name); ("elapsed_seconds", elapsed (now - submitted_at j))] in
  let event := if bool_decide (detail = "") then event else event ++ [("message", VStr detail)] in
  add_event (dict_update event fields) (set_stage_name name j).

Definition fail_with (f : failure) (j : Job) : Job :=
  let j := set_error (Some (f_text f)) (set_state FAILED j) in
  match f_rollback f with Some r => set_rollback r j | None => j end.

(** The part of [_run] and [run_sync] before the work, and after it. *)
Definition start_job (now : Z) (j : Job) : Job :=
  set_stage "running" "" [] now (set_started now (set_state RUNNING j)).
Definition finish_job (o : outcome) (now : Z) (j : Job) : Job :=
  set_completed now
    match o with
    | Returned d => set_result d (set_stage "completed" "" [] now (set_state SUCCEEDED j))
    | Raised f => fail_with f j
    | WasCancelled => set_error (Some "job was cancelled") (set_state FAILED j)
    end.

(** ** The single-flight manager *)

(** Where a coroutine of the manager is suspended. *)
Variant phase : Type := Created | Working.
#[export] Instance phase_dec : EqDecision phase.
Proof. solve_decision. Defined.

Record JobManager : Type := Manager {
  _current_job : option nat; _jobs : dict nat; heap : list Job; tasks : list (nat * phase) }.
Definition new_manager : JobManager := Manager None [] [] [].

Definition is_busy (m : JobManager) : bool :=
  match _current_job m with
  | Some r => match heap m !! r with Some j => is_active j | None => false end
  | None => false
  end.

(** Completed jobs of the table with their time of submission. *)
Definition completed_jobs (m : JobManager) : list (string * Z) :=
  omap (λ kv : string * nat, match heap m !! kv.2 with
                | Some j => if is_active j then None else Some (kv.1, submitted_at j)
                | None => None
                end) (_jobs m).
Definition remove_jobs (ids : list string) (d : dict nat) : dict nat := fold_left (λ d k, dpop k d) ids d.
Definition _evict_old_jobs (m : JobManager) : JobManager :=
  if (length (_jobs m) <? _MAX_RETAINED_JOBS)%nat then m
  else
    let to_remove := (length (_jobs m) - _MAX_RETAINED_JOBS + 1)%nat in
    Manager (_current_job m) (remove_jobs (take to_remove (sort_by snd (completed_jobs m))).*1 (_jobs m)) (heap m) (tasks m).

Definition submit (job_id : string) (now : Z) (m : JobManager) : JobManager * option nat :=
  if is_busy m then (m, None)
  else
    let m := _evict_old_jobs m in
    let r := length (heap m) in
    (Manager (Some r) (dset job_id r (_jobs m)) (heap m ++ [new_job job_id now]) (tasks m ++ [(r, Created)]), Some r).

(** [_run] from its start to [await]. *)
Definition run_start (r : nat) (now : Z) (m : JobManager) : JobManager :=
  Manager (_current_job m) (_jobs m) (alter (start_job now) r (heap m))
    (filter (λ t, t ≠ (r, Created)) (tasks m) ++ [(r, Working)]).

(** [if self._current_job is job: self._current_job = None] *)
Definition clear_current (r : nat) (c : option nat) : option nat :=
  if decide (c = Some r) then None else c.

(** [_run] and [run_sync] from the end of the work. *)
Definition run_finish (r : nat) (o : outcome) (now : Z) (m : JobManager) : JobManager :=
  Manager (clear_current r (_current_job m)) (_jobs m) (alter (finish_job o now) r (heap m))
    (filter (λ t, t ≠ (r, Working)) (tasks m)).

(** [run_sync] up to [await work(job)]; the job stays out of the table. *)
Definition sync_begin (now : Z) (m : JobManager) : JobManager * option nat :=
  if is_busy m then (m, None)
  else
    let r := length (heap m) in
    (Manager (Some r) (_jobs m) (heap m ++ [start_job now (new_job "sync" now)]) (tasks m ++ [(r, Working)]), Some r).

Definition get (job_id : string) (m : JobManager) : option Job := r ← dget job_id (_jobs m); heap m !! r.

(** The steps of the event loop.  A submitted job has a new identifier (uuid4); a
    task cancelled before it first runs never runs. *)
Inductive manager_step : JobManager → JobManager → Prop :=
  | step_submit job_id now m :
      dget job_id (_jobs m) = None → manager_step m (submit job_id now m).1
  | step_run_start r now m : (r, Created) ∈ tasks m → manager_step m (run_start r now m)
  | step_run_finish r o now m : (r, Working) ∈ tasks m → manager_step m (run_finish r o now m)
  | step_sync_begin now m : manager_step m (sync_begin now m).1
  | step_dropped r m : (r, Created) ∈ tasks m →
      manager_step m (Manager (_current_job m) (_jobs m) (heap m) (filter (λ t, t ≠ (r, Created)) (tasks m))).

(** ** The staged manager *)

Context (time_value : Z → value) (paths : RuntimePaths).

(** [str(exc)] and its [rollback_status], when it has one. *)
Definition failure_of (x : exn) : failure := Failure (exn_text x) (Some <$> exn_rollback x).

Definition _mark_queued (maintenance_errors : list exn) (now : Z) (j : Job) : Job :=
  let detail := "waiting for privileged apply worker" +:+
    (match maintenance_errors with
     | [] => ""
     | errors => "; post-publication reservation maintenance failed: " +:+ join "; " (map exn_text errors)
     end) in
  set_stage "queued" detail [] now j.
Definition _mark_failed (f : failure) (now : Z) (j : Job) : Job := set_completed now (fail_with f j).

Definition _refresh_from_result (j : Job) : M (Job * bool) :=
  r ← catch (read_result paths (id j)) is_not_found (λ _, mret None);
  match r with
  | None => mret (j, false)
  | Some result_ =>
      out ← lift (interpret_staged_result result_);
      now ← time_time;
      (* [job.completed_at or time.monotonic()] *)
      let j := set_completed (match completed_at j with Some t => if t =? 0 then now else t | None => now end) j in
      mret (if succeeded out
            then (set_stage_name "completed" (set_error None (set_result (sr_payload out) (set_state SUCCEEDED j))), true)
            else (set_stage_name "failed" (set_rollback (Staging.rollback_status out) (set_error (sr_error out) (set_state FAILED j))), true))
  end.

Definition _release_reservation (j : Job) : M () :=
  catch (release_staged_job_slot paths (id j)) is_not_found (λ _, mret tt).
Definition _refresh_reservation (j : Job) : M () :=
  catch (refresh_staged_job_slot paths (id j)) is_not_found (λ _, mret tt).

(** The recovered job and whether a monitor was asked for it. *)
Definition _job_from_result (job_id : string) : M (option (Job * bool)) :=
  now ← time_time;
  r ← _refresh_from_result (new_job job_id now);
  if r.2 : bool then mret (Some (r.1, false))
  else
    p ← catch (p ← staged_job_presence paths job_id; mret (Some p)) is_not_found (λ _, mret None);
    t ← time_time;
    match p with
    | Some Queued => mret (Some (set_stage "queued" "waiting for privileged apply worker" [] t (new_job job_id now), true))
    | Some Active =>
        mret (Some (set_stage "running" "privileged apply worker is running" [] t
                      (set_started t (set_state RUNNING (new_job job_id now))), true))
    | _ => mret None
    end.

(** [get]: the cached job refreshed, or a recovered one. *)
Definition get_staged (job_id : string) (cached : option Job) : M (option Job) :=
  if negb (is_ok (validate_job_id job_id)) then mret None
  else match cached with
       | Some j => r ← _refresh_from_result j; mret (Some r.1)
       | None => r ← _job_from_result job_id; mret (fst <$> r)
       end.

(** What ended a staging: the job as it is left, and either whether the monitor is
    asked for, or the exception that escapes. *)
Definition staging_end : Type := Job * result bool.

Definition stage_failed (x : exn) (j : Job) : M staging_end :=
  released ← attempt (_release_reservation j);
  let failure := match released with Ok _ => x | Err y => y end in
  now ← time_time;
  mret (_mark_failed (failure_of failure) now j,
        match failure with StagedQueueBusyError _ => Err failure | _ => Ok false end).
Definition stage_cancelled (j : Job) : M staging_end :=
  released ← attempt (_release_reservation j);
  now ← time_time;
  mret match released with
       | Err y => (_mark_failed (failure_of y) now j, Err y)
       | Ok _ => (_mark_failed (Failure "staged job manager task was cancelled" None) now j, Err CancelledError)
       end.

(** [finally: ... await heartbeat_task]: [hb] is the error the heartbeat died of. *)
Definition stop_heartbeat (hb : option exn) (e : staging_end) : M staging_end :=
  match hb with
  | Some y => now ← time_time; mret (_mark_failed (failure_of y) now e.1, e.2)
  | None => mret e
  end.

Definition _stage_and_monitor (work : M ()) (hb : option exn) (j : Job) : M staging_end :=
  t ← time_time;
  let j := start_job t j in
  first ← attempt (_refresh_reservation j);
  match first with
  | Err x => stage_failed x j
  | Ok _ =>
      staged ← attempt work;
      match staged with
      | Ok _ =>
          second ← attempt (_refresh_reservation j);
          now ← time_time;
          let maintenance_errors := option_list hb ++ match second with Err x => [x] | Ok _ => [] end in
          mret (_mark_queued maintenance_errors now j, Ok true)
      | Err CancelledError => e ← stage_cancelled j; stop_heartbeat hb e
      | Err x => e ← stage_failed x j; stop_heartbeat hb e
      end
  end.

(** [_submit_staged] up to the staging: the job object, entered in the table
    unless the queue is full, and whether its slot was reserved. *)
Definition admit_staged (job_id : string) (max_pending : nat) (m : JobManager) : M (JobManager * option (nat * bool)) :=
  now ← time_time;
  let m := _evict_old_jobs m in
  let r := length (heap m) in
  let enter j := Manager (_current_job m) (dset job_id r (_jobs m)) (heap m ++ [j]) (tasks m) in
  reserved ← attempt (reserve_staged_job_slot time_value paths job_id max_pending);
  match reserved with
  | Ok false => mret (m, None)
  | Ok true => mret (enter (new_job job_id now), Some (r, true))
  | Err x =>
      t ← time_time;
      mret (enter (set_completed t (set_error (Some (exn_text x)) (set_state FAILED (new_job job_id now)))), Some (r, false))
  end.

(** [_stage_with_busy_translation] *)
Definition stage_with_busy_translation (r : nat) (work : M ()) (hb : option exn) (m : JobManager)
    : M (JobManager * result (option nat)) :=
  match heap m !! r with
  | None => mret (m, Ok None)
  | Some j =>
      e ← _stage_and_monitor work hb j;
      let m := Manager (_current_job m) (_jobs m) (<[r := e.1]> (heap m)) (tasks m) in
      mret match e.2 with
           | Ok _ => (m, Ok (Some r))
           | Err (StagedQueueBusyError _) => (Manager (_current_job m) (dpop (id j) (_jobs m)) (heap m) (tasks m), Ok None)
           | Err CancelledError => (m, Err CancelledError)
           | Err _ => (m, Ok (Some r))
           end
  end.

(** [StagedJobManager.is_busy] *)
Definition is_busy_staged (m : JobManager) : bool :=
  existsb (λ kv : string * nat, match heap m !! kv.2 with Some j => is_active j | None => false end) (_jobs m).
End jobs.
