(* ===== verification/JobsFacts.v ===== *)
(** * Job managers: theorems

    The manager runs at most one job at a time and retains at most 64, whatever the
    interleaving of submissions and coroutines; a finished job never changes.  A
    staged job fails only for reasons that precede its publication; a published
    worker result decides. *)

From S2P Require Import Prelude PySort PyStr PyVal PyDict ConfigCheck FS FSLogic RunLogic Staging StagedJob Activation Jobs.

Local Open Scope Z_scope.

Section manager.
Context (elapsed : Z → value).
Local Abbreviation step := (manager_step elapsed).

Lemma dset_stage_state name detail fields now j : state (set_stage elapsed name detail fields now j) = state j.
Proof. done. Qed.
Lemma start_job_running now j : state (start_job elapsed now j) = RUNNING.
Proof. done. Qed.
Lemma finish_job_inactive o now j : is_active (finish_job elapsed o now j) = false.
Proof. destruct o as [d|[t [b|]]|]; done. Qed.

(** ** Tables *)

Lemma remove_jobs_length ids (d : dict nat) : wf_dict d → NoDup ids → (∀ k, k ∈ ids → k ∈ dkeys d) →
  (length (remove_jobs ids d) + length ids = length d)%nat.
Proof.
  revert d. induction ids as [|k ids IH]; intros d Hwf Hnd Hk; simpl; [lia|].
  apply NoDup_cons in Hnd as [Hni Hnd]. rewrite <- (length_dpop k d) by (apply Hk; left).
  change (remove_jobs (k :: ids) d) with (remove_jobs ids (dpop k d)).
  rewrite <- (IH (dpop k d)); [lia|by apply wf_dpop|done|]. intros k' Hk'.
  apply dmem_true. unfold dmem. rewrite dget_dpop_ne by (intros ->; done).
  specialize (Hk k' (list_elem_of_further _ _ _ Hk')). by apply dmem_true in Hk.
Qed.
Lemma remove_jobs_sublist ids (d : dict nat) : remove_jobs ids d `sublist_of` d.
Proof.
  revert d. induction ids as [|k ids IH]; intros d; [done|].
  change (remove_jobs (k :: ids) d) with (remove_jobs ids (dpop k d)). etrans; [apply IH|apply dpop_sublist].
Qed.

(** Every job of the table is done. *)
Definition table_done (m : JobManager) : Prop :=
  ∀ k r, (k, r) ∈ _jobs m → ∃ j, heap m !! r = Some j ∧ is_active j = false.

Lemma completed_keys m : table_done m → (completed_jobs m).*1 = dkeys (_jobs m).
Proof.
  unfold table_done, completed_jobs, dkeys. induction (_jobs m) as [|[k r] d IH]; intros H; [done|].
  destruct (H k r) as (j & Hj & Ha); [left|]. csimpl. rewrite Hj, Ha. csimpl. f_equal. apply IH.
  intros k' r' Hin. apply (H k'). by right.
Qed.
Lemma evict_length m : wf_dict (_jobs m) → table_done m → (length (_jobs m) ≤ 64)%nat → (length (_jobs (_evict_old_jobs m)) ≤ 63)%nat.
Proof.
  intros Hwf Hd Hle. unfold _evict_old_jobs. case_match eqn:E; [apply Nat.ltb_lt in E; unfold _MAX_RETAINED_JOBS in E; lia|].
  apply Nat.ltb_ge in E. cbn [_jobs]. set (l := take _ _).
  assert (l `sublist_of` sort_by snd (completed_jobs m)) as Hs by apply sublist_take.
  assert ((sort_by snd (completed_jobs m)).*1 ≡ₚ dkeys (_jobs m)) as Hp by (rewrite sort_by_perm, completed_keys; done).
  assert (NoDup (sort_by snd (completed_jobs m)).*1) as Hnd by (rewrite Hp; done).
  assert (length l.*1 = length (_jobs m) - _MAX_RETAINED_JOBS + 1)%nat as Hlen.
  { unfold l. rewrite length_fmap, length_take. apply Permutation_length in Hp.
    rewrite length_fmap in Hp. unfold dkeys in Hp. rewrite length_fmap in Hp. unfold _MAX_RETAINED_JOBS in *. lia. }
  assert (length (remove_jobs l.*1 (_jobs m)) + length l.*1 = length (_jobs m))%nat as Hr; [|unfold _MAX_RETAINED_JOBS in *; lia].
  apply remove_jobs_length; [done| |].
  - eapply sublist_NoDup; [exact Hnd|]. by apply (fmap_sublist fst).
  - intros k Hk. rewrite <- Hp. eapply sublist_subseteq; [apply (fmap_sublist fst); exact Hs|done].
Qed.
Lemma evict_sublist m : _jobs (_evict_old_jobs m) `sublist_of` _jobs m.
Proof. unfold _evict_old_jobs. case_match; [done|]. apply remove_jobs_sublist. Qed.
Lemma evict_rest m : heap (_evict_old_jobs m) = heap m ∧ tasks (_evict_old_jobs m) = tasks m ∧ _current_job (_evict_old_jobs m) = _current_job m.
Proof. unfold _evict_old_jobs. by case_match. Qed.

(** ** The invariant *)

Definition phase_state (t : phase) : JobState := match t with Created => SUBMITTED | Working => RUNNING end.
Record flight (m : JobManager) : Prop := {
  f_tasks r t : (r, t) ∈ tasks m → ∃ j, heap m !! r = Some j ∧ state j = phase_state t;
  f_active r j : heap m !! r = Some j → is_active j = true → _current_job m = Some r;
  f_nodup : NoDup (tasks m).*1;
  f_table k r : (k, r) ∈ _jobs m → (r < length (heap m))%nat;
  f_wf : wf_dict (_jobs m);
  f_len : (length (_jobs m) ≤ 64)%nat }.

Lemma flight_start : flight new_manager.
Proof. split; simpl; try done; try lia; try constructor; by intros ?? ?%elem_of_nil. Qed.

Lemma is_busy_spec m : flight m → is_busy m = true ↔ ∃ r j, heap m !! r = Some j ∧ is_active j = true.
Proof.
  intros Hf. unfold is_busy. split.
  - destruct (_current_job m) as [r|]; [|done]. destruct (heap m !! r) as [j|] eqn:E; [|done]. eauto.
  - intros (r & j & Hj & Ha). by rewrite (f_active m Hf r j Hj Ha), Hj.
Qed.
Lemma idle_inactive m r j : flight m → is_busy m = false → heap m !! r = Some j → is_active j = false.
Proof.
  intros Hf Hb Hj. apply not_true_iff_false. intros Ha. apply not_true_iff_false in Hb. apply Hb.
  apply is_busy_spec; eauto.
Qed.
Lemma idle_no_tasks m : flight m → is_busy m = false → tasks m = [].
Proof.
  intros Hf Hb. destruct (tasks m) as [|[r t] l] eqn:E; [done|]. exfalso.
  destruct (f_tasks m Hf r t) as (j & Hj & Hs); [rewrite E; left|].
  apply (idle_inactive m r j Hf Hb) in Hj. unfold is_active in Hj. rewrite Hs in Hj. by destruct t.
Qed.
Lemma idle_table_done m : flight m → is_busy m = false → table_done m.
Proof.
  intros Hf Hb k r Hin. apply (f_table m Hf) in Hin. apply lookup_lt_is_Some in Hin as [j Hj].
  exists j. split; [done|by eapply idle_inactive].
Qed.

(** A job enters an idle manager. *)
Lemma flight_enter m (d : dict nat) j t :
  flight m → is_busy m = false → state j = phase_state t →
  wf_dict d → (length d ≤ 64)%nat → (∀ k r, (k, r) ∈ d → (r ≤ length (heap m))%nat) →
  flight (Manager (Some (length (heap m))) d (heap m ++ [j]) (tasks m ++ [(length (heap m), t)])).
Proof.
  intros Hf Hb Hs Hwf Hlen Hd. rewrite (idle_no_tasks m Hf Hb). split; simpl.
  - intros r t' [= -> ->]%list_elem_of_singleton. exists j. split; [by rewrite lookup_app_r, Nat.sub_diag by lia|done].
  - intros r j' [Hj|[Hge Hj]]%lookup_app_Some Ha.
    + apply (idle_inactive m r j' Hf Hb) in Hj. congruence.
    + apply list_lookup_singleton_Some in Hj as [Hr _]. f_equal. lia.
  - repeat constructor. by intros ?%elem_of_nil.
  - intros k r Hin. rewrite length_app. simpl. apply Hd in Hin. lia.
  - done.
  - done.
Qed.

Lemma filter_task (P : nat * phase → Prop) `{∀ x, Decision (P x)} (l : list (nat * phase)) (x : nat * phase) : x ∈ filter P l → x ∈ l.
Proof. by intros [_ ?]%list_elem_of_filter. Qed.
Lemma filter_nodup (P : nat * phase → Prop) `{∀ x, Decision (P x)} (l : list (nat * phase)) : NoDup l.*1 → NoDup (filter P l).*1.
Proof. intros Hn. eapply sublist_NoDup; [exact Hn|]. apply fmap_sublist, sublist_filter. Qed.
Lemma task_unique m r t t' : flight m → (r, t) ∈ tasks m → (r, t') ∈ tasks m → t = t'.
Proof.
  intros Hf H1 H2. destruct (f_tasks m Hf r t H1) as (j & Hj & Hs), (f_tasks m Hf r t' H2) as (j' & Hj' & Hs').
  simplify_eq. rewrite Hs in Hs'. by destruct t, t'.
Qed.

Lemma flight_run_start m r now : flight m → (r, Created) ∈ tasks m → flight (run_start elapsed r now m).
Proof.
  intros Hf Ht.
  split; simpl.
  - intros r' t' [Hin|Hin]%elem_of_app.
    + apply list_elem_of_filter in Hin as [Hne Hin]. destruct (f_tasks m Hf r' t' Hin) as (j & Hj & Hs).
      destruct (decide (r' = r)) as [->|Hr].
      { rewrite (task_unique m r t' Created Hf Hin Ht) in Hne. done. }
      exists j. by rewrite list_lookup_alter_ne by done.
    + apply list_elem_of_singleton in Hin as [= -> ->]. destruct (f_tasks m Hf r Created Ht) as (j & Hj & Hs).
      exists (start_job elapsed now j). by rewrite list_lookup_alter_eq, Hj.
  - intros r' j Hj Ha. destruct (decide (r' = r)) as [->|Hr].
    + destruct (f_tasks m Hf r Created Ht) as (j0 & Hj0 & Hs). apply (f_active m Hf r j0 Hj0).
      unfold is_active. by rewrite Hs.
    + rewrite list_lookup_alter_ne in Hj by done. by eapply (f_active m Hf).
  - rewrite fmap_app. apply NoDup_app. split_and!; [by apply filter_nodup, (f_nodup m Hf)| |apply NoDup_singleton].
    intros r' Hin Hr. csimpl in Hr. apply list_elem_of_singleton in Hr as ->.
    apply list_elem_of_fmap in Hin as ([r1 t1] & Hr1 & [Hne Hin]%list_elem_of_filter). simpl in Hr1. subst r1.
    rewrite (task_unique m r t1 Created Hf Hin Ht) in Hne. done.
  - intros k r' Hin. rewrite length_alter. by eapply (f_table m Hf).
  - apply (f_wf m Hf).
  - apply (f_len m Hf).
Qed.
Lemma flight_run_finish m r o now : flight m → (r, Working) ∈ tasks m → flight (run_finish elapsed r o now m).
Proof.
  intros Hf Ht.
  destruct (f_tasks m Hf r Working Ht) as (j0 & Hj0 & Hs0). split; simpl.
  - intros r' t' [Hne Hin]%list_elem_of_filter. destruct (f_tasks m Hf r' t' Hin) as (j & Hj & Hs).
    destruct (decide (r' = r)) as [->|Hr].
    { rewrite (task_unique m r t' Working Hf Hin Ht) in Hne. done. }
    exists j. by rewrite list_lookup_alter_ne by done.
  - intros r' j Hj Ha. destruct (decide (r' = r)) as [->|Hr].
    + rewrite list_lookup_alter_eq, Hj0 in Hj. injection Hj as <-. by rewrite finish_job_inactive in Ha.
    + rewrite list_lookup_alter_ne in Hj by done. unfold clear_current.
      rewrite (f_active m Hf r' j Hj Ha). rewrite decide_False; [done|]. congruence.
  - by apply filter_nodup, (f_nodup m Hf).
  - intros k r' Hin. rewrite length_alter. by eapply (f_table m Hf).
  - apply (f_wf m Hf).
  - apply (f_len m Hf).
Qed.

Lemma flight_step m m' : flight m → step m m' → flight m'.
Proof.
  intros Hf Hstep. destruct Hstep as [job_id now m Hid|r now m Ht|r o now m Ht|now m|r m Ht].
  - unfold submit. destruct (is_busy m) eqn:Hb; [done|]. destruct (evict_rest m) as (E1 & E2 & E3). rewrite E1, E2.
    pose proof (evict_length m (f_wf m Hf) (idle_table_done m Hf Hb) (f_len m Hf)) as He.
    apply flight_enter; [done..| | |].
    + apply wf_dset. eapply wf_sublist; [apply evict_sublist|apply (f_wf m Hf)].
    + pose proof (length_dset job_id (length (heap m)) (_jobs (_evict_old_jobs m))). lia.
    + intros k r Hin. apply elem_of_dset in Hin as [[= -> ->]|Hin]; [lia|].
      eapply Nat.lt_le_incl, (f_table m Hf). eapply sublist_subseteq; [apply evict_sublist|done].
  - by apply flight_run_start.
  - by apply flight_run_finish.
  - unfold sync_begin. destruct (is_busy m) eqn:Hb; [done|].
    apply flight_enter; [done..|apply (f_wf m Hf)|apply (f_len m Hf)|]. intros k r Hin.
    by apply Nat.lt_le_incl, (f_table m Hf k).
  - split; simpl; try apply Hf.
    + intros r' t' Hin%filter_task. by apply (f_tasks m Hf).
    + by apply filter_nodup, (f_nodup m Hf).
Qed.

Lemma flight_single_task m : flight m → (length (tasks m) ≤ 1)%nat.
Proof.
  intros Hf. destruct (tasks m) as [|[r1 t1] [|[r2 t2] l]] eqn:E; simpl; [lia..|]. exfalso.
  destruct (f_tasks m Hf r1 t1) as (j1 & Hj1 & Hs1); [rewrite E; left|].
  destruct (f_tasks m Hf r2 t2) as (j2 & Hj2 & Hs2); [rewrite E; right; left|].
  pose proof (f_nodup m Hf) as Hn. rewrite E in Hn. csimpl in Hn. apply NoDup_cons in Hn as [Hn _]. apply Hn.
  assert (_current_job m = Some r1) as C1.
  { apply (f_active m Hf r1 j1 Hj1). unfold is_active. rewrite Hs1. by destruct t1. }
  assert (_current_job m = Some r2) as C2.
  { apply (f_active m Hf r2 j2 Hj2). unfold is_active. rewrite Hs2. by destruct t2. }
  rewrite C1 in C2. injection C2 as ->. left.
Qed.

Lemma finished_step m m' r j : flight m → step m m' → heap m !! r = Some j → is_active j = false → heap m' !! r = Some j.
Proof.
  intros Hf Hst Hj Ha.
  assert (∀ r' t, (r', t) ∈ tasks m → r ≠ r') as Hne.
  { intros r' t Ht ->. destruct (f_tasks m Hf r' t Ht) as (j' & Hj' & Hs). simplify_eq.
    unfold is_active in Ha. rewrite Hs in Ha. by destruct t. }
  destruct Hst as [job_id now m Hid|r' now m Ht|r' o now m Ht|now m|r' m Ht]; simpl; [| | | |done].
  - unfold submit. destruct (is_busy m); [done|]. simpl. destruct (evict_rest m) as (-> & _ & _).
    by apply lookup_app_l_Some.
  - rewrite list_lookup_alter_ne; [done|]. apply not_eq_sym. by eapply Hne.
  - rewrite list_lookup_alter_ne; [done|]. apply not_eq_sym. by eapply Hne.
  - unfold sync_begin. destruct (is_busy m); [done|]. simpl. by apply lookup_app_l_Some.
Qed.

(** C25 — Single flight.  In every state the event loop can reach, whatever the
    order of submissions, starts, ends and cancellations: at most one job is
    submitted or running, it is the current one, at most one coroutine is alive,
    the manager calls itself busy exactly while there is such a job, and the table
    never holds more than 64 jobs. *)
Theorem single_flight (m : JobManager) :
  steps step new_manager m →
  (∀ r r' j j', heap m !! r = Some j → heap m !! r' = Some j' → is_active j = true → is_active j' = true → r = r') ∧
  (length (tasks m) ≤ 1)%nat ∧
  (is_busy m = true ↔ ∃ r j, heap m !! r = Some j ∧ is_active j = true) ∧
  (length (_jobs m) ≤ _MAX_RETAINED_JOBS)%nat.
Proof.
  intros Hs. assert (flight m) as Hf.
  { eapply (steps_inv step flight); [|apply flight_start|exact Hs]. intros; by eapply flight_step. }
  split_and!; [|by apply flight_single_task|by apply is_busy_spec|apply (f_len m Hf)].
  intros r r' j j' Hj Hj' Ha Ha'. pose proof (f_active m Hf r j Hj Ha). pose proof (f_active m Hf r' j' Hj' Ha'). congruence.
Qed.

(** A finished job is final: once a job has succeeded or failed, no later step
    changes anything in it. *)
Theorem finished_job_final (m m' : JobManager) (r : nat) (j : Job) :
  steps step new_manager m → steps step m m' →
  heap m !! r = Some j → is_active j = false → heap m' !! r = Some j.
Proof.
  intros Hs Hs' Hj Ha. assert (flight m) as Hf.
  { eapply (steps_inv step flight); [|apply flight_start|exact Hs]. intros; by eapply flight_step. }
  apply (steps_inv step (λ m, flight m ∧ heap m !! r = Some j)) in Hs'; [by destruct Hs'| |done].
  intros m1 m2 [Hf1 Hj1] Hst. split; [by eapply flight_step|by eapply finished_step].
Qed.
End manager.

(** A job is submitted, refused while it runs, finished, and another one accepted. *)
Definition elapsed0 (t : Z) : value := VInt t.
Definition m1 : JobManager := (submit "a" 0 new_manager).1.
Definition m2 : JobManager := run_start elapsed0 0 1 m1.
Definition m3 : JobManager := run_finish elapsed0 0 (Returned [("ok", VBool true)]) 5 m2.
Definition m4 : JobManager := (submit "b" 6 m3).1.

Example submit_while_running : (submit "b" 2 m2).2 = None.
Proof. reflexivity. Qed.

Lemma steps_m3 : steps (manager_step elapsed0) new_manager m3.
Proof.
  eapply steps_cons; [apply (step_submit _ "a" 0); reflexivity|].
  eapply steps_cons; [apply (step_run_start _ 0 1); left|].
  apply steps_one. apply (step_run_finish _ 0 (Returned [("ok", VBool true)]) 5). left.
Qed.
Lemma step_m4 : steps (manager_step elapsed0) m3 m4.
Proof. apply steps_one. apply (step_submit _ "b" 6). reflexivity. Qed.

Lemma single_flight_witness : is_busy m4 = true ∧ (length (tasks m4) ≤ 1)%nat ∧ (length (_jobs m4) ≤ 64)%nat.
Proof.
  destruct (single_flight elapsed0 m4) as (_ & H1 & _ & H2).
  - eapply steps_trans; [exact steps_m3|exact step_m4].
  - split_and!; [reflexivity|exact H1|exact H2].
Defined.
Lemma finished_job_final_witness :
  ∃ j, heap m4 !! 0%nat = Some j ∧ state j = SUCCEEDED ∧ job_result j = [("ok", VBool true)].
Proof.
  eexists. split; [|split].
  - refine (finished_job_final elapsed0 m3 m4 0 _ steps_m3 step_m4 _ _); reflexivity.
  - reflexivity.
  - reflexivity.
Defined.

(** ** The staged manager *)

Section staged.
Context (elapsed : Z → value) (time_value : Z → value) (paths : RuntimePaths).

(** A failed staging leaves a terminal job with an error. *)
Definition failed (j : Job) : Prop := state j = FAILED ∧ is_Some (job_error j) ∧ is_Some (completed_at j).

Lemma mark_failed_failed f now j : failed (_mark_failed f now j).
Proof. unfold failed, _mark_failed, fail_with. destruct (f_rollback f); simpl; eauto. Qed.

Definition ends {A} (m : M A) (P : A → Prop) : Prop := ∀ e w, ∃ a w', m e w = (Ok a, w') ∧ P a.
Lemma ends_ret {A} (a : A) (P : A → Prop) : P a → ends (mret a) P.
Proof. intros H e w. by eexists _, _. Qed.
Lemma ends_bind {A B} (m : M A) (f : A → M B) (P : A → Prop) (Q : B → Prop) :
  ends m P → (∀ a, P a → ends (f a) Q) → ends (m ≫= f) Q.
Proof.
  intros Hm Hf e w. destruct (Hm e w) as (a & w1 & Ha & HP). destruct (Hf a HP e w1) as (b & w2 & Hb & HQ).
  exists b, w2. unfold mbind, M_bind. by rewrite Ha.
Qed.
Lemma ends_attempt {A} (m : M A) : ends (attempt m) (λ _, True).
Proof. intros e w. unfold attempt. destruct (m e w) as [r w1]. eauto. Qed.
Lemma ends_time : ends time_time (λ _, True).
Proof. intros e w. unfold time_time, ask. eauto. Qed.

Lemma stage_failed_ends x j : ends (stage_failed paths x j) (λ r, failed r.1 ∧ r.2 ≠ Ok true).
Proof.
  unfold stage_failed. eapply ends_bind; [apply ends_attempt|]. intros r _.
  eapply ends_bind; [apply ends_time|]. intros t _. apply ends_ret. split; [apply mark_failed_failed|]. simpl. intros ?. repeat case_match; discriminate.
Qed.
Lemma stage_cancelled_ends j : ends (stage_cancelled paths j) (λ r, failed r.1 ∧ r.2 ≠ Ok true).
Proof.
  unfold stage_cancelled. eapply ends_bind; [apply ends_attempt|]. intros r _.
  eapply ends_bind; [apply ends_time|]. intros t _. apply ends_ret. destruct r; (split; [apply mark_failed_failed|done]).
Qed.
Lemma stop_heartbeat_ends hb r : failed r.1 → r.2 ≠ Ok true → ends (stop_heartbeat hb r) (λ r, failed r.1 ∧ r.2 ≠ Ok true).
Proof.
  intros Hf Hr. unfold stop_heartbeat. destruct hb; [|by apply ends_ret]. eapply ends_bind; [apply ends_time|].
  intros t _. apply ends_ret. split; [apply mark_failed_failed|done].
Qed.

(** Publication decides.  Staging always comes to an end with a job the clients
    can read.  If the reservation can be refreshed and the work publishes the job,
    the job is running and queued for the worker, whatever happens to the heartbeat
    or to the reservation afterwards; in every other case it has failed, with an
    error and a time of completion. *)
Theorem staged_publication_decides (work : M ()) (hb : option exn) (j : Job) (e : env) (w : world) :
  let started := start_job elapsed (e_time e (w_n w)) j in
  let '(first, w1) := _refresh_reservation paths started e (tick w) in
  let published := is_ok first && is_ok (work e w1).1 in
  ∃ j' r w', _stage_and_monitor elapsed paths work hb j e w = (Ok (j', r), w') ∧
    if published
    then r = Ok true ∧ state j' = RUNNING ∧ stage j' = "queued" ∧ job_error j' = job_error j
    else r ≠ Ok true ∧ failed j'.
Proof.
  cbv zeta. set (started := start_job elapsed (e_time e (w_n w)) j).
  destruct (_refresh_reservation paths started e (tick w)) as [first w1] eqn:E1.
  destruct first as [[]|x].
  2: { simpl. destruct (stage_failed_ends x started e w1) as ([j' r] & w' & H & Hf & Hr). exists j', r, w'.
       split; [|done]. unfold _stage_and_monitor, mbind, M_bind, time_time, ask, attempt. fold started. by rewrite E1. }
  simpl. unfold _stage_and_monitor, time_time, ask, mbind at 1 2 3, M_bind at 1 2 3, attempt at 1 2. fold started. rewrite E1.
  destruct (work e w1) as [[[]|x] w2]; simpl.
  - unfold mbind, M_bind, attempt, time_time, ask. destruct (_refresh_reservation paths started e w2) as [second w3].
    eexists _, _, _. split; [reflexivity|]. done.
  - assert (∀ m, ends m (λ r : staging_end, failed r.1 ∧ r.2 ≠ Ok true) →
      ∃ j' r w', (d ← m; stop_heartbeat hb d) e w2 = (Ok (j', r), w') ∧ r ≠ Ok true ∧ failed j') as Hend.
    { intros m Hm. destruct (ends_bind m (stop_heartbeat hb) _ _ Hm (λ r H, stop_heartbeat_ends hb r (proj1 H) (proj2 H)) e w2)
        as ([j' r] & w' & H & Hf & Hr). exists j', r, w'. done. }
    destruct x; apply Hend; first [apply stage_cancelled_ends|apply stage_failed_ends].
Qed.

(** A worker's result is final and faithful: when looking for a result finds
    one, the job takes exactly its verdict, payload, error and rollback status, is
    finished and has a time of completion; when it finds none, the job is left as
    it was. *)
Theorem refresh_from_result_faithful (j j' : Job) (found : bool) (e : env) (w w' : world) :
  _refresh_from_result paths j e w = (Ok (j', found), w') →
  if found
  then ∃ published out w1, read_result paths (id j) e w = (Ok (Some published), w1) ∧
         interpret_staged_result published = Ok out ∧ is_active j' = false ∧ is_Some (completed_at j') ∧ id j' = id j ∧
         (if succeeded out
          then state j' = SUCCEEDED ∧ job_result j' = sr_payload out ∧ job_error j' = None
          else state j' = FAILED ∧ job_error j' = sr_error out ∧ rollback_status j' = Staging.rollback_status out)
  else j' = j.
Proof.
  unfold _refresh_from_result. intros (r & w1 & Hr & H)%run_bind. destruct r as [published|].
  - apply run_bind in H as (out & w2 & Hout & (now & w3 & _ & H)%run_bind). apply run_lift in Hout as [Hout ->].
    apply run_catch in Hr as [Hr|(x & w4 & _ & _ & Hr)]; [|by apply run_ret in Hr as [? _]].
    apply run_ret in H as [H _]. destruct (succeeded out) eqn:Hs; injection H as <- <-;
      exists published, out, w1; rewrite Hs; split_and!; try done; simpl; destruct (completed_at j); eauto.
  - apply run_ret in H as [H _]. by injection H as <- <-.
Qed.
End staged.

(** A failed result on disk. *)
Definition job_paths : RuntimePaths := Paths ["run"].
Definition result_fs : fs :=
  list_to_map
    [ (["run"], plain_dir); (["run"; "results"], plain_dir);
      (["run"; "results"; "job-a.json"],
       plain_file (CJson (VDict [("version", VInt 1); ("job_id", VStr "job-a"); ("status", VStr "failed"); ("error", VStr "no space")]) 90)) ].
Definition refresh_run : result (Job * bool) * world :=
  run_op (_refresh_from_result job_paths (new_job "job-a" 3)) sample_env result_fs.
Definition refreshed : Job := match refresh_run.1 with Ok (j, _) => j | Err _ => new_job "" 0 end.

Lemma refresh_from_result_faithful_witness :
  state refreshed = FAILED ∧ job_error refreshed = Some "no space" ∧ is_active refreshed = false ∧ id refreshed = "job-a".
Proof.
  assert (state refreshed = FAILED ∧ job_error refreshed = Some "no space") as [H1 H2] by (vm_compute; split; reflexivity).
  split; [exact H1|split; [exact H2|]].
  assert (match refresh_run.1 with Ok (_, true) => true | _ => false end = true) as Hok by (vm_compute; reflexivity).
  unfold refreshed in *. destruct refresh_run as [[[j []]|x] w'] eqn:E; try discriminate Hok. simpl in *.
  destruct (refresh_from_result_faithful job_paths (new_job "job-a" 3) j true sample_env (World result_fs [] 0) w' E)
    as (pub & out & w1 & _ & _ & Ha & _ & Hid & _). split; [exact Ha|exact Hid].
Defined.
