(* ===== verification/Monitor.v ===== *)
(** * [jobs.py]: the background loops of the staged manager

    [_heartbeat_reservation], [_monitor_staged] and [_start_monitor_if_possible] of
    src/scripts/atomixos_provision/src/atomixos_provision/jobs.py.  The loops run
    while other coroutines, threads and processes do; what these do between two
    turns is given, and a number of turns bounds what is looked at of a loop. *)

From S2P Require Import Prelude PyStr PyVal FS Staging StagedJob Jobs.

Local Open Scope Z_scope.

Section monitor.
Context (elapsed time_value : Z → value) (paths : RuntimePaths) (result_timeout_seconds : Z).

(** ** The heartbeat of a reservation *)

(** [beats] turns, then the cancellation: the job, and the error the loop died of. *)
Fixpoint _heartbeat_reservation (beats : nat) (last_error : bool) (j : Job) : M (Job * option exn) :=
  match beats with
  | O => mret (j, None)
  | S beats =>
      refreshed ← attempt (_refresh_reservation paths j);
      now ← time_time;
      match refreshed with
      | Ok _ =>
          _heartbeat_reservation beats false
            (if last_error then set_stage elapsed "running" "reservation refresh recovered" [] now j else j)
      | Err x =>
          if is_OSError x then
            _heartbeat_reservation beats true
              (if last_error then j
               else set_stage elapsed "running" ("reservation refresh failed; retrying: " +:+ exn_text x) [] now j)
          else mret (j, Some x)
      end
  end.

(** ** The monitor *)

Definition _handle_staged_timeout (other : nat → M ()) (j : Job) : M StagedTimeoutState :=
  staged_timeout_state time_value other paths (id j).

(** [read]: the result, applied to the job when there is one. *)
Definition read_into (j : Job) : M (result (option ()) * Job) :=
  r ← attempt (_refresh_from_result paths j);
  mret match r with
       | Ok (j', true) => (Ok (Some tt), j')
       | Ok (j', false) => (Ok None, j')
       | Err x => (Err x, j)
       end.

(** What one poll observes, each probe only when the poll gets there, and the job
    as the probes leave it. *)
Definition observe_job (other : nat → M ()) (w : StagedResultWaiter) (j : Job) : M (observation () * Job) :=
  now ← time_time;
  '(read, j) ← read_into j;
  match read with
  | Ok (Some _) => mret (Observe now read (Ok false) (Ok WAITING) (Ok None), j)
  | _ =>
      claimed ← match read with Ok _ => attempt (exists_ (active paths // id j)) | Err x => mret (Err x) end;
      let goes_on := match claimed with
                     | Ok _ => true
                     | Err x => is_OSError x && is_ok (_read_failed now x w).1.1
                     end in
      if goes_on && (w_liveness_due w <=? now) then
        timeout ← attempt (_handle_staged_timeout other j);
        '(reread, j) ← match timeout with
                       | Ok (ABANDONED | MISSING) => read_into j
                       | _ => mret (Ok None, j)
                       end;
        mret (Observe now read claimed timeout reread, j)
      else mret (Observe now read claimed (Ok WAITING) (Ok None), j)
  end.

(** [on_stage=job.set_stage] *)
Definition report_progress (log : list (string * string)) (now : Z) (j : Job) : Job :=
  fold_left (λ j (sd : string * string), set_stage elapsed sd.1 sd.2 [] now j) log j.

(** How the loop ended: not yet, by itself, or by a cancellation, re-raised. *)
Variant monitor_end : Type := Watching | Ended | MonitorCancelled.

(** [others k] is what runs between the turns: it may change the tree and, a
    request for its status, the job. *)
Fixpoint monitor_loop (polls : nat) (others : nat → Job → M Job) (during : nat → nat → M ()) (w : StagedResultWaiter) (j : Job)
    : M (Job * monitor_end) :=
  match polls with
  | O => mret (j, Watching)
  | S polls =>
      if negb (is_active j) then mret (j, Ended)
      else
        '(o, j) ← observe_job (during polls) w j;
        now ← time_time;
        match poll o w with
        | (Ok (Some _), _, log) =>
            (* progress was reported before the result was taken *)
            mret (set_stage_name (stage j) (report_progress log now j), Ended)
        | (Ok None, w', log) =>
            paused ← attempt (others polls (report_progress log now j));
            match paused with
            | Ok j => monitor_loop polls others during w' j
            | Err x => mret (_mark_failed (Failure "staged job manager task was cancelled" None) now (report_progress log now j),
                             MonitorCancelled)
            end
        | (Err x, _, log) => mret (_mark_failed (failure_of x) now (report_progress log now j), Ended)
        end
  end.

Definition _monitor_staged (polls : nat) (others : nat → Job → M Job) (during : nat → nat → M ()) (j : Job) : M (Job * monitor_end) :=
  now ← time_time;
  let w := new_waiter result_timeout_seconds now in
  monitor_loop polls others during (Waiter (w_interval w) (stage j) (w_liveness_due w) None None) j.

(** [self._monitored_job_ids.discard(job.id)], when the loop ends. *)
Definition monitor_ended (monitored : list string) (j : Job) : list string := filter (λ i, i ≠ id j) monitored.
(** The identifiers monitored, and whether a monitor was started. *)
Definition _start_monitor_if_possible (loop_running : bool) (monitored : list string) (j : Job) : list string * bool :=
  if negb loop_running || bool_decide (id j ∈ monitored) then (monitored, false) else (id j :: monitored, true).
End monitor.
