(* ===== verification/MonitorFacts.v ===== *)
(** * Monitoring a staged job: theorems

    The loop waits for as long as the worker holds the job, and ends with the
    worker's verdict once that is published. *)

From S2P Require Import Prelude PyStr PyVal FS FSLogic RunLogic Staging StagedJob StagingFacts StagedJobFacts Activation ActivationFacts Jobs Monitor.

Local Open Scope Z_scope.

Section monitor.
Context (elapsed time_value : Z → value) (paths : RuntimePaths) (i : string).
Context (Hi : validate_job_id i = Ok i).

(** The worker has claimed job [i] and not answered yet: the claim is a directory,
    the queue lock is root's regular file, the result is not there. *)
Record held (s : fs) : Prop := Held {
  held_claim : is_dir_at s (active paths // i) = true;
  held_lock : ∃ l, s !! queue_lock paths = Some l ∧ is_reg l = true ∧ (root paths = DEFAULT_RUNTIME_ROOT → n_uid l = 0);
  held_results : ∃ d, s !! results paths = Some d ∧ check_results_directory (results paths) (is_default_root paths) d = Ok tt;
  held_none : ∃ m, lstat_at s (result_path paths i) = Err (FileNotFoundError m) }.

(** The worker's result of job [i] is there, trusted, and says [d]. *)
Record answered (d : dict value) (s : fs) : Prop := Answered {
  answered_results : ∃ dir st, s !! results paths = Some dir ∧
    check_results_directory (results paths) (is_default_root paths) dir = Ok tt ∧
    s !! result_path paths i = Some st ∧ check_result_stat (result_path paths i) dir st = Ok tt;
  answered_text : read_json_at (result_path paths i) s = Ok d;
  answered_version : py_eq (vget "version" d) (VInt RESULT_VERSION) = true;
  answered_job : eq_str (vget "job_id" d) i = true }.

(** A job that has taken a verdict. *)
Definition took (out : StagedResult) (j : Job) : Prop :=
  if succeeded out
  then state j = SUCCEEDED ∧ job_result j = sr_payload out ∧ job_error j = None
  else state j = FAILED ∧ job_error j = sr_error out ∧ rollback_status j = Staging.rollback_status out.

Local Abbreviation wpq := (wp reads_ok (λ _, True)).

(** ** Probes *)

Lemma wp_time (Q : result Z → fs → Prop) s : (∀ t, Q (Ok t) s) → wpq time_time Q s.
Proof. intros H. apply wp_ask. auto. Qed.

Lemma wp_results_directory dir (Q : result (option node) → fs → Prop) s :
  s !! results paths = Some dir → check_results_directory (results paths) (is_default_root paths) dir = Ok tt →
  Q (Ok (Some dir)) s → wpq (_verify_results_directory (results paths) (is_default_root paths)) Q s.
Proof.
  intros Hd Hc HQ. unfold _verify_results_directory. apply wp_bind, wp_catch, wp_bind, wp_lstat_ok.
  unfold lstat_at. rewrite Hd. simpl. apply wp_ret, wp_bind, wp_lift. rewrite Hc. by apply wp_ret.
Qed.

Lemma wp_refresh_held j (Q : result (Job * bool) → fs → Prop) s :
  id j = i → held s → Q (Ok (j, false)) s → wpq (_refresh_from_result paths j) Q s.
Proof.
  intros Hj [_ _ (dir & Hd & Hc) (m & Hm)] HQ. unfold _refresh_from_result, read_result. rewrite Hj.
  apply wp_bind, wp_catch, wp_bind, wp_lift. rewrite Hi.
  apply wp_bind, (wp_results_directory dir); [done..|].
  apply wp_bind, wp_catch, wp_bind, wp_lstat_ok. rewrite Hm. simpl. apply wp_ret, wp_ret, wp_ret, HQ.
Qed.

Lemma wp_refresh_answered d out j (Q : result (Job * bool) → fs → Prop) s :
  id j = i → answered d s → interpret_staged_result d = Ok out →
  (∀ j', took out j' → Q (Ok (j', true)) s) → wpq (_refresh_from_result paths j) Q s.
Proof.
  intros Hj [(dir & st & Hd & Hc & Hst & Hok) Ht Hv Hjob] Hout HQ. unfold _refresh_from_result, read_result. rewrite Hj.
  apply wp_bind, wp_catch, wp_bind, wp_lift. rewrite Hi.
  apply wp_bind, (wp_results_directory dir); [done..|].
  apply wp_bind, wp_catch, wp_bind, wp_lstat_ok. unfold lstat_at. rewrite Hst. simpl.
  apply wp_ret, wp_bind, wp_lift. rewrite Hok. apply wp_bind, wp_read_json. rewrite Ht.
  apply wp_bind, wp_lift. rewrite Hv, Hjob. simpl. apply wp_ret, wp_bind, wp_lift. rewrite Hout.
  apply wp_bind, wp_time. intros now. apply wp_ret.
  assert (∀ j1 j2, took out (if succeeded out then j1 else j2) →
            Q (Ok (if succeeded out then (j1, true) else (j2, true))) s) as Hif.
  { intros j1 j2. destruct (succeeded out); apply HQ. }
  apply Hif. unfold took. by destruct (succeeded out).
Qed.

Lemma wp_claimed (Q : result bool → fs → Prop) s :
  held s → Q (Ok true) s → wpq (exists_ (active paths // i)) Q s.
Proof.
  intros [Hc _ _ _] HQ. unfold is_dir_at in Hc. destruct (s !! (active paths // i)) as [n|] eqn:En; [|done].
  apply wp_exists_plain; [|done|by rewrite En].
  intros n' Hn'. rewrite En in Hn'. injection Hn' as <-. unfold is_dir, is_lnk in *. by destruct (n_kind n).
Qed.

Lemma wp_timeout_held other j (Q : result StagedTimeoutState → fs → Prop) s :
  id j = i → held s → Q (Ok CLAIMED) s → wpq (_handle_staged_timeout time_value paths other j) Q s.
Proof.
  intros Hj [Hc (l & Hl & Hreg & Hown) _ _] HQ. unfold _handle_staged_timeout, staged_timeout_state, staged_job_presence.
  rewrite Hj. unfold queue_operation_lock, _open_queue_lock.
  apply wp_bind, wp_bind, wp_lift. rewrite Hi.
  apply wp_bind, wp_bind. apply wp_ask. intros e n _. apply wp_bind, wp_attempt, wp_lstat_ok. unfold lstat_at. rewrite Hl. simpl.
  assert (is_lnk l = false) as -> by (unfold is_lnk, is_reg in *; by destruct (n_kind l)).
  assert (is_dir l = false) as -> by (unfold is_dir, is_reg in *; by destruct (n_kind l)).
  apply wp_bind, wp_ret, wp_bind, wp_rd_ok. rewrite Hl. simpl. rewrite Hreg. simpl.
  assert (bool_decide (root paths = DEFAULT_RUNTIME_ROOT) && negb (n_uid l =? 0) = false) as ->.
  { case_bool_decide; [|done]. rewrite Hown by done. done. }
  apply wp_ret. unfold _job_presence_locked. apply wp_bind, wp_catch, wp_bind, wp_lstat_ok.
  unfold lstat_at, is_dir_at in *. destruct (s !! (active paths // i)) as [n'|]; [|done]. simpl.
  apply wp_ret. rewrite Hc. apply wp_ret. simpl. by apply wp_ret.
Qed.

(** ** Turns *)

(** What a poll observes while the worker holds the job. *)
Definition quiet (o : observation ()) : Prop :=
  o_read o = Ok None ∧ o_claimed o = Ok true ∧ (o_state o = Ok WAITING ∨ o_state o = Ok CLAIMED).

Lemma poll_quiet o w : quiet o → ∃ w' log, poll o w = (Ok None, w', log).
Proof.
  intros (Hr & Hc & Hs). unfold poll. rewrite Hr, Hc. destruct (_report _ _) as [w2 l]. unfold poll_liveness.
  destruct (_ <? _); [eauto|]. destruct Hs as [-> | ->]; simpl; destruct (_report _ _); eauto.
Qed.

Lemma progress_job log now j : id (report_progress elapsed log now j) = id j ∧ state (report_progress elapsed log now j) = state j.
Proof.
  unfold report_progress. revert j. induction log as [|[a b] log IH]; intros j; [done|].
  simpl. destruct (IH (set_stage elapsed a b [] now j)) as [-> ->]. done.
Qed.

Lemma wp_observe_held other w j (Q : result (observation () * Job) → fs → Prop) s :
  id j = i → held s → (∀ o, quiet o → Q (Ok (o, j)) s) → wpq (observe_job time_value paths other w j) Q s.
Proof.
  intros Hj Hs HQ. unfold observe_job. apply wp_bind, wp_time. intros now.
  apply wp_bind, wp_bind, wp_attempt, wp_refresh_held; [done..|]. apply wp_ret.
  apply wp_bind, wp_attempt. rewrite Hj. apply wp_claimed; [done|]. cbn [andb].
  destruct (_ <=? _).
  - apply wp_bind, wp_attempt, wp_timeout_held; [done..|]. apply wp_bind, wp_ret, wp_ret. apply HQ. split_and!; auto.
  - apply wp_ret, HQ. split_and!; auto.
Qed.

Lemma wp_observe_answered other w d out j (Q : result (observation () * Job) → fs → Prop) s :
  id j = i → answered d s → interpret_staged_result d = Ok out →
  (∀ o j', took out j' → o_read o = Ok (Some tt) → Q (Ok (o, j')) s) → wpq (observe_job time_value paths other w j) Q s.
Proof.
  intros Hj Hs Hout HQ. unfold observe_job. apply wp_bind, wp_time. intros now.
  apply wp_bind, wp_bind, wp_attempt, (wp_refresh_answered d out); [done..|]. intros j' Hj'.
  apply wp_ret, wp_ret. by apply HQ.
Qed.

(** ** The loop *)

(** The verdict of a job does not depend on its stage. *)
Lemma took_stage out n j : took out j → took out (set_stage_name n j).
Proof. done. Qed.

Context (others : nat → Job → M Job) (during : nat → nat → M ()).

(** Other programs, until pause [due] and then at it: the job stays the active one
    of its identifier; the tree goes from [P] to [P']. *)
Definition pauses (k : nat) (P P' : fs → Prop) : Prop :=
  ∀ j s, id j = i → is_active j = true → P s →
    wpq (others k j) (λ r t, ∃ j', r = Ok j' ∧ id j' = i ∧ is_active j' = true ∧ P' t) s.

Local Abbreviation loop := (monitor_loop elapsed time_value paths).

Lemma wp_turn_answered n w d out j s :
  id j = i → is_active j = true → answered d s → interpret_staged_result d = Ok out →
  wpq (loop (S n) others during w j) (λ r _, ∃ j', r = Ok (j', Ended) ∧ took out j') s.
Proof.
  intros Hj Ha Hs Hout. simpl. rewrite Ha. simpl. apply wp_bind, (wp_observe_answered _ _ d out); [done..|].
  intros o j' Hj' Ho. apply wp_bind, wp_time. intros now. unfold poll. rewrite Ho. apply wp_ret. eauto using took_stage.
Qed.

Lemma wp_turn_held n w j (P : fs → Prop) (Q : result (Job * monitor_end) → fs → Prop) s :
  id j = i → is_active j = true → held s → pauses n held P →
  (∀ w' j' t, id j' = i → is_active j' = true → P t → wpq (loop n others during w' j') Q t) →
  wpq (loop (S n) others during w j) Q s.
Proof.
  intros Hj Ha Hs Hp HQ. simpl. rewrite Ha. simpl. apply wp_bind, wp_observe_held; [done..|].
  intros o Ho. apply wp_bind, wp_time. intros now. destruct (poll_quiet o w Ho) as (w' & log & ->).
  destruct (progress_job log now j) as [Hid Hst].
  apply wp_bind, wp_attempt. eapply wp_mono; [apply Hp; [by rewrite Hid|unfold is_active; by rewrite Hst|done]|].
  intros r t (j' & -> & Hj' & Ha' & Ht). by apply HQ.
Qed.

(** C37 — A monitored job gets its answer.  As long as the worker holds the job the
    monitor waits, however often its interval runs out; once the worker's result is
    published the next turn ends the loop, with the job's state, result or error
    those of the result.  Other programs run in every pause, and may do anything
    that keeps the claim (up to pause [due]) or publishes the result (at it). *)
Theorem monitor_delivers (due polls : nat) (w : StagedResultWaiter) (d : dict value) (out : StagedResult) (j : Job) (s : fs) :
  (0 < due < polls)%nat →
  id j = i → is_active j = true → held s → interpret_staged_result d = Ok out →
  (∀ k, (due < k < polls)%nat → pauses k held held) → pauses due held (answered d) →
  wp reads_ok (λ _, True) (loop polls others during w j) (λ r _, ∃ j', r = Ok (j', Ended) ∧ took out j') s.
Proof.
  intros Hdue Hj Ha Hs Hout Hwait Hpub. revert w j s Hj Ha Hs. induction polls as [|n IH]; intros w j s Hj Ha Hs; [lia|].
  destruct (decide (n = due)) as [->|Hn].
  - eapply wp_turn_held; [done..|]. intros w' j' t Hj' Ha' Ht. destruct due as [|m]; [lia|]. by apply (wp_turn_answered m _ d).
  - apply (wp_turn_held n w j held); [done..| |].
    + apply Hwait. lia.
    + intros w' j' t Hj' Ha' Ht. apply IH; try done; [lia|]. intros k Hk. apply Hwait. lia.
Qed.
End monitor.

(** The worker answers in pause 2. *)
Definition held_fs : fs :=
  list_to_map
    [ (["run"], plain_dir); (["run"; "results"], plain_dir); (["run"; "active"], plain_dir); (["run"; "active"; "job-a"], plain_dir);
      (["run"; "queue.lock"], plain_file (CText "")) ].
Definition monitor_paths : RuntimePaths := Paths ["run"].
Definition verdict : dict value :=
  [("version", VInt 1); ("job_id", VStr "job-a"); ("status", VStr "failed"); ("error", VStr "no space")].
Definition publish_verdict (s : fs) : fs :=
  match s !! results monitor_paths with
  | Some d => <[result_path monitor_paths "job-a" := Node (KReg (CJson (VDict verdict) 90)) (n_uid d) (n_gid d) 416 (* 0o640 *) 0]> s
  | None => s
  end.
Definition worker_turns (k : nat) (j : Job) : M Job := λ e w,
  let s := if decide (k = 2%nat) then publish_verdict (w_fs w) else w_fs w in
  (Ok j, World s (s :: w_hist w) (w_n w)).
Definition verdict_out : StagedResult :=
  match interpret_staged_result verdict with Ok o => o | Err _ => StagedRes true [] None None end.

Lemma wp_worker_turns k j (Q : result Job → fs → Prop) s :
  Q (Ok j) (if decide (k = 2%nat) then publish_verdict s else s) →
  wp reads_ok (λ _, True) (worker_turns k j) Q s.
Proof. intros HQ e w He <-. eexists _, _. split_and!; [done|done|]. simpl. eexists [_]. split; [done|]. by repeat constructor. Qed.

Lemma publish_verdict_answers s dir : s !! results monitor_paths = Some dir →
  check_results_directory (results monitor_paths) (is_default_root monitor_paths) dir = Ok tt →
  answered monitor_paths "job-a" verdict (publish_verdict s).
Proof.
  intros Hd Hok. unfold publish_verdict. rewrite Hd. split; [|..|done|done].
  - exists dir. eexists. rewrite lookup_insert_ne, lookup_insert_eq by done. split_and!; try done.
    unfold check_result_stat, is_lnk, is_reg. simpl. by rewrite !Z.eqb_refl.
  - unfold read_json_at, read_control_at, lstat_at. by rewrite lookup_insert_eq.
Qed.

Lemma monitor_delivers_witness :
  wp reads_ok (λ _, True)
    (monitor_loop VInt VInt monitor_paths 9 worker_turns (λ _ _, mret tt) (new_waiter 5 0) (new_job "job-a" 0))
    (λ r _, ∃ j', r = Ok (j', Ended) ∧ state j' = FAILED ∧ job_error j' = Some "no space") held_fs.
Proof.
  eapply wp_mono.
  - apply (monitor_delivers VInt VInt monitor_paths "job-a" eq_refl worker_turns (λ _ _, mret tt) 2 9 (new_waiter 5 0) verdict verdict_out
      (new_job "job-a" 0) held_fs); try done; [lia|..].
    + split; [done|by eexists|by eexists|by eexists].
    + intros k Hk j s Hj Ha Hs. apply wp_worker_turns. rewrite decide_False by lia. eauto.
    + intros j s Hj Ha [Hc Hl (dir & Hd & Hok) Hn]. apply wp_worker_turns. rewrite decide_True by done.
      exists j. split_and!; [done..|]. by apply (publish_verdict_answers s dir).
  - intros r t (j' & -> & Hj'). exists j'. split; [done|]. unfold took in Hj'. cbn in Hj'. naive_solver.
Defined.
