(* ===== verification/Quadlet.v ===== *)
(** * [quadlet.py]: rendering container units

    One definition per function of
    src/scripts/atomixos_provision/src/atomixos_provision/quadlet.py.  Functions
    that append to a list of warnings return what they append.  [os.path.abspath]
    needs the working directory, a parameter. *)

From Stdlib Require Import Ascii.
From S2P Require Import Prelude PyStr PyVal PyLib ConfigCheck FS.

Local Open Scope Z_scope.

Definition CONFIG_DIR_TOKEN : string := "${CONFIG_DIR}".
Definition FILES_DIR_TOKEN : string := "${FILES_DIR}".
Definition ROOTLESS_NETWORK_NAME : string := "pasta".
Definition CONTAINER_SUFFIX : string := ".container".
Definition NETWORK_SUFFIX : string := ".network".
Definition VOLUME_SUFFIX : string := ".volume".
Definition BUILD_SUFFIX : string := ".build".
Definition VOLUME_OPTIONS : list string :=
  ["ro"; "rw"; "z"; "Z"; "O"; "U"; "noexec"; "exec"; "nodev"; "dev"; "nosuid"; "suid"; "private"; "rprivate";
   "shared"; "rshared"; "slave"; "rslave"; "unbindable"; "runbindable"; "bind"; "rbind"; "cached"; "delegated";
   "copy"; "nocopy"; "no-dereference"; "idmap"].

(** [re.fullmatch(r"^[A-Za-z][A-Za-z0-9]*$", name)] *)
Definition DIRECTIVE_NAME_RE (name : string) : bool :=
  match name with String c rest => is_alpha_ascii c && all_chars is_alnum_ascii rest | EmptyString => false end.

(** ** Helpers *)

Definition format_scalar (v : value) : result string :=
  match v with
  | VBool b => Ok (if b then "true" else "false")
  | VInt n => Ok (str_int n)
  | VStr s => Ok s
  | VNone => Err (provision_error "unsupported scalar value type: NoneType")
  | VFloat _ _ => Err (provision_error "unsupported scalar value type: float")
  | VList _ => Err (provision_error "unsupported scalar value type: list")
  | VDict _ => Err (provision_error "unsupported scalar value type: dict")
  | VOther _ => Err (provision_error "unsupported scalar value type")
  end.

Definition validate_directive_name (name path : string) : result () :=
  raise_if (negb (DIRECTIVE_NAME_RE name))
    (provision_error ("invalid directive name at " +:+ path +:+ ": " +:+ py_repr name)).

(** [c in "\x00\r\n"] *)
Definition breaks_line (c : ascii) : bool := (ord c =? 0)%N || (ord c =? 13)%N || (ord c =? 10)%N.
Definition validate_directive_value (v : value) (path : string) : result () :=
  match v with
  | VStr s => raise_if (any_char breaks_line s)
                (provision_error ("invalid newline or NUL in directive value at " +:+ path))
  | _ => Ok tt
  end.

Definition substitute_tokens (v config_root : string) : string :=
  str_replace FILES_DIR_TOKEN (config_root +:+ "/files") (str_replace CONFIG_DIR_TOKEN config_root v).

Definition directives : Type := dict (list value).

Definition directive_item (path : string) (v : value) : result value :=
  match v with
  | VList _ | VDict _ => Err (provision_error ("expected scalar value at " +:+ path))
  | _ => _ ← validate_directive_value v path; Ok v
  end.
Definition normalize_directive (path key : string) (raw_value : value) : result (list value) :=
  match raw_value with
  | VList values => imapR 0 (λ idx v, directive_item (at_index (path +:+ "." +:+ key) idx) v) values
  | v => w ← directive_item (path +:+ "." +:+ key) v; Ok [w]
  end.
Definition normalize_directives (table : dict value) (path : string) : result directives :=
  forR (λ normalized '(key, raw_value),
    _ ← validate_directive_name key (path +:+ "." +:+ key);
    values ← normalize_directive path key raw_value;
    Ok (match values with [] => normalized | _ => dset key values normalized end)) table [].

(** [s.find(c)] *)
Fixpoint find_char (c : ascii) (s : string) : option nat :=
  match s with
  | EmptyString => None
  | String d s' => if Ascii.eqb c d then Some 0%nat else S <$> find_char c s'
  end.

(** The host and the rest of a published port, or the value to use as it is. *)
Definition split_publish_port (v container_name : string) : result (string + (string * string)) :=
  if startswith v "[" then
    match find_char "]" v with
    | None => Ok (inl v)
    | Some host_end =>
        match String.get (S host_end) v with
        | Some c => if Ascii.eqb c ":" then Ok (inr (str_take (S host_end) v, str_drop (host_end + 2) v)) else Ok (inl v)
        | None => Ok (inl v)
        end
    end
  else
    let prefix := "container." +:+ container_name +:+ ".Container.PublishPort must include " in
    match split_on ":" v with
    | [host_port; _] =>
        if negb (bool_decide (host_port = "")) && all_chars isdigit host_port
        then Ok (inl ("127.0.0.1:" +:+ v))
        else Err (provision_error (prefix +:+ "a numeric host port for rootless containers"))
    | bind_host :: ((_ :: _ :: _) as rest) => Ok (inr (bind_host, join ":" rest))
    | _ => Err (provision_error (prefix +:+ "an explicit host port for rootless containers"))
    end.

Definition rewrite_rootless_publish_port (v container_name : string) : result (string * list string) :=
  r ← split_publish_port v container_name;
  match r with
  | inl v' => Ok (v', [])
  | inr (bind_host, remainder) =>
      if bool_decide (bind_host ∈ ["127.0.0.1"; "127.0.1.1"]) then Ok (v, [])
      else if bool_decide (bind_host ∈ ["localhost"; "::1"; "[::1]"]) then Ok ("127.0.0.1:" +:+ remainder, [])
      else Ok ("127.0.0.1:" +:+ remainder,
               ["container." +:+ container_name +:+ ".Container.PublishPort rewrote non-loopback bind "
                +:+ py_repr v +:+ " to 127.0.0.1"])
  end.

Definition directive_line (config_root key : string) (v : value) : result string :=
  s ← format_scalar (match v with VStr s => VStr (substitute_tokens s config_root) | _ => v end);
  Ok (key +:+ "=" +:+ s).
Definition render_section (section_name : string) (ds : directives) (config_root : string) : result (list string) :=
  lines ← mapR (λ kv : string * list value, mapR (directive_line config_root kv.1) kv.2) ds;
  Ok (["[" +:+ section_name +:+ "]"] ++ concat lines ++ [""]).

(** ** Mounts *)

Definition _require_absolute_source (source v : string) : result string :=
  _ ← raise_if (negb (startswith source "/" || startswith source CONFIG_DIR_TOKEN || startswith source FILES_DIR_TOKEN))
        (provision_error ("relative host mount source " +:+ py_repr source +:+ " in " +:+ py_repr v +:+
           " is not supported; use an absolute path, " +:+ CONFIG_DIR_TOKEN +:+ ", or " +:+ FILES_DIR_TOKEN));
  Ok source.

Definition is_wildcard (c : ascii) : bool := Ascii.eqb c "*" || Ascii.eqb c "?" || Ascii.eqb c "[".
Fixpoint before_wildcard (parts : list string) : option (list string) :=
  match parts with
  | [] => None
  | p :: parts' => if any_char is_wildcard p then Some [] else cons p <$> before_wildcard parts'
  end.
Definition _glob_literal_prefix (source : string) : string :=
  match before_wildcard (split_on "/" source) with
  | Some parts => let p := join "/" parts in if bool_decide (p = "") then "/" else p
  | None => source
  end.

Definition is_volume (directive : string) : bool := bool_decide (directive ∈ ["Volume"; "PodmanArgsVolume"]).
Definition is_mount (directive : string) : bool := bool_decide (directive ∈ ["Mount"; "PodmanArgsMount"]).

(** The type and the first source among the options of a mount. *)
Definition mount_option (acc : option string * option string) (opt : string) : option string * option string :=
  let '(source, mount_type) := acc in
  let '(key, separator, raw_value) := partition_on "=" opt in
  if negb separator then acc
  else
    let normalized_key := lower (strip key) in
    if bool_decide (normalized_key = "type") then (source, Some (lower (strip raw_value)))
    else if bool_decide (normalized_key ∈ ["source"; "src"]) && bool_decide (source = None)
    then (Some (strip raw_value), mount_type) else acc.

Definition _mount_source (directive v : string) : result (option string) :=
  if is_volume directive then
    let '(source, separator, _) := partition_on ":" v in
    if negb separator then Ok None
    else
      let source := strip source in
      if has_char "/" source || startswith source "." || startswith source CONFIG_DIR_TOKEN || startswith source FILES_DIR_TOKEN
      then s ← _require_absolute_source source v; Ok (Some s) else Ok None
  else if is_mount directive then
    match fold_left mount_option (split_on "," v) (None, None) with
    | (None, _) => Ok None
    | (Some source, mount_type) =>
        if bool_decide (mount_type ∈ [None; Some "bind"; Some "glob"]) then
          s ← _require_absolute_source source v;
          Ok (Some (if bool_decide (mount_type = Some "glob") then _glob_literal_prefix s else s))
        else Ok None
    end
  else Ok None.

(** [os.path.normpath] component by component; [absolute] tells what ".." means at
    the start. *)
Fixpoint norm_parts (absolute : bool) (acc : list string) (parts : list string) : list string :=
  match parts with
  | [] => rev acc
  | p :: parts' =>
      if bool_decide (p = "") || bool_decide (p = ".") then norm_parts absolute acc parts'
      else if bool_decide (p = "..") then
        match acc with
        | [] => norm_parts absolute (if absolute then [] else [p]) parts'
        | q :: acc' => norm_parts absolute (if bool_decide (q = "..") then p :: acc else acc') parts'
        end
      else norm_parts absolute (p :: acc) parts'
  end.

Section quadlet.
Context (cwd : string).

Definition _lexical_absolute_path (p : string) : path :=
  norm_parts true [] (if startswith p "/" then split_on "/" p else split_on "/" cwd ++ split_on "/" p).

(** Equal, or one inside the other. *)
Definition overlaps (a b : path) : bool := bool_decide (below a b) || bool_decide (below b a).

Definition token_source (token source : string) : bool :=
  bool_decide (source = token) || startswith source (token +:+ "/").
Definition _managed_file_source (source : string) (config_root : option string) : bool :=
  match config_root with
  | None =>
      if token_source FILES_DIR_TOKEN source || token_source CONFIG_DIR_TOKEN source
      then overlaps (norm_parts false [] (split_on "/" (str_replace FILES_DIR_TOKEN (CONFIG_DIR_TOKEN +:+ "/files") source)))
             [CONFIG_DIR_TOKEN; "files"]
      else false
  | Some root =>
      overlaps (_lexical_absolute_path (substitute_tokens source root)) (_lexical_absolute_path (root +:+ "/files"))
  end.

Definition flag_on (separator : bool) (raw_value : string) : bool := negb separator || bool_decide (lower (strip raw_value) = "true").
Definition flag_off (raw_value : string) : bool := bool_decide (lower (strip raw_value) = "false").
Definition mount_access (acc : bool * bool) (opt : string) : bool * bool :=
  let '(read_only, writable) := acc in
  let '(key, separator, raw_value) := partition_on "=" opt in
  let key := lower (strip key) in
  if bool_decide (key ∈ ["ro"; "readonly"]) then
    if flag_on separator raw_value then (true, writable) else if flag_off raw_value then (read_only, true) else acc
  else if bool_decide (key ∈ ["rw"; "readwrite"]) then
    if flag_on separator raw_value then (read_only, true) else if flag_off raw_value then (true, writable) else acc
  else if bool_decide (key ∈ ["u"; "chown"]) && flag_on separator raw_value then (read_only, true) else acc.

(** The options form a set: with several bad ones Python may name any of them. *)
Definition bad_volume_option (opt : string) : bool :=
  negb (bool_decide (opt ∈ VOLUME_OPTIONS))
  && negb (startswith opt "idmap=" || startswith opt "upperdir=" || startswith opt "workdir=").
Definition managed_file_mount_is_read_only (directive v : string) : result bool :=
  if is_volume directive then
    let options := match split_max 2 ":" v with [_; _; opts] => split_on "," opts | _ => [] end in
    match List.find bad_volume_option options with
    | Some opt => Err (provision_error ("invalid Podman volume option: " +:+ py_repr opt))
    | None => Ok (bool_decide ("ro" ∈ options) && negb (bool_decide ("rw" ∈ options) || bool_decide ("U" ∈ options)))
    end
  else
    let '(read_only, writable) := fold_left mount_access (split_on "," v) (false, false) in
    Ok (read_only && negb writable).

Definition mount_warning_text (path : string) : string :=
  path +:+ " mounts managed bundle files without a clearly read-only mount; managed bundle files are included in config export, so use a Podman volume for mutable runtime data".
Definition managed_file_mount_warning (directive v path : string) (config_root : option string) : result (list string) :=
  source ← _mount_source directive v;
  match source with
  | None => Ok []
  | Some source =>
      if negb (_managed_file_source source config_root) then Ok []
      else
        read_only ← managed_file_mount_is_read_only directive v;
        Ok (if read_only : bool then [] else [mount_warning_text path])
  end.

(** ** [shlex.split], POSIX, without comments *)

Variant lex_state : Type := LexStart | LexWord | LexQuote (q : ascii) | LexEscape (q : option ascii).
Definition shlex_space (c : ascii) : bool :=
  Ascii.eqb c " " || (ord c =? 9)%N || (ord c =? 13)%N || (ord c =? 10)%N.
Definition is_quote (c : ascii) : bool := Ascii.eqb c quote_char || Ascii.eqb c dquote_char.

Fixpoint shlex_go (st : lex_state) (quoted : bool) (cur : list ascii) (l : list ascii) : result (list (list ascii)) :=
  match l with
  | [] =>
      match st with
      | LexQuote _ => Err (ValueError "No closing quotation")
      | LexEscape _ => Err (ValueError "No escaped character")
      | _ => Ok (match cur with [] => if quoted then [[]] else [] | _ => [rev cur] end)
      end
  | c :: l' =>
      match st with
      | LexStart =>
          if shlex_space c then shlex_go LexStart quoted cur l'
          else if Ascii.eqb c backslash then shlex_go (LexEscape None) quoted cur l'
          else if is_quote c then shlex_go (LexQuote c) true cur l'
          else shlex_go LexWord quoted (c :: cur) l'
      | LexWord =>
          if shlex_space c then
            match cur, quoted with
            | [], false => shlex_go LexStart false [] l'
            | _, _ => rest ← shlex_go LexStart false [] l'; Ok (rev cur :: rest)
            end
          else if is_quote c then shlex_go (LexQuote c) true cur l'
          else if Ascii.eqb c backslash then shlex_go (LexEscape None) quoted cur l'
          else shlex_go LexWord quoted (c :: cur) l'
      | LexQuote q =>
          if Ascii.eqb c q then shlex_go LexWord true cur l'
          else if Ascii.eqb c backslash && Ascii.eqb q dquote_char then shlex_go (LexEscape (Some q)) true cur l'
          else shlex_go (LexQuote q) true (c :: cur) l'
      | LexEscape None => shlex_go LexWord quoted (c :: cur) l'
      | LexEscape (Some q) =>
          shlex_go (LexQuote q) quoted
            (if Ascii.eqb c backslash || Ascii.eqb c q then c :: cur else c :: backslash :: cur) l'
      end
  end.
Definition shlex_split (s : string) : result (list string) := fmap (map unchars) (shlex_go LexStart false [] (chars s)).

(** The mounts of [PodmanArgs]: "v", "volume" or "mount", the argument, and the
    index of its value. *)
Definition mount_token (tok : string * nat) (next : option (string * nat)) : list (string * string * nat) :=
  let '(v, index) := tok in
  if startswith v "--volume=" then [("volume", str_drop 9 v, index)]
  else if startswith v "-v=" then [("v", str_drop 3 v, index)]
  else if startswith v "--mount=" then [("mount", str_drop 8 v, index)]
  else if startswith v "-v" && (2 <? slen v)%nat then [("v", str_drop 2 v, index)]
  else match next with
       | None => []
       | Some (mount_value, mount_index) =>
           if bool_decide (v = "--volume") then [("volume", mount_value, mount_index)]
           else if bool_decide (v = "-v") then [("v", mount_value, mount_index)]
           else if bool_decide (v = "--mount") then [("mount", mount_value, mount_index)] else []
       end.
Fixpoint mount_tokens (toks : list (string * nat)) : list (string * string * nat) :=
  match toks with [] => [] | t :: toks' => mount_token t (head toks') ++ mount_tokens toks' end.
Definition _podman_mount_values (values : list string) : result (list (string * string * nat)) :=
  tokens ← imapR 0 (λ index raw_value,
    toks ← try_except (shlex_split raw_value) is_ValueError
             (λ x, Err (provision_error ("invalid PodmanArgs[" +:+ str_int (Z.of_nat index) +:+ "] quoting: "
                                         +:+ match x with ValueError m => m | _ => "" end)));
    Ok (map (λ t, (t, index)) toks)) values;
  Ok (mount_tokens (concat tokens)).

Definition podman_directive (v : string) : string :=
  if bool_decide (v ∈ ["volume"; "v"]) then "PodmanArgsVolume" else "PodmanArgsMount".

(** Whether any mount of managed files needs host write access.  Python scans every
    mount: an error in a later one is raised even after a writable one. *)
Definition mount_is_writable (source_directive directive v : string) (config_root : option string) : result bool :=
  source ← _mount_source source_directive v;
  match source with
  | None => Ok false
  | Some source =>
      if negb (_managed_file_source source config_root) then Ok false
      else read_only ← managed_file_mount_is_read_only directive v; Ok (negb read_only)
  end.

(** [raw_values] as the loop sees it: a string is one value; only a list is then
    iterated (a table iterates its keys). *)
Definition value_items (v : value) : result (list value) :=
  match v with
  | VStr s => Ok [v]
  | VList l => Ok l
  | VDict d => Ok (map VStr (dkeys d))
  | _ => Err (TypeError "object is not iterable")
  end.
Definition strings_of (l : list value) : list string := omap (λ v, match v with VStr s => Some s | _ => None end) l.

Definition container_writable (container : dict value) (config_root : option string) : result bool :=
  w ← forR (λ acc directive,
        raw_values ← value_items (vget_or directive (VList []) container);
        forR (λ acc v, w ← mount_is_writable directive directive v config_root; Ok (acc || w))
          (strings_of raw_values) acc) ["Volume"; "Mount"] false;
  raw_podman_args ← value_items (vget_or "PodmanArgs" (VList []) container);
  mounts ← _podman_mount_values (strings_of raw_podman_args);
  forR (λ acc '(v, mount_value, _),
    w ← mount_is_writable (podman_directive v) (if is_volume (podman_directive v) then "Volume" else "Mount") mount_value config_root;
    Ok (acc || w)) mounts w.

Definition managed_files_are_writable (container_table : dict value) (config_root : option string) : result bool :=
  forR (λ acc '(_, raw_sections),
    match raw_sections with
    | VDict sections =>
        match vget "Container" sections with
        | VDict container => w ← container_writable container config_root; Ok (acc || w)
        | _ => Ok acc
        end
    | _ => Ok acc
    end) container_table false.

(** ** Rendering *)

Definition runtime_unit (name filename service mode : string) : dict value :=
  [("name", VStr name); ("filename", VStr filename); ("service", VStr service); ("mode", VStr mode)].
(** ["\n".join(lines).rstrip() + "\n"] *)
Definition unit_text (lines : list string) : string := rstrip_by isspace (join nl lines) +:+ nl.

Definition get_values (key : string) (ds : directives) : list value := default [] (dget key ds).

(** The warnings of the [Volume], [Mount] and [PodmanArgs] of a container. *)
Definition mount_warnings (config_root container_path : string) (ds : directives) : result (list string) :=
  direct ← mapR (λ directive,
    imapR 0 (λ idx v,
      let mount_path := at_index (container_path +:+ ".Container." +:+ directive) idx in
      s ← require_string v mount_path;
      managed_file_mount_warning directive s mount_path (Some config_root)) (get_values directive ds)) ["Volume"; "Mount"];
  args ← imapR 0 (λ idx v, require_string v (at_index (container_path +:+ ".Container.PodmanArgs") idx)) (get_values "PodmanArgs" ds);
  mounts ← _podman_mount_values args;
  podman ← mapR (λ '(v, mount_value, idx),
    managed_file_mount_warning (podman_directive v) mount_value
      (at_index (container_path +:+ ".Container.PodmanArgs") idx) (Some config_root)) mounts;
  Ok (concat (concat direct) ++ concat podman).

Definition check_image (container_path : string) (ds : directives) : result () :=
  match dget "Image" ds with
  | Some [v] => _ ← require_string v (container_path +:+ ".Container.Image"); Ok tt
  | _ => Err (provision_error (container_path +:+ ".Container.Image must be a single string value"))
  end.

(** The directives of a privileged and of a rootless container. *)
Definition privileged_directives (name : string) (ds : directives) : directives * list string :=
  (dset "Network" [VStr "host"] ds,
   match dget "Network" ds with
   | None => []
   | Some values =>
       if match values with [v] => eq_str v "host" | _ => false end then []
       else ["container." +:+ name +:+ ".Container.Network overridden to host for privileged container"]
   end).
Definition rootless_directives (name container_path : string) (ds : directives) : result (directives * list string) :=
  let network_warnings :=
    if dmem "Network" ds
    then ["container." +:+ name +:+ ".Container.Network overridden to " +:+ ROOTLESS_NETWORK_NAME +:+ " for rootless container"]
    else [] in
  let ds := dset "Network" [VStr ROOTLESS_NETWORK_NAME] ds in
  match get_values "PublishPort" ds with
  | [] => Ok (ds, network_warnings)
  | ports =>
      rewritten ← imapR 0 (λ idx v,
        s ← require_string v (at_index (container_path +:+ ".Container.PublishPort") idx);
        rewrite_rootless_publish_port s name) ports;
      Ok (dset "PublishPort" (map VStr rewritten.*1) ds, network_warnings ++ concat rewritten.*2)
  end.

(** A section that is rendered when present. *)
Definition optional_section (section container_path config_root : string) (sections : dict value) : result (list string) :=
  match dget section sections with
  | None => Ok []
  | Some raw =>
      t ← require_mapping raw (container_path +:+ "." +:+ section);
      ds ← normalize_directives t (container_path +:+ "." +:+ section);
      render_section section ds config_root
  end.

Definition render_container (config_root name : string) (raw_sections : value) : result (string * dict value * list string) :=
  _ ← validate_name name;
  let container_path := "container." +:+ name in
  sections ← require_mapping raw_sections container_path;
  privileged ← require_bool (vget "privileged" sections) (container_path +:+ ".privileged");
  container ← require_mapping (vget "Container" sections) (container_path +:+ ".Container");
  ds ← normalize_directives container (container_path +:+ ".Container");
  _ ← check_image container_path ds;
  mounts ← mount_warnings config_root container_path ds;
  confined ← (if privileged : bool then Ok (privileged_directives name ds) else rootless_directives name container_path ds);
  unit_lines ← optional_section "Unit" container_path config_root sections;
  container_lines ← render_section "Container" confined.1 config_root;
  install_lines ← optional_section "Install" container_path config_root sections;
  Ok (unit_text (unit_lines ++ container_lines ++ install_lines),
      runtime_unit name (name +:+ CONTAINER_SUFFIX) (name +:+ ".service") (if privileged : bool then "rootful" else "rootless"),
      mounts ++ confined.2).

Definition rendering : Type := dict string * list (dict value) * list string.
(** One turn of the loop. *)
Definition render_step (config_root : string) (acc : rendering) (x : string * value) : result rendering :=
  let '(rendered, runtime_units, warnings) := acc in
  let '(name, raw_sections) := x in
  r ← render_container config_root name raw_sections;
  Ok (dset (name +:+ CONTAINER_SUFFIX) r.1.1 rendered, runtime_units ++ [r.1.2], warnings ++ r.2).
Definition render_containers (container_table : dict value) (config_root : string) : result rendering :=
  _ ← raise_if (bool_decide (dkeys container_table = [])) (provision_error "container must define at least one container");
  forR (render_step config_root) container_table ([], [], []).

(** A network, volume or build: one section, one runtime unit per mode. *)
Definition render_simple (kind section suffix service_suffix : string) (config_root name : string) (raw_sections : value)
    (modes : list string) : result (string * list (dict value)) :=
  _ ← validate_name name;
  let unit_path := kind +:+ "." +:+ name in
  sections ← require_mapping raw_sections unit_path;
  table ← require_mapping (vget section sections) (unit_path +:+ "." +:+ section);
  ds ← normalize_directives table (unit_path +:+ "." +:+ section);
  lines ← render_section section ds config_root;
  Ok (unit_text lines,
      map (runtime_unit name (name +:+ suffix) (name +:+ service_suffix)) modes).
Definition render_table (kind section suffix service_suffix config_root : string) (modes_of : string → list string)
    (table : dict value) : result (dict string * list (dict value)) :=
  forR (λ '(rendered, runtime_units) '(name, raw_sections),
    r ← render_simple kind section suffix service_suffix config_root name raw_sections (modes_of name);
    Ok (dset (name +:+ suffix) r.1 rendered, runtime_units ++ r.2)) table ([], []).

(** [sorted((modes or {}).get(name, {"rootful"}))] *)
Definition unit_modes (modes : dict (list string)) (name : string) : list string :=
  sorted_strs (remove_dups (default ["rootful"] (dget name modes))).

Definition render_networks (network_table : dict value) (config_root : string) : result (dict string * list (dict value)) :=
  render_table "network" "Network" NETWORK_SUFFIX "-network.service" config_root (λ _, ["rootful"]) network_table.
Definition render_volumes (volume_table : dict value) (config_root : string) (volume_modes : dict (list string)) :=
  render_table "volume" "Volume" VOLUME_SUFFIX "-volume.service" config_root (unit_modes volume_modes) volume_table.
Definition render_builds (build_table : dict value) (config_root : string) (build_modes : dict (list string)) :=
  render_table "build" "Build" BUILD_SUFFIX "-build.service" config_root (unit_modes build_modes) build_table.
End quadlet.
