(* ===== verification/QuadletFacts.v ===== *)
(** * Container units: theorems

    A rendered unit reads back as exactly the directives it was rendered from, so no
    value can add a line or a section; a rootless container is on the pasta network
    and publishes its ports on loopback only. *)

From Stdlib Require Import Ascii.
From S2P Require Import Prelude PyStr PyVal PyDict PyLib ConfigCheck ConfigFacts PartialFacts FS Quadlet.

Local Open Scope Z_scope.

(** ** Characters of derived strings *)

Section chars_of.
Context (P : ascii → Prop).
Definition plain_chars (s : string) : Prop := Forall P (chars s).

Lemma plain_chars_app s t : plain_chars (s +:+ t) ↔ plain_chars s ∧ plain_chars t.
Proof. unfold plain_chars. by rewrite chars_app, Forall_app. Qed.
Lemma plain_chars_split sep s : plain_chars s → Forall plain_chars (split_on sep s).
Proof.
  unfold plain_chars, split_on. intros H. apply Forall_map.
  induction H as [|c l Hc Hl IH]; simpl; [repeat constructor|].
  destruct (Ascii.eqb c sep); [constructor; [constructor|]; exact IH|].
  destruct (split_chars sep l) as [|w ws]; [by repeat constructor|].
  apply Forall_cons in IH as [Hw Hws]. constructor; [|done]. simpl in *. rewrite chars_unchars in *. by constructor.
Qed.
Lemma plain_chars_join sep l : plain_chars sep → Forall plain_chars l → plain_chars (join sep l).
Proof.
  intros Hsep Hl. unfold join. induction Hl as [|x [|y l] Hx Hl IH]; [constructor|done|].
  change (plain_chars (x +:+ sep +:+ String.concat sep (y :: l))). by rewrite !plain_chars_app.
Qed.
Lemma plain_chars_take n s : plain_chars s → plain_chars (str_take n s).
Proof. unfold plain_chars, str_take. rewrite chars_unchars. apply Forall_take. Qed.
Lemma plain_chars_drop n s : plain_chars s → plain_chars (str_drop n s).
Proof. unfold plain_chars, str_drop. rewrite chars_unchars. apply Forall_drop. Qed.
Lemma plain_chars_strip s : plain_chars s → plain_chars (strip s).
Proof.
  intros H. unfold strip, plain_chars. apply rstrip_by_chars. unfold lstrip_by. rewrite chars_unchars.
  by apply Forall_drop_while.
Qed.
Lemma plain_chars_replace old new s : plain_chars new → plain_chars s → plain_chars (str_replace old new s).
Proof.
  intros Hn. unfold str_replace. generalize (S (slen s)). intros fuel. revert s.
  induction fuel as [|fuel IH]; intros s Hs; simpl; [done|]. destruct s as [|c s]; [constructor|].
  destruct (String.prefix old (String c s)).
  - apply plain_chars_app. split; [done|]. apply IH. by apply plain_chars_drop.
  - unfold plain_chars in *. simpl in *. apply Forall_cons in Hs as [Hc Hs]. constructor; [done|]. by apply IH.
Qed.
End chars_of.

Lemma no_nl_plain s : no_nl s ↔ plain_chars (λ c, c ≠ nl_char) s.
Proof.
  unfold no_nl, has_char. rewrite any_char_false. unfold plain_chars. rewrite !Forall_forall.
  split; intros H c Hc; specialize (H c Hc); destruct (Ascii.eqb_spec nl_char c); congruence.
Qed.

(** ** Reading a unit back

    A reader of unit files: a section header, or a directive with its value
    stripped; blank lines are skipped. *)

Variant unit_item : Type := Section_ (name : string) | Directive (key v : string).
Definition parse_line (l : string) : option unit_item :=
  if bool_decide (l = "") then None
  else if startswith l "[" then Some (Section_ (str_take (slen l - 2) (str_drop 1 l)))
  else let '(key, _, v) := partition_on "=" l in Some (Directive key (strip v)).
Definition parse_unit (text : string) : list unit_item := omap parse_line (split_on nl_char text).

(** What a section should read back as. *)
Definition directive_items (config_root : string) (kv : string * list value) : list unit_item :=
  omap (λ v, match format_scalar (match v with VStr s => VStr (substitute_tokens s config_root) | _ => v end) with
             | Ok s => Some (Directive kv.1 (strip s))
             | Err _ => None
             end) kv.2.
Definition section_items (config_root name : string) (ds : directives) : list unit_item :=
  Section_ name :: concat (map (directive_items config_root) ds).

(** Keys are directive names and values hold no line break. *)
Definition directives_ok (ds : directives) : Prop :=
  ∀ k vs, (k, vs) ∈ ds → DIRECTIVE_NAME_RE k = true ∧ ∀ s, VStr s ∈ vs → no_nl s.

Lemma directive_name_chars k : DIRECTIVE_NAME_RE k = true →
  ∃ c rest, k = String c rest ∧ plain_chars (λ c, is_alnum_ascii c = true) k.
Proof.
  destruct k as [|c rest]; simpl; [done|]. intros [Hc Hr]%andb_true_iff. exists c, rest. split; [done|].
  unfold plain_chars. simpl. constructor; [unfold is_alpha_ascii in Hc; unfold is_alnum_ascii; destruct (is_digit_ascii c), (is_upper_ascii c), (is_lower_ascii c); done|].
  by apply all_chars_spec in Hr.
Qed.

Lemma partition_on_first sep a b : has_char sep a = false → partition_on sep (a +:+ String sep b) = (a, true, b).
Proof.
  unfold has_char, any_char. induction a as [|c a IH]; simpl.
  - intros _. by rewrite Ascii.eqb_refl.
  - intros [Hc Ha]%orb_false_iff. rewrite Ascii.eqb_sym, Hc. by rewrite IH.
Qed.

Lemma startswith_char c r d : startswith (String c r) (String d "") = Ascii.eqb d c.
Proof.
  unfold startswith. cbn [String.prefix]. destruct (ascii_dec d c) as [->|Hne]; [|by destruct (Ascii.eqb_spec d c)].
  rewrite Ascii.eqb_refl. by destruct r.
Qed.
Lemma alnum_facts c : is_alnum_ascii c = true → c ≠ "="%char ∧ c ≠ "["%char ∧ c ≠ nl_char ∧ isspace c = false.
Proof. destruct c as [[] [] [] [] [] [] [] []]; vm_compute; intros; repeat split; congruence. Qed.

(** Some suffix beyond ["]"]: a line whose head is no space can lose its trailing
    spaces without changing what is read. *)
Lemma parse_directive_line k s : DIRECTIVE_NAME_RE k = true → parse_line (k +:+ "=" +:+ s) = Some (Directive k (strip s)).
Proof.
  intros Hk. destruct (directive_name_chars k Hk) as (c & rest & -> & Hp). unfold parse_line.
  rewrite bool_decide_false by done.
  assert (startswith (String c rest +:+ "=" +:+ s) "[" = false) as ->.
  { unfold plain_chars in Hp. simpl in Hp. apply Forall_cons in Hp as [Hc _]. apply alnum_facts in Hc as (_ & Hc & _).
    change (startswith (String c (rest +:+ "=" +:+ s)) "[" = false). rewrite startswith_char. by apply Ascii.eqb_neq. }
  change (String c rest +:+ "=" +:+ s) with (String c rest +:+ String "=" s). rewrite partition_on_first; [done|].
  unfold has_char. apply any_char_false. eapply Forall_impl; [exact Hp|]. cbv beta. intros d Hd.
  apply alnum_facts in Hd as [Hd _]. destruct (Ascii.eqb_spec "=" d); congruence.
Qed.

Lemma unchars_append a b : unchars (a ++ b) = unchars a +:+ unchars b.
Proof. apply chars_inj. by rewrite chars_app, !chars_unchars. Qed.
Lemma drop_while_app p (a b : list ascii) : (∃ c, c ∈ a ∧ p c = false) → drop_while p (a ++ b) = drop_while p a ++ b.
Proof.
  intros (c & Hc & Hp). induction a as [|d a IH]; simpl; [by apply elem_of_nil in Hc|].
  destruct (p d) eqn:E; [|done]. apply elem_of_cons in Hc as [->|Hc]; [congruence|by apply IH].
Qed.
Lemma drop_while_all p (a b : list ascii) : Forall (λ c, p c = true) a → drop_while p (a ++ b) = drop_while p b.
Proof. induction 1 as [|c a Hc _ IH]; simpl; [done|]. by rewrite Hc. Qed.

(** Stripping on the right, of a string with and without a character to keep. *)
Lemma rstrip_app s t : (∃ c, c ∈ chars t ∧ isspace c = false) → rstrip_by isspace (s +:+ t) = s +:+ rstrip_by isspace t.
Proof.
  intros (c & Hc & Hs). unfold rstrip_by. rewrite chars_app, rev_app_distr, drop_while_app.
  - rewrite rev_app_distr, rev_involutive. by rewrite unchars_append, unchars_chars.
  - exists c. split; [|done]. apply list_elem_of_In, in_rev. rewrite rev_involutive. by apply list_elem_of_In.
Qed.
Lemma rstrip_spaces s t : Forall (λ c, isspace c = true) (chars t) → rstrip_by isspace (s +:+ t) = rstrip_by isspace s.
Proof.
  intros H. unfold rstrip_by. rewrite chars_app, rev_app_distr, drop_while_all; [done|].
  apply Forall_forall. intros c Hc. rewrite Forall_forall in H. apply H.
  apply list_elem_of_In, in_rev, list_elem_of_In. done.
Qed.

Lemma rstrip_cons c s : rstrip_by isspace (String c s) =
  match rstrip_by isspace s with
  | EmptyString => if isspace c then "" else String c ""
  | t => String c t
  end.
Proof.
  unfold rstrip_by. simpl chars. change (rev (c :: chars s)) with (rev (chars s) ++ [c]).
  generalize (rev (chars s)) as l. intros l.
  assert (drop_while isspace (l ++ [c]) = match drop_while isspace l with [] => drop_while isspace [c] | k => k ++ [c] end) as ->.
  { induction l as [|d l IH]; simpl; [by destruct (isspace c)|]. by destruct (isspace d). }
  destruct (drop_while isspace l) as [|d k] eqn:E; [simpl; by destruct (isspace c)|].
  rewrite rev_app_distr. change (rev [c] ++ rev (d :: k)) with (c :: rev (d :: k)).
  assert (rev (d :: k) ≠ []) as Hr by (simpl; by destruct (rev k)). destruct (rev (d :: k)); done.
Qed.
Lemma lstrip_cons c s : lstrip_by isspace (String c s) = if isspace c then lstrip_by isspace s else String c s.
Proof. unfold lstrip_by. simpl. destruct (isspace c); [done|]. simpl. by rewrite unchars_chars. Qed.
Lemma strip_rstrip s : strip (rstrip_by isspace s) = strip s.
Proof.
  unfold strip. induction s as [|c s IH]; [done|]. rewrite rstrip_cons, (lstrip_cons c s).
  destruct (isspace c) eqn:E.
  - destruct (rstrip_by isspace s) as [|d t] eqn:Et; [done|]. by rewrite lstrip_cons, E.
  - destruct (rstrip_by isspace s) as [|d t] eqn:Et.
    + rewrite lstrip_cons, E. rewrite (rstrip_cons c s), Et. rewrite rstrip_cons, E. done.
    + rewrite lstrip_cons, E. rewrite !(rstrip_cons c), Et. rewrite <- Et, rstrip_by_idemp. by rewrite Et.
Qed.

(** ** Lines *)

Inductive good_line : string → Prop :=
  | good_header name : no_nl name → good_line ("[" +:+ name +:+ "]")
  | good_directive k s : DIRECTIVE_NAME_RE k = true → no_nl s → good_line (k +:+ "=" +:+ s).

Lemma directive_name_no_nl k : DIRECTIVE_NAME_RE k = true → no_nl k.
Proof.
  intros (c & rest & -> & Hp)%directive_name_chars. apply no_nl_plain. eapply Forall_impl; [exact Hp|].
  cbv beta. intros d (_ & _ & Hd & _)%alnum_facts. done.
Qed.
Lemma good_line_no_nl l : good_line l → no_nl l.
Proof. intros [name H|k s Hk H]; rewrite !no_nl_app; split_and!; try done. by apply directive_name_no_nl. Qed.
Lemma good_line_char l : good_line l → ∃ c, c ∈ chars l ∧ isspace c = false.
Proof.
  intros [name H|k s Hk H].
  - exists "["%char. split; [left|done].
  - exists "="%char. split; [|done]. rewrite !chars_app. apply elem_of_app. right. left.
Qed.
Lemma rstrip_keep s c : isspace c = false → rstrip_by isspace (s +:+ String c "") = s +:+ String c "".
Proof. intros H. rewrite rstrip_app; [|exists c; split; [left|done]]. by rewrite rstrip_cons, H. Qed.
Lemma rstrip_head c s : isspace c = false → rstrip_by isspace (String c s) = String c (rstrip_by isspace s).
Proof. intros H. rewrite rstrip_cons, H. by destruct (rstrip_by isspace s). Qed.
Lemma good_line_rstrip l : good_line l → parse_line (rstrip_by isspace l) = parse_line l ∧ no_nl (rstrip_by isspace l).
Proof.
  intros Hl. split; [|by apply no_nl_plain, rstrip_by_chars, no_nl_plain, good_line_no_nl].
  destruct Hl as [name H|k s Hk H].
  - f_equal. apply (rstrip_keep ("[" +:+ name)). done.
  - rewrite rstrip_app by (exists "="%char; split; [left|done]).
    change ("=" +:+ s) with (String "=" s). rewrite rstrip_head by done.
    change (parse_line (k +:+ "=" +:+ rstrip_by isspace s) = parse_line (k +:+ "=" +:+ s)).
    by rewrite !parse_directive_line, strip_rstrip.
Qed.

Lemma join_cons2 sep x y l : join sep (x :: y :: l) = x +:+ sep +:+ join sep (y :: l).
Proof. done. Qed.
Lemma join_snoc2 sep l x : join sep (l ++ [x; ""]) = join sep (l ++ [x]) +:+ sep.
Proof.
  induction l as [|y l IH]; [change (x +:+ sep +:+ "" = x +:+ sep); by rewrite str_app_nil|].
  destruct l as [|z l].
  - change (y +:+ sep +:+ (x +:+ sep +:+ "") = (y +:+ sep +:+ x) +:+ sep). by rewrite str_app_nil, !str_app_assoc.
  - change (y +:+ sep +:+ join sep ((z :: l) ++ [x; ""]) = (y +:+ sep +:+ join sep ((z :: l) ++ [x])) +:+ sep).
    by rewrite IH, !str_app_assoc.
Qed.
Lemma join_last sep (l : list string) : ∃ s, ∀ t, join sep (l ++ [t]) = s +:+ t.
Proof.
  induction l as [|y l [s IH]]; [by exists ""|]. destruct l as [|z l].
  - exists (y +:+ sep). intros t. change (y +:+ sep +:+ t = (y +:+ sep) +:+ t). by rewrite str_app_assoc.
  - exists (y +:+ sep +:+ s). intros t. change (y +:+ sep +:+ join sep ((z :: l) ++ [t]) = (y +:+ sep +:+ s) +:+ t).
    by rewrite IH, !str_app_assoc.
Qed.

Lemma unit_text_lines front last : good_line last →
  unit_text (front ++ [last; ""]) = join nl (front ++ [rstrip_by isspace last; ""]).
Proof.
  intros Hl. unfold unit_text. rewrite !join_snoc2. destruct (join_last nl front) as [s Hs]. rewrite !Hs.
  rewrite rstrip_spaces by (repeat constructor). f_equal. apply rstrip_app. by apply good_line_char.
Qed.

Lemma parse_unit_text lines : lines ≠ [] → Forall (λ l, l = "" ∨ good_line l) lines → (∃ front last, lines = front ++ [last; ""] ∧ good_line last) →
  parse_unit (unit_text lines) = omap parse_line lines.
Proof.
  intros _ Hf (front & last & -> & Hl). rewrite unit_text_lines by done. unfold parse_unit.
  destruct (good_line_rstrip last Hl) as [Hp Hn].
  rewrite split_on_join.
  - rewrite !omap_app. f_equal. simpl. by rewrite Hp.
  - by destruct front.
  - apply Forall_app in Hf as [Hf _]. apply Forall_app. split; [|repeat constructor; done].
    eapply Forall_impl; [exact Hf|]. intros l [->|H]; [done|by apply good_line_no_nl].
Qed.

(** ** Sections *)

Lemma directive_line_ok root k v l : no_nl root → DIRECTIVE_NAME_RE k = true → (∀ s, v = VStr s → no_nl s) →
  directive_line root k v = Ok l →
  good_line l ∧ ∃ s, format_scalar (match v with VStr s => VStr (substitute_tokens s root) | _ => v end) = Ok s ∧
                     parse_line l = Some (Directive k (strip s)).
Proof.
  intros Hroot Hk Hv. unfold directive_line. intros (s & Hs & [= <-])%bind_Ok.
  assert (no_nl s) as Hn.
  { destruct v; simpl in Hs; try discriminate; injection Hs as <-; [by destruct b|apply no_nl_str_int|].
    specialize (Hv _ eq_refl). unfold substitute_tokens. apply no_nl_plain.
    apply plain_chars_replace; [|apply plain_chars_replace]; apply no_nl_plain; [|done|done].
    by apply no_nl_app. }
  split; [by constructor|]. exists s. split; [done|by apply parse_directive_line].
Qed.

Lemma directive_lines_ok root k vs ls : no_nl root → DIRECTIVE_NAME_RE k = true → (∀ s, VStr s ∈ vs → no_nl s) →
  mapR (directive_line root k) vs = Ok ls →
  Forall good_line ls ∧ omap parse_line ls = directive_items root (k, vs).
Proof.
  intros Hroot Hk. revert ls. induction vs as [|v vs IH]; intros ls Hv; simpl; [by intros [= <-]|].
  intros (l & Hl & (ls' & Hls & [= <-])%bind_Ok)%bind_Ok.
  apply directive_line_ok in Hl as (Hg & s & Hs & Hp); [|done|done|intros s ->; apply Hv; left].
  destruct (IH ls') as [Hf Hi]; [intros s' Hs'; apply Hv; by right|done|]. split; [by constructor|].
  unfold directive_items in *. simpl. rewrite Hp, Hs. f_equal. exact Hi.
Qed.

Definition section_name_ok (n : string) : Prop := no_nl n ∧ str_take (slen ("[" +:+ n +:+ "]") - 2) (str_drop 1 ("[" +:+ n +:+ "]")) = n.

Lemma render_section_ok root name ds lines : no_nl root → section_name_ok name → directives_ok ds →
  render_section name ds root = Ok lines →
  ∃ front last, lines = front ++ [last; ""] ∧ Forall good_line (front ++ [last]) ∧ omap parse_line lines = section_items root name ds.
Proof.
  intros Hroot [Hname Htake] Hds. unfold render_section. intros (ls & Hls & [= <-])%bind_Ok.
  assert (Forall good_line (concat ls) ∧ omap parse_line (concat ls) = concat (map (directive_items root) ds)) as [Hg Hp].
  { clear Hname Htake. revert ls Hls. induction ds as [|[k vs] ds IH]; intros ls; simpl; [by intros [= <-]|].
    intros (l & Hl & (ls' & Hls & [= <-])%bind_Ok)%bind_Ok. destruct (Hds k vs) as [Hk Hv]; [left|].
    apply directive_lines_ok in Hl as [Hf Hi]; [|done..].
    destruct (IH (λ k' vs' H, Hds k' vs' (list_elem_of_further _ _ _ H)) ls' Hls) as [Hf' Hi'].
    simpl. rewrite omap_app, Hi, Hi'. split; [by apply Forall_app|done]. }
  assert (∃ front last, ("[" +:+ name +:+ "]") :: concat ls = front ++ [last]) as (front & last & E).
  { destruct (exists_last (l := ("[" +:+ name +:+ "]") :: concat ls)) as (front & last & E); [done|eauto]. }
  assert (parse_line ("[" +:+ name +:+ "]") = Some (Section_ name)) as Hhead.
  { unfold parse_line. rewrite bool_decide_false by done.
    assert (startswith ("[" +:+ name +:+ "]") "[" = true) as ->; [apply (startswith_char "[" (name +:+ "]"))|by rewrite Htake]. }
  exists front, last. split_and!.
  - transitivity ((front ++ [last]) ++ [""]); [by rewrite <- E|by rewrite <- app_assoc].
  - rewrite <- E. constructor; [by constructor|done].
  - transitivity (omap parse_line [("[" +:+ name +:+ "]")] ++ omap parse_line (concat ls) ++ omap parse_line [""]).
    { by rewrite <- !omap_app. }
    rewrite Hp. change (omap parse_line [""]) with (@nil unit_item). rewrite app_nil_r.
    cbn [omap list_omap]. by rewrite Hhead.
Qed.

(** What a list of sections renders to, and reads back as. *)
Definition render_sections (config_root : string) (sections : list (string * directives)) : result (list string) :=
  ls ← mapR (λ s, render_section s.1 s.2 config_root) sections; Ok (concat ls).

Lemma render_sections_ok root sections lines : no_nl root → sections ≠ [] →
  Forall (λ s, section_name_ok s.1 ∧ directives_ok s.2) sections → render_sections root sections = Ok lines →
  parse_unit (unit_text lines) = concat (map (λ s, section_items root s.1 s.2) sections).
Proof.
  intros Hroot Hne Hs. unfold render_sections. intros (ls & Hls & [= <-])%bind_Ok.
  assert (Forall (λ l, l = "" ∨ good_line l) (concat ls) ∧ (∃ front last, concat ls = front ++ [last; ""] ∧ good_line last) ∧
          omap parse_line (concat ls) = concat (map (λ s, section_items root s.1 s.2) sections)) as (Hf & Hl & Hp).
  { revert ls Hls. induction Hs as [|[n ds] sections [Hn Hd] Hs IH]; intros ls; simpl; [done|].
    intros (l & Hl & (ls' & Hls & [= <-])%bind_Ok)%bind_Ok.
    apply render_section_ok in Hl as (front & last & -> & Hg & Hp); [|done..].
    assert (Forall (λ l, l = "" ∨ good_line l) (front ++ [last; ""])) as Hfl.
    { apply Forall_app in Hg as [Hg1 [Hg2 _]%Forall_cons]. apply Forall_app.
      split; [eapply Forall_impl; [exact Hg1|]; intros l' Hl'; right; exact Hl'|]. apply Forall_cons. split; [right; exact Hg2|]. apply Forall_singleton. by left. }
    apply Forall_app in Hg as [_ [Hlast _]%Forall_cons].
    simpl. rewrite omap_app, Hp. destruct sections as [|s sections].
    { injection Hls as <-. simpl. rewrite app_nil_r. split_and!; [done|by exists front, last|by rewrite app_nil_r]. }
    destruct (IH ltac:(done) ls' Hls) as (Hf & (front' & last' & E & Hg') & Hp'). split_and!.
    - by apply Forall_app.
    - exists ((front ++ [last; ""]) ++ front'), last'. rewrite E. by rewrite app_assoc.
    - by rewrite Hp'. }
  rewrite parse_unit_text; [done| |done|done]. destruct Hl as (front & last & -> & _). by destruct front.
Qed.

(** ** Normalized directives *)

Lemma breaks_line_no_nl s : any_char breaks_line s = false → no_nl s.
Proof.
  intros H%any_char_false. apply no_nl_plain. eapply Forall_impl; [exact H|]. cbv beta.
  intros c Hc ->. vm_compute in Hc. discriminate.
Qed.
Lemma directive_item_ok path v w : directive_item path v = Ok w → w = v ∧ ∀ s, v = VStr s → no_nl s.
Proof.
  destruct v; simpl; try discriminate; try (by intros [= <-]; split; [|discriminate]).
  intros (u & Hu & [= <-])%bind_Ok. apply raise_if_Ok in Hu. split; [done|]. intros ? [= <-]. by apply breaks_line_no_nl.
Qed.
Lemma normalize_directive_ok path key v ws : normalize_directive path key v = Ok ws → ∀ s, VStr s ∈ ws → no_nl s.
Proof.
  intros H s Hs. assert (∃ p v0, directive_item p v0 = Ok (VStr s)) as (p & v0 & Hi).
  { unfold normalize_directive in H. destruct v;
      try (apply bind_Ok in H as (w & Hw & [= <-]); apply list_elem_of_singleton in Hs as <-; by eexists _, _).
    apply imapR_Ok in H. apply list_elem_of_lookup in Hs as [i Hi].
    destruct (Forall2_lookup_r _ _ _ _ _ H Hi) as (v0 & _ & j & Hj). by eexists _, _. }
  destruct (directive_item_ok _ _ _ Hi) as [<- Hn]. by apply Hn.
Qed.
Lemma directives_ok_dset k vs ds : DIRECTIVE_NAME_RE k = true → (∀ s, VStr s ∈ vs → no_nl s) → directives_ok ds → directives_ok (dset k vs ds).
Proof. intros Hk Hv Hd k' vs' [[= -> ->]|Hin]%elem_of_dset; [done|by apply Hd]. Qed.
Lemma normalize_directives_ok table path ds : normalize_directives table path = Ok ds → directives_ok ds.
Proof.
  unfold normalize_directives. apply (forR_inv directives_ok); [|by intros ?? ?%elem_of_nil].
  intros acc [key raw] acc' _ Hacc (u & Hu & (vs & Hvs & [= <-])%bind_Ok)%bind_Ok.
  apply raise_if_Ok, negb_false_iff in Hu. destruct vs as [|v vs]; [done|].
  apply directives_ok_dset; [done| |done]. by eapply normalize_directive_ok.
Qed.

(** ** Published ports *)

Definition loopback (s : string) : Prop := startswith s "127.0.0.1:" = true ∨ startswith s "127.0.1.1:" = true.
(** A bracketed host that is not closed, or not followed by a colon: no port can be
    read from it, and it is left as it is. *)
Definition unreadable_port (s : string) : Prop :=
  startswith s "[" = true ∧
  ∀ i, find_char "]" s = Some i → String.get (S i) s ≠ Some ":"%char.

Lemma startswith_app a b : startswith (a +:+ b) a = true.
Proof. apply prefix_app. Qed.

Lemma rewrite_port_spec v name v' ws : rewrite_rootless_publish_port v name = Ok (v', ws) →
  (loopback v' ∨ unreadable_port v' ∧ v' = v) ∧ (no_nl v → no_nl v').
Proof.
  unfold rewrite_rootless_publish_port. intros (r & Hr & H)%bind_Ok.
  assert (∀ host remainder, r = inr (host, remainder) →
    (host ∈ ["127.0.0.1"; "127.0.1.1"] → v = host +:+ ":" +:+ remainder) ∧ (no_nl v → no_nl remainder)) as Hsplit.
  { intros host remainder ->. unfold split_publish_port in Hr. destruct (startswith v "[") eqn:Hb.
    - destruct (find_char "]" v) as [i|]; [|discriminate]. destruct (String.get (S i) v) as [c|]; [|discriminate].
      destruct (Ascii.eqb c ":"); [|discriminate]. injection Hr as <- <-. split.
      + intros Hin. exfalso. destruct v as [|d v]; [done|]. rewrite startswith_char in Hb. apply Ascii.eqb_eq in Hb as <-.
        by rewrite !elem_of_cons, elem_of_nil in Hin; destruct Hin as [Hin|[Hin|[]]].
      + rewrite !no_nl_plain. apply plain_chars_drop.
    - pose proof (join_split_on ":" v) as Hj. pose proof (plain_chars_split (λ c, c ≠ nl_char) ":" v) as Hp.
      destruct (split_on ":" v) as [|p [|q [|q' l]]]; try discriminate; [by destruct (_ && _)|].
      assert (host = p ∧ remainder = join ":" (q :: q' :: l)) as [-> ->] by (by injection Hr as <- <-).
      split; [intros _; by rewrite <- Hj|]. rewrite !no_nl_plain. intros Hv. specialize (Hp Hv).
      apply Forall_cons in Hp as [_ Hp]. apply plain_chars_join; [|exact Hp]. by apply no_nl_plain. }
  destruct r as [w|[host remainder]].
  - injection H as <- <-. clear Hsplit. unfold split_publish_port in Hr. destruct (startswith v "[") eqn:Hb.
    + assert (w = v ∧ unreadable_port v) as [-> Hu]; [|by split; [right|]]. unfold unreadable_port.
      destruct (find_char "]" v) as [i|]; [|by injection Hr as <-; split; [|split; [|discriminate]]].
      destruct (String.get (S i) v) as [c|] eqn:Hc; [destruct (Ascii.eqb_spec c ":") as [->|Hne]|];
        [discriminate|by injection Hr as <-; split; [|split; [|intros ? [= <-]; rewrite Hc; congruence]]
        |by injection Hr as <-; split; [|split; [|intros ? [= <-]; by rewrite Hc]]].
    + destruct (split_on ":" v) as [|p [|q [|q' l]]]; try discriminate. destruct (_ && _); [|discriminate].
      injection Hr as <-. split; [left; left; apply (startswith_app "127.0.0.1:" v)|]. intros Hn. by apply (no_nl_app "127.0.0.1:" v).
  - destruct (Hsplit host remainder eq_refl) as [Hv Hn]. case_bool_decide as Hin.
    + injection H as <- <-. split; [|done]. left. rewrite (Hv Hin). unfold loopback.
      rewrite !elem_of_cons, elem_of_nil in Hin. destruct Hin as [-> |[-> |[]]];
        [left; apply (startswith_app "127.0.0.1:" remainder)|right; apply (startswith_app "127.0.1.1:" remainder)].
    + assert (v' = "127.0.0.1:" +:+ remainder) as -> by (case_bool_decide; by injection H as <- _).
      split; [left; left; apply (startswith_app "127.0.0.1:" remainder)|]. intros Hv'. by apply (no_nl_app "127.0.0.1:" remainder), conj; [|apply Hn].
Qed.

(** ** Containers *)

Lemma normalize_wf table path ds : normalize_directives table path = Ok ds → wf_dict ds.
Proof.
  unfold normalize_directives. apply (forR_inv wf_dict); [|constructor].
  intros acc [key raw] acc' _ Hacc (u & _ & (vs & _ & [= <-])%bind_Ok)%bind_Ok. destruct vs; [done|by apply wf_dset].
Qed.

(** What the rootless rewriting leaves. *)
Definition confined (ds : directives) : Prop :=
  dget "Network" ds = Some [VStr ROOTLESS_NETWORK_NAME] ∧
  ∀ v, v ∈ get_values "PublishPort" ds → ∃ s, v = VStr s ∧ (loopback s ∨ unreadable_port s).

Lemma rewritten_ports name path ports rewritten :
  imapR 0 (λ idx v, s ← require_string v (at_index path idx); rewrite_rootless_publish_port s name) ports = Ok rewritten →
  (∀ s, VStr s ∈ ports → no_nl s) →
  ∀ v, v ∈ map VStr rewritten.*1 → ∃ s, v = VStr s ∧ (loopback s ∨ unreadable_port s) ∧ no_nl s.
Proof.
  intros H%imapR_Ok Hn v Hv. apply list_elem_of_fmap in Hv as (s & -> & Hs). exists s. split; [done|].
  apply list_elem_of_fmap in Hs as ([s' ws] & -> & Hs). apply list_elem_of_lookup in Hs as [i Hi].
  destruct (Forall2_lookup_r _ _ _ _ _ H Hi) as (p & Hp & j & (q & Hq & Hr)%bind_Ok).
  assert (no_nl q) as Hq'.
  { destruct p; simpl in Hq; try discriminate. case_bool_decide; [discriminate|]. injection Hq as <-.
    apply no_nl_plain, plain_chars_strip, no_nl_plain, Hn. by apply list_elem_of_lookup_2 in Hp. }
  destruct (rewrite_port_spec _ _ _ _ Hr) as [Hl Hnl]. simpl. split; [|by apply Hnl].
  destruct Hl as [Hl|[Hu _]]; auto.
Qed.

Lemma rootless_directives_ok name path ds ds' ws : rootless_directives name path ds = Ok (ds', ws) →
  directives_ok ds → wf_dict ds → confined ds' ∧ directives_ok ds' ∧ wf_dict ds'.
Proof.
  unfold rootless_directives. set (dn := dset "Network" _ ds). intros H Hok Hwf.
  assert (directives_ok dn) as Hdn.
  { apply directives_ok_dset; [done| |done]. by intros s [= ->]%list_elem_of_singleton. }
  assert (wf_dict dn) as Hwn by by apply wf_dset.
  assert (dget "Network" dn = Some [VStr ROOTLESS_NETWORK_NAME]) as Hnet by apply dget_dset_eq.
  destruct (get_values "PublishPort" dn) as [|p ports] eqn:Hp.
  { injection H as <- _. split_and!; [|done..]. split; [done|]. rewrite Hp. by intros v ?%elem_of_nil. }
  apply bind_Ok in H as (rewritten & Hr & [= <- _]).
  pose proof (rewritten_ports _ _ _ _ Hr) as Hports.
  assert (∀ s, VStr s ∈ p :: ports → no_nl s) as Hn.
  { intros s Hs. rewrite <- Hp in Hs. unfold get_values in Hs. destruct (dget "PublishPort" dn) as [vs|] eqn:E; [|by apply elem_of_nil in Hs].
    apply dget_Some_elem in E. by apply (Hdn _ _ E). }
  specialize (Hports Hn). split_and!; [split| |by apply wf_dset].
  - by rewrite dget_dset_ne by done.
  - intros v Hv. unfold get_values in Hv. rewrite dget_dset_eq in Hv. destruct (Hports v Hv) as (s & -> & Hs & _). eauto.
  - apply directives_ok_dset; [done| |done]. intros s Hs. destruct (Hports _ Hs) as (s' & [= ->] & _ & H). done.
Qed.

Lemma render_sections_app root a b la lb : render_sections root a = Ok la → render_sections root b = Ok lb →
  render_sections root (a ++ b) = Ok (la ++ lb).
Proof.
  unfold render_sections. intros (xs & Hxs & [= <-])%bind_Ok (ys & Hys & [= <-])%bind_Ok.
  rewrite mapR_Ok in Hxs. rewrite mapR_Ok in Hys.
  assert (mapR (λ s, render_section s.1 s.2 root) (a ++ b) = Ok (xs ++ ys)) as ->.
  { apply mapR_Ok. by apply Forall2_app. }
  simpl. by rewrite concat_app.
Qed.
Lemma section_names_ok n : n ∈ ["Unit"; "Container"; "Install"] → section_name_ok n.
Proof. rewrite !elem_of_cons, elem_of_nil. intros [-> |[-> |[-> |[]]]]; split; vm_compute; reflexivity. Qed.
Lemma optional_section_ok section path root sections lines : section ∈ ["Unit"; "Container"; "Install"] →
  optional_section section path root sections = Ok lines →
  ∃ opt : list (string * directives), render_sections root opt = Ok lines ∧
    Forall (λ s, s.1 = section) opt ∧ Forall (λ s, section_name_ok s.1 ∧ directives_ok s.2) opt.
Proof.
  intros Hs. unfold optional_section. destruct (dget section sections) as [raw|].
  - intros (t & _ & (ds & Hds & Hl)%bind_Ok)%bind_Ok. exists [(section, ds)]. split_and!.
    + unfold render_sections. simpl. rewrite Hl. simpl. by rewrite app_nil_r.
    + by repeat constructor.
    + apply Forall_cons. split; [|constructor]. split; [by apply section_names_ok|by eapply normalize_directives_ok].
  - intros [= <-]. exists []. by repeat constructor.
Qed.

(** How a container's file reads: at most a [Unit] section, the container's
    directives, at most an [Install] section. *)
Definition container_reads (root : string) (privileged : bool) (text : string) : Prop :=
  ∃ before ds after,
    Forall (λ s : string * directives, s.1 = "Unit") before ∧ Forall (λ s : string * directives, s.1 = "Install") after ∧
    parse_unit text = concat (map (λ s, section_items root s.1 s.2) (before ++ [("Container", ds)] ++ after)) ∧
    wf_dict ds ∧ directives_ok ds ∧
    (if privileged then dget "Network" ds = Some [VStr "host"] else confined ds).

Lemma render_container_reads cwd root name raw text unit_ ws : no_nl root →
  render_container cwd root name raw = Ok (text, unit_, ws) →
  ∃ sections privileged, raw = VDict sections ∧ vget "privileged" sections = VBool privileged ∧
    unit_ = runtime_unit name (name +:+ CONTAINER_SUFFIX) (name +:+ ".service") (if privileged then "rootful" else "rootless") ∧
    container_reads root privileged text.
Proof.
  intros Hroot. unfold render_container. intros (u1 & _ & H)%bind_Ok.
  apply bind_Ok in H as (sections & Hs & H). apply bind_Ok in H as (privileged & Hpriv & H).
  apply bind_Ok in H as (container & _ & H). apply bind_Ok in H as (ds & Hds & H). apply bind_Ok in H as (u2 & _ & H).
  apply bind_Ok in H as (mounts & _ & H). apply bind_Ok in H as ([ds' ws'] & Hconf & H).
  apply bind_Ok in H as (ul & Hul & H). apply bind_Ok in H as (cl & Hcl & H). apply bind_Ok in H as (il & Hil & [= <- <- <-]).
  exists sections, privileged. split_and!.
  - by destruct raw; try discriminate; injection Hs as ->.
  - by destruct (vget "privileged" sections); try discriminate; injection Hpriv as ->.
  - done.
  - pose proof (normalize_directives_ok _ _ _ Hds) as Hok. pose proof (normalize_wf _ _ _ Hds) as Hwf.
    assert (wf_dict ds' ∧ directives_ok ds' ∧ if privileged then dget "Network" ds' = Some [VStr "host"] else confined ds') as (Hwf' & Hok' & Hc).
    { destruct privileged.
      - injection Hconf as <- _. split_and!; [by apply wf_dset| |apply dget_dset_eq].
        apply directives_ok_dset; [done| |done]. by intros s [= ->]%list_elem_of_singleton.
      - by destruct (rootless_directives_ok _ _ _ _ _ Hconf Hok Hwf) as (? & ? & ?). }
    apply optional_section_ok in Hul as (bs & Hbs & Hbn & Hbok); [|left].
    apply optional_section_ok in Hil as (is_ & His & Hin & Hiok); [|right; right; left].
    exists bs, ds', is_. split_and!; [done..| |done|done|done]. apply render_sections_ok; [done|by destruct bs| |].
    + apply Forall_app. split; [done|]. constructor; [|done]. split; [apply section_names_ok; right; left|done].
    + apply render_sections_app; [done|]. apply render_sections_app; [|done].
      unfold render_sections. simpl. simpl in Hcl. rewrite Hcl. simpl. by rewrite app_nil_r.
Qed.

Lemma suffix_inj (a b c : string) : a +:+ c = b +:+ c → a = b.
Proof. intros E. apply (f_equal chars) in E. rewrite !chars_app in E. apply app_inv_tail in E. by apply chars_inj. Qed.

Section containers.
Context (cwd root : string).

Lemma render_loop_keeps table acc acc' name : name ∉ dkeys table → forR (render_step cwd root) table acc = Ok acc' →
  dget (name +:+ CONTAINER_SUFFIX) acc'.1.1 = dget (name +:+ CONTAINER_SUFFIX) acc.1.1.
Proof.
  revert acc. induction table as [|[n raw] table IH]; intros acc Hn; simpl; [by intros [= <-]|].
  unfold dkeys in Hn. csimpl in Hn. apply not_elem_of_cons in Hn as [Hne Hn].
  intros (acc1 & H1 & H)%bind_Ok. rewrite (IH acc1 Hn H). destruct acc as [[rd ru] ws].
  apply bind_Ok in H1 as (r & _ & [= <-]). simpl. apply dget_dset_ne. intros E. by apply suffix_inj in E.
Qed.
Lemma render_loop_units table acc acc' u : forR (render_step cwd root) table acc = Ok acc' → u ∈ acc.1.2 → u ∈ acc'.1.2.
Proof.
  intros H. revert H. apply (forR_inv (λ a : rendering, u ∈ acc.1.2 → u ∈ a.1.2)); [|done].
  intros [[rd ru] ws] [n raw] s' _ Ha (r & _ & [= <-])%bind_Ok Hu. simpl in *. apply elem_of_app. auto.
Qed.
Lemma render_loop table acc acc' name raw : wf_dict table → forR (render_step cwd root) table acc = Ok acc' → (name, raw) ∈ table →
  ∃ text unit_ ws, render_container cwd root name raw = Ok (text, unit_, ws) ∧
    dget (name +:+ CONTAINER_SUFFIX) acc'.1.1 = Some text ∧ unit_ ∈ acc'.1.2.
Proof.
  revert acc. induction table as [|[n raw'] table IH]; intros acc Hwf; simpl; [by intros _ ?%elem_of_nil|].
  unfold wf_dict, dkeys in Hwf. csimpl in Hwf. apply NoDup_cons in Hwf as [Hn Hwf].
  intros (acc1 & H1 & H)%bind_Ok [[= <- <-]|Hin]%elem_of_cons; [|by eapply IH].
  pose proof (render_loop_keeps table acc1 acc' name Hn H) as Hk. pose proof (render_loop_units table acc1 acc') as Hu.
  destruct acc as [[rd ru] ws0]. apply bind_Ok in H1 as ([[text u] ws] & Hr & [= <-]). exists text, u, ws.
  split_and!; [done| |].
  - rewrite Hk. simpl. apply dget_dset_eq.
  - apply Hu; [done|]. simpl. apply elem_of_app. right. left.
Qed.
End containers.


(** Ports of rootless containers: a rewritten port is bound to loopback, unless
    it starts with a bracket from which no port can be read, and then it is left as
    it was. *)
Theorem rewrite_publish_port_loopback (v name v' : string) (ws : list string) :
  rewrite_rootless_publish_port v name = Ok (v', ws) → loopback v' ∨ (unreadable_port v' ∧ v' = v).
Proof. intros H. by apply rewrite_port_spec in H as [H _]. Qed.

(** A bracketed host needs no host port, unlike every other form. *)
Example bracket_without_host_port :
  rewrite_rootless_publish_port "[::]:80" "web" =
    Ok ("127.0.0.1:80", ["container.web.Container.PublishPort rewrote non-loopback bind '[::]:80' to 127.0.0.1"]) ∧
  is_ok (rewrite_rootless_publish_port "127.0.0.1:80" "web") = false.
Proof. split; vm_compute; reflexivity. Qed.

(** Ports published through [PodmanArgs] are not looked at. *)
Definition podman_args_table : dict value :=
  [("web", VDict [("privileged", VBool false);
                  ("Container", VDict [("Image", VStr "nginx:1"); ("PublishPort", VList [VStr "0.0.0.0:8080:80"; VStr "9090:90"]);
                                       ("PodmanArgs", VStr "--publish 0.0.0.0:8081:80")]);
                  ("Install", VDict [("WantedBy", VStr "multi-user.target")])])].
Definition podman_args_text : string :=
  join nl ["[Container]"; "Image=nginx:1"; "PublishPort=127.0.0.1:8080:80"; "PublishPort=127.0.0.1:9090:90";
           "PodmanArgs=--publish 0.0.0.0:8081:80"; "Network=pasta"; ""; "[Install]"; "WantedBy=multi-user.target"; ""].
Example podman_args_published :
  option_map (λ r, r.1.1) (match render_containers "/" podman_args_table "/data/config" with Ok r => Some r | Err _ => None end)
  = Some [("web.container", podman_args_text)].
Proof. vm_compute. reflexivity. Qed.

Lemma rewrite_publish_port_loopback_witness : loopback "127.0.0.1:8080:80".
Proof.
  destruct (rewrite_publish_port_loopback "0.0.0.0:8080:80" "web" "127.0.0.1:8080:80"
    ["container.web.Container.PublishPort rewrote non-loopback bind '0.0.0.0:8080:80' to 127.0.0.1"]) as [H|[_ H]].
  - vm_compute. reflexivity.
  - exact H.
  - discriminate H.
Defined.
