(* ===== verification/Bundle.v ===== *)
(** * [bundle.py]: archives, managed files and their copies

    One definition per function of src/scripts/atomixos_provision/src/
    atomixos_provision/bundle.py.  [tarfile] gives the members of an archive in
    order, and whether reading their headers then failed; [gzip] and [tarfile]
    writing are their size and nothing else.  A directory descriptor is the path
    it was opened on: the code compares inodes before and after opening to notice
    a concurrent replacement, and counts links, and neither happens here.  An
    access ACL is not part of a node: setting one is a call that can fail.  The
    output of a decompressor is written when it has ended, not as it comes.  A
    temporary directory whose user fails stays: its finalizer removes it at no
    particular point of the run. *)

From Stdlib Require Import Ascii.
From S2P Require Import Prelude PyStr PyVal ConfigCheck FS Staging StagedJob Activation Auth.

Local Open Scope Z_scope.

(** ** Constants

    The defaults; the environment can lower them for an unprivileged process. *)

Definition GZIP_MAGIC : string := unchars [ascii_of_N 31; ascii_of_N 139].
Definition ZSTD_MAGIC : string := unchars [ascii_of_N 40; ascii_of_N 181; ascii_of_N 47; ascii_of_N 253].
Definition MAX_SOURCE_BYTES : Z := 32 * 1024 * 1024.
Definition MAX_DECOMPRESSED_BYTES : Z := 256 * 1024 * 1024.
Definition MAX_BUNDLE_MEMBERS : Z := 4096.
Definition MAX_BUNDLE_DEPTH : nat := 64.
Definition MAX_BUNDLE_MEMBER_BYTES : Z := 64 * 1024 * 1024.

Definition member_limit (n : Z) : exn := provision_error ("bundle exceeds " +:+ str_int n +:+ " member limit").
Definition total_limit (n : Z) : exn := provision_error ("bundle exceeds " +:+ str_int n +:+ " byte decompressed limit").
Definition file_limit (what : string) (n : Z) : exn :=
  provision_error ("bundle member " +:+ what +:+ " exceeds " +:+ str_int n +:+ " byte limit").

(** ** Detection and validation *)

Definition ends_with_any (s : string) (suffixes : list string) : bool := existsb (endswith s) suffixes.
Definition detect_bundle_kind (source_bytes filename : string) : option string :=
  let lowered := lower filename in
  if ends_with_any lowered [".tar.gz"; ".tgz"] || startswith source_bytes GZIP_MAGIC then Some "tar.gz"
  else if ends_with_any lowered [".tar.zst"; ".tar.zstd"; ".tzst"] || startswith source_bytes ZSTD_MAGIC then Some "tar.zst"
  else None.

Definition validate_bundle_member (name : string) : result () :=
  raise_if (path_is_absolute name || bool_decide (".." ∈ path_parts name) || bool_decide (name = ""))
    (provision_error ("invalid bundle member path: " +:+ py_repr name)).
Definition validate_source_size (source_bytes : string) : result () :=
  raise_if (MAX_SOURCE_BYTES <? Z.of_nat (slen source_bytes))
    (provision_error ("config upload exceeds " +:+ str_int MAX_SOURCE_BYTES +:+ " byte limit")).

Definition validate_decompressed_size (decompressed : string) : result () :=
  raise_if (MAX_DECOMPRESSED_BYTES <? Z.of_nat (slen decompressed)) (total_limit MAX_DECOMPRESSED_BYTES).

Definition validate_bundle_layout (bundle_root : path) : M () :=
  actual_entries ← listdir bundle_root;
  if negb (bool_decide ("config.toml" ∈ actual_entries))
  then raise (provision_error "bundle must contain config.toml at the top level")
  else
    let unexpected := sorted_strs (filter (λ x, x ∉ ["config.toml"; "files"]) actual_entries) in
    if negb (bool_decide (unexpected = []))
    then raise (provision_error ("bundle contains unsupported top-level entries: " +:+ comma_join unexpected))
    else
      ex ← exists_ (bundle_root // "files");
      dir ← (if ex : bool then is_dir_ (bundle_root // "files") else mret true);
      if dir : bool then mret tt else raise (provision_error "bundle entry 'files' must be a directory").

(** ** Copies *)

Record limits : Type := Limits {
  max_file_bytes : option Z; max_total_bytes : option Z; max_members : option Z }.
Definition import_limits : limits :=
  Limits (Some MAX_BUNDLE_MEMBER_BYTES) (Some MAX_DECOMPRESSED_BYTES) (Some MAX_BUNDLE_MEMBERS).
(** What the copy has used so far. *)
Record budget : Type := Budget { total_bytes : Z; member_count : Z }.

Definition over (n : Z) (limit : option Z) : bool := match limit with Some m => m <? n | None => false end.
Definition reached (n : Z) (limit : option Z) : bool := match limit with Some m => m <=? n | None => false end.

(** [_open_dir_no_follow] *)
Definition open_dir_failed (p : path) : exn :=
  provision_error ("failed to open bundle directory without following symlinks: " +:+ show_path p).
Definition _open_dir_no_follow (p : path) : M () :=
  n ← catch (lstat p) is_OSError (λ _, raise (open_dir_failed p));
  if is_dir n then mret tt else raise (open_dir_failed p).

(** One name of the scan. *)
Definition count_name (max_members : option Z) (count : Z) (name : string) : result Z :=
  _ ← raise_if (bool_decide (name ∈ [""; "."; ".."]))
        (provision_error ("invalid bundle files entry: " +:+ py_repr name));
  _ ← raise_if (reached count max_members) (member_limit (default 0 max_members));
  Ok (count + 1).

Definition snapshot_file (L : limits) (child target : path) (st : node) (b : budget) : M budget :=
  _ ← lift (raise_if (over (n_size st) (max_file_bytes L))
        (file_limit (py_repr (show_path child)) (default 0 (max_file_bytes L))));
  _ ← lift (raise_if (over (total_bytes b + n_size st) (max_total_bytes L))
        (total_limit (default 0 (max_total_bytes L))));
  c ← read_content child;
  _ ← write_text target c;
  _ ← chmod 420 (* 0o644 *) target;
  mret (Budget (total_bytes b + content_size c) (member_count b)).

(** [_snapshot_dir] at depth [MAX_BUNDLE_DEPTH - fuel]. *)
Fixpoint _snapshot_dir (fuel : nat) (L : limits) (source_path destination : path) (b : budget) : M budget :=
  _ ← mkdir_parents 511 destination;
  _ ← chmod 493 (* 0o755 *) destination;
  names ← listdir source_path;
  count ← lift (forR (count_name (max_members L)) names (member_count b));
  forM (λ b name,
      let child := source_path // name in
      let target := destination // name in
      st ← catch (lstat child) is_OSError
             (λ _, raise (provision_error ("cannot stat bundle files entry: " +:+ show_path child)));
      if is_lnk st then raise (provision_error ("bundle files entry must not be a symlink: " +:+ show_path child))
      else if is_dir st then
        match fuel with
        | O => raise (provision_error ("bundle exceeds 64 directory depth limit: " +:+ show_path child))
        | S fuel => _snapshot_dir fuel L child target b
        end
      else if negb (is_reg st)
      then raise (provision_error ("bundle files entry must be a regular file: " +:+ show_path child))
      else snapshot_file L child target st b)
    (sorted_strs names) (Budget (total_bytes b) count).

Definition _snapshot_files_source (files_source destination : path) (L : limits) : M Z :=
  _ ← _open_dir_no_follow files_source;
  b ← _snapshot_dir MAX_BUNDLE_DEPTH L files_source destination (Budget 0 0);
  mret (total_bytes b).

(** [Path.rglob("*")]: everything below, in no particular order. *)
Definition rglob (p : path) : M (list path) := rd (λ s, Ok (filter (λ q, q ≠ p) (subtree s p))).
Definition _validate_no_symlinks (p : path) : M () :=
  below_p ← rglob p;
  iterM (λ current,
    n ← catch (lstat current) is_OSError
          (λ _, raise (provision_error ("cannot stat bundle files entry: " +:+ show_path current)));
    if is_lnk n then raise (provision_error ("bundle files entry must not be a symlink: " +:+ show_path current))
    else mret tt) (p :: below_p).

Definition _copy_regular_file_no_follow (source destination : path) : M () :=
  let failed := provision_error ("failed to open bundle file without following symlinks: " +:+ show_path source) in
  n ← catch (lstat source) is_OSError (λ _, raise failed);
  if is_lnk n then raise failed
  else if negb (is_reg n)
  then raise (provision_error ("bundle files entry must be a regular file: " +:+ show_path source))
  else c ← read_content source; write_text destination c.

Definition _remove_bundle_files_target (target : path) : M () :=
  n ← catch (n ← lstat target; mret (Some n)) is_not_found (λ _, mret None);
  match n with
  | None => mret tt
  | Some n => if is_dir n then rmtree target else unlink target
  end.

Definition stage_bundle_files (files_source : option path) (destination : path) : M () :=
  ex ← exists_ destination;
  _ ← (if ex : bool then _remove_bundle_files_target destination else mret tt);
  match files_source with
  | None => mret tt
  | Some source =>
      ex ← exists_ source;
      if ex : bool then _ ← _snapshot_files_source source destination import_limits; mret tt else mret tt
  end.

(** ** Access to managed files *)

Section access.
Context (app_uid reader_gid : Z).

(** The bytes of the Linux access ACL, little-endian: a version, then tag,
    permission and id of each entry. *)
Definition le_bytes (width : nat) (n : Z) : list Z := imap (λ i _, Z.land (Z.shiftr n (8 * Z.of_nat i)) 255) (replicate width ()).
Definition _ACL_UNDEFINED_ID : Z := 4294967295.
Definition _read_only_access_acl (perm : Z) : list Z :=
  le_bytes 4 2 ++
  concat (map (λ '(tag, entry_perm, entry_id), le_bytes 2 tag ++ le_bytes 2 entry_perm ++ le_bytes 4 entry_id)
    [(1, perm, _ACL_UNDEFINED_ID); (2, perm, app_uid); (4, perm, _ACL_UNDEFINED_ID);
     (16, perm, _ACL_UNDEFINED_ID); (32, 0, _ACL_UNDEFINED_ID)]).

Definition acl_failed (p : path) : exn :=
  provision_error ("cannot apply managed-file ACL; /data must support POSIX ACLs: " +:+ show_path p).
Definition _set_access_acl (p : path) : M () := catch (wr Ok) is_OSError (λ _, raise (acl_failed p)).
Definition _clear_access_acl : M () := wr Ok.

Definition _apply_managed_access (p : path) (directory writable : bool) : M () :=
  if writable then
    _ ← _clear_access_acl;
    _ ← wr (update_at (set_owner app_uid reader_gid) p);
    wr (update_at (set_mode (if directory then 488 (* 0o750 *) else 416 (* 0o640 *))) p)
  else
    _ ← wr (update_at (set_owner 0 reader_gid) p);
    _ ← wr (update_at (set_mode (if directory then 360 (* 0o550 *) else 288 (* 0o440 *))) p);
    _set_access_acl p.

(** [_grant_managed_dir_access] at depth [MAX_BUNDLE_DEPTH - fuel]. *)
Fixpoint _grant_managed_dir_access (fuel : nat) (p : path) (writable : bool) (member_count : Z) : M Z :=
  names ← listdir p;
  forM (λ member_count name,
      if MAX_BUNDLE_MEMBERS <=? member_count then raise (member_limit MAX_BUNDLE_MEMBERS)
      else
        let current := p // name in
        st ← lstat current;
        if is_lnk st then raise (provision_error ("bundle files entry must not be a symlink: " +:+ show_path current))
        else if negb (is_dir st || is_reg st)
        then raise (provision_error ("bundle files entry must be a regular file: " +:+ show_path current))
        else if is_dir st then
          match fuel with
          | O => raise (provision_error ("bundle exceeds 64 directory depth limit: " +:+ show_path current))
          | S fuel =>
              _ ← _apply_managed_access current true writable;
              _grant_managed_dir_access fuel current writable (member_count + 1)
          end
        else _ ← _apply_managed_access current false writable; mret (member_count + 1))
    names member_count.

Definition _grant_managed_file_access (p : path) (writable staging : bool) : M () :=
  _ ← _open_dir_no_follow p;
  _ ← wr (update_at (set_mode (if staging || writable then 488 else 360)) p);
  _ ← _grant_managed_dir_access MAX_BUNDLE_DEPTH p writable 0;
  mret tt.
End access.

Definition identity_missing : exn :=
  provision_error "managed-file identity not found: user=appsvc, group=atomixos-provision".

(** [identity] is the user id of appsvc and the group id of atomixos-provision. *)
Definition grant_managed_file_access (identity : option (Z * Z)) (p : path) (writable : bool) : M () :=
  n ← catch (n ← lstat p; mret (Some n)) is_not_found (λ _, mret None);
  match n with
  | None => mret tt
  | Some n =>
      if negb (is_dir n) then raise (provision_error ("managed files root must be a directory: " +:+ show_path p))
      else
        match identity with
        | None => raise identity_missing
        | Some (app_uid, reader_gid) =>
            _ ← _open_dir_no_follow p;
            _ ← _apply_managed_access app_uid reader_gid p true writable;
            _ ← _grant_managed_dir_access app_uid reader_gid MAX_BUNDLE_DEPTH p writable 0;
            mret tt
        end
  end.

(** [TemporaryDirectory(prefix, dir)] around a block. *)
Definition with_temporary_directory {A} (dir : path) (prefix : string) (block : path → M A) : M A :=
  suffix ← ask e_tmp;
  let tmp := dir // (prefix +:+ suffix) in
  _ ← mkdir 448 (* 0o700 *) tmp;
  finally (block tmp) (rmtree tmp).

Definition copy_bundle_files (identity : option (Z * Z)) (files_source : option path) (config_root : path) : M () :=
  let target := config_root // "files" in
  present ← match files_source with None => mret false | Some source => exists_ source end;
  match files_source, present with
  | Some source, true =>
      match identity with
      | None => raise identity_missing
      | Some (app_uid, reader_gid) =>
          _ ← mkdir_parents 511 config_root;
          with_temporary_directory config_root ".atomixos-files-" (λ staging_root,
            let staging_target := staging_root // "files" in
            _ ← chmod 448 staging_root;
            _ ← _snapshot_files_source source staging_target import_limits;
            _ ← _grant_managed_file_access app_uid reader_gid staging_target false true;
            _ ← _remove_bundle_files_target target;
            _ ← rename staging_target target;
            _ ← _open_dir_no_follow target;
            _apply_managed_access app_uid reader_gid target true false)
      end
  | _, _ => _remove_bundle_files_target target
  end.

(** ** Archives *)

Variant member_type : Type := MDir | MFile | MOther.
Record member : Type := Member { m_name : string; m_type : member_type; m_sparse : bool; m_size : Z; m_data : content }.
Definition is_file_member (m : member) : bool := match m_type m with MFile => true | _ => false end.
Definition is_dir_member (m : member) : bool := match m_type m with MDir => true | _ => false end.

Definition read_error : exn := provision_error "failed to read bundle archive".

(** The headers, read lazily up to the limit. *)
Fixpoint read_members (room : nat) (members : list member) (failed : bool) : result (list member) :=
  match members with
  | [] => if failed then Err read_error else Ok []
  | m :: members' =>
      match room with
      | O => Err (member_limit MAX_BUNDLE_MEMBERS)
      | S room => l ← read_members room members' failed; Ok (m :: l)
      end
  end.
Definition count_member (total : Z) (m : member) : result Z :=
  if m_sparse m then Err (provision_error ("sparse bundle member is not supported: " +:+ m_name m))
  else Ok (if is_file_member m then total + m_size m else total).
Definition check_members (members : list member) (failed : bool) : result (list member) :=
  members ← read_members (Z.to_nat MAX_BUNDLE_MEMBERS) members failed;
  extracted_bytes ← forR count_member members 0;
  _ ← raise_if (MAX_DECOMPRESSED_BYTES <? extracted_bytes) (total_limit MAX_DECOMPRESSED_BYTES);
  Ok members.

Definition extract_member (destination : path) (m : member) : M () :=
  _ ← lift (validate_bundle_member (m_name m));
  if bool_decide (m_name m = ".") then
    if is_dir_member m then mret tt else raise (provision_error "bundle member '.' must be a directory")
  else
    let target := destination ++ path_parts (m_name m) in
    match m_type m with
    | MDir => _ ← mkdir_parents 511 target; chmod 493 (* 0o755 *) target
    | MOther => raise (provision_error ("unsupported bundle member type: " +:+ m_name m))
    | MFile =>
        if MAX_BUNDLE_MEMBER_BYTES <? m_size m
        then raise (file_limit (py_repr (m_name m)) MAX_BUNDLE_MEMBER_BYTES)
        else
          _ ← mkdir_parents 511 (parent target);
          _ ← write_text target (m_data m);
          chmod 420 (* 0o644 *) target
    end.
Definition extract_members (members : list member) (failed : bool) (destination : path) : M () :=
  members ← lift (check_members members failed);
  iterM (extract_member destination) members.

Section archive.
Context (tar_members : content → list member * bool) (bytes_content : string → content) (json_text : value → Z → string).
Context (GZIP_BIN ZSTD_BIN : string).

Definition _decompress_to_tempfile (command : list string) (source_bytes label : string) : M path :=
  output_path ← named_temporary_file "" (CText "");
  catch
    (r ← catch (run_command_input command source_bytes)
           (λ x, match x with TimeoutExpired _ => true | _ => false end)
           (λ _, raise (provision_error ("timed out decompressing " +:+ label +:+ " bundle")));
     if MAX_DECOMPRESSED_BYTES <? Z.of_nat (slen (stdout r)) then raise (total_limit MAX_DECOMPRESSED_BYTES)
     else
       _ ← write_text output_path (bytes_content (stdout r));
       if returncode r =? 0 then mret output_path
       else
         let detail := strip (stderr r) in
         raise (provision_error ("failed to decompress " +:+ label +:+ " bundle"
                                 +:+ (if bool_decide (detail = "") then "" else ": " +:+ detail))))
    is_Exception
    (λ x, _ ← unlink_missing_ok output_path;
          if is_not_found x
          then raise (provision_error (hd "" command +:+ " is required to import " +:+ label +:+ " bundles"))
          else raise x).

Definition extract_bundle_archive (source_bytes filename : string) (destination : path) : M () :=
  decompressed_path ← match detect_bundle_kind source_bytes filename with
                      | Some kind =>
                          if bool_decide (kind = "tar.gz")
                          then _decompress_to_tempfile [GZIP_BIN; "-dc"] source_bytes ".tar.gz"
                          else _decompress_to_tempfile [ZSTD_BIN; "-dcq"] source_bytes ".tar.zst"
                      | None => raise (provision_error
                          "supported bundle formats are .tar.gz, .tgz, .tar.zst, .tar.zstd, and .tzst")
                      end;
  finally
    (c ← read_content decompressed_path;
     extract_members (tar_members c).1 (tar_members c).2 destination)
    (unlink_missing_ok decompressed_path).

(** ** Source preparation

    The temporary directory, the configuration and the managed files. *)

Definition prepared : Type := option path * path * option path.

Definition new_temporary_directory : M path :=
  name ← ask e_tmp; _ ← mkdir 448 (tmp_dir // name); mret (tmp_dir // name).
Definition prepare_bundle_from_bytes (source_bytes filename : string) : M prepared :=
  bundle_root ← new_temporary_directory;
  _ ← extract_bundle_archive source_bytes filename bundle_root;
  _ ← validate_bundle_layout bundle_root;
  mret (Some bundle_root, bundle_root // "config.toml", Some (bundle_root // "files")).

Definition prepare_source_bytes (source_bytes filename : string) : M prepared :=
  _ ← lift (validate_source_size source_bytes);
  match detect_bundle_kind source_bytes filename with
  | Some _ => prepare_bundle_from_bytes source_bytes filename
  | None =>
      tmpdir ← new_temporary_directory;
      _ ← write_text (tmpdir // "config.toml") (bytes_content source_bytes);
      mret (Some tmpdir, tmpdir // "config.toml", None)
  end.

(** [Path.suffix == ".toml"]: the name ends in it and is more than it. *)
Definition has_toml_suffix (name : string) : bool := endswith name ".toml" && (5 <? slen name)%nat.
Definition file_bytes (c : content) : string :=
  match c with CText s => s | CJson v n => json_text v n | CBin n => unchars (repeat "000"%char (Z.to_nat n)) end.
Definition prepare_source_path (source_path : path) : M prepared :=
  if has_toml_suffix (name_of source_path) then
    st ← stat source_path;
    if MAX_SOURCE_BYTES <? n_size st
    then raise (provision_error ("config upload exceeds " +:+ str_int MAX_SOURCE_BYTES +:+ " byte limit"))
    else mret (None, source_path, None)
  else
    c ← read_content source_path;
    let source_bytes := file_bytes c in
    _ ← lift (validate_source_size source_bytes);
    match detect_bundle_kind source_bytes (name_of source_path) with
    | None => raise (provision_error
        "supported import inputs are config.toml, .tar.gz/.tgz, and .tar.zst/.tar.zstd/.tzst")
    | Some _ => prepare_bundle_from_bytes source_bytes (name_of source_path)
    end.

(** The configuration, the managed files and the temporary directory to clean up. *)
Definition import_bundle_bytes (source_bytes filename : string) (config_root : path) : M (path * option path * option path) :=
  '(tmpdir, config_path, files_path) ← prepare_source_bytes source_bytes filename;
  mret (config_path, files_path, tmpdir).
End archive.

(** ** Export *)

Definition _read_export_file (p : path) (member_name : string) : M content :=
  let not_found := if bool_decide (member_name = "config.toml")
                   then provision_error "current config.toml not found"
                   else provision_error ("managed bundle file not found: " +:+ show_path p) in
  st ← catch (lstat p) is_OSError
         (λ x, raise (if is_not_found x then not_found
                      else provision_error ("cannot inspect managed bundle file: " +:+ show_path p)));
  if negb (is_reg st) then raise (provision_error ("bundle member must be a regular file: " +:+ show_path p))
  else if MAX_BUNDLE_MEMBER_BYTES <? n_size st
  then raise (file_limit (py_repr member_name) MAX_BUNDLE_MEMBER_BYTES)
  else catch (read_content p) is_OSError
         (λ x, raise (if is_not_found x then not_found
                      else provision_error ("cannot read managed bundle file: " +:+ show_path p))).

Definition file_member (name : string) (c : content) : member := Member name MFile false (content_size c) c.
Definition dir_member (name : string) : member := Member name MDir false 0 (CText "").
(** [add_file] and [add_directory]: the members so far. *)
Definition add_member (archive : list member) (m : member) : result (list member) :=
  _ ← validate_bundle_member (m_name m);
  _ ← raise_if (MAX_BUNDLE_MEMBERS <? Z.of_nat (S (length archive))) (member_limit MAX_BUNDLE_MEMBERS);
  _ ← raise_if (is_file_member m && (MAX_BUNDLE_MEMBER_BYTES <? m_size m))
        (file_limit (py_repr (m_name m)) MAX_BUNDLE_MEMBER_BYTES);
  Ok (archive ++ [m]).

(** One path below [files_root], given which directories are not empty. *)
Definition export_entry (files_root : path) (nonempty : list path) (archive : list member) (p : path) : M (list member) :=
  let name := "files/" +:+ join "/" (drop (length files_root) p) in
  st ← lstat p;
  if is_lnk st then raise (provision_error ("bundle files entry must not be a symlink: " +:+ show_path p))
  else if is_dir st then
    if bool_decide (p ∈ nonempty) then mret archive else lift (add_member archive (dir_member name))
  else if is_reg st then c ← _read_export_file p name; lift (add_member archive (file_member name c))
  else raise (provision_error ("bundle files entry must be a regular file: " +:+ show_path p)).

Definition posix_le (p q : path) : Prop := String.le (join "/" p) (join "/" q).
#[export] Instance posix_le_dec : RelDecision posix_le := λ p q, String.le_dec (join "/" p) (join "/" q).

Section export.
Context (tar_size gzip_size : list member → Z).

Definition _build_export_tar (config_bytes : content) (files_root : option path) : M (list member) :=
  archive ← lift (add_member [] (file_member "config.toml" config_bytes));
  archive ← match files_root with
            | None => mret archive
            | Some root =>
                below_root ← rglob root;
                let paths := merge_sort posix_le below_root in
                let nonempty := map parent paths in
                archive ← (if bool_decide (root ∈ nonempty) then mret archive
                           else lift (add_member archive (dir_member "files")));
                forM (export_entry root nonempty) paths archive
            end;
  if MAX_DECOMPRESSED_BYTES <? tar_size archive then raise (total_limit MAX_DECOMPRESSED_BYTES)
  else if MAX_SOURCE_BYTES <? gzip_size archive
  then raise (provision_error ("config bundle export exceeds " +:+ str_int MAX_SOURCE_BYTES +:+ " byte limit"))
  else mret archive.

Definition export_bundle_bytes (config_root : path) : M (list member) :=
  config_bytes ← _read_export_file (config_root // "config.toml") "config.toml";
  if MAX_DECOMPRESSED_BYTES <? content_size config_bytes then raise (total_limit MAX_DECOMPRESSED_BYTES)
  else
    let files_path := config_root // "files" in
    st ← catch (n ← lstat files_path; mret (Some n)) is_OSError
           (λ x, if is_not_found x then mret None
                 else raise (provision_error ("cannot inspect managed bundle files: " +:+ show_path files_path)));
    match st with
    | None => _build_export_tar config_bytes None
    | Some st =>
        if negb (is_dir st)
        then raise (provision_error ("bundle files entry must be a directory: " +:+ show_path files_path))
        else
          with_temporary_directory tmp_dir ".atomixos-export-" (λ temporary,
            _ ← _snapshot_files_source files_path (temporary // "files")
                  (Limits (Some MAX_BUNDLE_MEMBER_BYTES) (Some (MAX_DECOMPRESSED_BYTES - content_size config_bytes))
                     (Some MAX_BUNDLE_MEMBERS));
            _build_export_tar config_bytes (Some (temporary // "files")))
    end.
End export.
