(* ===== verification/BundleFacts.v ===== *)
(** * Extracting a bundle: confinement and limits *)

From Stdlib Require Import Ascii.
From S2P Require Import Prelude PyStr PyVal ConfigCheck FS FSLogic Staging StagedJob StagingFacts Activation Auth Bundle.

Local Open Scope Z_scope.

(** ** How much a subtree holds *)

Section usage.
Context (root : path).

Definition node_usage (x : path) (n : node) : Z := if decide (below root x) then n_size n else 0.
(** The bytes of the files at and below [root]. *)
Definition usage (t : fs) : Z := map_fold (λ x n acc, node_usage x n + acc) 0 t.

Lemma usage_insert_new t p n : t !! p = None → usage (<[p:=n]> t) = node_usage p n + usage t.
Proof. intros Hp. unfold usage. rewrite map_fold_insert_L; [done| |done]. intros. lia. Qed.
Lemma usage_insert t p m n : t !! p = Some m → usage (<[p:=n]> t) = usage t - node_usage p m + node_usage p n.
Proof.
  intros Hp. rewrite <-(insert_id t p m Hp) at 2. rewrite <-!(insert_delete_eq t).
  rewrite !usage_insert_new by apply lookup_delete_eq. lia.
Qed.
(** A change of metadata. *)
Lemma usage_same t p m n : t !! p = Some m → n_kind n = n_kind m → usage (<[p:=n]> t) = usage t.
Proof.
  intros Hp Hk. rewrite (usage_insert _ _ _ _ Hp). unfold node_usage, n_size. rewrite Hk. lia.
Qed.
End usage.

(** ** Names *)

Definition good_name (c : string) : Prop := c ≠ "" ∧ c ≠ "." ∧ c ≠ "..".

Lemma path_parts_good name : ".." ∉ path_parts name → Forall good_name (path_parts name).
Proof.
  intros H. apply Forall_forall. intros c Hc. split_and!.
  1, 2: unfold path_parts in Hc; apply list_elem_of_filter in Hc as [[? ?] _]; done.
  intros ->. done.
Qed.

Lemma below_parent_self p : below (parent p) p.
Proof.
  unfold parent, below. destruct p as [|x p _] using rev_ind; [done|]. rewrite removelast_last. by eexists.
Qed.
Lemma below_antisym p q : below p q → below q p → p = q.
Proof.
  intros [r ->] [r' H]. rewrite <-(assoc_L (++)) in H. assert (r ++ r' = []) as E.
  { apply (app_inv_head p). by rewrite app_nil_r, <-H. }
  apply app_eq_nil in E as [-> _]. by rewrite app_nil_r.
Qed.

(** ** Extraction *)

Section extract.
Context (dest : path) (s0 : fs).

(** What extraction has done to [s0] so far, having written at most [k] bytes. *)
Record extracted (k : Z) (t : fs) : Prop := Extracted {
  ex_outside x : ¬ below dest x → t !! x = s0 !! x;
  ex_above x : below x dest → is_dir_at t x = true;
  ex_inside x n : below dest x → x ≠ dest → t !! x = Some n →
    (is_dir n = true ∨ is_reg n = true) ∧ Forall good_name (drop (length dest) x) ∧ 0 ≤ n_size n;
  ex_usage : usage dest t ≤ k }.

Lemma ex_dest k t : extracted k t → is_dir_at t dest = true.
Proof. intros H. apply H, below_refl. Qed.
Lemma ex_parent k t : extracted k t → is_dir_at t (parent dest) = true.
Proof. intros H. apply H. apply below_parent_self. Qed.
Lemma extracted_mono k k' t : k ≤ k' → extracted k t → extracted k' t.
Proof. intros Hk []. split; try done. lia. Qed.

Lemma dir_at_insert t p n x : is_dir_at t x = true → (p = x → is_dir n = true) → is_dir_at (<[p:=n]> t) x = true.
Proof.
  intros Hx Hp. unfold is_dir_at. destruct (decide (p = x)) as [->|Hne]; [|by rewrite lookup_insert_ne].
  rewrite lookup_insert_eq. auto.
Qed.

Lemma extracted_not_link k t x : extracted k t → below dest x → not_link t x.
Proof.
  intros H Hb n Hn. destruct (decide (x = dest)) as [->|Hne].
  - pose proof (ex_dest _ _ H) as Hd. unfold is_dir_at in Hd. rewrite Hn in Hd. unfold is_lnk, is_dir in *. by destruct (n_kind n).
  - destruct (ex_inside _ _ H x n Hb Hne Hn) as [[Hd|Hd] _]; unfold is_lnk, is_dir, is_reg in *; by destruct (n_kind n).
Qed.

Lemma n_size_dir n : is_dir n = true → n_size n = 0.
Proof. unfold is_dir, n_size. by destruct (n_kind n). Qed.

(** A node put below [dest]: a directory, or a file of at most [b] bytes where there
    is no directory. *)
Lemma extracted_insert k b t p n : extracted k t → below dest p → p ≠ dest → Forall good_name (drop (length dest) p) →
  0 ≤ n_size n ≤ b → (is_dir n = true ∨ is_reg n = true) → (is_dir_at t p = true → is_dir n = true) →
  extracted (k + b) (<[p:=n]> t).
Proof.
  intros H Hb Hne Hg Hn Hk Hd. split.
  - intros x Hx. rewrite lookup_insert_ne by (intros ->; done). by apply H.
  - intros x Hx. apply dir_at_insert; [by apply H|]. intros ->. exfalso. by apply Hne, below_antisym.
  - intros x m Hx Hxd. destruct (decide (p = x)) as [->|Hpx].
    + rewrite lookup_insert_eq. intros [= <-]. split_and!; [done|done|lia].
    + rewrite lookup_insert_ne by done. by apply H.
  - pose proof (ex_usage _ _ H) as Hu. destruct (t !! p) as [m|] eqn:Em.
    + rewrite (usage_insert _ _ _ m) by done. unfold node_usage. rewrite !decide_True by done.
      destruct (ex_inside _ _ H p m Hb Hne Em) as (_ & _ & Hm). lia.
    + rewrite usage_insert_new by done. unfold node_usage. rewrite decide_True by done. lia.
Qed.
Lemma extracted_meta k t p m n : extracted k t → below dest p → t !! p = Some m → n_kind n = n_kind m →
  extracted k (<[p:=n]> t).
Proof.
  intros H Hb Hp Hk. split.
  - intros x Hx. rewrite lookup_insert_ne by (intros ->; done). by apply H.
  - intros x Hx. apply dir_at_insert; [by apply H|]. intros ->. pose proof (ex_above _ _ H x Hx) as Hd.
    unfold is_dir_at in Hd. rewrite Hp in Hd. unfold is_dir in *. by rewrite Hk.
  - intros x y Hx Hxd. destruct (decide (p = x)) as [->|Hpx].
    + rewrite lookup_insert_eq. intros [= <-]. destruct (ex_inside _ _ H x m Hx Hxd Hp) as ([Hd|Hd] & Hg & Hs);
        unfold is_dir, is_reg, n_size in *; rewrite Hk; auto.
    + rewrite lookup_insert_ne by done. by apply H.
  - rewrite (usage_same _ _ _ m) by done. apply H.
Qed.

(** Every step stays within [extracted K]. *)
Context (K : Z).
Local Abbreviation P := (extracted K).

Lemma wp_extract_mkdir mode p k (Q : result () → fs → Prop) t :
  k ≤ K → extracted k t → below dest p → Forall good_name (drop (length dest) p) →
  (∀ u r, extracted k u → (∀ x, r = Err x → is_not_found x = true → p ≠ dest) → Q r u) →
  wp env_ok P (mkdir_exist_ok mode p) Q t.
Proof.
  intros HkK H Hb Hg HQ. unfold mkdir_exist_ok, mkdir. apply wp_catch, wp_bind, wp_ask. intros e n He.
  assert (∀ x (Q' : result () → fs → Prop), is_not_found x = false → (∀ r, (∀ y, r = Err y → is_not_found y = false) → Q' r t) →
    wp env_ok P (d ← is_dir_ p; if d : bool then mret tt else raise x) Q' t) as Hdir.
  { intros x Q' Hx HQ'. apply wp_bind. unfold is_dir_, test, stat. apply wp_catch, wp_bind, wp_rd.
    - intros e' He' m y [Hy Hm]%(eo_rfault e' He'). rewrite Hm. apply HQ'. intros z [= <-]. by destruct y.
    - destruct (stat_at t p) as [m|y] eqn:Es.
      + apply wp_ret. destruct (is_dir m); [by apply wp_ret, HQ'|]. apply wp_raise, HQ'. by intros y [= <-].
      + destruct (is_missing_error y) eqn:Em; [apply wp_ret, wp_raise, HQ'; by intros z [= <-]|].
        apply HQ'. intros z [= <-]. by destruct y. }
  apply wp_wr.
  - intros e' He' m x [Hx Hm]%(eo_wfault e' He'). rewrite Hx.
    assert (is_not_found x = false) as Hnf by by destruct x. rewrite Hnf.
    apply Hdir; [done|]. intros r Hr. apply HQ; [done|]. intros y E Hy. by rewrite (Hr y E) in Hy.
  - unfold mkdir_at. destruct (need_dir t (parent p) "mkdir") as [[]|x] eqn:En; simpl.
    + destruct (t !! p) as [m|] eqn:Ep.
      * simpl. apply Hdir; [done|]. intros r Hr. apply HQ; [done|]. intros y E Hy. by rewrite (Hr y E) in Hy.
      * assert (p ≠ dest) as Hne.
        { intros ->. pose proof (ex_dest _ _ H) as Hd. unfold is_dir_at in Hd. by rewrite Ep in Hd. }
        assert (extracted k (<[p:=Node KDir (e_uid e) (e_gid e) (Z.ldiff mode (e_umask e)) (e_time e n)]> t)) as Hi.
        { replace k with (k + 0) by lia. apply extracted_insert; try done; by left. }
        split; [by eapply extracted_mono|]. by apply HQ.
    + assert (is_not_found x = true → p ≠ dest) as Hx.
      { intros Hx ->. unfold need_dir in En. pose proof (ex_parent _ _ H) as Hd. unfold is_dir_at in Hd.
        destruct (t !! parent dest); [|done]. by rewrite Hd in En. }
      assert (is_OSError x = true) as Ho.
      { unfold need_dir in En. destruct (t !! parent p) as [m|]; [destruct (is_dir m); [done|]; by injection En as <-|].
        injection En as <-. apply missing_OSError. }
      rewrite Ho. destruct (is_not_found x) eqn:Ex; [apply wp_raise, HQ; [done|]; intros y [= <-]; auto|].
      apply Hdir; [done|]. intros r Hr. apply HQ; [done|]. intros y E Hy. by rewrite (Hr y E) in Hy.
Qed.

Lemma below_parent p : below dest p → p ≠ dest → below dest (parent p) ∧ drop (length dest) (parent p) `prefix_of` drop (length dest) p.
Proof.
  intros [r ->] Hne. destruct r as [|y r _] using rev_ind; [by rewrite app_nil_r in Hne|].
  unfold parent. rewrite (assoc_L (++)), removelast_last. split; [by eexists|].
  rewrite <-(assoc_L (++)), !drop_app_length. by eexists.
Qed.

(** A directory that is there. *)
Lemma wp_is_dir_present q (Q : result bool → fs → Prop) t :
  is_dir_at t q = true → Q (Ok true) t → (∀ x, is_not_found x = false → Q (Err x) t) → wp env_ok P (is_dir_ q) Q t.
Proof.
  intros Hq HO HE. unfold is_dir_, test, stat. apply wp_catch, wp_bind, wp_rd.
  - intros e He n x [_ Hm]%(eo_rfault e He). rewrite Hm. apply HE. by destruct x.
  - unfold is_dir_at in Hq. destruct (t !! q) as [m|] eqn:E; [|done].
    rewrite stat_plain by (intros k; rewrite E; intros [= <-]; unfold is_lnk, is_dir in *; by destruct (n_kind m)).
    unfold lstat_at. rewrite E. simpl. apply wp_ret. by rewrite Hq.
Qed.
Lemma wp_mkdir_present mode q (Q : result () → fs → Prop) t :
  is_dir_at t q = true → is_dir_at t (parent q) = true → Q (Ok tt) t → (∀ x, is_not_found x = false → Q (Err x) t) →
  wp env_ok P (mkdir_exist_ok mode q) Q t.
Proof.
  intros Hq Hp HO HE. unfold mkdir_exist_ok, mkdir. apply wp_catch, wp_bind, wp_ask. intros e n _.
  assert (∀ (x : exn) (R : result () → fs → Prop), is_not_found x = false → R (Ok tt) t →
    (∀ y, is_not_found y = false → R (Err y) t) →
    wp env_ok P (d ← is_dir_ q; if d : bool then mret tt else raise x) R t) as Hdir.
  { intros x R Hx RO RE. apply wp_bind, wp_is_dir_present; [done|by apply wp_ret|done]. }
  apply wp_wr.
  - intros e' He' m x [Ho Hm]%(eo_wfault e' He'). rewrite Ho.
    assert (is_not_found x = false) as Hnf by by destruct x. rewrite Hnf. by apply Hdir.
  - unfold mkdir_at, need_dir. unfold is_dir_at in Hp. destruct (t !! parent q); [|done]. rewrite Hp. simpl.
    unfold is_dir_at in Hq, Hdir. destruct (t !! q); [|done]. simpl. by apply Hdir.
Qed.
Lemma wp_mkdir_parents_present mode q (Q : result () → fs → Prop) t :
  is_dir_at t q = true → is_dir_at t (parent q) = true → (∀ r, Q r t) → wp env_ok P (mkdir_parents mode q) Q t.
Proof.
  intros Hq Hp HQ. unfold mkdir_parents. destruct (length q); simpl; apply wp_catch, wp_mkdir_present; try done;
    intros x Hx; by rewrite Hx.
Qed.

Lemma wp_extract_mkdir_parents mode p k (Q : result () → fs → Prop) t :
  k ≤ K → extracted k t → below dest p → Forall good_name (drop (length dest) p) →
  (∀ u r, extracted k u → Q r u) → wp env_ok P (mkdir_parents mode p) Q t.
Proof.
  intros HkK. unfold mkdir_parents. generalize (length p) as fuel. intros fuel. revert mode p Q t.
  induction fuel as [|fuel IH]; intros mode p Q t H Hb Hg HQ; simpl; apply wp_catch;
    (eapply wp_extract_mkdir; [done..|]); intros u [[]|x] Hu Hx; try by apply HQ.
  - destruct (is_not_found x); [by apply wp_raise, HQ|by apply HQ].
  - destruct (is_not_found x) eqn:Ex; [|by apply HQ].
    destruct (below_parent p Hb (Hx x eq_refl Ex)) as [Hb' Hp]. apply wp_bind.
    apply IH; [done|done| |].
    { destruct Hp as [r Hr]. rewrite Hr in Hg. by apply Forall_app in Hg as [? _]. }
    intros v [[]|y] Hv; [|by apply HQ]. eapply wp_extract_mkdir; [done..|]. intros; by apply HQ.
Qed.

Lemma wp_extract_chmod m p k (Q : result () → fs → Prop) t :
  k ≤ K → extracted k t → below dest p → (∀ u r, extracted k u → Q r u) → wp env_ok P (chmod m p) Q t.
Proof.
  intros HkK H Hb HQ. apply wp_wr; [by intros; apply HQ|]. unfold update_real.
  rewrite resolve_plain by (by eapply extracted_not_link). simpl. unfold update_at.
  destruct (t !! p) as [n|] eqn:E; [|by apply HQ].
  assert (extracted k (<[p := set_mode m n]> t)) by (by eapply extracted_meta).
  split; [by eapply extracted_mono|by apply HQ].
Qed.

Lemma wp_extract_write p c k (Q : result () → fs → Prop) t :
  0 ≤ content_size c → k + content_size c ≤ K → extracted k t → below dest p → Forall good_name (drop (length dest) p) →
  (∀ u r, extracted (k + content_size c) u → Q r u) → wp env_ok P (write_text p c) Q t.
Proof.
  intros Hc HkK H Hb Hg HQ. pose proof (extracted_not_link _ _ _ H Hb) as Hl.
  assert (extracted (k + content_size c) t) as H' by (eapply extracted_mono; [|done]; lia).
  assert (is_dir_at t p = false → p ≠ dest) as Hne by (intros Ed ->; rewrite (ex_dest _ _ H) in Ed; done).
  apply wp_write_text_kinds; [done|by intros; apply HQ| |]; intros n Ed Hn.
  - assert (extracted (k + 0) (<[p:=n]> t)) as Hi.
    { apply extracted_insert; try auto; [unfold n_size; rewrite Hn; simpl; lia|right; unfold is_reg; by rewrite Hn|congruence]. }
    split; [eapply extracted_mono; [|exact Hi]; lia|]. intros x. apply HQ. eapply extracted_mono; [|exact Hi]; lia.
  - assert (extracted (k + content_size c) (<[p:=n]> t)) as Hi.
    { apply extracted_insert; try auto; [unfold n_size; rewrite Hn; lia|right; unfold is_reg; by rewrite Hn|congruence]. }
    split; [by eapply extracted_mono|by apply HQ].
Qed.

(** What one member may add. *)
Definition member_bytes (m : member) : Z := if is_file_member m then m_size m else 0.
Definition member_ok (m : member) : Prop := 0 ≤ m_size m ∧ content_size (m_data m) = m_size m.
Lemma member_bytes_nonneg m : member_ok m → 0 ≤ member_bytes m.
Proof. intros [? _]. unfold member_bytes. destruct (is_file_member m); lia. Qed.

Lemma wp_extract_member m k (Q : result () → fs → Prop) t :
  member_ok m → k + member_bytes m ≤ K → extracted k t → (∀ u r, extracted (k + member_bytes m) u → Q r u) →
  wp env_ok P (extract_member dest m) Q t.
Proof.
  intros Hm HK H HQ. pose proof (member_bytes_nonneg _ Hm) as Hb.
  assert (∀ u r, extracted k u → Q r u) as HQ' by (intros u r Hu; apply HQ; eapply extracted_mono; [|done]; lia).
  unfold extract_member. apply wp_bind, wp_lift. unfold validate_bundle_member, raise_if.
  destruct (path_is_absolute (m_name m) || bool_decide (".." ∈ path_parts (m_name m)) || bool_decide (m_name m = "")) eqn:Ev;
    [by apply HQ'|].
  apply orb_false_iff in Ev as [[_ Hdots%bool_decide_eq_false]%orb_false_iff _].
  apply path_parts_good in Hdots. set (target := dest ++ path_parts (m_name m)).
  assert (below dest target) as Hbt by apply below_app.
  assert (Forall good_name (drop (length dest) target)) as Hgt by by unfold target; rewrite drop_app_length.
  destruct (bool_decide (m_name m = ".")).
  { destruct (is_dir_member m); [by apply wp_ret, HQ'|by apply wp_raise, HQ']. }
  destruct (m_type m) eqn:Et; [| |by apply wp_raise, HQ'].
  - apply wp_bind, wp_extract_mkdir_parents with (k := k); [lia|done..|]. intros u [[]|x] Hu; [|by apply HQ'].
    apply wp_extract_chmod with (k := k); [lia|done..].
  - destruct (MAX_BUNDLE_MEMBER_BYTES <? m_size m); [by apply wp_raise, HQ'|].
    assert (member_bytes m = content_size (m_data m)) as Hs.
    { destruct Hm as [_ Hm]. unfold member_bytes, is_file_member. by rewrite Et, Hm. }
    assert (∀ u, extracted k u → wp env_ok P (_ ← write_text target (m_data m); chmod 420 target) Q u) as Hw.
    { intros u Hu. rewrite Hs in *. apply wp_bind, wp_extract_write with (k := k); [lia|lia|done..|].
      intros v [[]|x] Hv; [|by apply HQ]. eapply wp_extract_chmod; [|done..]. lia. }
    apply wp_bind. destruct (decide (target = dest)) as [->|Hne].
    + apply wp_mkdir_parents_present; [by eapply ex_parent| |].
      { apply H. unfold below. etrans; apply below_parent_self. }
      intros [[]|x]; [by apply Hw|by apply HQ'].
    + destruct (below_parent target Hbt Hne) as [Hbp [r Hr]].
      apply wp_extract_mkdir_parents with (k := k); [lia|done|done| |].
      { rewrite Hr in Hgt. by apply Forall_app in Hgt as [? _]. }
      intros u [[]|x] Hu; [by apply Hw|by apply HQ'].
Qed.
End extract.

(** ** The checks made before anything is written *)

Definition file_total (members : list member) : Z := foldr (λ m acc, member_bytes m + acc) 0 members.

Lemma file_total_nonneg members : Forall member_ok members → 0 ≤ file_total members.
Proof. induction 1 as [|m l Hm _ IH]; simpl; [lia|]. pose proof (member_bytes_nonneg m Hm). lia. Qed.

Lemma read_members_Ok room members failed l :
  read_members room members failed = Ok l → l = members ∧ (length members ≤ room)%nat ∧ failed = false.
Proof.
  revert members l. induction room as [|room IH]; intros [|m members] l; simpl; try (destruct failed; [done|]).
  - intros [= <-]. split_and!; [done|lia|done].
  - done.
  - intros [= <-]. split_and!; [done|lia|done].
  - intros (l' & Hl' & [= <-])%bind_Ok. destruct (IH _ _ Hl') as (-> & ? & ->). split_and!; [done|lia|done].
Qed.
Lemma count_members_Ok members a b : forR count_member members a = Ok b → b = a + file_total members.
Proof.
  revert a. induction members as [|m members IH]; intros a; simpl; [intros [= <-]; lia|].
  intros (a' & Ha & ->%IH)%bind_Ok. unfold count_member in Ha. destruct (m_sparse m); [done|]. injection Ha as <-.
  unfold member_bytes. destruct (is_file_member m); lia.
Qed.
Lemma check_members_Ok members failed l : check_members members failed = Ok l →
  l = members ∧ Z.of_nat (length members) ≤ MAX_BUNDLE_MEMBERS ∧ file_total members ≤ MAX_DECOMPRESSED_BYTES ∧ failed = false.
Proof.
  unfold check_members. intros (l' & Hl & H)%bind_Ok. destruct (read_members_Ok _ _ _ _ Hl) as (-> & Hlen & ->).
  apply bind_Ok in H as (total & Ht%count_members_Ok & H). apply bind_Ok in H as ([] & Hr & [= <-]).
  unfold raise_if in Hr. destruct (MAX_DECOMPRESSED_BYTES <? total) eqn:E; [done|]. apply Z.ltb_ge in E.
  split_and!; [done| |lia|done]. unfold MAX_BUNDLE_MEMBERS in *. lia.
Qed.

(** ** Confinement *)

(** A directory with nothing in it, in a tree that holds the directories above it. *)
Definition fresh_dir (dest : path) (s : fs) : Prop :=
  (∀ x, below x dest → is_dir_at s x = true) ∧ ∀ x, below dest x → x ≠ dest → s !! x = None.

Lemma fresh_usage dest s : fresh_dir dest s → usage dest s = 0.
Proof.
  intros [Hd Hn]. unfold usage.
  assert (∀ t : fs, (∀ x n, t !! x = Some n → below dest x → n_size n = 0) → map_fold (λ x n acc, node_usage dest x n + acc) 0 t = 0) as Hz.
  { induction t as [|p n t Hp IH] using map_ind; intros Ht; [done|].
    rewrite map_fold_insert_L; [|intros; lia|done]. rewrite IH.
    - unfold node_usage. destruct (decide (below dest p)); [|done]. rewrite (Ht p n); [done|by rewrite lookup_insert_eq|done].
    - intros x m Hx. apply Ht. rewrite lookup_insert_ne; [done|]. congruence. }
  apply Hz. intros x n Hx Hb. destruct (decide (x = dest)) as [->|Hne]; [|by rewrite Hn in Hx].
  apply n_size_dir. specialize (Hd dest (below_refl dest)). unfold is_dir_at in Hd. by rewrite Hx in Hd.
Qed.
Lemma fresh_extracted dest s : fresh_dir dest s → extracted dest s 0 s.
Proof.
  intros H. split; [done|apply H| |by rewrite fresh_usage]. intros x n Hx Hne E. destruct H as [_ Hn]. by rewrite Hn in E.
Qed.

Lemma wp_extract_members members failed dest s : fresh_dir dest s → Forall member_ok members →
  wp env_ok (extracted dest s MAX_DECOMPRESSED_BYTES) (extract_members members failed dest)
    (λ r t, extracted dest s MAX_DECOMPRESSED_BYTES t ∧
       (r = Ok tt → failed = false ∧ Z.of_nat (length members) ≤ MAX_BUNDLE_MEMBERS)) s.
Proof.
  intros Hs Hm. pose proof (fresh_extracted _ _ Hs) as H0.
  unfold extract_members. apply wp_bind, wp_lift. destruct (check_members members failed) as [l|x] eqn:E.
  2: { split; [|done]. eapply extracted_mono; [|done]. done. }
  apply check_members_Ok in E as (-> & Hlen & Htot & ->).
  apply wp_forM with (I := λ l _ t, Forall member_ok l ∧ extracted dest s (MAX_DECOMPRESSED_BYTES - file_total l) t).
  - split; [done|]. eapply extracted_mono; [|done]. lia.
  - intros m l [] t [Hl Ht]. inversion Hl as [|?? Hm1 Hl']; subst. simpl in Ht.
    pose proof (file_total_nonneg _ Hl') as Hnn.
    eapply wp_extract_member; [done| |done|]; [lia|].
    intros u [[]|y] Hu.
    + split; [done|]. eapply extracted_mono; [|exact Hu]. lia.
    + split; [|done]. eapply extracted_mono; [|exact Hu]. lia.
  - intros [] t [_ Ht]. split; [|done]. eapply extracted_mono; [|exact Ht]. simpl. lia.
Qed.

(** C23 — Extracting an archive into a fresh directory, at any point, crash and failure
    included: nothing outside the directory changes; inside there are only
    directories and regular files, at paths without an empty, dot or dot-dot component; and the files
    hold at most the decompressed limit.  A success means the archive read to its end
    and had no more members than the limit. *)
Theorem extraction_confined members failed dest s e :
  env_ok e → fresh_dir dest s → Forall member_ok members →
  let '(r, w) := run_op (extract_members members failed dest) e s in
  (r = Ok tt → failed = false ∧ Z.of_nat (length members) ≤ MAX_BUNDLE_MEMBERS) ∧
  Forall (λ t,
    (∀ x, ¬ below dest x → t !! x = s !! x) ∧
    (∀ x n, below dest x → x ≠ dest → t !! x = Some n →
       (is_dir n = true ∨ is_reg n = true) ∧ Forall good_name (drop (length dest) x)) ∧
    usage dest t ≤ MAX_DECOMPRESSED_BYTES) (w_fs w :: w_hist w).
Proof.
  intros He Hs Hm. pose proof (wp_run _ _ _ _ _ _ (wp_extract_members members failed dest s Hs Hm) He) as H.
  unfold run_op. destruct (extract_members members failed dest e (World s [] 0)) as [r w].
  destruct H as [[Hw Hr] Hh]. split; [done|]. eapply Forall_impl; [by constructor|].
  intros t [? ? Hin ?]. split_and!; [done| |done]. intros x n Hb Hne Hn. by destruct (Hin x n Hb Hne Hn) as (? & ? & _).
Qed.

Definition sample_archive : list member :=
  [ Member "." MDir false 0 (CText "");
    Member "config.toml" MFile false 11 (CText "version = 2");
    Member "files/www/index.html" MFile false 5 (CText "hello");
    Member "files/empty/" MDir false 0 (CText "") ].
Definition sample_dest : fs := list_to_map [ ([], plain_dir); (["tmp"], plain_dir); (["tmp"; "b"], plain_dir) ].

Lemma extraction_confined_witness :
  (run_op (extract_members sample_archive false ["tmp"; "b"]) sample_env sample_dest).1 = Ok tt ∧
  usage ["tmp"; "b"] (w_fs (run_op (extract_members sample_archive false ["tmp"; "b"]) sample_env sample_dest).2)
    <= MAX_DECOMPRESSED_BYTES.
Proof.
  assert (fresh_dir ["tmp"; "b"] sample_dest) as Hf.
  { split.
    - intros x [r Hr]. destruct x as [|a [|b [|c x]]]; [done|injection Hr as <- _; done|injection Hr as <- <- _; done|done].
    - intros x [r ->] Hne. destruct r; [done|]. apply not_elem_of_list_to_map_1. simpl.
      rewrite !not_elem_of_cons. split_and!; try done. apply not_elem_of_nil. }
  assert (Forall member_ok sample_archive) as Hm by (repeat (constructor; [split; by vm_compute|]); constructor).
  split; [vm_compute; reflexivity|].
  pose proof (extraction_confined sample_archive false ["tmp"; "b"] sample_dest sample_env sample_env_ok Hf Hm) as H.
  destruct (run_op (extract_members sample_archive false ["tmp"; "b"]) sample_env sample_dest) as [r w].
  destruct H as [_ Hh]. inversion Hh as [|?? (_ & _ & Hu)]. exact Hu.
Defined.
