(* ===== verification/BootstrapSecurity.v ===== *)
(** * [bootstrap_security.py]: the browser checks of the first boot

    One definition per function of
    src/scripts/atomixos_provision/src/atomixos_provision/bootstrap_security.py.
    A request is its headers, by their lower-case names. *)

From Stdlib Require Import Ascii.
From S2P Require Import Prelude PyStr IPAddr PyLib PyVal.

Local Open Scope Z_scope.

(** [urlsplit] of any text: leading control characters and spaces are stripped
    and tabs and line breaks removed first.  What [urlparse] adds to it, splitting
    the parameters off the path, is not read. *)
Definition is_c0_or_space (c : ascii) : bool := (ord c <=? 32)%N.
Definition is_tab_or_break (c : ascii) : bool := (ord c =? 9)%N || (ord c =? 10)%N || (ord c =? 13)%N.
Definition clean_url (url : string) : string :=
  unchars (filter (λ c, is_tab_or_break c = false) (chars (lstrip_by is_c0_or_space url))).
Definition urlparse (url : string) : result split_result := urlsplit (clean_url url).

(** [r.port or default] *)
Definition url_port_or (r : split_result) (default : Z) : result Z :=
  let port := snd (url_hostinfo r) in
  if url_port_bad r then Err (ValueError "Port could not be cast to integer value")
  else if bool_decide (port = "") || (dec_value port =? 0) then Ok default
  else Ok (dec_value port).

Record RequestOrigin : Type := MkOrigin { o_scheme : string; o_host : string; o_port : Z }.
#[export] Instance RequestOrigin_eq_dec : EqDecision RequestOrigin.
Proof. solve_decision. Defined.

(** [value.split("]", 1)[0].strip("[]").lower()], or what precedes the last colon. *)
Definition is_bracket (c : ascii) : bool := Ascii.eqb c "[" || Ascii.eqb c "]".
Definition _host_name (value : string) : string :=
  if startswith value "[" then
    let '(before, _, _) := partition_on "]" value in
    lower (rstrip_by is_bracket (lstrip_by is_bracket before))
  else
    let '(before, found, after) := rpartition_on colon value in
    lower (if found : bool then before else after).

Definition _allowed_host (hostname : string) : bool :=
  bool_decide (hostname ∈ ["localhost"; "gateway"; "atomixos"]) || endswith hostname ".local"
  || is_ip_address hostname.

Definition _host_origin (host_header : string) : option RequestOrigin :=
  match urlparse ("//" +:+ host_header) with
  | Ok parsed =>
      if bool_decide (url_hostname parsed = "") then None
      else match url_port_or parsed 80 with
           | Ok port => Some (MkOrigin "http" (lower (url_hostname parsed)) port)
           | Err _ => None
           end
  | Err _ => None
  end.

Definition _header_origin (value : string) : option RequestOrigin :=
  match urlparse value with
  | Ok parsed =>
      if negb (bool_decide (url_scheme parsed ∈ ["http"; "https"])) || bool_decide (url_hostname parsed = "")
      then None
      else
        let default_port := if bool_decide (url_scheme parsed = "https") then 443 else 80 in
        match url_port_or parsed default_port with
        | Ok port => Some (MkOrigin (url_scheme parsed) (lower (url_hostname parsed)) port)
        | Err _ => None
        end
  | Err _ => None
  end.

(** [request.headers.get(name, "")] *)
Definition header (name : string) (headers : dict string) : string := default "" (dget name headers).

Definition check_header (host_origin : RequestOrigin) (headers : dict string) (name : string) : result () :=
  let value := header name headers in
  if bool_decide (value = "") then Ok tt
  else if bool_decide (_header_origin value = Some host_origin) then Ok tt
  else Err (NotAuthorizedException ("bootstrap " +:+ name +:+ " is not allowed")).

Definition enforce_bootstrap_browser_origin (headers : dict string) : result () :=
  match _host_origin (header "host" headers) with
  | Some host_origin =>
      if _allowed_host (o_host host_origin) then
        _ ← check_header host_origin headers "origin";
        check_header host_origin headers "referer"
      else Err (NotAuthorizedException "bootstrap host is not allowed")
  | None => Err (NotAuthorizedException "bootstrap host is not allowed")
  end.

