(* ===== verification/Api.v ===== *)
(** * [domain/config]: the HTTP handlers and the coordinator

    src/scripts/atomixos_provision/src/atomixos_provision/domain/config/
    controller.py, coordinator.py and service.py, without the OpenAPI documents.
    The framework matches a route, decodes the name in its path and the JSON body;
    the handlers are functions of what it passes them.  A job manager is the
    record of what the coordinator calls: it gets the work as data, where the code
    passes a coroutine. *)

From Stdlib Require Import Ascii.
From S2P Require Import Prelude PyStr PyVal FS StagedJob Auth BootstrapSecurity Jobs.

Local Open Scope Z_scope.

(** ** [service.py]: the work of a job *)

Variant job_work : Type :=
  | apply_bytes (body filename : string) (allow_reapply : bool) (on_started : option (string → M ()))
  | stage_bytes (body filename : string) (allow_reapply : bool) (authorization : option authorization)
      (on_started : option (string → M ()))
  | apply_partial (operation : value)
  | stage_partial (operation : value) (request_payload : option string) (authorization : option authorization).

Definition op_put_user (name : string) (payload : dict value) : value :=
  VDict [("op", VStr "put_user"); ("name", VStr name); ("payload", VDict payload)].
Definition op_delete_user (name : string) : value := VDict [("op", VStr "delete_user"); ("name", VStr name)].
Definition op_patch_network (payload : dict value) : value :=
  VDict [("op", VStr "patch_network"); ("payload", VDict payload)].
Definition op_put_resource (table name : string) (payload : dict value) : value :=
  VDict [("op", VStr "put_resource"); ("table", VStr table); ("name", VStr name); ("payload", VDict payload)].
Definition op_delete_resource (table name : string) : value :=
  VDict [("op", VStr "delete_resource"); ("table", VStr table); ("name", VStr name)].

(** ** [coordinator.py] *)

Record SubmissionResult : Type := MkSubmission {
  sr_job : option Job; conflict_message : string; waits_for_privileged_worker : bool }.

(** [is_staged] is [isinstance(_, StagedJobManager)]. *)
Record job_runner : Type := JobRunner {
  is_staged : bool;
  submit_staged : job_work → M (option Job);
  submit_staged_exclusive : job_work → M (option Job);
  submit_direct : job_work → M (option Job) }.

Definition submit_bytes (R : job_runner) (body filename : string) (allow_reapply : bool)
    (authorization : option authorization) (on_started : option (string → M ())) : M SubmissionResult :=
  if is_staged R then
    job ← submit_staged R (stage_bytes body filename allow_reapply authorization on_started);
    mret (MkSubmission job "the provision queue is full" true)
  else
    job ← submit_direct R (apply_bytes body filename allow_reapply on_started);
    mret (MkSubmission job "a provision job is already running" false).

Definition submit_partial (R : job_runner) (operation : value) (request_payload : option string)
    (authorization : option authorization) : M SubmissionResult :=
  if is_staged R then
    job ← submit_staged_exclusive R (stage_partial operation request_payload authorization);
    mret (MkSubmission job "the provision queue is busy" true)
  else
    job ← submit_direct R (apply_partial operation);
    mret (MkSubmission job "a provision job is already running" false).

(** ** [controller.py] *)

Record response : Type := Response { status_code : Z; r_body : dict value; r_location : option string }.

Definition state_value (s : JobState) : string :=
  match s with SUBMITTED => "submitted" | RUNNING => "running" | SUCCEEDED => "succeeded" | FAILED => "failed" end.
Definition conflict_response (message : string) : response := Response 409 [("error", VStr message)] None.
Definition accepted_response (job : Job) : response :=
  let job_url := "/api/jobs/" +:+ Jobs.id job in
  Response 202 [("job_id", VStr (Jobs.id job)); ("state", VStr (state_value (state job))); ("job_url", VStr job_url)]
    (Some job_url).
Definition submission_response (s : SubmissionResult) : response :=
  match sr_job s with
  | None => conflict_response (conflict_message s)
  | Some job => accepted_response job
  end.

Definition _MAX_FILENAME_LEN : nat := 255.
(** [^[\w\-. ]+$] with [match]: a final newline may follow. *)
Definition safe_filename_char (c : ascii) : bool :=
  isalnum c || Ascii.eqb c "_" || Ascii.eqb c "-" || Ascii.eqb c "." || Ascii.eqb c " ".
Definition _SAFE_FILENAME_RE (s : string) : bool :=
  let body := match rev (chars s) with c :: l => if Ascii.eqb c nl_char then l else c :: l | [] => [] end in
  negb (bool_decide (body = [])) && forallb safe_filename_char body.
Definition _sanitize_filename (raw : string) : string :=
  let name := str_take _MAX_FILENAME_LEN (strip raw) in
  if bool_decide (name = "") || negb (_SAFE_FILENAME_RE name) then "config.toml" else name.

(** The scope's entry, as the guard left it. *)
Definition _request_authorization (scope : value) : option authorization :=
  match scope with
  | VDict d =>
      match vget "nonce" d, vget "signature" d, vget "method" d, vget "path" d with
      | VStr nonce, VStr signature, VStr method, VStr path => Some (Authorization nonce signature method path)
      | _, _, _, _ => None
      end
  | _ => None
  end.
Definition authorization_value (a : authorization) : value :=
  VDict [("nonce", VStr (a_nonce a)); ("signature", VStr (a_signature a)); ("method", VStr (a_method a));
         ("path", VStr (a_path a))].

(** The partial handlers. *)
Variant handler : Type :=
  | put_partial_user (name : string) (data : dict value)
  | delete_partial_user (name : string)
  | patch_partial_network (data : dict value)
  | put_container (name : string) (data : dict value)
  | delete_container (name : string)
  | put_container_network (name : string) (data : dict value)
  | delete_container_network (name : string)
  | put_container_volume (name : string) (data : dict value)
  | delete_container_volume (name : string).

(** The method and path of its route; the path ends in the name it takes. *)
Definition route (h : handler) : string * string * option string :=
  match h with
  | put_partial_user name _ => ("PUT", "/api/config/users/", Some name)
  | delete_partial_user name => ("DELETE", "/api/config/users/", Some name)
  | patch_partial_network _ => ("PATCH", "/api/config/network", None)
  | put_container name _ => ("PUT", "/api/config/containers/", Some name)
  | delete_container name => ("DELETE", "/api/config/containers/", Some name)
  | put_container_network name _ => ("PUT", "/api/config/container-networks/", Some name)
  | delete_container_network name => ("DELETE", "/api/config/container-networks/", Some name)
  | put_container_volume name _ => ("PUT", "/api/config/container-volumes/", Some name)
  | delete_container_volume name => ("DELETE", "/api/config/container-volumes/", Some name)
  end.
(** The decoded body it takes; a DELETE takes none. *)
Definition handler_data (h : handler) : dict value :=
  match h with
  | put_partial_user _ data | patch_partial_network data | put_container _ data | put_container_network _ data
  | put_container_volume _ data => data
  | _ => []
  end.
Definition handler_operation (h : handler) : value :=
  match h with
  | put_partial_user name data => op_put_user name data
  | delete_partial_user name => op_delete_user name
  | patch_partial_network data => op_patch_network data
  | put_container name data => op_put_resource "container" name data
  | delete_container name => op_delete_resource "container" name
  | put_container_network name data => op_put_resource "network" name data
  | delete_container_network name => op_delete_resource "network" name
  | put_container_volume name data => op_put_resource "volume" name data
  | delete_container_volume name => op_delete_resource "volume" name
  end.

Definition _submit_partial_operation (R : job_runner) (operation : value) (body : string) (scope : value) : M response :=
  submission ← submit_partial R operation (Some body) (_request_authorization scope);
  mret (submission_response submission).
Definition handle (R : job_runner) (h : handler) (body : string) (scope : value) : M response :=
  _submit_partial_operation R (handler_operation h) body scope.

(** [request.headers.get("x-config-filename", "config.toml")], sanitized. *)
Definition config_filename (headers : dict string) : string :=
  _sanitize_filename (default "config.toml" (dget "x-config-filename" headers)).

Definition submit_config (R : job_runner) (authenticated : bool) (headers : dict string) (body : string)
    (scope : value) : M response :=
  _ ← (if authenticated then mret tt else lift (enforce_bootstrap_browser_origin headers));
  submission ← submit_bytes R body (config_filename headers) authenticated (_request_authorization scope) None;
  mret (submission_response submission).

(** [validate] is [ConfigService.validate_bytes]: the response fields of a valid
    configuration. *)
Definition is_config_error (x : exn) : bool :=
  is_ProvisionError x && match x with ProvisionSystemError _ => false | _ => true end.
Definition validate_config (validate : string → string → M (dict value)) (headers : dict string) (body : string) : M response :=
  catch (result ← validate body (config_filename headers);
         mret (Response 200 (("ok", VBool true) :: result) None))
    is_config_error
    (λ x, mret (Response 400 [("ok", VBool false); ("error", VStr (exn_text x))] None)).
