(* ===== verification/OpenApi.v ===== *)
(** * The documented API: domain/config/controller.py

    The OpenAPI parts of
    src/scripts/atomixos_provision/src/atomixos_provision/domain/config/controller.py:
    the schemas of the request bodies, the documented headers, what
    [ConfigOperation] adds to an operation the framework generated, and the
    guard and the operation of each route. *)

From S2P Require Import Prelude PyStr PyVal ConfigCheck Config PartialConfig FS Jobs Api.

(** ** Schemas *)

Inductive schema : Type :=
  | SString
  | SBinary
  | SBoolean
  | SNullableString
  | SArray (items : schema)
  | SMap
  | SObject (properties : dict schema) (required : option (list string)).

Record RequestBody : Type := MkBody { b_required : bool; b_description : string; b_content : dict schema }.
Record ApiParameter : Type := MkParameter {
  pm_name : string; pm_in : string; pm_required : bool; pm_schema : schema; pm_description : string }.
Record Header : Type := MkHeader { h_schema : schema; h_description : string }.
Record Response : Type := MkResponse { rs_headers : option (dict Header); rs_content : dict schema }.
(** The operation the framework generates. *)
Record Operation : Type := MkOperation {
  operation_id : string;
  parameters : option (list ApiParameter);
  request_body : option RequestBody;
  responses : option (dict Response) }.

Definition _STRING_SCHEMA : schema := SString.
Definition _BINARY_CONFIG_BODY : RequestBody :=
  MkBody true "Raw config.toml or compressed config bundle bytes." [("application/octet-stream", SBinary)].
Definition _object_schema (properties : dict schema) (required : option (list string)) : schema := SObject properties required.
Definition _json_body (s : schema) (description : string) : RequestBody := MkBody true description [("application/json", s)].

Definition _BOOL_SCHEMA : schema := SBoolean.
Definition _ARRAY_SCHEMA : schema := SArray _STRING_SCHEMA.
Definition _OBJECT_MAP_SCHEMA : schema := SMap.
Definition _NULLABLE_STRING_SCHEMA : schema := SNullableString.
Definition _USER_BODY : RequestBody := _json_body
  (_object_schema [("isAdmin", _BOOL_SCHEMA); ("ssh_key", _STRING_SCHEMA); ("shell", _STRING_SCHEMA)] (Some ["isAdmin"; "ssh_key"]))
  "User declaration to merge into config.toml.".
Definition _NETWORK_BODY : RequestBody := _json_body
  (_object_schema
     [("dns_servers", _ARRAY_SCHEMA); ("dns_search_domains", _ARRAY_SCHEMA); ("default_gateway", _NULLABLE_STRING_SCHEMA);
      ("interfaces", _OBJECT_MAP_SCHEMA); ("dnsmasq", _OBJECT_MAP_SCHEMA); ("ntp", _OBJECT_MAP_SCHEMA);
      ("firewall", _OBJECT_MAP_SCHEMA)] None)
  "Network fields to merge into config.toml.".
Definition _CONTAINER_BODY : RequestBody := _json_body
  (_object_schema
     [("privileged", _BOOL_SCHEMA); ("Unit", _OBJECT_MAP_SCHEMA); ("Container", _OBJECT_MAP_SCHEMA);
      ("Install", _OBJECT_MAP_SCHEMA)] (Some ["privileged"; "Container"]))
  "Quadlet container declaration to merge into config.toml.".
Definition _CONTAINER_NETWORK_BODY : RequestBody :=
  _json_body (_object_schema [("Network", _OBJECT_MAP_SCHEMA)] (Some ["Network"])) "Quadlet network declaration to merge into config.toml.".
Definition _CONTAINER_VOLUME_BODY : RequestBody :=
  _json_body (_object_schema [("Volume", _OBJECT_MAP_SCHEMA)] (Some ["Volume"])) "Quadlet volume declaration to merge into config.toml.".

(** ** Headers *)

Definition header_parameter (name : string) (required : bool) (description : string) : ApiParameter :=
  MkParameter name "header" required _STRING_SCHEMA description.
Definition _CONFIG_FILENAME_HEADER : ApiParameter :=
  header_parameter "x-config-filename" false "Original filename used to detect config.toml or supported bundle formats.".
Definition _OPTIONAL_SSH_AUTH_PARAMETERS : list ApiParameter :=
  [ header_parameter "x-atomixos-nonce" false
      "Nonce returned by /api/nonce. Required for provisioned-device re-apply.";
    header_parameter "x-atomixos-signature" false
      "SSH signature over the authenticated request payload. Required for provisioned-device re-apply." ].
Definition _REQUIRED_SSH_AUTH_PARAMETERS : list ApiParameter :=
  [ header_parameter "x-atomixos-nonce" true "Nonce returned by /api/nonce.";
    header_parameter "x-atomixos-signature" true "SSH signature over the authenticated request payload." ].

Definition _REQUIRED_AUTH_OPERATION_IDS : list string :=
  [ "configExport"; "configUsersPut"; "configUsersDelete"; "configNetworkPatch"; "configContainersPut"; "configContainersDelete";
    "configContainerNetworksPut"; "configContainerNetworksDelete"; "configContainerVolumesPut"; "configContainerVolumesDelete";
    "configValidate" ].
Definition _PARTIAL_REQUEST_BODIES : dict RequestBody :=
  [ ("configUsersPut", _USER_BODY); ("configNetworkPatch", _NETWORK_BODY); ("configContainersPut", _CONTAINER_BODY);
    ("configContainerNetworksPut", _CONTAINER_NETWORK_BODY); ("configContainerVolumesPut", _CONTAINER_VOLUME_BODY) ].

(** ** [ConfigOperation.__post_init__] *)

Definition location_header : Header := MkHeader SString "Job status resource URL.".
Definition document_location (responses : option (dict Response)) : option (dict Response) :=
  match responses with
  | Some rs => match dget "202" rs with
               | Some r => Some (dset "202" (MkResponse (Some (dset "Location" location_header (default [] (rs_headers r)))) (rs_content r)) rs)
               | None => Some rs
               end
  | None => None
  end.
(** [l.insert(i, x)] *)
Definition insert_at {A} (i : nat) (x : A) (l : list A) : list A := take i l ++ x :: drop i l.

Definition post_init (o : Operation) : result Operation :=
  let id := operation_id o in
  let before := default [] (parameters o) in
  if bool_decide (id = "configSubmit") then
    Ok (MkOperation id (Some (before ++ _CONFIG_FILENAME_HEADER :: _OPTIONAL_SSH_AUTH_PARAMETERS)) (Some _BINARY_CONFIG_BODY)
          (document_location (responses o)))
  else if bool_decide (id ∈ _REQUIRED_AUTH_OPERATION_IDS) then
    let body := match dget id _PARTIAL_REQUEST_BODIES with Some b => Some b | None => request_body o end in
    rs ← match responses o with
         | Some ((_ :: _) as rs) =>
             if bool_decide (id = "configExport") then
               r ← of_option (dget "200" rs) (KeyError "200");
               Ok (Some (dset "200" (MkResponse (rs_headers r) [("application/gzip", SBinary)]) rs))
             else Ok (Some rs)
         | rs => Ok rs
         end;
    let validate := bool_decide (id = "configValidate") in
    let params := before ++ _REQUIRED_SSH_AUTH_PARAMETERS in
    Ok (MkOperation id
          (Some (if validate then insert_at (length params - 2) _CONFIG_FILENAME_HEADER params else params))
          (if validate then Some _BINARY_CONFIG_BODY else body)
          (document_location rs))
  else Ok o.

(** ** Routes *)

(** The guard of a route: [ssh_auth_guard] or [ssh_auth_required_guard]. *)
Variant guard : Type := SshAuth | SshAuthRequired.

(** The operation id of each partial handler. *)
Definition handler_operation_id (h : handler) : string :=
  match h with
  | put_partial_user _ _ => "configUsersPut"
  | delete_partial_user _ => "configUsersDelete"
  | patch_partial_network _ => "configNetworkPatch"
  | put_container _ _ => "configContainersPut"
  | delete_container _ => "configContainersDelete"
  | put_container_network _ _ => "configContainerNetworksPut"
  | delete_container_network _ => "configContainerNetworksDelete"
  | put_container_volume _ _ => "configContainerVolumesPut"
  | delete_container_volume _ => "configContainerVolumesDelete"
  end.
(** The routes of this file, by operation id, with their guard and success status. *)
Definition config_routes : list (string * guard * Z) :=
  [ ("configSubmit", SshAuth, 202); ("configExport", SshAuthRequired, 200);
    ("configUsersPut", SshAuthRequired, 202); ("configUsersDelete", SshAuthRequired, 202);
    ("configNetworkPatch", SshAuthRequired, 202);
    ("configContainersPut", SshAuthRequired, 202); ("configContainersDelete", SshAuthRequired, 202);
    ("configContainerNetworksPut", SshAuthRequired, 202); ("configContainerNetworksDelete", SshAuthRequired, 202);
    ("configContainerVolumesPut", SshAuthRequired, 202); ("configContainerVolumesDelete", SshAuthRequired, 202);
    ("configValidate", SshAuthRequired, 200) ]%Z.
