(* ===== verification/OpenApiFacts.v ===== *)
(** * The documented API is the one that is served: theorems *)

From S2P Require Import Prelude PyStr PyVal PyDict ConfigCheck Config PartialConfig PartialFacts FS Jobs Api OpenApi.

(** ** Bodies *)

(** The names a body may and must have, by its schema. *)
Definition names_conform (s : schema) (d : dict value) : Prop :=
  match s with
  | SObject properties required =>
      (∀ k, k ∈ dkeys d → k ∈ dkeys properties) ∧ (∀ k, k ∈ default [] required → k ∈ dkeys d)
  | _ => True
  end.
(** A JSON body fits what an operation documents; without a documented body, any fits. *)
Definition body_conforms (body : option RequestBody) (d : dict value) : Prop :=
  match body with
  | Some b => ∀ s, dget "application/json" (b_content b) = Some s → names_conform s d
  | None => True
  end.

(** A document whose tables are tables. *)
Definition table_at (d : dict value) (k : string) : Prop := dget k d = None ∨ ∃ t, dget k d = Some (VDict t).
Record tables_ok (config : dict value) : Prop := TablesOk {
  tk_users : table_at config "users";
  tk_network : table_at config "network";
  tk_containers : table_at config "containers";
  tk_resources : ∀ c table, dget "containers" config = Some (VDict c) → table_at c table }.

Definition handler_name_ok (h : handler) : Prop :=
  match h with
  | put_partial_user name _ | delete_partial_user name => is_ok (validate_username name) = true
  | patch_partial_network _ => True
  | put_container name _ | delete_container name | put_container_network name _ | delete_container_network name
  | put_container_volume name _ | delete_container_volume name => is_ok (validate_name name) = true
  end.

Lemma require_payload_ok (d : dict value) allowed :
  is_ok (_require_payload (VDict d) (Some allowed)) = true ↔ ∀ k, k ∈ dkeys d → k ∈ allowed.
Proof.
  simpl. case_bool_decide as Hx; simpl.
  - split; [|done]. intros _ k Hk. destruct (decide (k ∈ allowed)) as [|Hn]; [done|]. exfalso.
    assert (k ∈ filter (λ k, k ∉ allowed) (dkeys d)) as Hin by (by apply list_elem_of_filter). rewrite Hx in Hin. by apply elem_of_nil in Hin.
  - split; [done|]. intros Hall. exfalso. apply Hx. destruct (filter (λ k, k ∉ allowed) (dkeys d)) as [|k l] eqn:E; [done|].
    assert (k ∈ filter (λ k, k ∉ allowed) (dkeys d)) as Hin by (rewrite E; by left). apply list_elem_of_filter in Hin as [Hn Hk].
    by apply Hall in Hk.
Qed.
Lemma require_payload_same (d : dict value) allowed : is_ok (_require_payload (VDict d) allowed) = true → _require_payload (VDict d) allowed = Ok d.
Proof. destruct allowed as [l|]; [|done]. simpl. by case_bool_decide. Qed.
Lemma require_keys_ok (d : dict value) keys m : is_ok (require_keys d keys m) = true ↔ ∀ k, k ∈ keys → k ∈ dkeys d.
Proof.
  unfold require_keys. induction keys as [|key keys IH]; simpl.
  - split; [|done]. intros _ k Hk. by apply elem_of_nil in Hk.
  - destruct (dmem key d) eqn:E; simpl.
    + rewrite IH. split; [|intros H k Hk; apply H; by right]. intros H k [->|Hk]%elem_of_cons; [by apply dmem_true|by apply H].
    + split; [done|]. intros H. specialize (H key (list_elem_of_here _ _)). apply dmem_true in H. congruence.
Qed.

Lemma is_ok_bind {A B} (r : result A) (f : A → result B) : is_ok (r ≫= f) = true ↔ ∃ a, r = Ok a ∧ is_ok (f a) = true.
Proof. destruct r; simpl; naive_solver. Qed.
Lemma Ok_bind {A B} (a : A) (f : A → result B) : (Ok a ≫= f) = f a.
Proof. done. Qed.
Lemma is_ok_ex {A} (r : result A) : is_ok r = true ↔ ∃ a, r = Ok a.
Proof. destruct r; simpl; naive_solver. Qed.
(** A check before what always succeeds. *)
Lemma is_ok_then {A B} (r : result A) (f : A → result B) : (∀ a, is_ok (f a) = true) → is_ok (r ≫= f) = is_ok r.
Proof. destruct r; simpl; [auto|done]. Qed.

(** [config[table][name] = v] works on a document of tables. *)
Lemma table_edit (d : dict value) k (f : value → result value) :
  table_at d k → (∀ t, is_ok (f (VDict t)) = true) → is_ok (with_default d k (VDict []) f) = true.
Proof.
  intros Hd Hf. unfold with_default.
  assert (∃ t, default (VDict []) (dget k d) = VDict t) as [t ->] by (destruct Hd as [->|[t ->]]; by eexists).
  specialize (Hf t). by destruct (f (VDict t)).
Qed.
Lemma resources_edit config table (f : value → result value) :
  tables_ok config → (∀ t, is_ok (f (VDict t)) = true) → is_ok (with_resources config table f) = true.
Proof.
  intros [_ _ Hc Hr] Hf. unfold with_resources, with_default.
  assert (∃ c, default (VDict []) (dget "containers" config) = VDict c ∧ table_at c table) as (c & -> & Ht).
  { destruct Hc as [Hn|[c Hc]]; [exists []|exists c]; rewrite ?Hn, ?Hc; split; try done; [by left|by apply Hr]. }
  pose proof (table_edit c table f Ht Hf) as Hok. unfold with_default in Hok.
  by destruct (f _).
Qed.

(** The operation a handler sends is read back as that operation. *)
Lemma handler_runs h config : is_ok (apply_operation config (handler_operation h)) = is_ok
  match h with
  | put_partial_user name data => put_user config name (VDict data)
  | delete_partial_user name => delete_user config name
  | patch_partial_network data => patch_network config (VDict data)
  | put_container name data => put_resource config "container" name (VDict data)
  | delete_container name => delete_resource config "container" name
  | put_container_network name data => put_resource config "network" name (VDict data)
  | delete_container_network name => delete_resource config "network" name
  | put_container_volume name data => put_resource config "volume" name (VDict data)
  | delete_container_volume name => delete_resource config "volume" name
  end.
Proof. by destruct h. Qed.

Lemma put_resource_ok config table name (data : dict value) allowed keys :
  tables_ok config → is_ok (validate_name name) = true →
  check_resource table data = (_ ← _require_payload (VDict data) (Some allowed); require_keys data keys (table +:+ " payload missing required key: ")) →
  is_ok (put_resource config table name (VDict data)) = true ↔ (∀ k, k ∈ dkeys data → k ∈ allowed) ∧ (∀ k, k ∈ keys → k ∈ dkeys data).
Proof.
  intros Hc Hn Hcheck. unfold put_resource. destruct (validate_name name); [|done].
  change (_require_payload (VDict data) None) with (Ok data). simpl mbind. rewrite is_ok_then by (intros; by apply resources_edit).
  rewrite Hcheck, is_ok_bind. rewrite <-(require_payload_ok data allowed), <-(require_keys_ok data keys (table +:+ " payload missing required key: ")).
  destruct (_require_payload (VDict data) (Some allowed)); simpl; naive_solver.
Qed.
Lemma delete_resource_ok config table name : tables_ok config → is_ok (validate_name name) = true →
  is_ok (delete_resource config table name) = true.
Proof. intros Hc Hn. unfold delete_resource. destruct (validate_name name); [|done]. simpl. by apply resources_edit. Qed.

Lemma conforms_object description properties required (d : dict value) :
  body_conforms (Some (_json_body (_object_schema properties required) description)) d ↔
  (∀ k, k ∈ dkeys d → k ∈ dkeys properties) ∧ (∀ k, k ∈ default [] required → k ∈ dkeys d).
Proof. unfold body_conforms, _json_body. simpl. split; [intros H; by apply (H _ eq_refl)|by intros H s [= <-]]. Qed.

(** C24 — What the API documents is what it takes: for each partial route, on a document whose tables are
    tables and for a valid name, the operation the handler sends is accepted exactly when the body's
    fields are the documented ones, with every documented required field. *)
Theorem documented_bodies_accepted (h : handler) (config : dict value) (base o : Operation) :
  operation_id base = handler_operation_id h → request_body base = None → post_init base = Ok o →
  tables_ok config → handler_name_ok h →
  is_ok (apply_operation config (handler_operation h)) = true ↔ body_conforms (request_body o) (handler_data h).
Proof.
  intros Hid Hb Ho Hc Hn. rewrite handler_runs.
  assert (request_body o = dget (handler_operation_id h) _PARTIAL_REQUEST_BODIES) as ->.
  { unfold post_init in Ho. rewrite Hid, Hb in Ho. by destruct h; simpl in *; destruct (responses base) as [[|? ?]|]; injection Ho as <-. }
  destruct h as [name data|name|data|name data|name|name data|name|name data|name]; simpl handler_name_ok in Hn; simpl handler_data.
  - change (dget _ _) with (Some _USER_BODY). unfold _USER_BODY. rewrite conforms_object.
    unfold put_user. destruct (validate_username name) as [u|]; [|done]. rewrite Ok_bind.
    rewrite is_ok_bind. split.
    + intros (user & Hu & (? & Hk & _)%is_ok_bind). assert (is_ok (_require_payload (VDict data) (Some ["isAdmin"; "ssh_key"; "shell"])) = true) as Hp by by rewrite Hu.
      rewrite require_payload_same in Hu by done. injection Hu as <-.
      split; [by apply require_payload_ok|]. apply (require_keys_ok data _ "user payload missing required key: "). simpl default. by rewrite Hk.
    + intros [Ha Hr]. exists data. apply require_payload_ok in Ha.
      split; [by apply require_payload_same|]. apply is_ok_bind. apply (require_keys_ok data _ "user payload missing required key: "), is_ok_ex in Hr as [v Hr].
      exists v. split; [exact Hr|].
      apply table_edit; [apply Hc|done].
  - simpl. unfold delete_user. destruct (validate_username name); [|done]. split; [done|]. intros _. apply table_edit; [apply Hc|done].
  - change (dget _ _) with (Some _NETWORK_BODY). unfold _NETWORK_BODY. rewrite conforms_object.
    unfold patch_network. rewrite is_ok_then, require_payload_ok.
    + split; [|by intros [? _]]. intros H. split; [done|]. intros k Hk. by apply elem_of_nil in Hk.
    + intros network. apply table_edit; [apply Hc|done].
  - change (dget _ _) with (Some _CONTAINER_BODY). unfold _CONTAINER_BODY. rewrite conforms_object. by apply put_resource_ok.
  - split; [done|]. intros _. by apply delete_resource_ok.
  - change (dget _ _) with (Some _CONTAINER_NETWORK_BODY). unfold _CONTAINER_NETWORK_BODY. rewrite conforms_object. by apply put_resource_ok.
  - split; [done|]. intros _. by apply delete_resource_ok.
  - change (dget _ _) with (Some _CONTAINER_VOLUME_BODY). unfold _CONTAINER_VOLUME_BODY. rewrite conforms_object. by apply put_resource_ok.
  - split; [done|]. intros _. by apply delete_resource_ok.
Qed.

Definition sample_operation (id : string) : Operation := MkOperation id None None (Some [("202", MkResponse None [])]).
Lemma documented_bodies_accepted_witness :
  is_ok (apply_operation [] (handler_operation (put_container "web" [("Container", VDict [])]))) = true ↔
  body_conforms (Some _CONTAINER_BODY) [("Container", VDict [])].
Proof.
  destruct (post_init (sample_operation "configContainersPut")) as [o|x] eqn:E; [|vm_compute in E; discriminate].
  assert (request_body o = Some _CONTAINER_BODY) as <- by (vm_compute in E; injection E as <-; reflexivity).
  apply (documented_bodies_accepted (put_container "web" [("Container", VDict [])]) [] (sample_operation "configContainersPut") o).
  - reflexivity.
  - reflexivity.
  - exact E.
  - split; [by left|by left|by left|]. intros c table H. discriminate H.
  - vm_compute. reflexivity.
Defined.

(** ** Headers *)

Definition guard_parameters (g : guard) : list ApiParameter :=
  match g with SshAuth => _OPTIONAL_SSH_AUTH_PARAMETERS | SshAuthRequired => _REQUIRED_SSH_AUTH_PARAMETERS end.

Lemma insert_at_elem {A} i (x y : A) l : y ∈ insert_at i x l ↔ y = x ∨ y ∈ l.
Proof.
  unfold insert_at. rewrite elem_of_app, elem_of_cons. assert (y ∈ l ↔ y ∈ take i l ∨ y ∈ drop i l) as ->; [|tauto].
  by rewrite <-elem_of_app, take_drop.
Qed.
Lemma located rs r : dget "202" rs = Some r → ∃ rs' r' hs, document_location (Some rs) = Some rs' ∧ dget "202" rs' = Some r' ∧
  rs_headers r' = Some hs ∧ dget "Location" hs = Some location_header.
Proof.
  intros Hr. unfold document_location. rewrite Hr. eexists _, _, _. split; [done|]. rewrite dget_dset_eq. split; [done|].
  split; [done|]. apply dget_dset_eq.
Qed.

(** The headers the documents name are those the guards ask for: the nonce and the signature, required where
    the guard requires a signature; an accepted job's location is documented; nothing the framework
    generated is dropped. *)
Lemma documented_headers id g status (base o : Operation) :
  (id, g, status) ∈ config_routes → operation_id base = id → post_init base = Ok o →
  ∃ ps, parameters o = Some ps ∧ (∀ p, p ∈ default [] (parameters base) ++ guard_parameters g → p ∈ ps) ∧
    (status = 202%Z → ∀ rs r, responses base = Some rs → dget "202" rs = Some r →
       ∃ rs' r' hs, responses o = Some rs' ∧ dget "202" rs' = Some r' ∧ rs_headers r' = Some hs ∧
         dget "Location" hs = Some location_header).
Proof.
  intros Hin Hid Ho. unfold post_init in Ho. rewrite Hid in Ho. generalize dependent (default [] (parameters base)). intros before Ho.
  repeat (apply elem_of_cons in Hin as [[= -> -> ->]|Hin]); try (by apply elem_of_nil in Hin); simpl in Ho;
    try (apply bind_Ok in Ho as (rs & Hrs & Ho)); injection Ho as <-; eexists; (split; [reflexivity|split]); simpl.
  all: try (intros p; rewrite ?insert_at_elem, ?elem_of_app, ?elem_of_cons, ?elem_of_app; naive_solver).
  all: try done.
  1: intros _ rs r Hb Hr; rewrite Hb; by apply (located rs r).
  all: intros _ rs0 r Hb Hr; rewrite Hb in Hrs; destruct rs0 as [|x rs0]; [done|]; injection Hrs as <-; by apply (located (x :: rs0) r).
Qed.
