(* ===== verification/Authorize.v ===== *)
(** * [provision.py]: what the privileged worker accepts

    The first part of src/scripts/atomixos_provision/src/atomixos_provision/
    provision.py: the checks on the configuration root, the fields of a staged
    manifest, the worker's own authorization of a staged request, and the
    operation a signed request stands for.  SHA-256, the bytes of a file and the
    decoding of a JSON text are parameters. *)

From Stdlib Require Import Ascii.
From S2P Require Import Prelude PyStr PyVal ConfigCheck FS Staging StagedJob Activation ApplyTransaction Auth Api.

Local Open Scope Z_scope.

Definition data_config_root : path := ["data"; "config"].

(** ** The configuration root

    [real] is the resolved path; the environment variables are arguments. *)

Definition unsafe_root (p : path) : exn := provision_error ("unsafe config root: " +:+ show_path p).
Definition validate_config_root (allow_unsafe : bool) (config_root : path) (allow_unsafe_env : bool) : M path :=
  resolved ← resolve_path config_root;
  if bool_decide (resolved = []) then raise (unsafe_root config_root)
  else
    ex ← exists_ config_root;
    link ← (if ex : bool then catch (n ← lstat config_root; mret (is_lnk n)) is_missing_error (λ _, mret false) else mret false);
    if link : bool then raise (provision_error ("config root must not be a symlink: " +:+ show_path config_root))
    else if allow_unsafe_env && allow_unsafe then mret resolved
    else if negb (bool_decide (resolved = data_config_root)) then raise (provision_error "config root must be /data/config")
    else mret resolved.

Definition require_worker_for_data_config (worker_active : bool) (config_root : path) (operation : string) : M () :=
  resolved ← resolve_path config_root;
  if bool_decide (resolved = data_config_root) && negb worker_active
  then raise (provision_error (operation +:+ " for /data/config requires privileged worker context")) else mret tt.

(** ** Manifests *)

Definition _manifest_nonnegative_int (manifest : dict value) (key : string) : result Z :=
  of_option (nonneg_int (vget key manifest))
    (provision_error ("staged manifest " +:+ key +:+ " must be a non-negative integer")).
Definition _manifest_bool (manifest : dict value) (key : string) (dflt : bool) : result bool :=
  match vget_or key (VBool dflt) manifest with
  | VBool b => Ok b
  | _ => Err (provision_error ("staged manifest " +:+ key +:+ " must be a boolean"))
  end.
Definition _operation_type_for_manifest (is_reapply : bool) (operation : string) : string :=
  if negb (bool_decide (operation = "full-apply")) then operation
  else if is_reapply then "re-apply" else "initial-apply".

Definition forwarding_url_of (lan_settings : value) : value :=
  match lan_settings with
  | VDict d => match vget "gateway_ip" d with
               | VStr ip => if bool_decide (ip = "") then VNone else VStr ("http://" +:+ ip +:+ ":8080")
               | _ => VNone
               end
  | _ => VNone
  end.
Definition provisioning_forwarding_url (parsed : dict value) : value := forwarding_url_of (vget "lan_settings" parsed).

(** [list(v)] *)
Definition list_of (v : value) : result (list value) := iter_value v.
Definition _staged_success_result (manifest : dict value) (is_reapply : bool) : result (dict value) :=
  warnings ← list_of (vget_or "warnings" (VList []) manifest);
  Ok ([("warnings", VList warnings); ("reapply", VBool is_reapply);
       ("forwarding_url", match vget "forwarding_url" manifest with VStr s => VStr s | _ => VNone end)]
      ++ if is_reapply then [("rolled_back", VBool false)] else []).

Definition _claimed_job_is_locally_trusted (job : ClaimedJob) (paths : RuntimePaths) : M bool :=
  st ← catch (lstat (cj_path job)) is_OSError
         (λ _, raise (provision_error ("cannot inspect claimed staged job: " +:+ show_path (cj_path job))));
  euid ← ask (λ e _, e_uid e);
  mret (if is_default_root paths then n_uid st =? 0 else n_uid st =? euid).

(** ** Authorization *)

Section worker.
Context (sha256_text : string → string) (json_text : value → Z → string).
Context (file_bytes : content → string) (json_decode : string → result value).
Context (ssh_keygen boot_id : string).

Definition _read_staged_request (snapshot : path) (manifest : dict value) : M (option string) :=
  match vget "request" manifest with
  | VNone => mret None
  | VDict _ => c ← read_content (snapshot // "request.bin"); mret (Some (file_bytes c))
  | _ => raise (provision_error "staged request metadata must be an object")
  end.

Definition authorization_of (manifest : dict value) : value :=
  match vget "request" manifest with VDict r => vget "authorization" r | _ => VNone end.
(** The four fields, when all of them are strings. *)
Definition normalized_authorization (fields : dict value) : option Auth.authorization :=
  match vget "nonce" fields, vget "signature" fields, vget "method" fields, vget "path" fields with
  | VStr nonce, VStr signature, VStr method, VStr path => Some (Authorization nonce signature method path)
  | _, _, _, _ => None
  end.

Definition check_signature (a : authorization) (payload : string) (allowed_path : path) : M () :=
  match b64decode (a_signature a) with
  | Err _ => raise (provision_error "staged authorization signature encoding is invalid")
  | Ok signature =>
      let message := reapply_signature_message sha256_text (a_nonce a) (a_method a) (a_path a) payload in
      valid ← verify_ssh_signature ssh_keygen message signature allowed_path;
      if valid : bool then mret tt else raise (provision_error "staged request signature verification failed")
  end.

(** Request bytes, and the authorization that was verified and whose nonce was
    consumed. *)
Definition _verify_staged_authorization (snapshot config_root : path) (manifest : dict value) (paths : RuntimePaths)
    (locally_trusted : bool) : M (option string * option Auth.authorization) :=
  request_payload ← _read_staged_request snapshot manifest;
  let authorization := authorization_of manifest in
  is_reapply ← is_provisioned_config_root config_root;
  if negb is_reapply then
    if is_none authorization then mret (request_payload, None)
    else raise (provision_error "initial provisioning must not carry re-apply authorization")
  else if locally_trusted then mret (request_payload, None)
  else
    match request_payload, authorization with
    | Some payload, VDict fields =>
        match normalized_authorization fields with
        | None => raise (provision_error "staged authorization metadata is invalid")
        | Some normalized =>
            allowed ← build_allowed_signers json_text config_root;
            match allowed with
            | None => raise (provision_error "re-apply authorization has no active admin signers")
            | Some allowed_path =>
                _ ← finally (check_signature normalized payload allowed_path) (unlink_missing_ok allowed_path);
                _ ← consume_authorization_nonce sha256_text boot_id paths (a_nonce normalized);
                mret (Some payload, Some normalized)
            end
        end
    | _, _ => raise (provision_error "re-apply requires worker-verifiable authorization")
    end.

(** ** Operations *)

(** [bytes.strip] *)
Definition is_ascii_space (c : ascii) : bool := between 9 13 c || (ord c =? 32)%N.
Definition bytes_strip (s : string) : string := rstrip_by is_ascii_space (lstrip_by is_ascii_space s).

(** [urllib.parse.unquote]: percent escapes are bytes of a UTF-8 text.  Characters
    outside Latin-1, and undecodable bytes, are written as [replacement]. *)
Definition replacement : ascii := "?".
(** The characters of a run of escaped bytes. *)
Fixpoint utf8_go (skip : nat) (l : list ascii) : list ascii :=
  match l with
  | [] => []
  | b :: l' =>
      match skip with
      | S k => utf8_go k l'
      | O =>
          if (ord b <? 128)%N then b :: utf8_go 0 l'
          else match l' with
               | c :: _ =>
                   if between 194 195 b && between 128 191 c
                   then ascii_of_N ((ord b - 192) * 64 + (ord c - 128)) :: utf8_go 1 l'
                   else replacement :: utf8_go 0 l'
               | [] => [replacement]
               end
      end
  end.
(** Reading on: [run] holds the escaped bytes read last, in reverse. *)
Definition flush (run : list ascii) : list ascii := utf8_go 0 (rev run).
Fixpoint unquote_go (skip : nat) (run l : list ascii) : list ascii :=
  match l with
  | [] => flush run
  | c :: l' =>
      match skip with
      | S k => unquote_go k run l'
      | O =>
          match (if Ascii.eqb c "%" then l' else []) with
          | h1 :: h2 :: _ =>
              if is_hex h1 && is_hex h2
              then unquote_go 2 (ascii_of_N (Z.to_N (hex_value (unchars [h1; h2]))) :: run) l'
              else flush run ++ c :: unquote_go 0 [] l'
          | _ => flush run ++ c :: unquote_go 0 [] l'
          end
      end
  end.
Definition unquote (s : string) : string := unchars (unquote_go 0 [] (chars s)).

Variant resource_kind : Type := User | Resource (table : string).
Definition prefixes : list (string * resource_kind) :=
  [("/api/config/users/", User); ("/api/config/containers/", Resource "container");
   ("/api/config/container-networks/", Resource "network"); ("/api/config/container-volumes/", Resource "volume")].

Definition named_operation (method name : string) (kind : resource_kind) (body : dict value) : option value :=
  if bool_decide (method = "PUT") then
    Some (match kind with User => op_put_user name body | Resource table => op_put_resource table name body end)
  else if bool_decide (method = "DELETE") && bool_decide (body = []) then
    Some (match kind with User => op_delete_user name | Resource table => op_delete_resource table name end)
  else None.

(** [path.removeprefix(prefix)] of a path that has it. *)
Definition removeprefix (s p : string) : string := str_drop (slen p) s.

Definition is_decode_error (x : exn) : bool := match x with UnicodeDecodeError _ | ValueError _ => true | _ => false end.
Definition body_of (payload : string) : result (dict value) :=
  let bad := provision_error "signed partial request body must be a JSON object" in
  if bool_decide (bytes_strip payload = "") then Ok []
  else
    v ← try_except (json_decode payload) is_decode_error (λ _, Err bad);
    match v with VDict d => Ok d | _ => Err bad end.

(** [None] is POST /api/config: the body is a whole configuration. *)
Definition _request_operation (a : authorization) (payload : string) : result (option value) :=
  let method := a_method a in
  let path := a_path a in
  if bool_decide (method = "POST") && bool_decide (path = "/api/config") then Ok None
  else
    body ← body_of payload;
    let unsupported := provision_error "signed request does not map to a supported provisioning operation" in
    if bool_decide (method = "PATCH") && bool_decide (path = "/api/config/network") then Ok (Some (op_patch_network body))
    else
      match List.find (λ pk, startswith path pk.1) prefixes with
      | None => Err unsupported
      | Some (prefix, kind) =>
          let name := unquote (removeprefix path prefix) in
          if bool_decide (name = "") || has_char "/" name then Err unsupported
          else match named_operation method name kind body with
               | Some op => Ok (Some op)
               | None => Err unsupported
               end
      end.
End worker.
