(* ===== verification/Render.v ===== *)
(** * [provision.py]: writing a configuration root

    The part of src/scripts/atomixos_provision/src/atomixos_provision/provision.py
    that renders an accepted configuration into the files of a configuration root,
    and gives the service read access to it.  Progress reports are left out. *)

From Stdlib Require Import Ascii.
From S2P Require Import Prelude PyStr PyVal ConfigCheck Config ConfigValue PartialConfig FS Staging StagedJob Activation ApplyTransaction Auth Quadlet Bundle.

Local Open Scope Z_scope.

Definition FIREWALL_INBOUND_FILENAME : string := "firewall-inbound.json".
Definition LAN_SETTINGS_FILENAME : string := "lan-settings.json".
Definition HOST_NETWORK_FILENAME : string := "host-network.json".
Definition ACTIVATION_POLICY_FILENAME : string := "activation-policy.json".
Definition OS_UPGRADE_FILENAME : string := "os-upgrade.json".
Definition HEALTH_REQUIRED_FILENAME : string := "health-required.json".
Definition RUNTIME_METADATA_FILENAME : string := "quadlet-runtime.json".

(** ** Unit modes *)

Definition get_method (v : value) (key : string) : result value :=
  match v with VDict d => Ok (vget key d) | _ => Err (no_attribute v "get") end.
(** [raw_sections.get("privileged") is True] *)
Definition container_mode (privileged : value) : string := if is_true privileged then "rootful" else "rootless".

(** A value, or the first element when it is a list. *)
Definition first_of (v : value) : value := match v with VList [] => VNone | VList (x :: _) => x | _ => v end.

(** The images of the containers: their name and the mode that uses them. *)
Definition container_image (raw_sections : value) : result (list (string * string)) :=
  container ← get_method raw_sections "Container";
  match container with
  | VDict c =>
      match first_of (vget "Image" c) with
      | VStr image => privileged ← get_method raw_sections "privileged"; Ok [(strip image, container_mode privileged)]
      | _ => Ok []
      end
  | _ => Ok []
  end.
Definition modes_of (uses : list (string * string)) (name : string) : list string :=
  filter (λ mode, (name, mode) ∈ uses) ["rootful"; "rootless"].

Definition build_tag (raw_sections : value) : option string :=
  match raw_sections with
  | VDict sections =>
      match vget "Build" sections with
      | VDict build => match first_of (vget "ImageTag" build) with VStr t => Some (strip t) | _ => None end
      | _ => None
      end
  | _ => None
  end.
Definition table_items (v : value) : result (dict value) :=
  match v with VDict d => Ok d | _ => Err (no_attribute v "items") end.

Definition build_entry (images : list (string * string)) (kv : string * value) : option (string * list string) :=
  match build_tag kv.2 with
  | Some tag => match modes_of images tag with [] => None | modes => Some (kv.1, modes) end
  | None => None
  end.
Definition build_entries (images : list (string * string)) (builds : dict value) : dict (list string) :=
  omap (build_entry images) builds.
Definition infer_build_modes (container_table : dict value) (build_table : value) : result (dict (list string)) :=
  if negb (truthy build_table) then Ok []
  else
    images ← mapR (λ kv : string * value, container_image kv.2) container_table;
    builds ← table_items build_table;
    Ok (build_entries (concat images) builds).

(** The named volumes a container mounts. *)
Definition volume_uses (names : list string) (raw_sections : value) : result (list (string * string)) :=
  container ← get_method raw_sections "Container";
  match container with
  | VDict c =>
      let values := match vget_or "Volume" (VList []) c with VList l => l | v => [v] end in
      privileged ← get_method raw_sections "privileged";
      Ok (omap (λ v, match v with
                     | VStr s => let '(source, separator, _) := partition_on ":" s in
                                 if separator && bool_decide (source ∈ names)
                                 then Some (source, container_mode privileged) else None
                     | _ => None
                     end) values)
  | _ => Ok []
  end.
(** [set(v)]: only its strings matter. *)
Definition set_of (v : value) : result (list string) :=
  l ← iter_value v; l ← mapR hashable l; Ok (strings_of l).
Definition volume_entry (uses : list (string * string)) (name : string) : option (string * list string) :=
  match modes_of uses name with [] => None | modes => Some (name, modes) end.
Definition volume_entries (uses : list (string * string)) (names : list string) : dict (list string) :=
  omap (volume_entry uses) names.
Definition infer_volume_modes (container_table : dict value) (volume_table : value) : result (dict (list string)) :=
  if negb (truthy volume_table) then Ok []
  else
    names ← set_of volume_table;
    uses ← mapR (λ kv : string * value, volume_uses names kv.2) container_table;
    Ok (volume_entries (concat uses) names).

Definition unit_field (key : string) (u : dict value) : string := str_of (vget key u).
Definition service_collision (previous filename service mode : string) : exn :=
  provision_error ("quadlet service name collision: " +:+ previous +:+ " and " +:+ filename
                   +:+ " both render " +:+ service +:+ " (" +:+ mode +:+ ")").
(** The units seen so far, last first. *)
Definition see_unit (seen : list (string * string * string)) (u : dict value) : result (list (string * string * string)) :=
  let service := unit_field "service" u in
  let mode := unit_field "mode" u in
  let filename := unit_field "filename" u in
  match List.find (λ x, bool_decide (x.1 = (mode, service))) seen with
  | Some (_, _, previous) => Err (service_collision previous filename service mode)
  | None => Ok ((mode, service, filename) :: seen)
  end.
Definition validate_unique_runtime_services (units : list (dict value)) : result () :=
  _ ← forR see_unit units []; Ok tt.

(** ** Rendering the containers *)

(** [if table: ...] *)
Definition render_optional (table : value) (render : dict value → result (dict string * list (dict value)))
    : result (dict string * list (dict value)) :=
  if truthy table then d ← table_items table; render d else Ok ([], []).

Definition dict_merge {A} (d d' : dict A) : dict A := fold_left (λ acc kv, dset kv.1 kv.2 acc) d' d.

(** The unit files, the runtime units and the warnings. *)
Definition render_units (cwd : string) (containers : container_tables) (config_root : string) : result rendering :=
  let container_table := ct_container containers in
  c ← (if bool_decide (container_table = []) then Ok ([], [], []) else render_containers cwd container_table config_root);
  n ← render_optional (ct_network containers) (λ t, render_networks t config_root);
  v ← render_optional (ct_volume containers)
        (λ t, modes ← infer_volume_modes container_table (ct_volume containers); render_volumes t config_root modes);
  b ← render_optional (ct_build containers)
        (λ t, modes ← infer_build_modes container_table (ct_build containers); render_builds t config_root modes);
  let units := c.1.2 ++ n.2 ++ v.2 ++ b.2 in
  _ ← validate_unique_runtime_services units;
  Ok (dict_merge (dict_merge (dict_merge (dict_merge [] c.1.1) n.1) v.1) b.1, units, c.2).

(** ** The libraries and the identities of the machine *)

Record platform : Type := Platform {
  defaults : lan_defaults;
  check_schema : value → option string;
  best_match_error : value → value → value → option schema_error;
  toml_of : content → toml_text;
  schema_candidates : list path;
  cwd : string;
  service_identity : option (Z * Z);
  managed_identity : option (Z * Z) }.

Section render.
Context (sys : platform).

Definition is_json_error (x : exn) : bool := match x with ValueError _ => true | _ => false end.
Definition load_config_schema : M value :=
  r ← forM (λ found candidate,
        match found with
        | Some schema => mret (Some schema)
        | None =>
            f ← is_file_ candidate;
            if f : bool then
              c ← read_content candidate;
              schema ← lift (try_except (json_loads c) is_json_error
                (λ x, Err (ProvisionSystemError ("invalid config schema in " +:+ show_path candidate +:+ ": " +:+ exn_text x))));
              mret (Some schema)
            else mret None
        end) (schema_candidates sys) None;
  match r with
  | Some schema => mret schema
  | None => raise (ProvisionSystemError ("unable to find config schema (checked: "
                     +:+ comma_join (map show_path (schema_candidates sys)) +:+ ")"))
  end.

(** [load_config] of a file. *)
Definition load_config_file (config_path : path) : M config :=
  c ← read_content config_path;
  schema ← match toml_of sys c with Toml _ => load_config_schema | _ => mret VNone end;
  lift (load_config (defaults sys) (check_schema sys) (best_match_error sys) (show_path config_path) (toml_of sys c) schema).
Definition load_current_config_file (config_root : path) : M (dict value) :=
  f ← is_file_ (config_root // "config.toml");
  if f : bool then c ← read_content (config_root // "config.toml"); lift (load_current_config (Some (toml_of sys c)))
  else lift (load_current_config None).

(** ** Access of the service *)

Definition _first_config_marker_path (config_root : path) : path := config_root // FIRST_CONFIG_MARKER.
Definition _has_first_config_marker (config_root : path) : M bool := is_file_ (_first_config_marker_path config_root).
Definition _write_first_config_marker (candidate_root : path) : M () :=
  _ ← write_text (_first_config_marker_path candidate_root) (CText ("ok" +:+ nl));
  chmod 384 (* 0o600 *) (_first_config_marker_path candidate_root).

Definition is_os_or_provision_error (x : exn) : bool := is_OSError x || is_ProvisionError x.
Definition _managed_files_are_writable (config_root runtime_config_root : path) : M bool :=
  f ← is_file_ (config_root // "config.toml");
  if negb f then mret false
  else
    parsed ← catch (c ← load_config_file (config_root // "config.toml"); mret (Some c)) is_os_or_provision_error
               (λ _, mret None);
    match parsed with
    | None => mret false
    | Some c => lift (managed_files_are_writable (cwd sys) (ct_container (cfg_containers c)) (Some (show_path runtime_config_root)))
    end.

(** [stat.S_IRGRP] and [stat.S_IXGRP]. *)
Definition grant_entry (gid : Z) (p : path) : M () :=
  catch
    (n ← lstat p;
     if is_lnk n then raise (provision_error ("config state must not contain symlink: " +:+ show_path p))
     else
       _ ← wr (update_at (λ m, set_owner (n_uid m) gid m) p);
       let current_mode := Z.land (n_mode n) 4095 in
       chmod (if is_dir n then Z.lor (Z.lor current_mode 32) 8 else Z.lor current_mode 32) p)
    is_not_found (λ _, mret tt).
Definition _grant_service_read_access (config_root runtime_config_root : path) : M () :=
  match service_identity sys with
  | None => mret tt
  | Some (_, gid) =>
      let files_root := config_root // "files" in
      let receipt_path := config_root // APPLY_RECEIPT_FILENAME in
      writable ← _managed_files_are_writable config_root runtime_config_root;
      _ ← grant_managed_file_access (managed_identity sys) files_root writable;
      entries ← rglob config_root;
      iterM (grant_entry gid)
        (filter (λ p, ¬ (p = receipt_path ∨ (below files_root p ∧ p ≠ files_root))) (config_root :: entries))
  end.
Definition grant_service_read_access (config_root : path) : M () := _grant_service_read_access config_root config_root.

(** ** The files of the root *)

Definition json_doc (v : value) : content := CJson v (Z.of_nat (slen (json_pretty 0 v)) + 1).
Definition write_private (p : path) (c : content) : M () := _ ← write_text p c; chmod 384 (* 0o600 *) p.

(** The configuration as [load_config] returns it: the dicts of its parts. *)
Definition users_dict (c : config) : dict value := users_value (cfg_users c).
Definition lan_settings_dict (c : config) : dict value := lan_settings_value (cfg_lan_settings c) (cfg_ntp_servers c).
Definition runtime_metadata (units : list (dict value)) : dict value :=
  [("app_user", VStr APP_RUNTIME_USER); ("rootless_network", VStr ROOTLESS_NETWORK_NAME);
   ("units", VList (map VDict units))].

(** Files of a directory that are not wanted. *)
Definition remove_files (dir : path) (keep : list string) : M () :=
  names ← listdir dir;
  iterM (λ x, f ← is_file_ (dir // x);
              if f && negb (bool_decide (x ∈ keep)) then unlink (dir // x) else mret tt) names.

Definition write_keys (config_root : path) (users : dict user_settings) : M () :=
  let ssh_dir := config_root // "ssh-authorized-keys" in
  _ ← remove_files ssh_dir (dkeys users);
  iterM (λ '(username, user),
    if bool_decide (us_ssh_key user = "") then unlink_missing_ok (ssh_dir // username)
    else write_private (ssh_dir // username) (CText (us_ssh_key user +:+ nl))) users.
Definition write_os_upgrade (config_root : path) (os_upgrade : option string) : M () :=
  let os_path := config_root // OS_UPGRADE_FILENAME in
  match os_upgrade with
  | Some url => write_private os_path (json_doc (VDict [("server_url", VStr url)]))
  | None => ex ← exists_ os_path; if ex : bool then unlink os_path else mret tt
  end.
Definition write_units (config_root : path) (rendered_units : dict string) : M () :=
  let quadlet_dir := config_root // "quadlet" in
  _ ← mkdir_parents 511 quadlet_dir;
  _ ← remove_files quadlet_dir [];
  iterM (λ '(filename, content),
    _ ← write_text (quadlet_dir // filename) (CText content);
    chmod 420 (* 0o644 *) (quadlet_dir // filename)) rendered_units.

Definition write_imported_state (parsed : config) (config_path : path) (files_path : option path)
    (config_root render_root : path) : M (list string) :=
  _ ← mkdir_parents 511 config_root;
  _ ← mkdir_parents 511 (config_root // "ssh-authorized-keys");
  c ← read_content config_path;
  _ ← write_private (config_root // "config.toml") c;
  _ ← copy_bundle_files (managed_identity sys) files_path config_root;
  _ ← (if bool_decide (cfg_ssh_keys parsed = []) then mret tt
       else write_private (config_root // "admin-signers") (CText (join nl (cfg_ssh_keys parsed) +:+ nl)));
  _ ← write_private (config_root // "users.json") (json_doc (VDict (users_dict parsed)));
  _ ← write_keys config_root (cfg_users parsed);
  _ ← write_private (config_root // FIREWALL_INBOUND_FILENAME) (json_doc (VDict (firewall_value (cfg_firewall_inbound parsed))));
  _ ← write_private (config_root // LAN_SETTINGS_FILENAME) (json_doc (VDict (lan_settings_dict parsed)));
  _ ← write_private (config_root // HOST_NETWORK_FILENAME) (json_doc (VDict (host_network_value (cfg_host_network parsed))));
  _ ← write_os_upgrade config_root (cfg_os_upgrade parsed);
  _ ← write_private (config_root // HEALTH_REQUIRED_FILENAME) (json_doc (str_list (cfg_required_units parsed)));
  _ ← write_private (config_root // ACTIVATION_POLICY_FILENAME)
        (json_doc (VDict (activation_policy_value (cfg_activation_policy parsed))));
  r ← lift (render_units (cwd sys) (cfg_containers parsed) (show_path render_root));
  let '(rendered_units, units, warnings) := r : rendering in
  _ ← write_units config_root rendered_units;
  _ ← write_private (config_root // RUNTIME_METADATA_FILENAME) (json_doc (VDict (runtime_metadata units)));
  euid ← ask (λ e _, e_uid e);
  _ ← (if euid =? 0 then _grant_service_read_access config_root render_root else mret tt);
  mret warnings.
End render.
