(* ===== verification/Stage.v ===== *)
(** * [provision.py]: staging a configuration for the privileged worker

    The part of src/scripts/atomixos_provision/src/atomixos_provision/provision.py
    that runs in the service and in local commands: the lock, the manifest of a
    job, publication, and the wait for the worker's result.  Taking a lock is
    opening its file; what runs under it is one program.  The heartbeat of a local
    reservation runs beside the block: one of its turns is a definition, their
    interleaving is not.  Progress reports are left out. *)

From Stdlib Require Import Ascii.
From S2P Require Import Prelude PyStr PyVal ConfigCheck Config ConfigValue PartialConfig FS Staging StagedJob Activation ApplyTransaction Auth Quadlet Bundle Authorize Render.

Local Open Scope Z_scope.

(** ** The machine

    The platform, the libraries that read and write formats, and the environment
    variables. *)

Record machine : Type := Machine {
  sys : platform;
  sha256 : content → string;
  sha256_text : string → string;
  time_value : Z → value;
  json_text : value → Z → string;
  json_decode : string → result value;
  bytes_content : string → content;
  tar_members : content → list member * bool;
  tar_size : list member → Z;
  gzip_size : list member → Z;
  GZIP_BIN : string;
  ZSTD_BIN : string;
  ssh_keygen : string;
  boot_id : string;
  activation_command : option (string * path);
  app_uid : option Z;
  allow_unsafe_env : bool;
  worker_active : bool;
  runtime_dir : option path;
  bootstrap_activation : bool;
  keep_initial_pending : bool;
  network_bootstrap : bool;
  result_timeout : Z }.

Definition PROVISION_LOCK_DIR : path := ["run"; "atomixos-provision"].

(** [open(p, "a+")] of the lock file: nothing is written. *)
Definition append_at (new : node) (p : path) (s : fs) : result fs :=
  q ← resolve s p;
  _ ← need_dir s (parent q) "open";
  match s !! q with
  | Some n => if is_dir n then Err (OSError_ ("EISDIR: " +:+ show_path p)) else Ok s
  | None => Ok (<[q:=new]> s)
  end.

(** [tmpdir.cleanup()] of a prepared source. *)
Definition cleanup_tmpdir (tmpdir : option path) : M () :=
  match tmpdir with Some p => rmtree p | None => mret tt end.

Section stage.
Context (E : machine).

Definition staging_enabled : bool := negb (worker_active E).
Definition _runtime_paths : RuntimePaths := Paths (default PROVISION_LOCK_DIR (runtime_dir E)).
Definition _service_identity : option (Z * Z) := service_identity (sys E).
Definition service_gid : option Z := snd <$> _service_identity.
Definition bytes_of (c : content) : string := file_bytes (json_text E) c.
Definition prepare_bytes (source_bytes filename : string) : M prepared :=
  prepare_source_bytes (tar_members E) (bytes_content E) (GZIP_BIN E) (ZSTD_BIN E) source_bytes filename.
Definition file_digest (p : path) : M string := sha256_file (sha256 E) p None.
Definition check_root (config_root : path) : M path := validate_config_root (allow_unsafe_env E) config_root true.

(** ** The provisioning lock *)

Definition _provisioning_lock_path (config_root : path) : M path :=
  resolved ← resolve_path config_root;
  mret (if bool_decide (resolved = data_config_root) then PROVISION_LOCK_DIR // "config.lock"
        else parent resolved // ("." +:+ name_of resolved +:+ ".lock")).

Definition _runtime_lock_requires_root_owner (euid : Z) (lock_dir : path) : bool :=
  (euid =? 0) || bool_decide (lock_dir = PROVISION_LOCK_DIR).
Definition _ensure_runtime_lock_parent (euid : Z) (lock_dir : path) : M () :=
  _ ← mkdir_parents 511 lock_dir;
  n ← lstat lock_dir;
  if negb (is_dir n) then raise (provision_error ("lock directory must be a directory: " +:+ show_path lock_dir))
  else if _runtime_lock_requires_root_owner euid lock_dir && negb (n_uid n =? 0)
  then raise (provision_error ("lock directory must be root-owned: " +:+ show_path lock_dir))
  else if others_write n
  then raise (provision_error ("lock directory must not be group/world writable: " +:+ show_path lock_dir))
  else mret tt.
Definition _ensure_runtime_lock_permissions (p : path) : M () :=
  match _service_identity with
  | Some (_, gid) => _ ← wr (update_at (set_owner 0 gid) p); wr (update_at (set_mode 432 (* 0o660 *)) p)
  | None => _ ← wr (update_at (λ n, set_owner 0 (n_gid n) n) p); wr (update_at (set_mode 384 (* 0o600 *)) p)
  end.

Definition _open_lock_file (lock_path : path) : M () :=
  if negb (bool_decide (parent lock_path = PROVISION_LOCK_DIR)) then
    _ ← mkdir_parents 511 (parent lock_path);
    n ← new_node (KReg (CText "")) 420;
    wr (append_at n lock_path)
  else
    euid ← ask (λ e _, e_uid e);
    _ ← _ensure_runtime_lock_parent euid (parent lock_path);
    n ← new_node (KReg (CText "")) 432;
    r ← attempt (lstat lock_path);
    _ ← match r with
        | Ok st =>
            if is_lnk st then raise (provision_error ("lock file must not be a symlink: " +:+ show_path lock_path))
            else if is_dir st then raise (OSError_ ("EISDIR: " +:+ show_path lock_path)) else mret tt
        | Err x => if is_not_found x then wr (create_at n lock_path) else raise x
        end;
    st ← lstat lock_path;
    if negb (is_reg st) then raise (provision_error ("lock path must be a regular file: " +:+ show_path lock_path))
    else
      _ ← (if euid =? 0 then _ensure_runtime_lock_permissions lock_path else mret tt);
      st ← lstat lock_path;
      if _runtime_lock_requires_root_owner euid (parent lock_path) && negb (n_uid st =? 0)
      then raise (provision_error ("lock file must be root-owned: " +:+ show_path lock_path))
      else mret tt.

Definition provisioning_lock {A} (config_root : path) (block : M A) : M A :=
  lock_path ← _provisioning_lock_path config_root;
  _ ← _open_lock_file lock_path;
  block.

(** ** Manifests *)

Definition _manifest_service_identity : M (Z * Z) :=
  match _service_identity with Some i => mret i | None => ask (λ e _, (e_uid e, e_gid e)) end.

Definition forwarding_url (c : config) : value := forwarding_url_of (VDict (lan_settings_dict c)).

Definition _manifest_for_staged_candidate (job_id : string) (config_path candidate_root bundle_root : path)
    (parsed : config) (warnings : list string) (filename : string) (source_digest : option string)
    (allow_reapply : bool) (operation : string) (is_reapply preserve_bundle_files : bool) : M (dict value) :=
  '(service_uid, service_gid) ← _manifest_service_identity;
  digest ← match source_digest with
           | Some d => if bool_decide (d = "") then file_digest config_path else mret d
           | None => file_digest config_path
           end;
  candidate ← tree_manifest (sha256 E) candidate_root;
  bundle_files ← tree_manifest (sha256 E) bundle_root;
  present ← exists_ bundle_root;
  now ← time_time;
  mret [("version", VInt MANIFEST_VERSION); ("job_id", VStr job_id);
        ("operation", VStr (_operation_type_for_manifest is_reapply operation));
        ("source_filename", VStr filename); ("source_sha256", VStr digest);
        ("candidate", VList candidate); ("bundle_files", VList bundle_files);
        ("bundle_files_present", VBool present); ("preserve_bundle_files", VBool preserve_bundle_files);
        ("activation_policy", VDict (activation_policy_value (cfg_activation_policy parsed)));
        ("allow_reapply", VBool allow_reapply);
        ("service_uid", VInt service_uid); ("service_gid", VInt service_gid);
        ("created_at", time_value E now); ("warnings", str_list warnings);
        ("lan_settings", VDict (lan_settings_dict parsed)); ("forwarding_url", forwarding_url parsed)].

(** The manifest with the request recorded. *)
Definition _stage_request_evidence (staging_path : path) (manifest : dict value) (payload filename : string)
    (authorization : option (dict value)) : M (dict value) :=
  let request_path := staging_path // "request.bin" in
  _ ← write_text request_path (bytes_content E payload);
  _ ← chmod 384 (* 0o600 *) request_path;
  mret (dset "request"
    (VDict ([("filename", VStr filename); ("size", VInt (Z.of_nat (slen payload)));
             ("sha256", VStr (sha256 E (bytes_content E payload)))]
            ++ match authorization with Some a => [("authorization", VDict a)] | None => [] end)) manifest).

Definition _progress_job_id (progress_id : option string) : M string :=
  match progress_id with
  | Some i => if bool_decide (i = "") then ask e_tmp else mret i
  | None => ask e_tmp
  end.

Definition _copy_current_bundle_files (config_root destination : path) : M () :=
  let files_root := config_root // "files" in
  ex ← exists_ files_root;
  if ex : bool then stage_bundle_files (Some files_root) destination else mret tt.

(** ** Waiting for the worker *)

(** What one poll of the waiter observes: each probe only when the poll gets there.
    [other] is what other processes do before the poll's steps. *)
Definition observe (other : nat → M ()) (paths : RuntimePaths) (job_id : string) (w : StagedResultWaiter)
    : M (observation (dict value)) :=
  now ← time_time;
  read ← attempt (read_result paths job_id);
  match read with
  | Ok (Some _) => mret (Observe now read (Ok false) (Ok WAITING) (Ok None))
  | _ =>
      claimed ← match read with Ok _ => attempt (exists_ (active paths // job_id)) | Err x => mret (Err x) end;
      let goes_on := match claimed with
                     | Ok _ => true
                     | Err x => is_OSError x && is_ok (_read_failed now x w).1.1
                     end in
      if goes_on && (w_liveness_due w <=? now) then
        state ← attempt (staged_timeout_state (time_value E) other paths job_id);
        reread ← match state with
                 | Ok (ABANDONED | MISSING) => attempt (read_result paths job_id)
                 | _ => mret (Ok None)
                 end;
        mret (Observe now read claimed state reread)
      else mret (Observe now read claimed (Ok WAITING) (Ok None))
  end.

(** [None]: still waiting after [polls] polls. *)
Fixpoint wait_go (polls : nat) (other : nat → nat → M ()) (paths : RuntimePaths) (job_id : string) (w : StagedResultWaiter)
    : M (option (dict value)) :=
  match polls with
  | O => mret None
  | S polls =>
      _ ← other polls O;
      o ← observe (other polls) paths job_id w;
      match poll o w with
      | (Ok (Some v), _, _) => mret (Some v)
      | (Ok None, w', _) => wait_go polls other paths job_id w'
      | (Err x, _, _) => raise x
      end
  end.

Definition staged_error (text : string) (rollback : option string) : exn :=
  match rollback with Some status => ActivationFailed text status | None => provision_error text end.
Definition _staged_result_payload_or_raise (result_ : dict value) : result (dict value) :=
  outcome ← interpret_staged_result result_;
  if succeeded outcome then Ok (sr_payload outcome)
  else
    let text := default "failed" (sr_error outcome) in
    Err (staged_error (if bool_decide (text = "") then "failed" else text) (Staging.rollback_status outcome)).

Definition _wait_for_staged_result (polls : nat) (other : nat → nat → M ()) (paths : RuntimePaths) (job_id : string)
    : M (option (dict value)) :=
  now ← time_time;
  r ← wait_go polls other paths job_id (new_waiter (result_timeout E) now);
  match r with
  | None => mret None
  | Some v => payload ← lift (_staged_result_payload_or_raise v); mret (Some payload)
  end.

(** ** Publication *)

Definition allow_reapply_or_raise (is_reapply allow_reapply : bool) : result () :=
  raise_if (is_reapply && negb allow_reapply)
    (provision_error "config already provisioned; reapply requires authenticated API access").

Definition queued_result (job_id : string) : dict value := [("job_id", VStr job_id); ("queued", VBool true)].

(** Render the candidate, write the manifest, and publish the job. *)
Definition publish_candidate (job_id : string) (config_path : path) (files_path : option path) (config_root : path)
    (filename : string) (source_digest : option string) (allow_reapply : bool) (operation : string)
    (request_payload : option string) (authorization : option (dict value)) (is_reapply : bool) (parsed : config)
    (paths : RuntimePaths) (staging_path job_path : path) : M () :=
  let candidate_root := staging_path // "candidate" in
  let bundle_root := staging_path // "bundle-files" in
  _ ← catch (mkdir 448 (* 0o700 *) staging_path) is_not_found
        (λ _, _ ← mkdir_parents 511 (parent staging_path); mkdir 448 staging_path);
  warnings ← write_imported_state (sys E) parsed config_path None candidate_root config_root;
  preserve ← match files_path with
             | Some f => _ ← stage_bundle_files (Some f) bundle_root; mret false
             | None =>
                 if negb (bool_decide (operation = "full-apply")) && is_reapply
                 then exists_ (config_root // "files") else mret false
             end;
  manifest ← _manifest_for_staged_candidate job_id config_path candidate_root bundle_root parsed warnings filename
               source_digest allow_reapply operation is_reapply preserve;
  manifest ← match request_payload with
             | Some payload => _stage_request_evidence staging_path manifest payload filename authorization
             | None => mret manifest
             end;
  _ ← write_json_atomic (staging_path // "manifest.json") manifest 416 None;
  _ ← rename staging_path job_path;
  _ ← publish_ready_marker (time_value E) paths job_id;
  unlink_missing_ok (reserve_path paths job_id).

Definition withdraw_candidate (paths : RuntimePaths) (job_id : string) (staging_path : path) : M () :=
  _ ← rmtree_ignore_errors staging_path;
  _ ← rmtree_ignore_errors (queue paths // job_id);
  _ ← unlink_missing_ok (ready_path paths job_id);
  unlink_missing_ok (reserve_path paths job_id).

(** [wait]: how to wait for the result, when the caller does. *)
Definition _stage_prepared_sync (job_id : string) (config_path : path) (files_path : option path) (config_root : path)
    (filename : string) (source_digest : option string) (allow_reapply : bool) (operation : string)
    (wait : option (nat * (nat → nat → M ()))) (request_payload : option string)
    (authorization : option (dict value)) : M (option (dict value)) :=
  job_id ← lift (validate_job_id job_id);
  config_root ← check_root config_root;
  let paths := _runtime_paths in
  _ ← ensure_runtime_layout paths false;
  is_reapply ← is_provisioned_config_root config_root;
  _ ← lift (allow_reapply_or_raise is_reapply allow_reapply);
  let job_path := queue paths // job_id in
  ex ← exists_ job_path;
  ex ← (if ex : bool then mret true else exists_ (ready_path paths job_id));
  if ex : bool then raise (provision_error ("staged job already exists: " +:+ job_id))
  else
    pid ← ask e_tmp;
    let staging_path := queue paths // ("." +:+ job_id +:+ ".staging." +:+ pid) in
    _ ← rmtree_if_exists staging_path;
    parsed ← load_config_file (sys E) config_path;
    catch
      (_ ← publish_candidate job_id config_path files_path config_root filename source_digest allow_reapply operation
             request_payload authorization is_reapply parsed paths staging_path job_path;
       match wait with
       | None => mret (Some (queued_result job_id))
       | Some (polls, other) => _wait_for_staged_result polls other paths job_id
       end)
      is_Exception
      (λ x, _ ← withdraw_candidate paths job_id staging_path; raise x).

(** ** Reservations *)

Definition _reserve_staged_job_or_raise (paths : RuntimePaths) (job_id : string) : M () :=
  ok ← reserve_staged_job_slot (time_value E) paths job_id DEFAULT_MAX_STAGED_JOBS;
  if ok : bool then mret tt else raise (StagedQueueBusyError "the provision queue is full").
(** One turn of [_refresh_reservation_until]. *)
Definition refresh_turn (paths : RuntimePaths) (job_id : string) : M () :=
  catch (refresh_staged_job_slot paths job_id) is_Exception (λ _, mret tt).
Definition _local_staged_reservation {A} (paths : RuntimePaths) (job_id : string) (block : M A) : M A :=
  _ ← _reserve_staged_job_or_raise paths job_id;
  catch block is_Exception (λ x, _ ← release_staged_job_slot paths job_id; raise x).

Definition _stage_and_wait_prepared_sync (job_id : string) (config_path : path) (files_path : option path)
    (config_root : path) (filename : string) (source_digest : option string) (allow_reapply : bool)
    (polls : nat) (other : nat → nat → M ()) : M (option (dict value)) :=
  _local_staged_reservation _runtime_paths job_id
    (_stage_prepared_sync job_id config_path files_path config_root filename source_digest allow_reapply "full-apply"
       (Some (polls, other)) None None).

Definition stage_reserved_config_bytes (job_id payload filename : string) (config_root : path) (allow_reapply : bool)
    (authorization : option (dict value)) : M () :=
  '(tmpdir, config_path, files_path) ← prepare_bytes payload filename;
  finally
    (digest ← file_digest config_path;
     _ ← _stage_prepared_sync job_id config_path files_path config_root filename (Some digest) allow_reapply "full-apply"
           None (Some payload) authorization;
     mret tt)
    (cleanup_tmpdir tmpdir).
Definition stage_config_bytes (job_id payload filename : string) (config_root : path) (allow_reapply : bool)
    (authorization : option (dict value)) : M () :=
  _local_staged_reservation _runtime_paths job_id
    (stage_reserved_config_bytes job_id payload filename config_root allow_reapply authorization).

(** The canonical text of the current configuration after an operation. *)
Definition operated_config (config_root : path) (operation : value) : M string :=
  current ← load_current_config_file (sys E) config_root;
  lift (d ← apply_operation current operation; canonical_config_bytes d).

Definition _stage_config_operation_sync (job_id : string) (operation : value) (config_root : path)
    (request_payload : option string) (authorization : option (dict value)) : M () :=
  config_root ← check_root config_root;
  let paths := _runtime_paths in
  pending ← exists_ (promotion_marker_path config_root);
  if pending : bool then raise (StagedQueueBusyError "partial config updates require promotion recovery")
  else
    busy ← has_staged_jobs paths (Some job_id);
    if busy : bool then raise (StagedQueueBusyError "partial config updates require an empty staged queue")
    else
      candidate ← operated_config config_root operation;
      '(tmpdir, config_path, _) ← prepare_bytes candidate "config.toml";
      finally
        (digest ← file_digest config_path;
         _ ← _stage_prepared_sync job_id config_path None config_root "config.toml" (Some digest) true "partial-apply"
               None request_payload authorization;
         mret tt)
        (cleanup_tmpdir tmpdir).
Definition _stage_and_wait_operation_sync (job_id : string) (operation : value) (config_root : path)
    (polls : nat) (other : nat → nat → M ()) : M (option (dict value)) :=
  _local_staged_reservation _runtime_paths job_id
    (_ ← _stage_config_operation_sync job_id operation config_root None None;
     _wait_for_staged_result polls other _runtime_paths job_id).
Definition stage_config_operation (job_id : string) (operation : value) (config_root : path)
    (request_payload : option string) (authorization : option (dict value)) : M () :=
  _local_staged_reservation _runtime_paths job_id
    (_stage_config_operation_sync job_id operation config_root request_payload authorization).
Definition stage_reserved_config_operation (job_id : string) (operation : value) (config_root : path)
    (request_payload : option string) (authorization : option (dict value)) : M () :=
  _stage_config_operation_sync job_id operation config_root request_payload authorization.
End stage.
