(* ===== verification/Worker.v ===== *)
(** * [provision.py]: the privileged worker, recovery, and the entry points

    The part of src/scripts/atomixos_provision/src/atomixos_provision/provision.py
    that claims a staged job, copies and renders it, applies it as a transaction,
    publishes its result, and recovers what an interrupted worker left.  The
    worker marks its own environment while it runs; nothing below reads the mark.
    Progress reports are left out. *)

From Stdlib Require Import Ascii.
From S2P Require Import Prelude PyStr PyVal ConfigCheck Config ConfigValue PartialConfig FS Staging StagedJob Activation ApplyTransaction Auth Quadlet Bundle Authorize Render Stage.

Local Open Scope Z_scope.

Definition permissions (n : node) : Z := Z.land (n_mode n) 4095. (* stat.S_IMODE(mode) & 0o7777 *)

(** ** Copies of a job *)

(** [shutil.copytree(source, destination, symlinks=False)]: an entry that cannot be
    copied is skipped, and the call fails at the end.  [fuel] bounds the depth. *)
Fixpoint copytree_go (fuel : nat) (source destination : path) : M () :=
  match fuel with
  | O => raise (ValueError "maximum recursion depth exceeded")
  | S fuel =>
      names ← listdir source;
      ex ← exists_ (parent destination);
      _ ← (if ex : bool then mret tt else mkdir_parents 511 (parent destination));
      _ ← mkdir 511 destination;
      errors ← forM (λ (errors : bool) name,
          catch
            (st ← stat (source // name);
             if is_dir st then _ ← copytree_go fuel (source // name) (destination // name); mret errors
             else
               c ← read_content (source // name);
               _ ← write_text (destination // name) c;
               _ ← chmod (permissions st) (destination // name);
               mret errors)
            is_OSError (λ _, mret true)) names false;
      errors ← catch (st ← stat source; _ ← chmod (permissions st) destination; mret errors) is_OSError (λ _, mret true);
      if errors : bool then raise (OSError_ "shutil.Error") else mret tt
  end.
Definition copytree (source destination : path) : M () :=
  n ← rd (λ s, Ok (S (size s))); copytree_go n source destination.

Definition own_durable (current : path) : M () :=
  st ← lstat current;
  if is_lnk st then raise (provision_error ("durable candidate must not contain symlink: " +:+ show_path current))
  else
    _ ← wr (update_at (set_owner 0 0) current);
    if is_dir st then chmod (permissions st) current
    else if is_reg st then chmod (Z.land (permissions st) 511) current
    else raise (provision_error ("durable candidate must contain only files/directories: " +:+ show_path current)).
Definition _copy_candidate_to_durable (candidate_root durable_candidate : path) : M () :=
  _ ← rmtree_if_exists durable_candidate;
  _ ← copytree candidate_root durable_candidate;
  entries ← rglob durable_candidate;
  iterM own_durable (durable_candidate :: entries).

Definition _validate_staged_snapshot_manifest (source : path) (job_id : string) (manifest : dict value) : M () :=
  _ ← lift (raise_if (negb (py_eq (vget "version" manifest) (VInt MANIFEST_VERSION)))
        (provision_error "unsupported staged manifest version"));
  _ ← lift (raise_if (negb (eq_str (vget "job_id" manifest) job_id))
        (provision_error "staged manifest job id mismatch"));
  let allowed := ["manifest.json"; "candidate"]
    ++ (if truthy (vget "bundle_files" manifest) || is_true (vget "bundle_files_present" manifest)
        then ["bundle-files"] else [])
    ++ (if is_none (vget "request" manifest) then [] else ["request.bin"]) in
  actual ← listdir source;
  let unexpected := filter (λ x, x ∉ allowed) actual in
  if negb (bool_decide (unexpected = []))
  then raise (provision_error ("staged job contains unexpected top-level entries: " +:+ comma_join (sorted_strs unexpected)))
  else
    d ← is_dir_ (source // "candidate");
    if d : bool then mret tt else raise (provision_error "staged job missing candidate directory").

(** The order of copying: directories first, shallow before deep, then by name. *)
Definition copy_key : Type := bool * nat * string.
Definition entry_path (d : dict value) : string :=
  match vget_or "path" (VStr "") d with VStr s => s | v => value_repr v end.
Definition _staged_manifest_copy_sort_key (entry : value) : copy_key :=
  match entry with
  | VDict d => (negb (eq_str (vget "type" d) "dir"), length (filter (λ c, c = "/"%char) (chars (entry_path d))), entry_path d)
  | _ => (true, 0%nat, "")
  end.
Definition copy_le (a b : value) : Prop :=
  let '(b1, n1, s1) := _staged_manifest_copy_sort_key a in
  let '(b2, n2, s2) := _staged_manifest_copy_sort_key b in
  (b1 = false ∧ b2 = true) ∨ (b1 = b2 ∧ ((n1 < n2)%nat ∨ (n1 = n2 ∧ String.le s1 s2))).
#[export] Instance copy_le_dec : RelDecision copy_le.
Proof. intros a b. unfold copy_le. destruct (_ a) as [[??]?], (_ b) as [[??]?]. apply _. Defined.

Definition _copy_staged_dir_metadata (source destination : path) : M () :=
  st ← lstat source;
  if is_lnk st then raise (OSError_ ("ELOOP: " +:+ show_path source))
  else if negb (is_dir st) then raise (NotADirectoryError (show_path source))
  else _ ← mkdir_parents 511 destination; chmod (permissions st) destination.

Definition size_changed (source : path) : exn := provision_error ("staged file size changed: " +:+ show_path source).
(** [_copy_staged_file_stream] of an open file. *)
Definition _copy_staged_file_stream (st : node) (source destination : path) (expected_size : option Z) : M () :=
  if negb (is_reg st) then raise (provision_error ("staged path must be a regular file: " +:+ show_path source))
  else if match expected_size with Some n => negb (n_size st =? n) | None => false end then raise (size_changed source)
  else
    c ← read_content source;
    _ ← write_text destination c;
    chmod (permissions st) destination.
Definition _copy_staged_file_from_path (source destination : path) (expected_size : option Z) : M () :=
  st ← lstat source;
  if is_lnk st then raise (OSError_ ("ELOOP: " +:+ show_path source))
  else if is_dir st then raise (OSError_ ("EISDIR: " +:+ show_path source))
  else _copy_staged_file_stream st source destination expected_size.

Definition copy_staged_entry (source_root destination_root : path) (entry : value) : M () :=
  match entry with
  | VDict d =>
      rel_path ← lift (validate_relative_path (vget_or "path" (VStr "") d));
      let source_path := source_root ++ path_parts rel_path in
      let destination_path := destination_root ++ path_parts rel_path in
      let entry_type := vget "type" d in
      if eq_str entry_type "dir" then _copy_staged_dir_metadata source_path destination_path
      else if eq_str entry_type "file" then
        _ ← mkdir_parents 511 (parent destination_path);
        match vget "size" d with
        | VInt expected_size => _copy_staged_file_from_path source_path destination_path (Some expected_size)
        | _ => raise (provision_error ("invalid staged manifest size for " +:+ rel_path))
        end
      else raise (provision_error ("invalid staged manifest entry type for " +:+ rel_path +:+ ": " +:+ value_repr entry_type))
  | _ => raise (provision_error "staged manifest tree entry must be an object")
  end.
(** The second pass sets the modes of the directories again. *)
Definition settle_staged_entry (source_root destination_root : path) (entry : value) : M () :=
  match entry with
  | VDict d =>
      if eq_str (vget "type" d) "dir" then
        rel_path ← lift (validate_relative_path (vget_or "path" (VStr "") d));
        _copy_staged_dir_metadata (source_root ++ path_parts rel_path) (destination_root ++ path_parts rel_path)
      else mret tt
  | _ => mret tt
  end.
Definition _copy_staged_manifest_tree (source destination : path) (dirname : string) (entries : value) : M () :=
  match entries with
  | VList l =>
      let source_root := source // dirname in
      let destination_root := destination // dirname in
      st ← lstat source_root;
      if negb (is_dir st) then raise (provision_error ("staged path must be a directory: " +:+ show_path source_root))
      else
        _ ← mkdir_parents 511 destination_root;
        _ ← chmod (permissions st) destination_root;
        let sorted_entries := merge_sort copy_le l in
        _ ← iterM (copy_staged_entry source_root destination_root) sorted_entries;
        iterM (settle_staged_entry source_root destination_root) sorted_entries
  | _ => raise (provision_error "staged manifest tree entries must be a list")
  end.

Definition _copy_staged_job_snapshot (source destination : path) (job_id : string) (manifest : dict value) : M () :=
  _ ← rmtree_if_exists destination;
  _ ← _validate_staged_snapshot_manifest source job_id manifest;
  _ ← mkdir_parents 511 destination;
  _ ← chmod 448 (* 0o700 *) destination;
  _ ← write_json_atomic (destination // "manifest.json") manifest 416 None;
  _ ← _copy_staged_manifest_tree source destination "candidate" (vget_or "candidate" (VList []) manifest);
  let bundle_entries := vget_or "bundle_files" (VList []) manifest in
  _ ← (if truthy bundle_entries || is_true (vget "bundle_files_present" manifest)
       then _copy_staged_manifest_tree source destination "bundle-files" bundle_entries else mret tt);
  match vget "request" manifest with
  | VDict request =>
      match vget "size" request with
      | VInt expected_size => _copy_staged_file_from_path (source // "request.bin") (destination // "request.bin") (Some expected_size)
      | _ => raise (provision_error "staged request size must be an integer")
      end
  | _ => mret tt
  end.

Section worker.
Context (E : machine).
Local Abbreviation platform_of := (sys E).

(** ** Follow-ups *)

(** Best effort: only a missing command is ignored, its status always. *)
Definition run_best_effort (argv : list string) : M () :=
  catch (_ ← run_command argv; mret tt) is_not_found (λ _, mret tt).
Definition rebind_command : list string :=
  ["systemd-run"; "--collect"; "--unit=atomixos-bootstrap-rebind-delayed"; "--on-active=30s";
   "--property=Type=oneshot"; "/bin/sh"; "-c";
   "systemctl restart bootstrap-wan-toggle.service || true; "
   +:+ "systemctl daemon-reload && "
   +:+ "systemctl restart atomixos-bootstrap-rebind.service && "
   +:+ "systemctl stop atomixos-bootstrap.service && "
   +:+ "systemctl restart atomixos-bootstrap.socket && "
   +:+ "systemctl start atomixos-bootstrap.service"].
Definition _uses_network_bootstrap : bool := network_bootstrap E.
Definition _schedule_bootstrap_rebind : M () :=
  if _uses_network_bootstrap then run_best_effort rebind_command else mret tt.
Definition schedule_bootstrap_rebind (lan_settings : value) : M () :=
  if is_none (forwarding_url_of lan_settings) then mret tt else _schedule_bootstrap_rebind.
Definition reconcile_bootstrap_wan : M () :=
  if _uses_network_bootstrap then run_best_effort ["systemctl"; "restart"; "bootstrap-wan-toggle.service"] else mret tt.

Definition complete (config_root : path) (before_commit : option (M ())) : M (bool * list string * string) :=
  complete_reapply (activation_command E) (app_uid E) config_root before_commit.
Definition activation_failed (failures : list string) (status : string) : exn :=
  ActivationFailed ("activation failed: " +:+ comma_join failures) status.
(** A failed activation of an initial configuration. *)
Definition initial_failed {A} (config_root : path) (failures : list string) (status : string) : M A :=
  if bool_decide (status = "completed") then raise (activation_failed failures "completed")
  else
    _ ← discard_initial_config config_root;
    _ ← reconcile_bootstrap_wan;
    raise (activation_failed failures "discarded").

(** The marker of the candidate: the one of the root, or a new one. *)
Definition carry_first_config_marker (config_root candidate_root : path) : M () :=
  has ← _has_first_config_marker config_root;
  if has : bool then
    c ← read_content (_first_config_marker_path config_root);
    write_text (_first_config_marker_path candidate_root) c
  else _write_first_config_marker candidate_root.

(** ** Applying without staging *)

(** Render into a fresh candidate root; a failure removes it. *)
Definition prepare_candidate (config_path : path) (files_path : option path) (config_root candidate_root : path)
    (finish : M ()) : M (config * list string) :=
  _ ← rmtree_if_exists candidate_root;
  _ ← mkdir_parents 511 candidate_root;
  catch
    (parsed ← load_config_file platform_of config_path;
     warnings ← write_imported_state platform_of parsed config_path files_path candidate_root config_root;
     _ ← carry_forward_managed_state config_root candidate_root;
     _ ← finish;
     mret (parsed, warnings))
    is_Exception
    (λ x, _ ← rmtree_ignore_errors candidate_root; raise x).

Definition apply_result (parsed : config) (warnings : list string) (is_reapply : bool) : dict value :=
  [("warnings", str_list warnings); ("reapply", VBool is_reapply)]
  ++ (if is_reapply then [("rolled_back", VBool false)] else [])
  ++ [("forwarding_url", forwarding_url parsed)].

Definition _provision_prepared_sync (config_path : path) (files_path : option path) (config_root : path)
    (allow_reapply : bool) : M (dict value) :=
  config_root ← check_root E config_root;
  _ ← recover_config_root config_root;
  is_reapply ← is_provisioned_config_root config_root;
  _ ← lift (allow_reapply_or_raise is_reapply allow_reapply);
  let candidate_root := candidate_root_path config_root in
  if negb (is_reapply : bool) then
    '(parsed, warnings) ← prepare_candidate config_path files_path config_root candidate_root (mret tt);
    _ ← _write_first_config_marker candidate_root;
    _ ← atomic_promote_initial config_root candidate_root;
    _ ← (if bootstrap_activation E then
           '(success, failures, status) ← complete config_root None;
           if (success : bool) then mret tt else initial_failed config_root failures status
         else if keep_initial_pending E then mret tt else cleanup_rollback config_root);
    _ ← reconcile_bootstrap_wan;
    mret (apply_result parsed warnings false)
  else
    '(parsed, warnings) ← prepare_candidate config_path files_path config_root candidate_root
                            (carry_first_config_marker config_root candidate_root);
    _ ← atomic_promote config_root candidate_root;
    '(success, failures, status) ← complete config_root None;
    if (success : bool) then
      _ ← schedule_bootstrap_rebind (VDict (lan_settings_dict parsed));
      mret (apply_result parsed warnings true)
    else raise (activation_failed failures status).

(** ** Applying a staged job *)

(** The part of a promotion that depends on whether the device was provisioned. *)
Definition promote_reapply (config_root durable_candidate : path) (manifest : dict value) : M (dict value) :=
  result_ ← lift (_staged_success_result manifest true);
  transaction ← lift (from_manifest manifest result_);
  _ ← (if is_true (vget "preserve_bundle_files" manifest)
       then copy_bundle_files (managed_identity platform_of) (Some (config_root // "files")) durable_candidate else mret tt);
  _ ← carry_first_config_marker config_root durable_candidate;
  _ ← mark_promoted transaction durable_candidate;
  _ ← _grant_service_read_access platform_of durable_candidate config_root;
  _ ← atomic_promote config_root durable_candidate;
  '(success, failures, status) ← complete config_root (Some (mark_committed transaction config_root));
  if (success : bool) then
    _ ← match vget "lan_settings" manifest with
        | VDict d => schedule_bootstrap_rebind (VDict d)
        | _ => mret tt
        end;
    mret result_
  else raise (activation_failed failures status).
Definition promote_initial (config_root durable_candidate : path) (manifest : dict value) : M (dict value) :=
  _ ← _write_first_config_marker durable_candidate;
  result_ ← lift (_staged_success_result manifest false);
  transaction ← lift (from_manifest manifest result_);
  _ ← mark_promoted transaction durable_candidate;
  _ ← _grant_service_read_access platform_of durable_candidate config_root;
  _ ← atomic_promote_initial config_root durable_candidate;
  _ ← (if bootstrap_activation E then
         '(success, failures, status) ← complete config_root (Some (mark_committed transaction config_root));
         if (success : bool) then mret tt else initial_failed config_root failures status
       else
         _ ← mark_committed transaction config_root;
         cleanup_rollback config_root);
  _ ← reconcile_bootstrap_wan;
  mret result_.

Definition _promote_pre_rendered_candidate_sync (candidate_root : path) (bundle_files_root : option path)
    (config_root : path) (manifest : dict value) : M (dict value) :=
  config_root ← validate_config_root (allow_unsafe_env E) config_root false;
  _ ← recover_config_root config_root;
  is_reapply ← is_provisioned_config_root config_root;
  _ ← lift (allow_reapply_or_raise is_reapply (truthy (vget_or "allow_reapply" (VBool true) manifest)));
  let durable_candidate := candidate_root_path config_root in
  _ ← _copy_candidate_to_durable candidate_root durable_candidate;
  _ ← match bundle_files_root with
      | Some files =>
          ex ← exists_ files;
          if ex : bool then copy_bundle_files (managed_identity platform_of) (Some files) durable_candidate else mret tt
      | None => mret tt
      end;
  if is_reapply : bool then promote_reapply config_root durable_candidate manifest
  else promote_initial config_root durable_candidate manifest.

(** What is to be applied: the temporary directory, the configuration, the managed
    files, whether those of the root are kept, and the operation. *)
Record staged_source : Type := Source {
  src_tmpdir : option path; src_config : path; src_bundle : option path; src_preserve : bool; src_operation : string }.

Definition source_of_snapshot (snapshot : path) (manifest : dict value) : M staged_source :=
  preserve ← lift (_manifest_bool manifest "preserve_bundle_files" false);
  mret (Source None (snapshot // "candidate" // "config.toml") (Some (snapshot // "bundle-files")) preserve
          (match vget_or "operation" (VStr "full-apply") manifest with VStr s => s | v => value_repr v end)).
Definition request_filename (manifest : dict value) : result string :=
  match vget "request" manifest with
  | VDict request =>
      match vget "filename" request with
      | VStr filename => if bool_decide (filename = "") then Err (provision_error "staged request filename is invalid") else Ok filename
      | _ => Err (provision_error "staged request filename is invalid")
      end
  | _ => Err (KeyError "request")
  end.
Definition source_of_request (config_root : path) (manifest : dict value) (a : authorization) (payload : string)
    : M staged_source :=
  operation ← lift (_request_operation (json_decode E) a payload);
  match operation with
  | None =>
      filename ← lift (request_filename manifest);
      '(tmpdir, config_path, bundle) ← prepare_bytes E payload filename;
      mret (Source tmpdir config_path bundle false "full-apply")
  | Some operation_payload =>
      candidate ← operated_config E config_root operation_payload;
      '(tmpdir, config_path, _) ← prepare_bytes E candidate "config.toml";
      preserve ← exists_ (config_root // "files");
      mret (Source tmpdir config_path None preserve "partial-apply")
  end.

(** Render the source and apply it. *)
Definition apply_source (snapshot config_root : path) (manifest : dict value) (locally_trusted signed : bool)
    (src : staged_source) : M (dict value) :=
  _ ← (if signed then mret tt
       else
         match vget "source_sha256" manifest with
         | VStr expected =>
             digest ← file_digest E (src_config src);
             if bool_decide (expected = digest) then mret tt else raise (provision_error "staged source config hash changed")
         | _ => raise (provision_error "staged source config hash changed")
         end);
  parsed ← load_config_file platform_of (src_config src);
  let candidate_root := snapshot // "candidate-rendered" in
  warnings ← write_imported_state platform_of parsed (src_config src) None candidate_root config_root;
  _ ← carry_forward_managed_state config_root candidate_root;
  let bundle_manifest_root := default (snapshot // "missing-bundle-files") (src_bundle src) in
  digest ← file_digest E (src_config src);
  is_reapply ← is_provisioned_config_root config_root;
  rendered ← _manifest_for_staged_candidate E (str_of (vget "job_id" manifest)) (src_config src) candidate_root
               bundle_manifest_root parsed warnings "config.toml" (Some digest) (locally_trusted || signed)
               (src_operation src) is_reapply (src_preserve src);
  _promote_pre_rendered_candidate_sync candidate_root (src_bundle src) config_root (dict_update manifest rendered).

Definition _render_verified_staged_candidate_sync (snapshot config_root : path) (manifest : dict value)
    (paths : RuntimePaths) (locally_trusted : bool) : M (dict value) :=
  _ ← recover_config_root config_root;
  authorized ← _verify_staged_authorization (sha256_text E) (json_text E) (bytes_of E) (ssh_keygen E) (boot_id E)
                 snapshot config_root manifest paths locally_trusted;
  '(signed, src) ← match authorized with
                   | (Some payload, Some a) => src ← source_of_request config_root manifest a payload; mret (true, src)
                   | _ => src ← source_of_snapshot snapshot manifest; mret (false, src)
                   end;
  finally (apply_source snapshot config_root manifest locally_trusted signed src) (cleanup_tmpdir (src_tmpdir src)).

(** ** Recovery *)

Definition needs_rebind (receipt : option StagedApplyReceipt) : bool :=
  match receipt with
  | Some r => is_true (vget "reapply" (r_result r)) && is_str (vget "forwarding_url" (r_result r))
  | None => false
  end.
Definition is_initial_receipt (receipt : option StagedApplyReceipt) : bool :=
  match receipt with
  | Some r => match vget "reapply" (r_result r) with VBool false => true | _ => false end
  | None => false
  end.

Definition _recover_staged_apply (config_root : path) (boot_recovery : bool) (paths : RuntimePaths) : M ApplyRecovery :=
  recovery ← recover_interrupted_apply config_root;
  if boot_recovery then _ ← unlink_missing_ok (rollback_activation_marker_path config_root); mret recovery
  else
    receipt ← unfinished_committed_receipt paths (rec_receipt recovery);
    _ ← (if needs_rebind receipt then _schedule_bootstrap_rebind else mret tt);
    recovery ← (if restored_rollback recovery then
                  failures ← run_rollback_activation (activation_command E) (app_uid E) config_root;
                  mret (MkRecovery (rec_receipt recovery) (discarded_initial recovery) true failures)
                else mret recovery);
    _ ← (if discarded_initial recovery || restored_rollback recovery || is_initial_receipt receipt
         then reconcile_bootstrap_wan else mret tt);
    mret recovery.

(** ** The worker *)

Definition success_payload (result_ : dict value) : dict value := [("status", VStr "succeeded"); ("result", VDict result_)].
Definition rollback_text (failures : list string) : string := "; rollback: " +:+ join "; " failures.
Definition failure_payload (x : exn) (failures : list string) : dict value :=
  match failures with
  | [] => [("status", VStr "failed"); ("error", VStr (exn_text x))]
          ++ match exn_rollback x with Some status => [("rollback_status", VStr status)] | None => [] end
  | _ => [("status", VStr "failed"); ("error", VStr (exn_text x +:+ rollback_text failures)); ("rollback_status", VStr "failed")]
  end.
Definition publish (paths : RuntimePaths) (job_id : string) (payload : dict value) : M () :=
  _ ← write_result (time_value E) (service_gid E) paths job_id payload; mret tt.

(** In a private directory: copy the job, verify the copy, apply it.  The manifest is
    that of the copy once it has been verified. *)
Definition run_snapshot (config_root : path) (paths : RuntimePaths) (claimed : ClaimedJob) (locally_trusted : bool)
    (snapshot : path) : M (option (dict value) * result (dict value)) :=
  verified ← attempt
    (source_manifest ← verify_staged_job (sha256 E) MAX_SOURCE_BYTES claimed paths true;
     _ ← _copy_staged_job_snapshot (cj_path claimed) snapshot (cj_job_id claimed) source_manifest;
     verify_staged_job (sha256 E) MAX_SOURCE_BYTES (Claimed (cj_job_id claimed) snapshot) paths false);
  match verified with
  | Err x => mret (None, Err x)
  | Ok manifest =>
      r ← attempt (provisioning_lock E config_root
            (_render_verified_staged_candidate_sync snapshot config_root manifest paths locally_trusted));
      mret (Some manifest, r)
  end.
Definition run_claimed (config_root : path) (paths : RuntimePaths) (claimed : ClaimedJob) (locally_trusted : bool)
    : M (option (dict value) * result (dict value)) :=
  suffix ← ask e_tmp;
  let snapshot_dir := tmp_dir // ("atomixos-staged-" +:+ suffix) in
  made ← attempt (mkdir 448 snapshot_dir);
  match made with
  | Err x => mret (None, Err x)
  | Ok _ =>
      '(manifest, r) ← run_snapshot config_root paths claimed locally_trusted (snapshot_dir // cj_job_id claimed);
      cleaned ← attempt (rmtree snapshot_dir);
      mret (manifest, match cleaned with Ok _ => r | Err y => Err y end)
  end.

(** A failed application, against the receipt: the committed result, if there is
    one for this job. *)
Definition reconcile (config_root : path) (paths : RuntimePaths) (job_id : string) (manifest : option (dict value))
    (x : exn) : M (option (dict value)) :=
  recovery ← provisioning_lock E config_root (_recover_staged_apply config_root false paths);
  let committed_result := committed_result_for_manifest (rec_receipt recovery) job_id manifest in
  _ ← publish paths job_id
        (match committed_result with
         | Some result_ => success_payload result_
         | None => failure_payload x (ApplyTransaction.rollback_failures recovery)
         end);
  mret committed_result.

(** [inl]: the result, [None] when there was no job to claim; [inr]: an exception
    marked [staged_job_claimed]. *)
Definition apply_claimed (config_root : path) (paths : RuntimePaths) (claimed : ClaimedJob)
    : M (option (dict value) + exn) :=
  locally_trusted ← _claimed_job_is_locally_trusted claimed paths;
  '(manifest, r) ← run_claimed config_root paths claimed locally_trusted;
  published ← match r with
              | Ok result_ => attempt (_ ← publish paths (cj_job_id claimed) (success_payload result_); mret result_)
              | Err x => mret (Err x)
              end;
  match published with
  | Ok result_ => _ ← cleanup_claimed_job claimed; mret (inl (Some result_))
  | Err x =>
      if negb (is_Exception x) then raise x
      else
        reconciled ← attempt (reconcile config_root paths (cj_job_id claimed) manifest x);
        match reconciled with
        | Ok (Some committed_result) => _ ← cleanup_claimed_job claimed; mret (inl (Some committed_result))
        | Ok None => _ ← cleanup_claimed_job claimed; mret (inr x)
        | Err y => if is_Exception y then mret (inr y) else raise y
        end
  end.

Definition worker_root (config_root : path) (operation : string) : M path :=
  config_root ← validate_config_root (allow_unsafe_env E) config_root false;
  _ ← require_worker_for_data_config (worker_active E) config_root operation;
  mret config_root.
Definition worker_paths (runtime_root : option path) : RuntimePaths :=
  Paths (default (root (_runtime_paths E)) runtime_root).

Definition apply_staged_job (config_root : path) (runtime_root : option path) : M (option (dict value) + exn) :=
  config_root ← worker_root config_root "apply staged job";
  let paths := worker_paths runtime_root in
  _ ← ensure_runtime_layout paths true;
  claimed ← claim_next_job (time_value E) paths;
  match claimed with
  | None => mret (inl None)
  | Some claimed => apply_claimed config_root paths claimed
  end.

Definition finalize_staged_jobs (config_root : path) (runtime_root : option path) (reason : option string) : M nat :=
  config_root ← worker_root config_root "finalize staged jobs";
  let paths := worker_paths runtime_root in
  provisioning_lock E config_root
    (recovery ← _recover_staged_apply config_root false paths;
     let base := match reason with
                 | Some text => if bool_decide (text = "") then "privileged apply worker stopped before writing a result" else text
                 | None => "privileged apply worker stopped before writing a result"
                 end in
     let failure_reason := match ApplyTransaction.rollback_failures recovery with
                           | [] => base
                           | failures => base +:+ rollback_text failures
                           end in
     finalize_abandoned_active_jobs (time_value E) (service_gid E) paths failure_reason (rec_receipt recovery)).

(** [server.py]: apply-staged with [--drain], at most [turns] jobs; the results, the
    errors, and whether it went on to the end. *)
Fixpoint drain (turns : nat) (config_root : path) (runtime_root : option path) (results : list (dict value))
    (errors : list exn) : M (list (dict value) * list exn * bool) :=
  match turns with
  | O => mret (results, errors, false)
  | S turns =>
      r ← attempt (apply_staged_job config_root runtime_root);
      match r with
      | Ok (inl None) => mret (results, errors, true)
      | Ok (inl (Some result_)) => drain turns config_root runtime_root (results ++ [result_]) errors
      | Ok (inr x) => drain turns config_root runtime_root results (errors ++ [x])
      | Err x => if is_Exception x then mret (results, errors ++ [x], true) else raise x
      end
  end.

(** [server.py]: recover *)
Definition recover (config_root : path) : M () :=
  config_root ← check_root E config_root;
  _ ← require_worker_for_data_config (worker_active E) config_root "recover";
  provisioning_lock E config_root
    (_ ← _recover_staged_apply config_root true (_runtime_paths E);
     ex ← exists_ config_root;
     if ex : bool then grant_service_read_access platform_of config_root else mret tt).
(** [server.py]: complete-initial *)
Definition complete_initial (config_root : path) : M () :=
  config_root ← check_root E config_root;
  _ ← require_worker_for_data_config (worker_active E) config_root "complete initial provisioning";
  cleanup_rollback config_root.

(** ** Entry points *)

(** Whether a configuration root goes through the queue. *)
Definition goes_through_queue (config_root : path) : M bool :=
  if staging_enabled E then resolved ← resolve_path config_root; mret (bool_decide (resolved = data_config_root))
  else mret false.

Definition _provision_sync (payload filename : string) (config_root : path) (progress_id : option string)
    (allow_reapply : bool) (polls : nat) (other : nat → nat → M ()) : M (option (dict value)) :=
  '(tmpdir, config_path, files_path) ← prepare_bytes E payload filename;
  finally
    (staged ← goes_through_queue config_root;
     if staged : bool then
       job_id ← _progress_job_id progress_id;
       digest ← file_digest E config_path;
       _stage_and_wait_prepared_sync E job_id config_path files_path config_root filename (Some digest) allow_reapply polls other
     else
       provisioning_lock E config_root
         (r ← _provision_prepared_sync config_path files_path config_root allow_reapply; mret (Some r)))
    (cleanup_tmpdir tmpdir).

(** A new configuration text for the root, with its managed files. *)
Definition provision_text (candidate : string) (config_root : path) : M (dict value) :=
  '(tmpdir, config_path, _) ← prepare_bytes E candidate "config.toml";
  finally
    (ex ← exists_ (config_root // "files");
     _provision_prepared_sync config_path (if ex : bool then Some (config_root // "files") else None) config_root true)
    (cleanup_tmpdir tmpdir).

Definition _apply_config_operation_sync (operation : value) (config_root : path) (progress_id : option string)
    (polls : nat) (other : nat → nat → M ()) : M (option (dict value)) :=
  staged ← goes_through_queue config_root;
  if staged : bool then
    job_id ← _progress_job_id progress_id;
    _stage_and_wait_operation_sync E job_id operation config_root polls other
  else
    provisioning_lock E config_root
      (_ ← recover_config_root config_root;
       candidate ← operated_config E config_root operation;
       r ← provision_text candidate config_root;
       mret (Some r)).

Definition apply_config_transform (transform : dict value → result (dict value)) (config_root : path) : M (dict value) :=
  staged ← goes_through_queue config_root;
  if staged : bool then raise (provision_error "config transforms for /data/config must use staged operations")
  else
    provisioning_lock E config_root
      (current ← load_current_config_file platform_of config_root;
       candidate ← lift (d ← transform current; canonical_config_bytes d);
       provision_text candidate config_root).

Definition _validate_sync (payload filename : string) (config_root : path) : M (list string) :=
  '(tmpdir, config_path, _) ← prepare_bytes E payload filename;
  finally
    (parsed ← load_config_file platform_of config_path;
     with_temporary_directory tmp_dir "" (λ validation_dir,
       write_imported_state platform_of parsed config_path None (validation_dir // "config") config_root))
    (cleanup_tmpdir tmpdir).

Definition prepare_path (source_path : path) : M prepared :=
  prepare_source_path (tar_members E) (bytes_content E) (json_text E) (GZIP_BIN E) (ZSTD_BIN E) source_path.
Definition import_config_from_path (source_path config_root : path) (polls : nat) (other : nat → nat → M ())
    : M (option (dict value)) :=
  config_root ← check_root E config_root;
  '(tmpdir, config_path, files_path) ← prepare_path source_path;
  finally
    (staged ← goes_through_queue config_root;
     if staged : bool then
       job_id ← ask e_tmp;
       digest ← file_digest E config_path;
       _stage_and_wait_prepared_sync E job_id config_path files_path config_root (name_of config_path) (Some digest) true polls other
     else
       provisioning_lock E config_root
         (r ← _provision_prepared_sync config_path files_path config_root true; mret (Some r)))
    (cleanup_tmpdir tmpdir).
Definition validate_config_from_path (source_path : path) (config_root : option path) : M (list string) :=
  '(tmpdir, config_path, _) ← prepare_path source_path;
  finally
    (c ← read_content config_path;
     _validate_sync (bytes_of E c) (name_of config_path) (default data_config_root config_root))
    (cleanup_tmpdir tmpdir).

Definition locked_export_config_bytes (config_root : path) : M (list member) :=
  config_root ← check_root E config_root;
  provisioning_lock E config_root (export_bundle_bytes (tar_size E) (gzip_size E) config_root).
End worker.
