(* ===== verification/WorkerFacts.v ===== *)
(** * The privileged worker: what a reported success means *)

From Stdlib Require Import Ascii.
From S2P Require Import Prelude PyStr PyVal PyDict ConfigCheck Config ConfigFacts ConfigValue FS FSLogic RunLogic Staging StagedJob StagingFacts Activation ApplyTransaction ApplyFacts Auth Quadlet Bundle Authorize Render Stage Worker.

Local Open Scope Z_scope.

(** ** Runs and frames *)

Lemma run_touches {A} (D : path → Prop) (m : M A) e w r w' :
  touches D m → env_ok e → m e w = (r, w') → changes D (w_fs w) (w_fs w').
Proof.
  intros Hm He Hr. destruct (Hm _ _ (changes_refl D (w_fs w)) e w He eq_refl) as (r' & w'' & Hr' & Ht & _).
  rewrite Hr in Hr'. by injection Hr' as <- <-.
Qed.
Lemma run_unchanged {A} (m : M A) e w r w' : read_only m → m e w = (r, w') → w_fs w' = w_fs w.
Proof. intros Hm Hr. specialize (Hm e w). rewrite Hr in Hm. apply Hm. Qed.
Lemma run_rd {A} (f : fs → result A) e w a w' : rd f e w = (Ok a, w') → f (w_fs w) = Ok a ∧ w_fs w' = w_fs w.
Proof. unfold rd. destruct (e_rfault e (w_n w)); [done|]. by intros [= -> <-]. Qed.
Lemma run_wr f e w u w' : wr f e w = (Ok u, w') → f (w_fs w) = Ok (w_fs w').
Proof. unfold wr. destruct (e_wfault e (w_n w)); [done|]. destruct (f (w_fs w)); [|done]. by intros [= _ <-]. Qed.

(** ** Writing a JSON file *)

Lemma kind_insert s p n : kind_at (<[p:=n]> s) p = Some (n_kind n).
Proof. unfold kind_at. by rewrite lookup_insert_eq. Qed.
Lemma run_write_new mode p c e w w' : write_new mode p c e w = (Ok tt, w') → kind_at (w_fs w') p = Some (KReg c).
Proof.
  unfold write_new. intros (n & w1 & _ & ([] & w2 & Hc & (t & w3 & Ht & Hu)%run_bind)%run_bind)%run_bind.
  apply run_wr in Hu. unfold update_at in Hu. destruct (w_fs w3 !! p) eqn:E; [|done]. injection Hu as <-.
  apply kind_insert.
Qed.
Lemma run_rename p q e w w' : rename p q e w = (Ok tt, w') → kind_at (w_fs w') q = kind_at (w_fs w) p.
Proof.
  intros H%run_wr. apply rename_at_Ok in H as [[-> ->]|[Ha ->]]; [done|].
  unfold kind_at. rewrite lookup_move by done.
  rewrite decide_True by apply below_refl. by rewrite drop_ge, app_nil_r by done.
Qed.
Lemma run_write_json_atomic p payload mode owner e w w' : env_ok e →
  write_json_atomic p payload mode owner e w = (Ok tt, w') → kind_at (w_fs w') p = Some (KReg (json_file payload)).
Proof.
  intros He. unfold write_json_atomic.
  intros ([] & w1 & _ & (suffix & w2 & _ & ([] & w3 & Hw & ([] & w4 & Hs & H)%run_bind)%run_bind)%run_bind)%run_bind.
  apply run_write_new in Hw. set (tmp := parent p // _) in *.
  assert (∀ {A} (m : M A) v r v', touches (λ _, False) m → m e v = (r, v') → kind_at (w_fs v') tmp = kind_at (w_fs v) tmp) as Hk.
  { intros A m v r v' Hm Hr. apply (run_touches _ _ _ _ _ _ Hm He Hr). tauto. }
  apply Hk in Hs; [|apply touches_fsync].
  apply run_catch in H as [H|(x & w5 & _ & _ & H)].
  2: { apply run_bind in H as (u & w6 & _ & H). done. }
  apply run_bind in H as ([] & w5 & Ho & ([] & w6 & Hc & ([] & w7 & Hr & Hf)%run_bind)%run_bind).
  apply Hk in Ho; [|destruct owner as [[]|]; [apply touches_chown|apply touches_ret]].
  apply Hk in Hc; [|apply touches_chmod]. apply run_rename in Hr.
  rewrite <-Hw, <-Hs, <-Ho, <-Hc, <-Hr.
  apply (run_touches (λ _, False) _ _ _ _ _ (touches_fsync_directory _ _) He Hf). tauto.
Qed.

(** ** Outside the configuration root *)

Abbreviation croot := data_config_root.
Definition outside (x : path) : Prop := ¬ below croot x.

Lemma outside_snoc p x : outside p → p ≠ ["data"] → outside (p // x).
Proof.
  intros Hp Hne [r Hr]. destruct r as [|y r _] using rev_ind.
  - rewrite app_nil_r in Hr. change croot with (["data"] // "config") in Hr. apply app_inj_tail in Hr as [Hr _]. done.
  - rewrite (assoc_L (++)) in Hr. apply app_inj_tail in Hr as [-> _]. apply Hp. by eexists.
Qed.
Lemma outside_below p x : apart p croot → below p x → outside x.
Proof. intros [H1 H2] Hp Hr. by destruct (below_both p croot x). Qed.
Lemma outside_tmp x : below tmp_dir x → outside x.
Proof. intros [r ->] [r' Hr]. discriminate Hr. Qed.
Lemma outside_above p x : apart p croot → below x p → outside x.
Proof. intros [H1 H2] Hx Hr. apply H2. unfold below in *. by etrans. Qed.
Lemma outside_sibling suffix x : suffix ≠ "" → below (sibling croot suffix) x → outside x.
Proof.
  intros Hs [r ->] [r' Hr]. unfold sibling in Hr. simpl in Hr. injection Hr as Hr _.
  destruct suffix; [done|]. apply (f_equal String.length) in Hr. simpl in Hr. lia.
Qed.

Lemma touches_rmtree_if_exists (D : path → Prop) p : (∀ x, below p x → D x) → touches D (rmtree_if_exists p).
Proof. intros H. unfold rmtree_if_exists. touches. by apply touches_rmtree. Qed.
Lemma touches_fsync_dir (D : path → Prop) p : touches D (_fsync_directory p).
Proof. unfold _fsync_directory. touches. Qed.
Lemma touches_command (D : path → Prop) argv : touches D (run_command argv).
Proof. unfold run_command, run_command_input. touches. Qed.
Lemma touches_read_content (D : path → Prop) p : touches D (read_content p).
Proof. unfold read_content. touches. Qed.
#[export] Hint Resolve touches_fsync_dir touches_command touches_read_content : touches.

Lemma touches_cleanup_rollback : touches outside (cleanup_rollback croot).
Proof.
  unfold cleanup_rollback. touches.
  - apply touches_rmtree_if_exists. intros x. by apply outside_sibling.
  - apply touches_unlink_missing_ok. by apply (outside_sibling PROMOTION_MARKER), below_refl.
Qed.

(** Activation only reads and runs commands. *)
Lemma touches_activation (D : path → Prop) cmd uid p : touches D (run_activation_sequence cmd uid p).
Proof.
  unfold run_activation_sequence, load_activation_policy, load_json, validate_runtime_activation_policy, activate_services,
    restart_activation_services, report_runtime_services, check_required_services, _load_runtime_unit_modes,
    _load_runtime_units, check_unit, restart_unit, past, remaining_timeout, _check_service, _restart_service, systemctl,
    command_timeout, remaining_timeout, time_time.
  touches.
Qed.
Lemma touches_rollback_activation cmd uid : touches outside (run_rollback_activation cmd uid croot).
Proof.
  unfold run_rollback_activation. pose proof (touches_activation outside cmd uid croot). touches.
  apply touches_unlink_missing_ok. by apply (outside_sibling ROLLBACK_ACTIVATION_MARKER), below_refl.
Qed.

(** ** The committed receipt *)

Definition receipt_file : path := receipt_path croot.

(** The receipt on disk: committed, of this job, with this result. *)
Definition committed_receipt (s : fs) (job_id : string) (result_ : dict value) : Prop :=
  ∃ d n r, kind_at s receipt_file = Some (KReg (CJson (VDict d) n)) ∧ decode_receipt receipt_file d = Ok r ∧
    r_phase r = COMMITTED ∧ r_job_id r = job_id ∧ r_result r = result_.

Lemma receipt_inside : ¬ outside receipt_file.
Proof. intros H. apply H. by eexists. Qed.
Lemma committed_kept s t j d : kind_at t receipt_file = kind_at s receipt_file → committed_receipt s j d → committed_receipt t j d.
Proof. intros H (d' & n & r & Hk & ?). exists d', n, r. by rewrite H. Qed.
Lemma run_committed_kept {A} (m : M A) e w r w' j d : env_ok e → touches outside m → m e w = (r, w') →
  committed_receipt (w_fs w) j d → committed_receipt (w_fs w') j d.
Proof.
  intros He Hm Hr. apply committed_kept. apply (run_touches _ _ _ _ _ _ Hm He Hr). apply receipt_inside.
Qed.

Lemma read_json_run p e w d w' : read_json p e w = (Ok d, w') →
  (∃ n, kind_at (w_fs w) p = Some (KReg (CJson (VDict d) n))) ∧ w_fs w' = w_fs w.
Proof.
  unfold read_json. intros (v & w1 & Hv & H)%run_bind. destruct v; try done. apply run_ret in H as [-> ->].
  apply run_catch in Hv as [Hv|(x & w2 & _ & _ & Hv)]; [|done].
  apply run_bind in Hv as (c & w2 & Hc & Hl). apply run_lift in Hl as [Hl ->]. apply run_rd in Hc as [Hc Hw].
  split; [|done]. unfold read_control_at, lstat_at in Hc. unfold kind_at.
  destruct (w_fs w !! p) as [n|]; [|done]. simpl in *. destruct (n_kind n) as [c'| | |]; try done.
  destruct (_ <? _); [done|]. injection Hc as ->. destruct c as [v m| |]; try done. injection Hl as ->. by exists m.
Qed.
Lemma run_read_receipt e w r w' : read_apply_receipt croot e w = (Ok (Some r), w') →
  w_fs w' = w_fs w ∧ ∃ d n, kind_at (w_fs w) receipt_file = Some (KReg (CJson (VDict d) n)) ∧ decode_receipt receipt_file d = Ok r.
Proof.
  unfold read_apply_receipt. intros (st & w1 & Hst & H)%run_bind.
  apply run_unchanged in Hst; [|unfold lstat; read_only]. destruct st as [n|]; [|by apply run_ret in H as [? _]].
  apply run_bind in H as (u & w2 & Hu & H). apply run_lift in Hu as [_ ->].
  apply run_bind in H as (u2 & w3 & Hu2 & H). apply run_lift in Hu2 as [_ ->].
  apply run_bind in H as (d & w4 & Hd & H). apply read_json_run in Hd as [[m Hd] Hw].
  apply run_bind in H as (r' & w5 & Hr & H). apply run_lift in Hr as [Hr ->]. apply run_ret in H as [[= <-] ->].
  split; [congruence|]. exists d, m. rewrite <-Hst. split; [exact Hd|exact Hr].
Qed.

(** A receipt that was read, as [committed_result_for_manifest] uses it. *)
Lemma committed_of_read s d n r j m result_ :
  kind_at s receipt_file = Some (KReg (CJson (VDict d) n)) → decode_receipt receipt_file d = Ok r →
  committed_result_for_manifest (Some r) j m = Some result_ → committed_receipt s j result_.
Proof.
  intros Hk Hd. unfold committed_result_for_manifest. destruct m as [m|]; [|done].
  destruct (bool_decide (r_phase r = COMMITTED)) eqn:E1, (bool_decide (r_job_id r = j)) eqn:E2; simpl; try done.
  destruct (eq_str _ _); [|done]. intros [= <-]. apply bool_decide_eq_true in E1, E2. by exists d, n, r.
Qed.

Lemma run_mark_committed t manifest result_ e w w' : env_ok e → from_manifest manifest result_ = Ok t →
  mark_committed t croot e w = (Ok tt, w') → committed_receipt (w_fs w') (t_job_id t) result_.
Proof.
  intros He Ht. unfold mark_committed. intros (r & w1 & _ & H)%run_bind.
  destruct (is_promoted_receipt t r); [|done]. apply run_write_json_atomic in H; [|done].
  destruct (decode_receipt_payload manifest result_ t COMMITTED receipt_file Ht) as [Hd _].
  eexists _, _, _. split; [exact H|]. split; [exact Hd|]. done.
Qed.

(** ** The path of a success *)

Lemma run_validate_root b p e w q w' : validate_config_root b p false e w = (Ok q, w') → q = croot.
Proof.
  unfold validate_config_root. intros (r & w1 & _ & H)%run_bind. case_bool_decide; [done|].
  apply run_bind in H as (ex & w2 & _ & (l & w3 & _ & H)%run_bind). destruct l; [done|]. simpl in H.
  case_bool_decide as Hr; [|done]. by apply run_ret in H as [-> _].
Qed.

Lemma dget_dict_update k (d d' : dict value) : wf_dict d' →
  dget k (dict_update d d') = match dget k d' with Some v => Some v | None => dget k d end.
Proof.
  unfold dict_update. revert d. induction d' as [|[k' v] d' IH]; intros d Hwf; [done|].
  apply NoDup_cons in Hwf as [Hk Hwf]. simpl in Hk. simpl. rewrite IH by done. destruct (decide (k = k')) as [->|Hne].
  - apply dget_None in Hk. rewrite Hk. by rewrite dget_dset_eq.
  - rewrite dget_dset_ne by done. done.
Qed.

Lemma run_complete cmd uid commit e w fl st w' :
  complete_reapply cmd uid croot (Some commit) e w = (Ok (true, fl, st), w') →
  ∃ w1 w2, commit e w1 = (Ok tt, w2) ∧ cleanup_rollback croot e w2 = (Ok tt, w').
Proof.
  unfold complete_reapply. intros (f & w1 & _ & H)%run_bind. case_bool_decide.
  - apply run_bind in H as ([] & w2 & Hc & ([] & w3 & Hr & [_ ->]%run_ret)%run_bind). eauto.
  - apply run_bind in H as (ex & w2 & _ & (u & w3 & _ & (b & w4 & _ & H)%run_bind)%run_bind). destruct b.
    + apply run_bind in H as (rf & w5 & _ & H). case_bool_decide; by apply run_ret in H as [? _].
    + by apply run_ret in H as [? _].
Qed.

Section worker.
Context (E : machine).

Lemma touches_best_effort (D : path → Prop) argv : touches D (run_best_effort argv).
Proof. unfold run_best_effort. touches. Qed.
Lemma touches_rebind (D : path → Prop) : touches D (_schedule_bootstrap_rebind E).
Proof. unfold _schedule_bootstrap_rebind. pose proof (touches_best_effort D). touches. Qed.
Lemma touches_schedule (D : path → Prop) v : touches D (schedule_bootstrap_rebind E v).
Proof. unfold schedule_bootstrap_rebind. pose proof (touches_rebind D). touches. Qed.
Lemma touches_wan (D : path → Prop) : touches D (reconcile_bootstrap_wan E).
Proof. unfold reconcile_bootstrap_wan. pose proof (touches_best_effort D). touches. Qed.

Lemma from_manifest_job manifest result_ t : from_manifest manifest result_ = Ok t → vget "job_id" manifest = VStr (t_job_id t).
Proof.
  unfold from_manifest. intros H. inv_ok. unfold vget_or, vget in *. destruct (dget "job_id" manifest) as [v|]; simpl in *; [|done].
  destruct v; try done. simpl in Ha. by apply validate_job_id_Ok in Ha as [-> _].
Qed.

(** A promotion that returns has committed its receipt, which nothing after the
    commit touches. *)
Lemma run_committed_cleanup t manifest result_ e w1 w2 w3 : env_ok e → from_manifest manifest result_ = Ok t →
  mark_committed t croot e w1 = (Ok tt, w2) → cleanup_rollback croot e w2 = (Ok tt, w3) →
  committed_receipt (w_fs w3) (t_job_id t) result_.
Proof.
  intros He Ht Hc Hr. eapply run_committed_kept; [done|apply touches_cleanup_rollback|exact Hr|]. by eapply run_mark_committed.
Qed.
Lemma run_promote_reapply durable manifest e w res w' j : env_ok e → vget "job_id" manifest = VStr j →
  promote_reapply E croot durable manifest e w = (Ok res, w') → committed_receipt (w_fs w') j res.
Proof.
  intros He Hj. unfold promote_reapply.
  intros (res' & w1 & _ & (t & w2 & Ht & H)%run_bind)%run_bind. apply run_lift in Ht as [Ht ->].
  pose proof (from_manifest_job _ _ _ Ht) as Hj'. rewrite Hj in Hj'. injection Hj' as ->.
  do 5 (apply run_bind in H as (? & ? & _ & H)).
  apply run_bind in H as ([[ok fl] st] & w3 & Hc & H). destruct ok; [|done].
  unfold complete in Hc; apply run_complete in Hc as (v1 & v2 & Hm & Hcl).
  pose proof (run_committed_cleanup _ _ _ _ _ _ _ He Ht Hm Hcl) as Hd.
  apply run_bind in H as (u & w4 & Hs & [<- ->]%run_ret).
  eapply run_committed_kept; [done| |exact Hs|exact Hd]. pose proof (touches_schedule outside). touches.
Qed.
Lemma run_promote_initial durable manifest e w res w' j : env_ok e → vget "job_id" manifest = VStr j →
  promote_initial E croot durable manifest e w = (Ok res, w') → committed_receipt (w_fs w') j res.
Proof.
  intros He Hj. unfold promote_initial.
  intros (u0 & w0 & _ & (res' & w1 & _ & (t & w2 & Ht & H)%run_bind)%run_bind)%run_bind. apply run_lift in Ht as [Ht ->].
  pose proof (from_manifest_job _ _ _ Ht) as Hj'. rewrite Hj in Hj'. injection Hj' as ->.
  do 3 (apply run_bind in H as (? & ? & _ & H)).
  apply run_bind in H as ([] & w3 & Hc & H).
  assert (committed_receipt (w_fs w3) (t_job_id t) res') as Hd.
  { destruct (bootstrap_activation E).
    - apply run_bind in Hc as ([[ok fl] st] & w4 & Hc & Hi). destruct ok.
      + apply run_ret in Hi as [_ ->]. unfold complete in Hc; apply run_complete in Hc as (v1 & v2 & Hm & Hcl).
        exact (run_committed_cleanup _ _ _ _ _ _ _ He Ht Hm Hcl).
      + unfold initial_failed in Hi. case_bool_decide; [done|].
        apply run_bind in Hi as (? & ? & _ & Hi). by apply run_bind in Hi as (? & ? & _ & Hi).
    - apply run_bind in Hc as ([] & w4 & Hm & Hcl). exact (run_committed_cleanup _ _ _ _ _ _ _ He Ht Hm Hcl). }
  apply run_bind in H as (u & w4 & Hs & [<- ->]%run_ret).
  eapply run_committed_kept; [done|apply touches_wan|exact Hs|exact Hd].
Qed.
Lemma run_promote candidate bundle manifest e w res w' j : env_ok e → vget "job_id" manifest = VStr j →
  _promote_pre_rendered_candidate_sync E candidate bundle croot manifest e w = (Ok res, w') → committed_receipt (w_fs w') j res.
Proof.
  intros He Hj. unfold _promote_pre_rendered_candidate_sync. intros (q & w1 & Hq & H)%run_bind.
  apply run_validate_root in Hq as ->. apply run_bind in H as (? & ? & _ & (b & ? & _ & H)%run_bind).
  do 3 (apply run_bind in H as (? & ? & _ & H)). destruct b.
  - by eapply run_promote_reapply.
  - by eapply run_promote_initial.
Qed.
End worker.

(** ** A job from its claim to its result *)

Section apply.
Context (E : machine).

Lemma run_manifest_job job_id c cr br parsed ws fn d al op re pr e w m w' :
  _manifest_for_staged_candidate E job_id c cr br parsed ws fn d al op re pr e w = (Ok m, w') →
  NoDup (dkeys m) ∧ vget "job_id" m = VStr job_id.
Proof.
  unfold _manifest_for_staged_candidate.
  intros ([u g] & w1 & _ & (dg & w2 & _ & (ca & w3 & _ & (bf & w4 & _ & (pres & w5 & _ & (now & w6 & _ & [<- _]%run_ret)%run_bind)%run_bind)%run_bind)%run_bind)%run_bind)%run_bind.
  split; [|done]. unfold dkeys. simpl. compute_done.
Qed.
Lemma run_new_tmp e w p w' : new_temporary_directory e w = (Ok p, w') → below tmp_dir p.
Proof. unfold new_temporary_directory. intros (n & w1 & _ & (u & w2 & _ & [<- _]%run_ret)%run_bind)%run_bind. by eexists. Qed.
Lemma run_prepare_bytes source filename e w o c f w' : prepare_bytes E source filename e w = (Ok (o, c, f), w') →
  ∀ p, o = Some p → below tmp_dir p.
Proof.
  unfold prepare_bytes, prepare_source_bytes. intros ([] & w1 & _ & H)%run_bind p ->. destruct (detect_bundle_kind _ _).
  - unfold prepare_bundle_from_bytes in H. apply run_bind in H as (q & w2 & Hq & (u & w3 & _ & (v & w4 & _ & [[= -> _ _] _]%run_ret)%run_bind)%run_bind).
    by eapply run_new_tmp.
  - apply run_bind in H as (q & w2 & Hq & (u & w3 & _ & [[= -> _ _] _]%run_ret)%run_bind). by eapply run_new_tmp.
Qed.
Lemma run_source_tmp root manifest a payload e w src w' : source_of_request E root manifest a payload e w = (Ok src, w') →
  ∀ p, src_tmpdir src = Some p → below tmp_dir p.
Proof.
  unfold source_of_request. intros (op & w1 & _ & H)%run_bind. destruct op as [v|].
  - apply run_bind in H as (c & w2 & _ & ([[o q] f] & w3 & Hp & (b & w4 & _ & [<- _]%run_ret)%run_bind)%run_bind).
    by eapply run_prepare_bytes.
  - apply run_bind in H as (c & w2 & _ & ([[o q] f] & w3 & Hp & [<- _]%run_ret)%run_bind). by eapply run_prepare_bytes.
Qed.
Lemma touches_cleanup_tmpdir o : (∀ p, o = Some p → below tmp_dir p) → touches outside (cleanup_tmpdir o).
Proof.
  intros H. destruct o as [p|]; simpl; touches. apply touches_rmtree. intros x Hx. apply outside_tmp.
  specialize (H p eq_refl). unfold below in *. by etrans.
Qed.

Lemma run_apply_source snapshot manifest lt sg src e w res w' j : env_ok e → vget "job_id" manifest = VStr j →
  apply_source E snapshot croot manifest lt sg src e w = (Ok res, w') → committed_receipt (w_fs w') j res.
Proof.
  intros He Hj. unfold apply_source. intros (u & w1 & _ & H)%run_bind.
  do 5 (apply run_bind in H as (? & ? & _ & H)). apply run_bind in H as (m & w2 & Hm & H).
  apply run_manifest_job in Hm as [Hnd Hm]. eapply run_promote; [done| |exact H].
  unfold vget in *. rewrite dget_dict_update by done. destruct (dget "job_id" m) as [v|]; [|done].
  simpl in *. rewrite Hm. unfold str_of. by destruct (dget "job_id" manifest) as [[]|]; simplify_eq/=.
Qed.
Lemma run_render snapshot manifest paths lt e w res w' j : env_ok e → vget "job_id" manifest = VStr j →
  _render_verified_staged_candidate_sync E snapshot croot manifest paths lt e w = (Ok res, w') →
  committed_receipt (w_fs w') j res.
Proof.
  intros He Hj. unfold _render_verified_staged_candidate_sync.
  intros (u & w1 & _ & (az & w2 & _ & ([sg src] & w3 & Hs & (w4 & Ha & Hc)%run_finally)%run_bind)%run_bind)%run_bind.
  eapply run_committed_kept; [done| |exact Hc|by eapply run_apply_source]. apply touches_cleanup_tmpdir.
  assert (∀ s0 v v' q, source_of_snapshot snapshot manifest e v = (Ok s0, v') → src_tmpdir s0 = Some q → below tmp_dir q) as Hsnap.
  { unfold source_of_snapshot. intros s0 v v' q (? & ? & _ & [<- _]%run_ret)%run_bind. done. }
  intros p Hp. destruct az as [[pl|] [a|]]; apply run_bind in Hs as (s0 & w5 & Hs & [[= <- <-] _]%run_ret); try by eapply Hsnap.
  by eapply run_source_tmp.
Qed.

Lemma run_verified job paths b e w m w' : verify_staged_job (sha256 E) MAX_SOURCE_BYTES job paths b e w = (Ok m, w') →
  vget "job_id" m = VStr (cj_job_id job).
Proof.
  unfold verify_staged_job. intros (? & ? & _ & (m' & ? & _ & (? & ? & _ & (? & ? & Hj & H)%run_bind)%run_bind)%run_bind)%run_bind.
  do 5 (apply run_bind in H as (? & ? & _ & H)). apply run_bind in H as (? & ? & _ & [-> _]%run_ret).
  apply run_lift in Hj as [Hj _]. unfold raise_if, eq_str in Hj. destruct (vget "job_id" m) as [ | | | | s | | |]; try done.
  simpl in Hj. by case_bool_decide; subst.
Qed.

Lemma run_verified_snapshot paths claimed lt snapshot e w m r w' : env_ok e →
  run_snapshot E croot paths claimed lt snapshot e w = (Ok (m, r), w') →
  ∀ res, r = Ok res → committed_receipt (w_fs w') (cj_job_id claimed) res.
Proof.
  intros He. unfold run_snapshot. intros (v & w1 & Hv & H)%run_bind res ->.
  apply run_attempt in Hv as (r0 & [= <-] & Hv). destruct v as [mf|x].
  - apply run_bind in Hv as (? & ? & _ & (? & ? & _ & Hv)%run_bind). apply run_verified in Hv. simpl in Hv.
    apply run_bind in H as (r1 & w2 & Hr & [[= <- ->] ->]%run_ret). apply run_attempt in Hr as (r2 & [= <-] & Hr).
    unfold provisioning_lock in Hr. apply run_bind in Hr as (? & ? & _ & (? & ? & _ & Hr)%run_bind). by eapply run_render.
  - by apply run_ret in H as [? _].
Qed.
Lemma run_run_claimed paths claimed lt e w m r w' : env_ok e →
  run_claimed E croot paths claimed lt e w = (Ok (m, r), w') →
  ∀ res, r = Ok res → committed_receipt (w_fs w') (cj_job_id claimed) res.
Proof.
  intros He. unfold run_claimed. intros (sfx & w1 & _ & (md & w2 & _ & H)%run_bind)%run_bind res ->.
  destruct md as [u|x]; [|by apply run_ret in H as [? _]].
  apply run_bind in H as ([m' r'] & w3 & Hs & (cl & w4 & Hc & [Hr ->]%run_ret)%run_bind).
  apply run_attempt in Hc as (r0 & [= <-] & Hc). destruct cl as [u'|x]; [|done]. injection Hr as <- ->.
  eapply run_committed_kept; [done| |exact Hc|by eapply run_verified_snapshot].
  apply touches_rmtree. intros x Hx. apply outside_tmp. unfold below in *. etrans; [|exact Hx]. by eexists.
Qed.

(** ** Publication *)

Context (paths : RuntimePaths) (Hpaths : apart (root paths) croot).

Lemma outside_root x : below (root paths) x → outside x.
Proof. by apply outside_below. Qed.
Lemma outside_ancestor x : below x (root paths) → outside x.
Proof. by apply outside_above. Qed.
Lemma outside_near n x : below x (root paths // n) → outside x.
Proof.
  intros Hx. destruct (below_both _ _ _ Hx (below_app (root paths) [n])) as [H|H]; [by apply outside_ancestor|by apply outside_root].
Qed.
Lemma touches_layout b : touches outside (ensure_runtime_layout paths b).
Proof.
  unfold ensure_runtime_layout, _ensure_directory. touches; apply touches_mkdir_parents; intros x Hx;
    [by apply outside_ancestor|by eapply outside_near..].
Qed.
Lemma touches_write_result job_id payload : touches outside (write_result (time_value E) (service_gid E) paths job_id payload).
Proof.
  unfold write_result, _verify_results_directory, result_path. pose proof (touches_layout true). touches.
  assert (parent (results paths // (job_id +:+ ".json")) = results paths) as Hq by apply removelast_last.
  apply touches_write_json_atomic; rewrite Hq, ?name_of_snoc; [| |done].
  - intros x. by apply outside_near.
  - intros y x Hx. apply outside_root. unfold below in *. etrans; [|exact Hx]. unfold results. rewrite <-app_assoc. apply below_app.
Qed.
Lemma touches_publish job_id payload : touches outside (publish E paths job_id payload).
Proof. unfold publish. pose proof (touches_write_result job_id payload). touches. Qed.

(** The result file of a job: the payload, with the version, the job and a time. *)
Definition published (s : fs) (job_id : string) (payload : dict value) : Prop :=
  ∃ now, kind_at s (result_path paths job_id) =
    Some (KReg (json_file (dict_update [("version", VInt RESULT_VERSION); ("job_id", VStr job_id);
                                        ("completed_at", time_value E now)] payload))).
Lemma run_publish job_id payload e w u w' : env_ok e → publish E paths job_id payload e w = (Ok u, w') →
  published (w_fs w') job_id payload.
Proof.
  intros He. unfold publish, write_result. intros (p & w1 & H & [_ ->]%run_ret)%run_bind.
  apply run_bind in H as (? & ? & _ & (now & ? & _ & (? & ? & _ & (? & ? & _ & (? & ? & _ & (? & ? & _ & H)%run_bind)%run_bind)%run_bind)%run_bind)%run_bind).
  apply run_bind in H as ([] & w2 & Hw & [_ ->]%run_ret). exists now. by eapply run_write_json_atomic.
Qed.
Lemma run_cleanup_published claimed e w r w' j payload : env_ok e → cj_path claimed = active paths // cj_job_id claimed →
  cleanup_claimed_job claimed e w = (r, w') → published (w_fs w) j payload → published (w_fs w') j payload.
Proof.
  intros He Hcj Hr [now Hn]. exists now. rewrite <-Hn.
  apply (run_touches (below (cj_path claimed)) _ _ _ _ _ (touches_rmtree_ignore_errors _ _ (λ _ H, H)) He Hr).
  rewrite Hcj. unfold result_path, active, results. rewrite <-!app_assoc. intros [q Hq]. simpl in Hq.
  rewrite <-app_assoc in Hq. apply (inj _) in Hq. done.
Qed.

(** ** Reconciliation *)

Lemma touches_read_result j : touches outside (read_result paths j).
Proof. unfold read_result, _verify_results_directory. touches. Qed.
Lemma touches_unfinished r : touches outside (unfinished_committed_receipt paths r).
Proof.
  unfold unfinished_committed_receipt, _committed_receipt_for_active_job.
  destruct r as [r|]; touches; apply touches_read_result.
Qed.

(** The receipt a recovery returns is the one on disk when it is committed. *)
Definition on_disk (s : fs) (r : option StagedApplyReceipt) : Prop :=
  ∀ x, r = Some x → r_phase x = COMMITTED → committed_receipt s (r_job_id x) (r_result x).
Lemma run_read_on_disk e w r w' : read_apply_receipt croot e w = (Ok r, w') → on_disk (w_fs w') r.
Proof. intros H x -> Hx. apply run_read_receipt in H as [Hw (d & n & Hk & Hd)]. rewrite Hw. by exists d, n, x. Qed.
Lemma on_disk_kept {A} (m : M A) e w v w' r : env_ok e → touches outside m → m e w = (v, w') →
  on_disk (w_fs w) r → on_disk (w_fs w') r.
Proof. intros He Hm Hr H x Hx Hp. eapply run_committed_kept; [done..|]. by apply H. Qed.
Lemma run_recover_interrupted e w r w' : env_ok e → recover_interrupted_apply croot e w = (Ok r, w') →
  on_disk (w_fs w') (rec_receipt r).
Proof.
  intros He. unfold recover_interrupted_apply. intros (p & w1 & _ & H)%run_bind. destruct p.
  - apply run_bind in H as (? & w2 & _ & (rc & w3 & Hr & [<- ->]%run_ret)%run_bind). by eapply run_read_on_disk.
  - apply run_bind in H as (rc & w2 & Hr & H). destruct (is_phase COMMITTED rc) eqn:Hp.
    + apply run_bind in H as (? & w3 & H1 & (? & w4 & H2 & [<- ->]%run_ret)%run_bind). simpl.
      eapply on_disk_kept; [done|apply touches_cleanup_rollback|exact H2|].
      eapply on_disk_kept; [done| |exact H1|by eapply run_read_on_disk].
      apply touches_rmtree_if_exists. intros y. by apply outside_sibling.
    + apply run_bind in H as (b & w3 & _ & H). destruct b.
      * by apply run_bind in H as (? & w4 & _ & [<- _]%run_ret).
      * do 4 (apply run_bind in H as (? & ? & _ & H)). apply run_bind in H as (rc' & w4 & Hr' & [<- ->]%run_ret).
        by eapply run_read_on_disk.
Qed.
Lemma run_recover_staged e w r w' : env_ok e → _recover_staged_apply E croot false paths e w = (Ok r, w') →
  on_disk (w_fs w') (rec_receipt r).
Proof.
  intros He. unfold _recover_staged_apply. intros (r0 & w1 & Hr & (rc & w2 & Hu & (u & w3 & Hb & (r1 & w4 & Ha & H)%run_bind)%run_bind)%run_bind)%run_bind.
  apply run_recover_interrupted in Hr; [|done].
  eapply (on_disk_kept _ _ _ _ _ _ He (touches_unfinished _) Hu) in Hr.
  eapply on_disk_kept in Hr; [|done| |exact Hb]; [|pose proof (touches_rebind E outside); touches].
  assert (on_disk (w_fs w4) (rec_receipt r1)) as Hr1.
  { destruct (restored_rollback r0).
    - apply run_bind in Ha as (f & w5 & Ha & [<- ->]%run_ret). simpl. eapply on_disk_kept; [done|apply touches_rollback_activation|exact Ha|done].
    - by apply run_ret in Ha as [<- ->]. }
  apply run_bind in H as (? & w5 & Hw & [<- ->]%run_ret). eapply on_disk_kept; [done| |exact Hw|done].
  pose proof (touches_wan E outside). touches.
Qed.
Lemma committed_result_Some r j m res : committed_result_for_manifest r j m = Some res →
  ∃ x, r = Some x ∧ r_phase x = COMMITTED ∧ r_job_id x = j ∧ r_result x = res.
Proof.
  unfold committed_result_for_manifest. destruct r as [x|], m as [m|]; try done. intros H. exists x.
  repeat case_bool_decide; simpl in H; try done. by destruct (eq_str _ _); simplify_eq/=.
Qed.
Lemma run_reconcile j m x e w res w' : env_ok e → reconcile E croot paths j m x e w = (Ok (Some res), w') →
  committed_receipt (w_fs w') j res ∧ published (w_fs w') j (success_payload res).
Proof.
  intros He. unfold reconcile, provisioning_lock. intros (r & w1 & Hr & (? & w2 & Hp & [Hc ->]%run_ret)%run_bind)%run_bind.
  apply run_bind in Hr as (? & ? & _ & (? & ? & _ & Hr)%run_bind). apply run_recover_staged in Hr; [|done].
  rewrite Hc in Hp. apply committed_result_Some in Hc as (y & Hy & Hph & <- & <-). split; [|by eapply run_publish].
  eapply run_committed_kept; [done|apply touches_publish|exact Hp|by apply Hr].
Qed.

(** ** The claim *)

Lemma outside_in_root n x y : below (root paths // n // x) y → outside y.
Proof. intros H. apply outside_root. unfold below in *. etrans; [|exact H]. rewrite <-app_assoc. apply below_app. Qed.

(** A job reported as applied: its receipt is committed, its result published. *)
Definition applied (s : fs) (job_id : string) (result_ : dict value) : Prop :=
  committed_receipt s job_id result_ ∧ published s job_id (success_payload result_).

Lemma run_apply_claimed claimed e w res w' : env_ok e → cj_path claimed = active paths // cj_job_id claimed →
  apply_claimed E croot paths claimed e w = (Ok (inl (Some res)), w') → applied (w_fs w') (cj_job_id claimed) res.
Proof.
  intros He Hcj. unfold apply_claimed.
  assert (∀ v r v' d, cleanup_claimed_job claimed e v = (r, v') → applied (w_fs v) (cj_job_id claimed) d →
    applied (w_fs v') (cj_job_id claimed) d) as Hcl.
  { intros v r v' d Hr [H1 H2]. split; [|by eapply run_cleanup_published].
    eapply run_committed_kept; [done| |exact Hr|exact H1]. apply touches_rmtree_ignore_errors.
    intros x. rewrite Hcj. apply outside_in_root. }
  intros (lt & w1 & _ & ([m r] & w2 & Hr & (pub & w3 & Hp & H)%run_bind)%run_bind)%run_bind. destruct pub as [res'|x].
  - apply run_bind in H as (u & w4 & Hc & [[= ->] ->]%run_ret). eapply Hcl; [exact Hc|].
    destruct r as [res0|x]; [|by apply run_ret in Hp as [? _]]. apply run_attempt in Hp as (r0 & [= <-] & Hp).
    apply run_bind in Hp as (u' & w5 & Hp & [-> ->]%run_ret). split; [|by eapply run_publish].
    eapply run_committed_kept; [done|apply touches_publish|exact Hp|by eapply run_run_claimed].
  - destruct (negb (is_Exception x)); [done|]. apply run_bind in H as (rc & w4 & Hrc & H).
    apply run_attempt in Hrc as (r0 & [= <-] & Hrc). destruct rc as [[c|]|y].
    + apply run_bind in H as (u & w5 & Hc & [[= ->] ->]%run_ret). eapply Hcl; [exact Hc|]. by eapply run_reconcile.
    + apply run_bind in H as (u & w5 & _ & [? _]%run_ret). done.
    + destruct (is_Exception y); [by apply run_ret in H as [? _]|done].
Qed.

Lemma run_try_claim key e w c w' : try_claim (time_value E) paths key e w = (Ok (Some (Some c)), w') →
  cj_path c = active paths // cj_job_id c.
Proof.
  unfold try_claim. destruct key as [n name]. intros (b & w1 & _ & H)%run_bind. destruct b; [by apply run_ret in H as [? _]|].
  apply run_bind in H as (j & w2 & _ & (r & w3 & _ & H)%run_bind). destruct r as [st|x].
  - destruct (negb (is_dir st)); [by apply run_bind in H as (? & ? & _ & [? _]%run_ret)|].
    apply run_bind in H as (mv & w4 & _ & H). destruct mv as [u|x].
    + apply run_bind in H as (st' & w5 & _ & H). destruct (negb (is_dir st')); [done|].
      apply run_bind in H as (? & ? & _ & (? & ? & _ & (? & ? & _ & [[= <-] _]%run_ret)%run_bind)%run_bind). done.
    + destruct (is_not_found x); [by apply run_ret in H as [? _]|done].
  - destruct (is_not_found x); [by apply run_bind in H as (? & ? & _ & [? _]%run_ret)|done].
Qed.
Lemma run_try_claims l b e w c w' :
  forM (λ found key, match found with Some r => mret (Some r) | None => try_claim (time_value E) paths key end) l b e w
    = (Ok (Some (Some c)), w') →
  (∀ c', b = Some (Some c') → cj_path c' = active paths // cj_job_id c') → cj_path c = active paths // cj_job_id c.
Proof.
  revert b w. induction l as [|key l IH]; simpl; intros b w H Hb.
  - apply run_ret in H as [-> _]. by apply Hb.
  - apply run_bind in H as (b' & w1 & H1 & H). apply IH in H; [done|]. intros c' ->. destruct b as [b|].
    + apply run_ret in H1 as [[= ->] _]. by apply Hb.
    + by eapply run_try_claim.
Qed.
Lemma run_claim e w c w' : claim_next_job (time_value E) paths e w = (Ok (Some c), w') → cj_path c = active paths // cj_job_id c.
Proof.
  unfold claim_next_job, queue_operation_lock, _claim_next_job_locked. intros (? & w1 & _ & H)%run_bind.
  apply run_bind in H as (? & w2 & _ & (? & w3 & _ & (ns & w4 & _ & (aj & w5 & _ & H)%run_bind)%run_bind)%run_bind).
  destruct aj; [|by apply run_ret in H as [? _]].
  apply run_bind in H as (rm & w6 & _ & (r & w7 & H & [Hr _]%run_ret)%run_bind). destruct r as [[c'|]|]; simplify_eq/=.
  by eapply run_try_claims in H.
Qed.
End apply.

(** ** A sample device *)

Definition device_config : dict value :=
  [("users", VDict sample_users); ("network", sample_network); ("activation", sample_activation);
   ("containers", VDict [("container", VDict [("web", VDict [("privileged", VBool true); ("Container", VDict [("Image", VStr "docker.io/web")])])])])].
Definition sample_platform : platform :=
  Platform repo_lan_defaults accept_schema accept_value (λ _, Toml device_config) [["schema.json"]] "/" None None.
Definition zero_digest : string := unchars (repeat "0"%char 64).
Definition sample_machine : machine :=
  Machine sample_platform (λ _, zero_digest) (λ _, zero_digest) VInt (λ _ _, "") (λ _, Err (ValueError "json")) CText (λ _, ([], false))
    (λ _, 0) (λ _, 0) "gzip" "zstd" "ssh-keygen" "boot" None None false true (Some ["run"; "queue"]) false false false 1000.
Definition sample_disk : fs := list_to_map
  [ ([], plain_dir); (["tmp"], plain_dir); (["run"], plain_dir); (PROVISION_LOCK_DIR, plain_dir); (["data"], plain_dir);
    (["schema.json"], plain_file (CJson (VDict []) 2)) ].

Definition staged_world : world :=
  (stage_config_bytes sample_machine "job" "text" "config.toml" data_config_root true None sample_env (World sample_disk [] 0)).2.
Definition applied_run : result (option (dict value) + exn) * world :=
  apply_staged_job sample_machine data_config_root None sample_env (World (w_fs staged_world) [] 0).
Definition applied_result : dict value :=
  [("warnings", VList []); ("reapply", VBool false); ("forwarding_url", VStr "http://10.0.0.1:8080")].

(** ** Properties *)

(** C4 — What the worker reports as applied is applied: when [apply_staged_job] returns a result, the
    receipt of the configuration root is committed for one job with this very result, and the result
    file of that job says it succeeded with it, whatever failed on the way and whether the result came
    from the run or from the receipt. *)
Theorem reported_success_is_committed (E : machine) (config_root : path) (runtime_root : option path) e w res w' :
  env_ok e → apart (root (worker_paths E runtime_root)) data_config_root →
  apply_staged_job E config_root runtime_root e w = (Ok (inl (Some res)), w') →
  ∃ job_id, committed_receipt (w_fs w') job_id res ∧
    published E (worker_paths E runtime_root) (w_fs w') job_id (success_payload res).
Proof.
  intros He Hp. unfold apply_staged_job, worker_root.
  intros (q & w1 & Hq & (? & w2 & _ & (cl & w3 & Hcl & H)%run_bind)%run_bind)%run_bind.
  apply run_bind in Hq as (? & ? & Hv & (? & ? & _ & [<- _]%run_ret)%run_bind). apply run_validate_root in Hv as ->.
  destruct cl as [c|]; [|by apply run_ret in H as [? _]]. apply run_claim in Hcl.
  exists (cj_job_id c). by eapply run_apply_claimed.
Qed.

Lemma reported_success_is_committed_witness :
  applied_run.1 = Ok (inl (Some applied_result)) ∧
  ∃ job_id, committed_receipt (w_fs applied_run.2) job_id applied_result ∧
    published sample_machine (worker_paths sample_machine None) (w_fs applied_run.2) job_id (success_payload applied_result).
Proof.
  assert (applied_run.1 = Ok (inl (Some applied_result))) as Hr by (vm_compute; reflexivity).
  split; [exact Hr|].
  assert (apart (root (worker_paths sample_machine None)) data_config_root) as Ha by (split; intros [q Hq]; discriminate Hq).
  apply (reported_success_is_committed sample_machine data_config_root None sample_env (World (w_fs staged_world) [] 0)
    applied_result applied_run.2 sample_env_ok Ha).
  rewrite <-Hr. apply surjective_pairing.
Defined.
