(* ===== verification/WorkerKeeps.v ===== *)
(** * [provision.py]: what a run of the worker leaves alone

    Every part of [apply_claimed] keeps an invariant that survives writing regular
    files anywhere, and making, removing and moving directories clear of what it
    protects: the interface [Clears].  The worker only makes, removes and moves
    directories below its own: the data directory, the temporary directory, the
    claimed job and the results. *)

From S2P Require Import Prelude PyStr PyVal FS FSLogic RunLogic Staging StagedJob StagingFacts KeepLogic Activation ApplyTransaction ActivationFacts Auth Bundle Authorize Render Stage Worker WorkerFacts.

Local Open Scope Z_scope.

(** The directories of [ensure_runtime_layout]. *)
Definition runtime_dirs (paths : RuntimePaths) : list path := [root paths; queue paths; results paths; active paths].

(** ** The interface *)

Class Clears (I : fs → Prop) (π : policy) (clear : path → Prop) : Prop := {
  cl_keeps :: Keeps I π;
  cl_snoc p x : clear p → clear (p // x);
  cl_below p x : clear p → below p x → clear x;
  cl_write p : clear p → may_write π p;
  cl_create p : clear p → may_create π p;
  cl_unlink p : clear p → may_unlink π p;
  cl_mkdir p x : clear p → below x p → may_mkdir π x;
  cl_rmdir p x : clear p → below p x → may_rmdir π x;
  cl_move p q : clear p → clear q → may_move π p q;
  cl_set s p n : clear p → I s → is_reg n = true → I (<[p:=n]> s) }.

(** What the worker works on is clear: the data directory, the temporary directory and
    its own part of the runtime directories, which it may make with the directory of
    its lock. *)
Class WorkArea (I : fs → Prop) (π : policy) (clear : path → Prop) (paths : RuntimePaths) : Prop := {
  wa_clears :: Clears I π clear;
  wa_root : clear (parent croot);
  wa_tmp : clear tmp_dir;
  wa_results : clear (results paths);
  wa_nonces : clear (used_nonces paths);
  wa_layout d x : d ∈ runtime_dirs paths → below x d → may_mkdir π x;
  wa_write p : may_write π p;
  wa_create p : may_create π p;
  wa_unlink p : may_unlink π p;
  wa_lock s : I s → wp env_ok I (_provisioning_lock_path croot)
    (λ r t, I t ∧ ∀ lp, r = Ok lp → ∀ x, below x (parent lp) → may_mkdir π x) s }.

(** [keeps_bind], with what a run of the first program tells of its value. *)
Lemma wp_runs {A} (H : env → Prop) (P : fs → Prop) (m : M A) (Q : result A → fs → Prop) s :
  wp H P m Q s → wp H P m (λ r t, Q r t ∧ ∃ e w w', H e ∧ w_fs w = s ∧ w_fs w' = t ∧ m e w = (r, w')) s.
Proof. intros Hm e w He Hw. destruct (Hm e w He Hw) as (r & w' & Hr & HQ & Hh). exists r, w'. split_and!; eauto 9. Qed.
Lemma wp_run_at {A} (H : env → Prop) P (m : M A) (Q : result A → fs → Prop) (s : fs) (e : env) :
  wp H P m Q s → H e → Q (m e (World s [] 0)).1 (w_fs (m e (World s [] 0)).2) ∧ Forall P (w_hist (m e (World s [] 0)).2).
Proof. intros Hm He. pose proof (wp_run _ _ _ _ _ e Hm He) as Hr. by destruct (m e (World s [] 0)). Qed.
Lemma keeps_bind_run {A B} (I : fs → Prop) (m : M A) (f : A → M B) :
  keeps I m → (∀ e w x w', m e w = (Ok x, w') → keeps I (f x)) → keeps I (m ≫= f).
Proof.
  intros Hm Hf s Hs. apply wp_bind. eapply wp_mono; [apply wp_runs, Hm, Hs|].
  intros [x|x] t [Ht (e & w & w' & _ & _ & _ & Hr)]; [by eapply Hf|done].
Qed.

Create HintDb clear.
Ltac head_of t := lazymatch t with ?f _ => head_of f | _ => t end.
(** [side] proves what the policy asks for; what has no rule is unfolded. *)
Ltac walk_step side :=
  first
    [ progress keeps_step
    | side
    | match goal with
      | |- _ ∧ _ => split
      | |- keeps _ _ => solve [eauto with keeps clear nocore]
      | |- keeps _ (wr Ok) => apply keeps_wr; by intros ? ? ? [= <-]
      | |- keeps _ (wr (update_at _ _)) => apply keeps_update_meta_at; done
      | |- keeps _ (wr (update_real _ _)) => apply keeps_update_meta; done
      | H : n_kind ?n = _ |- keeps _ (wr (create_at ?n _)) => apply keeps_create; [side|unfold is_reg; by rewrite H]
      | |- keeps _ (wr _) => fail 1
      | |- keeps _ ?m => let h := head_of m in unfold h
      end ].
Ltac clears_step :=
  idtac; match goal with
  | H : below ?p ?x |- may_unlink _ ?x => apply cl_unlink, (cl_below p x); [solve [eauto with clear nocore]|exact H]
  | |- may_write _ _ => first [apply cl_write; solve [eauto with clear nocore]|solve [eauto with nocore]]
  | |- may_create _ _ => first [apply cl_create; solve [eauto with clear nocore]|solve [eauto with nocore]]
  | |- may_unlink _ _ => first [apply cl_unlink; solve [eauto with clear nocore]|solve [eauto with nocore]]
  | H : below ?x ?p |- may_mkdir _ ?x => apply (cl_mkdir p x); [solve [eauto with clear nocore]|exact H]
  | H : below ?x (parent ?p) |- may_mkdir _ ?x =>
      apply (cl_mkdir p x); [solve [eauto with clear nocore]|apply below_parent_below; exact H]
  | |- may_mkdir _ _ => solve [eauto with nocore]
  | |- may_mkdir _ ?p => apply (cl_mkdir p p); [solve [eauto with clear nocore]|apply below_refl]
  | H : below ?p ?x |- may_rmdir _ ?x => apply (cl_rmdir p x); [solve [eauto with clear nocore]|exact H]
  | |- may_rmdir _ ?p => apply (cl_rmdir p p); [solve [eauto with clear nocore]|apply below_refl]
  | |- may_move _ ?p ?q => apply cl_move; solve [eauto with clear nocore]
  end.
Ltac walk side := repeat (cbv beta zeta; walk_step side).
Ltac claim := walk clears_step.

Section trees.
Context {I : fs → Prop} {π : policy} {clear : path → Prop} `{!Clears I π clear}.
Local Abbreviation kept := (keeps I).

Lemma clear_snoc p x : clear p → clear (p // x).
Proof. apply cl_snoc. Qed.
Lemma clear_sibling p x : clear (parent p) → clear (sibling p x).
Proof. apply cl_snoc. Qed.
Lemma clear_parent_snoc p x : clear p → clear (parent (p // x)).
Proof. unfold parent. by rewrite removelast_last. Qed.
Lemma clear_app p k : clear p → clear (p ++ k).
Proof. intros Hp. eapply cl_below; [exact Hp|apply below_app]. Qed.
#[local] Hint Resolve clear_snoc clear_app clear_sibling clear_parent_snoc : clear.

Lemma kept_rmtree_if_exists p : clear p → kept (rmtree_if_exists p).
Proof. intros Hp. claim. Qed.
#[local] Hint Resolve kept_rmtree_if_exists : keeps.
Lemma kept_fsync_tree p : kept (_fsync_tree p).
Proof.
  unfold _fsync_tree. apply keeps_bind; [apply keeps_rd|]. intros n. revert p. induction n as [|n IH]; intros p; simpl; claim.
Qed.
#[local] Hint Resolve kept_fsync_tree : keeps.

(** ** Bundles and roots *)

Lemma kept_snapshot_dir fuel L p q b : clear q → kept (_snapshot_dir fuel L p q b).
Proof. revert p q b. induction fuel as [|fuel IH]; intros p q b Hq; simpl; claim. Qed.
Lemma kept_grant_dir uid gid fuel p writable n : kept (_grant_managed_dir_access uid gid fuel p writable n).
Proof. revert p n. induction fuel as [|fuel IH]; intros p n; simpl; claim. Qed.
#[local] Hint Resolve kept_snapshot_dir kept_grant_dir : keeps.
Lemma kept_copy_bundle identity src p : clear p → kept (copy_bundle_files identity src p).
Proof. intros Hp. claim. Qed.
Lemma kept_grant_root sys p q : kept (_grant_service_read_access sys p q).
Proof. claim. Qed.
#[local] Hint Resolve kept_copy_bundle kept_grant_root : keeps.
Lemma kept_write_state sys parsed cfg files p q : clear p → kept (write_imported_state sys parsed cfg files p q).
Proof. intros Hp. claim. Qed.
#[local] Hint Resolve kept_write_state : keeps.
Lemma kept_copytree p q : clear q → kept (copytree p q).
Proof.
  unfold copytree. intros Hq. apply keeps_bind; [apply keeps_rd|]. intros n. revert p q Hq.
  induction n as [|n IH]; intros p q Hq; simpl; claim.
Qed.
#[local] Hint Resolve kept_copytree : keeps.
Lemma kept_durable p q : clear q → kept (_copy_candidate_to_durable p q).
Proof. intros Hq. claim. Qed.
#[local] Hint Resolve kept_durable : keeps.
Lemma kept_json_atomic p payload mode owner : clear p → clear (parent p) → kept (write_json_atomic p payload mode owner).
Proof. intros Hp Hq. claim. Qed.

(** ** Temporary files *)

Lemma run_named_temporary sfx c e w p w' : named_temporary_file sfx c e w = (Ok p, w') → below tmp_dir p.
Proof. unfold named_temporary_file. intros (n & w1 & _ & (u & w2 & _ & [<- _]%run_ret)%run_bind)%run_bind. by eexists. Qed.

Context (Htmp : clear tmp_dir).
#[local] Hint Resolve Htmp : clear.
Lemma kept_decompress bytes_content command source label : kept (_decompress_to_tempfile bytes_content command source label).
Proof.
  unfold _decompress_to_tempfile. apply keeps_bind_run; [claim|].
  intros e w p w' Hp%run_named_temporary. pose proof (cl_below _ _ Htmp Hp : clear p). claim.
Qed.
Lemma run_decompress bytes_content command source label e w p w' :
  _decompress_to_tempfile bytes_content command source label e w = (Ok p, w') → below tmp_dir p.
Proof.
  unfold _decompress_to_tempfile. intros (q & w1 & Hq%run_named_temporary & H)%run_bind.
  apply run_catch in H as [H|(x & w2 & _ & _ & H)].
  - apply run_bind in H as (r & w2 & _ & H). destruct (_ <? _) in H; [done|]. apply run_bind in H as ([] & w3 & _ & H).
    destruct (_ =? _) in H; [by apply run_ret in H as [<- _]|done].
  - apply run_bind in H as ([] & w3 & _ & H). by destruct (is_not_found x).
Qed.
#[local] Hint Resolve kept_decompress : keeps.
Lemma kept_extract tar_members bytes_content gz zst source filename dest : clear dest →
  kept (extract_bundle_archive tar_members bytes_content gz zst source filename dest).
Proof.
  intros Hd. unfold extract_bundle_archive. apply keeps_bind_run; [claim|]. intros e w p w' Hp.
  assert (clear p) as Hc.
  { eapply cl_below; [exact Htmp|]. destruct (detect_bundle_kind _ _); [|done]. destruct (bool_decide _); by eapply run_decompress. }
  claim.
Qed.
#[local] Hint Resolve kept_extract : keeps.
Lemma kept_prepare tar_members bytes_content gz zst source filename : kept (prepare_source_bytes tar_members bytes_content gz zst source filename).
Proof.
  assert (kept new_temporary_directory) as Ht by claim.
  unfold prepare_source_bytes, prepare_bundle_from_bytes. apply keeps_bind; [claim|intros _].
  destruct (detect_bundle_kind source filename); (apply keeps_bind_run; [exact Ht|]);
    intros e w q w' Hq%run_new_tmp; pose proof (cl_below _ _ Htmp Hq : clear q); claim.
Qed.
Lemma kept_cleanup_tmpdir o : (∀ p, o = Some p → below tmp_dir p) → kept (cleanup_tmpdir o).
Proof. intros Ho. destruct o as [p|]; [pose proof (cl_below _ _ Htmp (Ho p eq_refl) : clear p)|]; claim. Qed.
End trees.

Section worker.
Context (E : machine) {I : fs → Prop} {π : policy} {clear : path → Prop} (paths : RuntimePaths) `{!WorkArea I π clear paths}.
Local Abbreviation kept := (keeps I).

Let Hwrite : ∀ p, may_write π p := wa_write.
Let Hcreate : ∀ p, may_create π p := wa_create.
Let Hunlink : ∀ p, may_unlink π p := wa_unlink.

Let Hsnoc : ∀ p x, clear p → clear (p // x) := clear_snoc.
Let Hextend : ∀ p k, clear p → clear (p ++ k) := clear_app.
Let Hsibling : ∀ p x, clear (parent p) → clear (sibling p x) := clear_sibling.
Let Hparent : ∀ p x, clear p → clear (parent (p // x)) := clear_parent_snoc.
#[local] Hint Resolve Hsnoc Hextend Hsibling Hparent : clear.
Let Hroot : clear (parent croot) := wa_root.
Let Htmp : clear tmp_dir := wa_tmp.
Lemma clear_croot : clear croot.
Proof. change croot with (parent croot // "config"). apply cl_snoc, wa_root. Qed.
Let Hcroot := clear_croot.
#[local] Hint Resolve Hroot Hcroot : clear.
Let Krmtree : ∀ p, clear p → kept (rmtree_if_exists p) := kept_rmtree_if_exists.
Let Kfsync : ∀ p, kept (_fsync_tree p) := kept_fsync_tree.
Let Kcopy : ∀ i src p, clear p → kept (copy_bundle_files i src p) := kept_copy_bundle.
Let Kgrant : ∀ sys p q, kept (_grant_service_read_access sys p q) := kept_grant_root.
Let Kstate : ∀ sys parsed cfg files p q, clear p → kept (write_imported_state sys parsed cfg files p q) := kept_write_state.
Let Kdurable : ∀ p q, clear q → kept (_copy_candidate_to_durable p q) := kept_durable.
Let Kprepare : ∀ tar bc gz zst source filename, kept (prepare_source_bytes tar bc gz zst source filename) := kept_prepare Htmp.
Let Ktmp : ∀ o, (∀ p, o = Some p → below tmp_dir p) → kept (cleanup_tmpdir o) := kept_cleanup_tmpdir Htmp.
#[local] Hint Resolve Kprepare Krmtree Kfsync Kcopy Kgrant Kstate Kdurable : keeps.

(** ** Activation *)

Lemma kept_recover : kept (recover_config_root croot).
Proof. claim. Qed.
Lemma kept_cleanup_rollback : kept (cleanup_rollback croot).
Proof. claim. Qed.
Lemma kept_activation cmd uid : kept (run_activation_sequence cmd uid croot).
Proof. claim. Qed.
#[local] Hint Resolve kept_recover kept_cleanup_rollback kept_activation : keeps.
Lemma kept_rollback_activation cmd uid : kept (run_rollback_activation cmd uid croot).
Proof. claim. Qed.
#[local] Hint Resolve kept_rollback_activation : keeps.
Lemma kept_complete cmd uid commit : (∀ m, commit = Some m → kept m) → kept (complete_reapply cmd uid croot commit).
Proof. intros Hc. destruct commit as [m|]; [pose proof (Hc m eq_refl)|]; claim. Qed.
Lemma kept_recover_apply : kept (recover_interrupted_apply croot).
Proof. claim. Qed.

(** ** The lock *)

#[local] Hint Resolve Htmp : clear.
Lemma kept_append n p : is_reg n = true → kept (wr (append_at n p)).
Proof.
  intros Hn. apply keeps_wr. intros s t Hs. unfold append_at. destruct (resolve s p) as [q|] eqn:Hq; [simpl|done].
  destruct (need_dir s (parent q) "open"); [simpl|done].
  destruct (s !! q) as [m|] eqn:Em; [destruct (is_dir m); [done|]; by intros [= <-]|]. intros [= <-].
  eapply (kept_write s p q n); [apply wa_write|done|exact Hq| |done]. unfold is_dir_at. by rewrite Em.
Qed.
Lemma kept_lock {A} (b : M A) : kept b → kept (provisioning_lock E croot b).
Proof.
  intros Hb. unfold provisioning_lock. intros s Hs. apply wp_bind. eapply wp_mono; [by apply (wa_lock (paths:=paths))|].
  intros [lp|x] t [Ht Hlp]; [|done]. specialize (Hlp lp eq_refl). revert t Ht.
  change (kept (_ ← _open_lock_file E lp; b)). apply keeps_bind; [|by intros _].
  unfold _open_lock_file, _ensure_runtime_lock_parent.
  assert (∀ n q, n_kind n = KReg (CText "") → kept (wr (append_at n q))) as Happ.
  { intros n q Hn. apply kept_append. unfold is_reg. by rewrite Hn. }
  claim.
Qed.

(** ** The apply *)

Lemma kept_mark_committed t : kept (mark_committed t croot).
Proof. claim. Qed.
#[local] Hint Resolve kept_mark_committed : keeps.
Lemma kept_complete_commit t : kept (complete E croot (Some (mark_committed t croot))).
Proof. unfold complete. apply kept_complete. intros m [= <-]. apply kept_mark_committed. Qed.
Lemma clear_candidate : clear (candidate_root_path croot).
Proof. by apply clear_sibling. Qed.
#[local] Hint Resolve kept_complete_commit : keeps.
#[local] Hint Resolve clear_candidate : clear.
Lemma kept_promote_reapply manifest : kept (promote_reapply E croot (candidate_root_path croot) manifest).
Proof. claim. Qed.
Lemma kept_promote_initial manifest : kept (promote_initial E croot (candidate_root_path croot) manifest).
Proof. claim. Qed.
#[local] Hint Resolve kept_promote_reapply kept_promote_initial : keeps.
Lemma kept_promote candidate bundle manifest : kept (_promote_pre_rendered_candidate_sync E candidate bundle croot manifest).
Proof.
  unfold _promote_pre_rendered_candidate_sync. apply keeps_bind_run; [claim|].
  intros e w q w' ->%run_validate_root. claim.
Qed.
#[local] Hint Resolve kept_promote : keeps.
Lemma kept_apply_source snapshot manifest lt sg src : clear snapshot → kept (apply_source E snapshot croot manifest lt sg src).
Proof. intros Hs. claim. Qed.
#[local] Hint Resolve kept_recover_apply : keeps.

Let Hresults : clear (results paths) := wa_results.
Lemma kept_set_kind c t p : clear p → kept (wr (update_at (set_kind (KReg c) t) p)).
Proof.
  intros Hp. apply keeps_wr. intros s t' Hs. unfold update_at. destruct (s !! p) as [n|]; [|done]. intros [= <-]. by apply cl_set.
Qed.
Let Hnonces : clear (used_nonces paths) := wa_nonces.
Lemma kept_nonce nonce : kept (consume_authorization_nonce (sha256_text E) (boot_id E) paths nonce).
Proof.
  assert (clear (nonce_marker (sha256_text E) paths nonce)) as Hm by by apply cl_snoc. unfold consume_authorization_nonce. claim; by apply kept_set_kind.
Qed.
#[local] Hint Resolve kept_nonce : keeps.

Lemma kept_render snapshot manifest lt : clear snapshot →
  kept (_render_verified_staged_candidate_sync E snapshot croot manifest paths lt).
Proof.
  intros Hs. unfold _render_verified_staged_candidate_sync. apply keeps_bind; [claim|intros _]. apply keeps_bind; [claim|intros az].
  apply keeps_bind_run; [claim|]. intros e w [sg src] w' Hsrc. apply keeps_finally; [by apply kept_apply_source|].
  apply Ktmp.
  intros p Hp. destruct az as [[pl|] [x|]]; apply run_bind in Hsrc as (s0 & w5 & Hsrc & [[= <- <-] _]%run_ret);
    first [by eapply run_source_tmp|apply run_bind in Hsrc as (? & ? & _ & [<- _]%run_ret); done].
Qed.
#[local] Hint Resolve kept_render : keeps.
Lemma kept_run_claimed job lt : kept (run_claimed E croot paths job lt).
Proof. pose proof (@kept_lock (dict value)) as Hl. claim. Qed.
Lemma kept_lock_recover : kept (provisioning_lock E croot (_recover_staged_apply E croot false paths)).
Proof. apply kept_lock. claim. Qed.
Lemma kept_trusted job : kept (_claimed_job_is_locally_trusted job paths).
Proof. claim. Qed.

(** ** Publication *)

Lemma kept_layout b : kept (ensure_runtime_layout paths b).
Proof.
  unfold ensure_runtime_layout. claim; (match goal with H : below _ ?d |- _ => apply (wa_layout (paths:=paths) d); [unfold runtime_dirs; set_solver|exact H] end).
Qed.
#[local] Hint Resolve kept_layout : keeps.
Lemma kept_write_result i payload : kept (write_result (time_value E) (service_gid E) paths i payload).
Proof.
  assert (∀ p m o, kept (write_json_atomic (result_path paths i) p m o)) as Hw.
  { intros p m o. apply kept_json_atomic; [by apply clear_snoc|by apply clear_parent_snoc]. }
  claim.
Qed.
Lemma kept_publish i payload : kept (publish E paths i payload).
Proof. pose proof (kept_write_result i payload). claim. Qed.

(** ** The whole of it, where the claim itself may go *)

Lemma kept_apply_claimed job : clear (cj_path job) → kept (apply_claimed E croot paths job).
Proof.
  intros Hj. pose proof kept_publish as Hp. pose proof (kept_run_claimed job) as Hr. pose proof kept_lock_recover as Hl.
  pose proof (kept_trusted job) as Ht. claim.
Qed.
End worker.
