(* ===== verification/ClaimFacts.v ===== *)
(** * [provision.py]: a claimed job is never lost

    What [apply_claimed] runs until it publishes a result never removes or moves the
    claim (WorkerKeeps.v, for the directory of the claim); then the order of
    publication and clean-up. *)

From S2P Require Import Prelude PyStr PyVal FS FSLogic RunLogic Staging StagedJob StagingFacts KeepLogic WorkerKeeps Activation ApplyTransaction ActivationFacts Auth Bundle Authorize Render Stage Worker WorkerFacts.

Local Open Scope Z_scope.

(** Removing or moving [p] does not remove the claim [a]. *)
Definition clear (a p : path) : Prop := ¬ below p a.
#[export] Instance dir_clears a : Clears (dir_kept a) (dir_policy a) (clear a).
Proof.
  split; try done; try apply _; unfold clear; simpl.
  - intros p x Hp Hx. apply Hp. etrans; [|exact Hx]. apply below_app.
  - intros p x Hp Hx Ha. apply Hp. by etrans.
  - intros p x Hp Hx ->. by apply Hp.
  - intros s p n Hp Hs _. unfold dir_kept, is_dir_at in *. rewrite lookup_insert_ne; [done|]. intros ->. by apply Hp, below_refl.
Qed.

(** ** The worker *)

Section worker.
Context (E : machine) (paths : RuntimePaths) (i : string).
Local Abbreviation mine := (active paths // i).
Context (Hdata : clear mine (parent croot)) (Htmp : clear mine tmp_dir).
Local Abbreviation kept := (keeps (dir_kept mine)).

Lemma clear_beside n : n ≠ "active" → clear mine (root paths // n).
Proof.
  intros Hn [q Hq]. unfold active in Hq. rewrite <-!app_assoc in Hq. apply (inj _) in Hq. simpl in Hq. congruence.
Qed.
#[local] Instance claim_area : WorkArea (dir_kept mine) (dir_policy mine) (clear mine) paths.
Proof.
  split; [apply _|done|done|by apply clear_beside|by apply clear_beside|done..|]. intros s Hs.
  assert (keeps (dir_kept mine) (_provisioning_lock_path croot)) as Hk by (unfold _provisioning_lock_path, resolve_path; keeps).
  eapply wp_mono; [by apply Hk|]. done.
Qed.

(** The result file of the job is there. *)
Definition answered (t : fs) : Prop := ∃ c, kind_at t (result_path paths i) = Some (KReg c).
(** The job is still claimed, or answered. *)
Definition claimed_or_answered (t : fs) : Prop := dir_kept mine t ∨ answered t.

Local Abbreviation wpc := (wp env_ok claimed_or_answered).
Lemma kept_wp {A} (m : M A) s : kept m → dir_kept mine s → wpc m (λ _ t, dir_kept mine t) s.
Proof. intros Hm Hs. eapply wp_weaken; [| |by apply Hm]; [done|]. by left. Qed.

Lemma wp_publish payload (Q : result () → fs → Prop) s : dir_kept mine s →
  (∀ x t, dir_kept mine t → Q (Err x) t) → (∀ t, answered t → Q (Ok tt) t) → wpc (publish E paths i payload) Q s.
Proof.
  intros Hs HE HQ. eapply wp_mono; [apply wp_runs, (kept_wp _ _ (kept_publish E paths i payload)), Hs|].
  intros [[]|x] t [Ht (e & w & w' & He & _ & <- & Hr)]; [|by apply HE]. apply HQ.
  apply run_publish in Hr as [now Hn]; [|done]. eexists. exact Hn.
Qed.

Lemma wp_cleanup job (Q : result () → fs → Prop) s : cj_path job = mine → answered s → (∀ r t, answered t → Q r t) →
  wpc (cleanup_claimed_job job) Q s.
Proof.
  intros Hj Hs HQ. assert (keeps answered (cleanup_claimed_job job)) as Hk.
  { eapply (keeps_touches _ (below (cj_path job))).
    - by apply touches_rmtree_ignore_errors.
    - intros u t [c Hc] Hch. exists c. rewrite <-Hc. apply Hch. rewrite Hj. intros [q Hq]. unfold result_path, active, results in Hq.
      rewrite <-!app_assoc in Hq. by apply (inj _) in Hq. }
  eapply wp_mono; [eapply wp_weaken; [| |by apply Hk]|]; [done|by right|]. intros r t Ht. by apply HQ.
Qed.
Definition ends_answered (r : result (option (dict value) + exn)) (t : fs) : Prop :=
  claimed_or_answered t ∧ match r with Ok (inl _) => answered t | _ => True end.
Lemma ends_claim r t : dir_kept mine t → match r with Ok (inl _) => False | _ => True end → ends_answered r t.
Proof. intros Ht Hr. split; [by left|]. by destruct r as [[o|x]|x]. Qed.
Lemma ends_answer r t : answered t → ends_answered r t.
Proof. intros Ht. split; [by right|]. by destruct r as [[o|x]|x]. Qed.
#[local] Hint Resolve ends_answer : core.

Lemma wp_apply_claimed job s : cj_job_id job = i → cj_path job = mine → dir_kept mine s →
  wpc (apply_claimed E croot paths job)
    ends_answered s.
Proof.
  intros Hid Hp Hs. unfold apply_claimed. rewrite Hid.
  apply wp_bind. eapply wp_mono; [apply kept_wp; [apply (kept_trusted paths)|done]|]. intros [lt|x] t Ht; [|by apply ends_claim].
  apply wp_bind. eapply wp_mono; [apply kept_wp; [apply (kept_run_claimed E paths)|done]|]. intros [[manifest r]|x] u Hu; [|by apply ends_claim].
  assert (∀ v t', answered t' → wpc (_ ← cleanup_claimed_job job; mret v) ends_answered t') as Hclean.
  { intros v t' Ht'. apply wp_bind, wp_cleanup; [done|done|]. intros [[]|x] t'' Ht''; [apply wp_ret|]; by apply ends_answer. }
  assert (∀ x t', dir_kept mine t' → wpc
    (if negb (is_Exception x) then raise x
     else reconciled ← attempt (reconcile E croot paths i manifest x);
          match reconciled with
          | Ok (Some committed_result) => _ ← cleanup_claimed_job job; mret (inl (Some committed_result))
          | Ok None => _ ← cleanup_claimed_job job; mret (inr x)
          | Err y => if is_Exception y then mret (inr y) else raise y
          end) ends_answered t') as Hfail.
  { intros x t' Ht'. destruct (negb (is_Exception x)); [apply wp_raise; by apply ends_claim|].
    apply wp_bind, wp_attempt. unfold reconcile. apply wp_bind. eapply wp_mono; [apply kept_wp; [apply (kept_lock_recover E paths)|done]|].
    intros [rc|y] t'' Ht''; [|destruct (is_Exception y); [apply wp_ret|apply wp_raise]; by apply ends_claim].
    apply wp_bind, wp_publish; [done| |].
    - intros y z Hz. destruct (is_Exception y); [apply wp_ret|apply wp_raise]; by apply ends_claim.
    - intros z Hz. apply wp_ret. destruct (committed_result_for_manifest _ _ _); by apply Hclean. }
  apply wp_bind. destruct r as [res|x]; [|apply wp_ret; by apply Hfail].
  apply wp_attempt, wp_bind, wp_publish; [done|by apply Hfail|]. intros t' Ht'. apply wp_ret, Hclean, Ht'.
Qed.
End worker.

(** C5 — A claimed job is never lost.  While the worker applies a job it has claimed, whatever fails and
    whatever call it dies at, the claim is still there for the finalization to find, or the result of the job
    is published: the claim only goes once clients can read an answer; and a job reported as done has
    one. *)
Theorem claim_kept_until_answered (E : machine) (paths : RuntimePaths) (job : ClaimedJob) (s : fs) :
  apart (root paths) (parent data_config_root) → apart (root paths) tmp_dir →
  cj_path job = active paths // cj_job_id job → is_dir_at s (cj_path job) = true →
  wp env_ok (claimed_or_answered paths (cj_job_id job)) (apply_claimed E data_config_root paths job)
    (λ r t, claimed_or_answered paths (cj_job_id job) t ∧
            match r with Ok (inl _) => answered paths (cj_job_id job) t | _ => True end) s.
Proof.
  intros Hdata Htmp Hp Hs. rewrite Hp in Hs.
  assert (∀ q, apart (root paths) q → clear (active paths // cj_job_id job) q) as Hclear.
  { intros q [H1 H2] Hq. unfold active in Hq. rewrite <-app_assoc in Hq.
    destruct (below_both _ _ _ (below_app (root paths) _) Hq); auto. }
  apply (wp_apply_claimed E paths (cj_job_id job)); auto.
Qed.

Definition claim_paths : RuntimePaths := worker_paths sample_machine None.
Definition claim_run : result (option ClaimedJob) * world :=
  claim_next_job VInt claim_paths sample_env (World (w_fs staged_world) [] 0).
Definition claim_fs : fs := w_fs claim_run.2.
Definition claim_job : ClaimedJob := Claimed "job" (active claim_paths // "job").
Definition claim_end : result (option (dict value) + exn) * world :=
  apply_claimed sample_machine data_config_root claim_paths claim_job sample_env (World claim_fs [] 0).

Lemma claim_kept_until_answered_witness :
  claim_run.1 = Ok (Some claim_job) ∧ (20 < length (w_hist claim_end.2))%nat ∧
  Forall (claimed_or_answered claim_paths "job") (w_hist claim_end.2) ∧ answered claim_paths "job" (w_fs claim_end.2).
Proof.
  split; [vm_compute; reflexivity|]. split; [apply Nat.ltb_lt; vm_compute; reflexivity|].
  assert (match claim_end.1 with Ok (inl _) => true | _ => false end = true) as Hend by (vm_compute; reflexivity).
  assert (is_dir_at claim_fs (cj_path claim_job) = true) as Hdir by (vm_compute; reflexivity).
  assert (∀ q, q = ["data"] ∨ q = tmp_dir → apart (root claim_paths) q) as Hap.
  { intros q [-> | ->]; split; intros [k Hk]; discriminate Hk. }
  destruct (wp_run_at _ _ _ _ _ sample_env
    (claim_kept_until_answered sample_machine claim_paths claim_job claim_fs (Hap _ (or_introl eq_refl)) (Hap _ (or_intror eq_refl)) eq_refl Hdir)
    sample_env_ok) as [[_ Ha] Hh].
  split; [exact Hh|]. revert Ha Hend. change (apply_claimed _ _ _ _ _ _) with claim_end. by destruct (claim_end.1) as [[v|x]|x].
Defined.
