(* ===== verification/DrainFacts.v ===== *)
(** * [server.py]: draining the staged queue ends

    Nothing the worker runs makes a directory in the queue (WorkerKeeps.v), and a
    claim takes one away; so [apply-staged --drain] comes to an end. *)

From S2P Require Import Prelude PyStr PyVal FS FSLogic RunLogic Staging StagedJob StagingFacts KeepLogic WorkerKeeps Activation ApplyTransaction ActivationFacts Auth Bundle Authorize Render Stage Worker WorkerFacts.

Local Open Scope Z_scope.

Section drain.
Context (E : machine) (runtime_root : option path).
Local Abbreviation paths := (worker_paths E runtime_root).
Local Abbreviation queued x := (queue paths // x).

(** The directories the worker works in. *)
Definition worker_area (y : path) : Prop := below (parent croot) y ∨ below tmp_dir y ∨ below (root paths) y.
Definition no_links (t : fs) : Prop := ∀ y n, worker_area y → t !! y = Some n → is_lnk n = false.
(** What is there of the worker outside the queue. *)
Definition off_queue (p : path) : Prop := worker_area p ∧ apart (queue paths) p.

Definition waiting_in (S : gset string) (t : fs) : Prop := no_links t ∧ ∀ x, is_dir_at t (queued x) = true → x ∈ S.
Definition waiting_policy : policy :=
  let any := λ _ : path, True in
  Policy any any (λ x, ∀ n, x ≠ queued n) any any (λ x y, worker_area x ∧ ∀ n, ¬ below y (queued n)).

Lemma worker_area_below p x : worker_area p → below p x → worker_area x.
Proof. intros [H|[H|H]] Hx; [left|right; left|right; right]; by etrans. Qed.

Lemma waiting_insert S t p n : is_lnk n = false → (is_dir n = true → is_dir_at t p = true ∨ ∀ x, p ≠ queued x) →
  waiting_in S t → waiting_in S (<[p:=n]> t).
Proof.
  intros Hl Hd [Hp HS]. split.
  - intros y m Hy. destruct (decide (p = y)) as [->|Hne]; [rewrite lookup_insert_eq; by intros [= <-]|].
    rewrite lookup_insert_ne by done. by apply Hp.
  - intros x. unfold is_dir_at. destruct (decide (p = queued x)) as [->|Hne]; [|rewrite lookup_insert_ne by done; apply HS].
    rewrite lookup_insert_eq. intros H. destruct (Hd H) as [?|Hq]; [by apply HS|]. by destruct (Hq x).
Qed.
Lemma waiting_delete S t p : waiting_in S t → waiting_in S (delete p t).
Proof.
  intros [Hp HS]. split; [intros y n Hy [_ Hn]%lookup_delete_Some; by eapply Hp|]. intros x. unfold is_dir_at.
  destruct (decide (p = queued x)) as [->|Hne]; [by rewrite lookup_delete_eq|]. rewrite lookup_delete_ne by done. apply HS.
Qed.
Lemma waiting_move S t p q : worker_area p → (∀ n, ¬ below q (queued n)) → apart p q →
  waiting_in S t → waiting_in S (move p q t) ∧ ∀ x, below p (queued x) → is_dir_at (move p q t) (queued x) = false.
Proof.
  intros Hp Hq Ha [Hl HS]. split; [split|].
  - intros y n Hy. rewrite lookup_move by done. case_decide.
    + apply Hl. eapply worker_area_below; [exact Hp|apply below_app].
    + case_decide; [done|]. by apply Hl.
  - intros x. unfold is_dir_at. rewrite lookup_move, decide_False by done. case_decide; [done|]. apply HS.
  - intros x Hx. unfold is_dir_at. by rewrite lookup_move, decide_False, decide_True by done.
Qed.

#[local] Instance waiting_keeps S : Keeps (waiting_in S) waiting_policy.
Proof.
  split; simpl.
  - intros s p n m Hs Hn Hk. pose proof Hs as [Hl HS]. split.
    + intros y m' Hy. destruct (decide (p = y)) as [->|Hne]; [|rewrite lookup_insert_ne by done; by apply Hl].
      rewrite lookup_insert_eq. intros [= <-]. unfold is_lnk. rewrite Hk. by apply (Hl y n).
    + intros x. unfold is_dir_at. destruct (decide (p = queued x)) as [->|Hne]; [|rewrite lookup_insert_ne by done; apply HS].
      rewrite lookup_insert_eq. intros H. apply HS. unfold is_dir_at. rewrite Hn. unfold is_dir in *. by rewrite <-Hk.
  - intros s p q n _ Hs _ _ [Hl Hd]%reg_facts. apply waiting_insert; [done|congruence|done].
  - intros s p n _ Hs _ [Hl Hd]%reg_facts. apply waiting_insert; [done|congruence|done].
  - intros s p n Hp Hs _ Hd. apply waiting_insert; [|auto|done]. unfold is_dir, is_lnk in *. by destruct (n_kind n).
  - intros s p _ Hs _. by apply waiting_delete.
  - intros s p _ Hs _. by apply waiting_delete.
  - intros s p q [Hp Hq] Hs Ha _. by apply waiting_move.
Qed.

Lemma off_queue_below p x : off_queue p → below p x → off_queue x.
Proof.
  intros [Hp [H1 H2]] Hx. split; [by eapply worker_area_below|]. split.
  - intros H. by destruct (below_both _ _ _ H Hx).
  - intros H. apply H2. by etrans.
Qed.
#[local] Instance waiting_clears S : Clears (waiting_in S) waiting_policy off_queue.
Proof.
  split; try done; try apply _.
  - intros p x Hp. eapply off_queue_below; [done|apply below_app].
  - exact off_queue_below.
  - intros p x [_ [H1 _]] Hx n ->. apply H1. etrans; [apply below_app|exact Hx].
  - intros p q [Hp _] [_ [H1 H2]]. split; [done|]. intros n Hn.
    destruct (below_both _ _ _ (below_app (queue paths) [n]) Hn); auto.
  - intros s p n Hp Hs [Hl Hd]%reg_facts. apply waiting_insert; [done|congruence|done].
Qed.

(** ** The worker *)

Context (Hdata : apart (root paths) (parent croot)) (Htmp : apart (root paths) tmp_dir).
Context (Hlockdir : ¬ below (queue paths) PROVISION_LOCK_DIR).

Lemma off_queue_apart p : worker_area p → apart (root paths) p → off_queue p.
Proof.
  intros Hp [H1 H2]. split; [done|]. unfold queue. split.
  - intros H. apply H1. etrans; [apply below_app|exact H].
  - intros H. destruct (below_both _ _ _ (below_app (root paths) ["queue"]) H); auto.
Qed.
Lemma off_queue_beside n : n ≠ "queue" → off_queue (root paths // n).
Proof.
  intros Hn. split; [right; right; apply below_app|].
  split; unfold queue; intros [k Hk]; rewrite <-app_assoc in Hk; apply (inj _) in Hk; simpl in Hk; congruence.
Qed.
Lemma runtime_dirs_made d x : d ∈ runtime_dirs paths → below x d → may_mkdir waiting_policy x.
Proof.
  intros Hd Hx n ->. assert (length d ≤ S (length (root paths)))%nat as Hlen.
  { unfold runtime_dirs, queue, results, active in Hd. rewrite !elem_of_cons, elem_of_nil in Hd.
    destruct Hd as [->|[->|[->|[->|[]]]]]; rewrite ?length_app; simpl; lia. }
  destruct Hx as [k ->]. unfold queue in Hlen. rewrite !length_app in Hlen. simpl in Hlen. lia.
Qed.
Lemma lock_made S s : waiting_in S s → wp env_ok (waiting_in S) (_provisioning_lock_path croot)
  (λ r t, waiting_in S t ∧ ∀ lp, r = Ok lp → ∀ x, below x (parent lp) → may_mkdir waiting_policy x) s.
Proof.
  intros Hs. unfold _provisioning_lock_path, resolve_path. apply wp_bind, wp_rd; [done|].
  assert (resolve s croot = Ok croot) as Hr.
  { apply resolve_plain. intros n Hn. eapply (proj1 Hs); [|done]. left. apply (below_app (parent croot) ["config"]). }
  unfold resolve in Hr. apply of_option_Ok in Hr. rewrite Hr. apply wp_ret.
  split; [done|]. intros lp [= <-] x Hx n ->. apply Hlockdir. etrans; [apply below_app|exact Hx].
Qed.

#[local] Instance drain_area S : WorkArea (waiting_in S) waiting_policy off_queue paths.
Proof.
  split; [apply _|apply off_queue_apart; [by left|done]|apply off_queue_apart; [by right; left|done]|by apply off_queue_beside|by apply off_queue_beside
         |apply runtime_dirs_made|done..|apply lock_made].
Qed.

(** A claim takes a job out of the queue. *)
Definition claimed_from (S : gset string) (job : ClaimedJob) (t : fs) : Prop :=
  ∃ x, x ∈ S ∧ cj_path job = active paths // x ∧ waiting_in (S ∖ {[x]}) t.

Local Abbreviation wpt := (wp env_ok (λ _, True)).
Lemma kept_wpt {A} S (m : M A) s : keeps (waiting_in S) m → waiting_in S s → wpt m (λ _ t, waiting_in S t) s.
Proof. intros Hm Hs. eapply wp_weaken; [| |by apply Hm]; done. Qed.

Lemma kept_remove_staged S p : keeps (waiting_in S) (remove_staged_path p).
Proof. walk ltac:(exact I). Qed.
#[local] Hint Resolve kept_remove_staged : keeps.
Lemma kept_has_lower S n : keeps (waiting_in S) (_has_lower_sequence_reservation_locked (time_value E) paths n).
Proof. walk ltac:(exact I). Qed.
Lemma kept_collect_ready S : keeps (waiting_in S) (collect_ready paths).
Proof. walk ltac:(exact I). Qed.

Lemma wp_rename_job_waiting S j (Q : result () → fs → Prop) s : waiting_in S s → is_dir_at s (queued j) = true →
  (∀ x, Q (Err x) s) → (∀ t, waiting_in (S ∖ {[j]}) t → Q (Ok tt) t) → wpt (rename (queued j) (active paths // j)) Q s.
Proof.
  intros Hs Hd HE HQ. apply wp_wr; [done|].
  destruct (rename_at (queued j) (active paths // j) s) as [t|x] eqn:Ht; [|done]. split; [done|].
  assert (∀ n, ¬ below (active paths // j) (queued n)) as Hact.
  { intros n [k Hk]. unfold active, queue in Hk. rewrite <-!app_assoc in Hk. by apply (inj _) in Hk. }
  apply rename_at_Ok in Ht as [[Heq _]|[Ha ->]]; [destruct (Hact j); rewrite Heq; apply below_refl|]. apply HQ.
  destruct (waiting_move S s (queued j) (active paths // j)) as [[Hl HS] Hgone]; [right; right; unfold queue; eexists; by rewrite <-!app_assoc|done..|].
  split; [done|]. intros x Hx. apply elem_of_difference. split; [by apply HS|]. intros ->%elem_of_singleton.
  rewrite Hgone in Hx by apply below_refl. done.
Qed.

Lemma wp_try_claim_waiting S key s : waiting_in S s →
  wpt (try_claim (time_value E) paths key)
    (λ r t, match r with Ok (Some (Some job)) => claimed_from S job t | Ok _ => waiting_in S t | Err _ => True end) s.
Proof.
  set (claim_post := λ (r : result (option (option ClaimedJob))) t,
    match r with Ok (Some (Some job)) => claimed_from S job t | Ok _ => waiting_in S t | Err _ => True end).
  intros Hs. unfold try_claim. destruct key as [n name]. apply wp_bind.
  eapply wp_mono; [by apply kept_wpt, Hs; apply kept_has_lower|]. intros [lower|x] t Ht; [|done].
  destruct lower; [by apply wp_ret|]. apply wp_bind, wp_lift. destruct (validate_job_id _) as [j|x]; [|done].
  assert (∀ u, waiting_in S u → wpt (_ ← remove_staged_path (queued name); mret None)
claim_post u) as Hdrop.
  { intros u Hu. apply wp_bind. eapply wp_mono; [by apply kept_wpt, Hu; apply kept_remove_staged|].
    intros [[]|x] v Hv; [by apply wp_ret|done]. }
  apply wp_bind, wp_attempt, wp_rd; [intros; by destruct (is_not_found _); [apply Hdrop|apply wp_raise]|].
  destruct (lstat_at t (queued j)) as [st|x] eqn:Hst; [|by destruct (is_not_found x); [apply Hdrop|apply wp_raise]].
  destruct (negb (is_dir st)) eqn:Hd; [by apply Hdrop|]. apply negb_false_iff in Hd.
  assert (is_dir_at t (queued j) = true) as Hdir.
  { unfold is_dir_at, lstat_at in *. by destruct (t !! queued j); simplify_eq/=. }
  apply wp_bind, wp_attempt. apply wp_rename_job_waiting with (S:=S); [done|done| |].
  - intros x. by destruct (is_not_found x); [apply wp_ret|apply wp_raise].
  - intros u Hu. assert (∀ v, waiting_in (S ∖ {[j]}) v → claimed_from S (Claimed j (active paths // j)) v) as Hc.
    { intros v Hv. exists j. split_and!; [by apply Ht|done..]. }
    apply wp_bind, wp_rd; [done|]. destruct (lstat_at u _) as [st'|x]; [|done]. destruct (negb (is_dir st')); [by apply wp_raise|].
    revert u Hu. assert (∀ m k, keeps (waiting_in (S ∖ {[j]})) m → (∀ v, waiting_in (S ∖ {[j]}) v → wpt k claim_post v) →
      ∀ u, waiting_in (S ∖ {[j]}) u → wpt (_ ← m : M (); k) claim_post u) as Hseq.
    { intros m k Hm Hk u Hu. apply wp_bind. eapply wp_mono; [by apply kept_wpt, Hu|]. intros [[]|x] v Hv; [by apply Hk|done]. }
    apply Hseq; [apply kept_remove_staged|]. do 2 (apply Hseq; [unfold fsync_directory; keeps|]). intros v Hv. by apply wp_ret, Hc.
Qed.

(** Nothing was claimed, or one of the jobs. *)
Definition turn_claim (S : gset string) (r : result (option ClaimedJob)) (t : fs) : Prop :=
  match r with Ok (Some job) => claimed_from S job t | Ok None => waiting_in S t | Err _ => True end.
Lemma wp_claim_waiting S s : waiting_in S s → wpt (claim_next_job (time_value E) paths) (turn_claim S) s.
Proof.
  intros Hs. unfold claim_next_job, queue_operation_lock.
  assert (∀ A (m : M A) (k : A → M (option ClaimedJob)) u, keeps (waiting_in S) m →
    (∀ a v, waiting_in S v → wpt (k a) (turn_claim S) v) → waiting_in S u → wpt (m ≫= k) (turn_claim S) u) as Hseq.
  { intros A m k u Hm Hk Hu. apply wp_bind. eapply wp_mono; [by apply kept_wpt, Hu|]. intros [a|x] v Hv; [by apply Hk|done]. }
  apply Hseq; [apply (kept_layout paths)|intros [] v Hv|done]. clear s Hs.
  apply Hseq; [|clear v Hv; intros [] v Hv|done].
  { unfold _open_queue_lock. walk ltac:(exact I). }
  apply Hseq; [|clear v Hv; intros [] v Hv|done].
  { walk ltac:(exact I). }
  unfold _claim_next_job_locked. apply Hseq; [keeps|clear v Hv; intros names v Hv|done].
  apply Hseq; [walk ltac:(exact I)|clear v Hv; intros [|] v Hv; [|by apply wp_ret]|done].
  apply Hseq; [apply kept_collect_ready|clear v Hv; intros keys v Hv|done].
  apply wp_bind, (wp_forM _ _ _ (λ _ (found : option (option ClaimedJob)) t,
    match found with Some (Some job) => claimed_from S job t | _ => waiting_in S t end)); [done| |].
  - intros key l [found|] t Ht; [by apply wp_ret|]. eapply wp_mono; [by apply wp_try_claim_waiting|]. by intros [[[job|]|]|x] u Hu.
  - intros [[job|]|] t Ht; by apply wp_ret.
Qed.
Lemma wp_apply_waiting S s : waiting_in S s →
  wpt (apply_staged_job E data_config_root runtime_root)
    (λ r t, match r with Ok (inl None) => True | Ok _ => ∃ x, x ∈ S ∧ waiting_in (S ∖ {[x]}) t | Err _ => True end) s.
Proof.
  intros Hs. unfold apply_staged_job. apply wp_bind. eapply wp_mono; [apply wp_runs, (kept_wpt S); [|done]|].
  { unfold worker_root, validate_config_root, require_worker_for_data_config. walk ltac:(exact I). }
  intros [q|x] t [Ht (e & w & w' & _ & _ & _ & Hq)]; [|done].
  apply run_bind in Hq as (? & ? & Hv & (? & ? & _ & [<- _]%run_ret)%run_bind). apply run_validate_root in Hv as ->.
  apply wp_bind. eapply wp_mono; [apply (kept_wpt S); [apply (kept_layout paths)|done]|].
  intros [[]|x] u Hu; [|done]. apply wp_bind. eapply wp_mono; [by apply wp_claim_waiting|].
  intros [[job|]|x] v Hj; [|by apply wp_ret|done]. destruct Hj as (j & Hj & Hp & Hv).
  eapply wp_mono; [apply (kept_wpt (S ∖ {[j]})); [|done]|].
  - apply (kept_apply_claimed E paths). rewrite Hp. by eapply off_queue_below; [apply (off_queue_beside "active")|apply below_app].
  - intros [[[res|]|x]|x] z Hz; eauto.
Qed.
Lemma wp_drain_waiting turns S results errors s : waiting_in S s → (size S < turns)%nat →
  wpt (drain E turns data_config_root runtime_root results errors)
    (λ r _, match r with Ok (_, _, finished) => finished = true | Err _ => True end) s.
Proof.
  revert S results errors s. induction turns as [|turns IH]; intros S results errors s Hs Hn; [lia|]. simpl.
  assert (∀ x t results errors, x ∈ S → waiting_in (S ∖ {[x]}) t → wpt (drain E turns data_config_root runtime_root results errors)
    (λ r _, match r with Ok (_, _, finished) => finished = true | Err _ => True end) t) as Hnext.
  { intros x t results' errors' Hx Ht. apply (IH _ _ _ _ Ht). rewrite size_difference, size_singleton by set_solver.
    assert (size S ≠ 0%nat) by (intros H%size_empty_inv; set_solver). lia. }
  apply wp_bind, wp_attempt. eapply wp_mono; [by apply wp_apply_waiting|].
  intros [[[res|]|x]|x] t Ht; [destruct Ht as (j & Hj & Ht); by eapply Hnext|by apply wp_ret|destruct Ht as (j & Hj & Ht); by eapply Hnext|].
  destruct (is_Exception x); [by apply wp_ret|by apply wp_raise].
Qed.
End drain.

(** The jobs in the queue. *)
Definition waiting_jobs (t : fs) (q : path) : list string := filter (λ x, is_dir_at t (q // x) = true) (children t q).
Lemma size_list_le (l : list string) : (size (list_to_set l : gset string) ≤ length l)%nat.
Proof.
  induction l as [|x l IH]; [by rewrite list_to_set_nil, size_empty|]. rewrite list_to_set_cons, size_union_alt, size_singleton. simpl.
  apply le_n_S. etrans; [apply subseteq_size|exact IH]. set_solver.
Qed.
Lemma waiting_all E runtime_root t :
  no_links E runtime_root t → waiting_in E runtime_root (list_to_set (waiting_jobs t (queue (worker_paths E runtime_root)))) t.
Proof.
  intros Hl. split; [done|]. intros x Hx. apply elem_of_list_to_set, list_elem_of_filter. split; [done|]. apply elem_children.
  unfold is_dir_at in Hx. by destruct (t !! _).
Qed.

(** C19 — [apply-staged --drain] comes to an end.  Its loop has no bound of its own; but the worker makes no
    directory in the queue and every job it claims leaves it, whatever fails, so with more turns than there
    are jobs in the queue, and nobody staging more, the loop has finished. *)
Theorem staged_queue_drains (E : machine) (runtime_root : option path) (turns : nat) (s : fs) :
  let paths := worker_paths E runtime_root in
  apart (root paths) (parent data_config_root) → apart (root paths) tmp_dir → ¬ below (queue paths) PROVISION_LOCK_DIR →
  no_links E runtime_root s → (length (waiting_jobs s (queue paths)) < turns)%nat →
  wp env_ok (λ _, True) (drain E turns data_config_root runtime_root [] [])
    (λ r _, match r with Ok (_, _, finished) => finished = true | Err _ => True end) s.
Proof.
  intros paths Hdata Htmp Hlock Hl Hn. eapply wp_drain_waiting; [done..|by apply waiting_all|].
  eapply Nat.le_lt_trans; [apply size_list_le|done].
Qed.

Definition drain_run : result (list (dict value) * list exn * bool) * world :=
  drain sample_machine 2 data_config_root None [] [] sample_env (World (w_fs staged_world) [] 0).

Lemma finished_run (r : result (list (dict value) * list exn * bool)) n :
  match r with Ok (_, _, finished) => finished = true | Err _ => True end →
  match r with Ok (l, _, _) => length l | _ => 0%nat end = Datatypes.S n →
  ∃ results errors, r = Ok (results, errors, true) ∧ length results = Datatypes.S n.
Proof. destruct r as [[[rs es] b]|x]; [|done]. intros -> Hl. by exists rs, es. Qed.
Lemma staged_queue_drains_witness :
  waiting_jobs (w_fs staged_world) (queue (worker_paths sample_machine None)) = ["job"] ∧
  ∃ results errors, drain_run.1 = Ok (results, errors, true) ∧ length results = 1%nat.
Proof.
  assert (waiting_jobs (w_fs staged_world) (queue (worker_paths sample_machine None)) = ["job"]) as Hj by (vm_compute; reflexivity).
  split; [exact Hj|].
  assert (apart (root (worker_paths sample_machine None)) (parent data_config_root)) as H1 by (split; intros [q Hq]; discriminate Hq).
  assert (apart (root (worker_paths sample_machine None)) tmp_dir) as H2 by (split; intros [q Hq]; discriminate Hq).
  assert (¬ below (queue (worker_paths sample_machine None)) PROVISION_LOCK_DIR) as H3 by (intros [q Hq]; discriminate Hq).
  assert (no_links sample_machine None (w_fs staged_world)) as H4.
  { assert (bool_decide (map_Forall (λ _ n, is_lnk n = false) (w_fs staged_world)) = true) as Hb by (vm_compute; reflexivity).
    apply bool_decide_eq_true in Hb. intros y n _ Hn. exact (Hb y n Hn). }
  assert (length (waiting_jobs (w_fs staged_world) (queue (worker_paths sample_machine None))) < 2)%nat as H5 by (rewrite Hj; simpl; lia).
  destruct (wp_run_at _ _ _ _ _ sample_env (staged_queue_drains sample_machine None 2 (w_fs staged_world) H1 H2 H3 H4 H5) sample_env_ok) as [Hr _].
  assert (match drain_run.1 with Ok (l, _, _) => length l | _ => 0%nat end = 1%nat) as Hl by (vm_compute; reflexivity).
  exact (finished_run drain_run.1 0 Hr Hl).
Defined.
