(* ===== verification/StageFacts.v ===== *)
(** * [provision.py]: a staged job is published whole

    [publish_candidate] builds the job in a private directory, moves it into the queue
    in one step, and only then writes the marker that lets the worker claim it:
    first what building keeps, then what the clean-up of stale reservations may do in
    between. *)

From Stdlib Require Import Ascii.
From S2P Require Import Prelude PyStr PyVal ConfigCheck Config FS FSLogic RunLogic Staging StagedJob StagingFacts KeepLogic WorkerKeeps Auth Activation ApplyTransaction ActivationFacts ApplyFacts Bundle Authorize Render Stage Worker WorkerFacts.

Local Open Scope Z_scope.

(** Two paths of different lengths. *)
Ltac too_long H := exfalso; apply (f_equal length) in H; unfold queue_lock, ready_path, queue in H; rewrite !length_app in H; simpl in H; lia.

Lemma run_write_text p c e w w' : not_link (w_fs w) p → write_text p c e w = (Ok tt, w') → kind_at (w_fs w') p = Some (KReg c).
Proof.
  intros Hp. unfold write_text. intros (n & w1 & Hn & ([] & w2 & Ht & (t & w3 & Hk & Hu)%run_bind)%run_bind)%run_bind.
  unfold new_node, ask in Hn. injection Hn as <- <-. injection Hk as <- <-. apply run_wr in Ht, Hu. simpl in Ht, Hu.
  unfold truncate_at in Ht. rewrite resolve_plain in Ht by done. simpl in Ht. inv_ok.
  assert (∃ m, w_fs w2 = <[p:=m]> (w_fs w) ∧ is_lnk m = false) as (m & Hm & Hl).
  { destruct (w_fs w !! p) as [n|] eqn:E0; [destruct (is_dir n); [done|]|]; injection Ht as <-; by eexists. }
  unfold update_real in Hu. rewrite resolve_plain in Hu.
  2: { intros n. rewrite Hm, lookup_insert_eq. by intros [= <-]. }
  simpl in Hu. unfold update_at in Hu. rewrite Hm, lookup_insert_eq in Hu. injection Hu as <-. apply kind_insert.
Qed.

(** ** Building *)

Section building.
Context (staging marker : path).

(** The private directory is there, without links, and [marker] is not. *)
Definition building (t : fs) : Prop :=
  is_dir_at t staging = true ∧ (∀ y n, below staging y → t !! y = Some n → is_lnk n = false) ∧ t !! marker = None.
Definition inside_staging (p : path) : Prop := below staging p ∧ p ≠ staging.
Definition building_policy : policy :=
  Policy inside_staging inside_staging (λ x, x ≠ marker) inside_staging inside_staging (λ p q, inside_staging p ∧ inside_staging q).

Context (Hm : apart staging marker).

Lemma building_insert t p n : p ≠ marker → is_lnk n = false → (p = staging → is_dir n = true) → building t → building (<[p:=n]> t).
Proof.
  intros Hp Hl Hd (Hs & Hn & Hr). split_and!.
  - unfold is_dir_at. destruct (decide (p = staging)) as [->|Hne]; [rewrite lookup_insert_eq; auto|by rewrite lookup_insert_ne].
  - intros y m Hy. destruct (decide (p = y)) as [->|Hne]; [rewrite lookup_insert_eq; by intros [= <-]|].
    rewrite lookup_insert_ne by done. by apply Hn.
  - by rewrite lookup_insert_ne.
Qed.
Lemma building_delete t p : p ≠ staging → building t → building (delete p t).
Proof.
  intros Hp (Hs & Hn & Hr). split_and!.
  - unfold is_dir_at. by rewrite lookup_delete_ne.
  - intros y n Hy [_ H]%lookup_delete_Some. by eapply Hn.
  - destruct (decide (p = marker)) as [->|Hne]; [apply lookup_delete_eq|by rewrite lookup_delete_ne].
Qed.
Lemma inside_not_marker p : inside_staging p → ¬ below p marker.
Proof. intros [Hp _] H. apply (proj1 Hm). etrans; [exact Hp|exact H]. Qed.
Lemma inside_ne p : inside_staging p → p ≠ marker.
Proof. intros Hp ->. by apply (inside_not_marker marker Hp), below_refl. Qed.
Lemma inside_above p : inside_staging p → ¬ below p staging.
Proof.
  intros [[k ->] Hne] [l Hl]. apply Hne. apply (f_equal length) in Hl. rewrite !length_app in Hl.
  destruct k; [by rewrite app_nil_r|simpl in Hl; lia].
Qed.
#[local] Instance building_keeps : Keeps building building_policy.
Proof.
  split; simpl.
  - intros s p n m Hs Hn Hk. destruct Hs as (Hd & Hl & Hr). split_and!.
    + unfold is_dir_at in *. destruct (decide (p = staging)) as [->|Hne]; [|by rewrite lookup_insert_ne].
      rewrite lookup_insert_eq. rewrite Hn in Hd. unfold is_dir in *. by rewrite Hk.
    + intros y m' Hy. destruct (decide (p = y)) as [->|Hne]; [|rewrite lookup_insert_ne by done; by apply Hl].
      rewrite lookup_insert_eq. intros [= <-]. unfold is_lnk. rewrite Hk. by apply (Hl y n).
    + rewrite lookup_insert_ne; [done|]. intros ->. congruence.
  - intros s p q n Hp Hs Hr Hd [Hln Hdn]%reg_facts.
    assert (q = p) as ->.
    { rewrite resolve_plain in Hr; [by injection Hr|]. intros m Hmm. destruct Hs as (_ & Hl & _). by eapply Hl; [apply Hp|]. }
    apply building_insert; [by apply inside_ne|done|by intros ->; destruct Hp|done].
  - intros s p n Hp Hs _ [Hln Hdn]%reg_facts. apply building_insert; [by apply inside_ne|done|by intros ->; destruct Hp|done].
  - intros s p n Hp Hs _ Hd. apply building_insert; [done| |done|done]. unfold is_dir, is_lnk in *. by destruct (n_kind n).
  - intros s p [_ Hp] Hs _. by apply building_delete.
  - intros s p [_ Hp] Hs _. by apply building_delete.
  - intros s p q [Hp Hq] (Hd & Hl & Hr) Ha _. pose proof (inside_above p Hp). pose proof (inside_above q Hq).
    pose proof (inside_not_marker p Hp). pose proof (inside_not_marker q Hq). split_and!.
    + unfold is_dir_at. by rewrite lookup_move, !decide_False by done.
    + intros y n Hy. rewrite lookup_move by done. case_decide; [|case_decide; [done|by apply Hl]].
      apply Hl. etrans; [apply Hp|apply below_app].
    + by rewrite lookup_move, !decide_False by done.
Qed.
#[local] Instance building_clears : Clears building building_policy inside_staging.
Proof.
  assert (∀ p x, inside_staging p → below p x → inside_staging x) as Hb.
  { intros p x Hp Hx. split; [etrans; [apply Hp|done]|]. intros ->. by apply (inside_above p Hp). }
  split; try done; try apply _.
  - intros p x Hp. by eapply Hb; [|apply below_app].
  - intros p x Hp Hx ->. destruct Hp as [Hp _]. destruct (below_both _ _ _ Hp Hx) as [H|H]; [by apply (proj1 Hm)|by apply (proj2 Hm)].
  - intros s p n Hp Hs [Hln Hdn]%reg_facts. apply building_insert; [by apply inside_ne|done|by intros ->; destruct Hp|done].
Qed.

Context (E : machine).
Local Abbreviation kept := (keeps building).
Lemma inside_child x : inside_staging (staging // x).
Proof. split; [apply below_app|]. intros H. apply (f_equal length) in H. rewrite length_app in H. simpl in H. lia. Qed.
#[local] Hint Resolve inside_child : clear.
Let Hsnoc : ∀ p x, inside_staging p → inside_staging (p // x) := clear_snoc.
Let Hstate : ∀ sys parsed cfg files p q, inside_staging p → kept (write_imported_state sys parsed cfg files p q) := kept_write_state.
Let Hsnap : ∀ fuel L p q b, inside_staging q → kept (_snapshot_dir fuel L p q b) := kept_snapshot_dir.
#[local] Hint Resolve Hsnoc : clear.
#[local] Hint Resolve Hstate Hsnap : keeps.

Lemma kept_stage_bundle files x : kept (stage_bundle_files files (staging // x)).
Proof. claim. Qed.
Lemma kept_candidate sys parsed cfg files q : kept (write_imported_state sys parsed cfg files (staging // "candidate") q).
Proof. claim. Qed.
Lemma kept_manifest job_id config_path candidate_root bundle_root parsed warnings filename digest allow op re pr :
  kept (_manifest_for_staged_candidate E job_id config_path candidate_root bundle_root parsed warnings filename digest allow op re pr).
Proof. claim. Qed.
Lemma kept_evidence manifest payload filename authorization :
  kept (_stage_request_evidence E staging manifest payload filename authorization).
Proof. claim. Qed.
Lemma parent_snoc (p : path) x : parent (p // x) = p.
Proof. unfold parent. by rewrite removelast_last. Qed.
Lemma kept_manifest_file payload : kept (write_json_atomic (staging // "manifest.json") payload 416 None).
Proof.
  unfold write_json_atomic. rewrite parent_snoc. claim. simpl.
  by intros ->; apply (proj2 Hm).
Qed.
End building.

(** ** Names in the queue *)

Lemma job_id_no_dot j x : validate_job_id j = Ok j → j ≠ String "." x.
Proof.
  intros (_ & Hre & _)%validate_job_id_Ok ->. unfold JOB_ID_RE in Hre.
  change (chars (String "." x)) with ("."%char :: chars x) in Hre. simpl in Hre.
  destruct (rev (chars x)) as [|c l]; simpl in Hre; [done|]. destruct (c =? nl_char)%char; [by rewrite rev_app_distr in Hre|done].
Qed.
Lemma job_id_first j s x : validate_job_id j = Ok j → j +:+ s ≠ String "." x.
Proof.
  intros Hj Hs. destruct j as [|c r]; [by apply validate_job_id_Ok in Hj as (_ & ? & _)|]. injection Hs as -> _.
  by apply (job_id_no_dot _ r Hj).
Qed.
Lemma not_valid_suffix j sfx : validate_job_id j = Ok j → sfx = ".ready" ∨ sfx = ".reserve" → ∀ t, j ≠ t +:+ sfx.
Proof.
  intros (_ & _ & _ & _ & H1 & H2)%validate_job_id_Ok Hs t Ht.
  assert (endswith j sfx = true) as He by (apply endswith_spec; eauto). by destruct Hs as [-> | ->]; congruence.
Qed.

Lemma suffixes_differ s t : s +:+ ".ready" ≠ t +:+ ".reserve".
Proof. intros H. apply (f_equal (λ s, rev (chars s))) in H. by rewrite !chars_app, !rev_app_distr in H. Qed.

(** ** What is published *)

Section publish.
Context (E : machine) (job_id : string) (Hid : validate_job_id job_id = Ok job_id).
Context (paths : RuntimePaths) (filename : string) (request_payload : option string) (auth : option (dict value)).
Context (pid : string).
Local Abbreviation job := (queue paths // job_id).
Local Abbreviation marker := (ready_path paths job_id).
Local Abbreviation staging := (queue paths // ("." +:+ job_id +:+ ".staging." +:+ pid)).

(** What the manifest says of the request. *)
Definition request_entry (payload : string) : value :=
  VDict ([("filename", VStr filename); ("size", VInt (Z.of_nat (slen payload))); ("sha256", VStr (sha256 E (bytes_content E payload)))]
         ++ match auth with Some a => [("authorization", VDict a)] | None => [] end).
(** The directory [p] holds the job: a manifest with its id, and the bytes of its request. *)
Definition holds_job (p : path) (t : fs) : Prop :=
  is_dir_at t p = true ∧ ∃ m, kind_at t (p // "manifest.json") = Some (KReg (json_file m)) ∧ vget "job_id" m = VStr job_id ∧
    match request_payload with
    | Some payload => kind_at t (p // "request.bin") = Some (KReg (bytes_content E payload)) ∧ vget "request" m = request_entry payload
    | None => vget "request" m = VNone
    end.

Lemma holds_job_moved p q t : apart p q → holds_job p t → holds_job q (move p q t).
Proof.
  intros Ha (Hd & m & Hm & Hj & Hr).
  assert (∀ k, kind_at (move p q t) (q ++ k) = kind_at t (p ++ k)) as Hk.
  { intros k. unfold kind_at. rewrite lookup_move, decide_True by (done || apply below_app). by rewrite drop_app_length. }
  pose proof (Hk []) as H0. rewrite !app_nil_r in H0. split; [apply dir_kind; rewrite H0; by apply dir_kind|].
  exists m. by rewrite !Hk.
Qed.
Lemma holds_job_changes D p s t : (∀ x, D x → ¬ below p x) → changes D s t → holds_job p s → holds_job p t.
Proof.
  intros HD Hc (Hd & m & Hm & Hj & Hr).
  assert (∀ k, kind_at t (p ++ k) = kind_at s (p ++ k)) as Hk by (intros k; apply Hc; intros H; by apply (HD _ H), below_app).
  pose proof (Hk []) as H0. rewrite !app_nil_r in H0. split; [apply dir_kind; rewrite H0; by apply dir_kind|].
  exists m. by rewrite !Hk.
Qed.

Lemma run_manifest cp cr br parsed ws fn digest allow op re pr e w m w' :
  _manifest_for_staged_candidate E job_id cp cr br parsed ws fn digest allow op re pr e w = (Ok m, w') →
  vget "job_id" m = VStr job_id ∧ vget "request" m = VNone.
Proof.
  unfold _manifest_for_staged_candidate.
  intros ([uid gid] & w1 & _ & (d & w2 & _ & (c & w3 & _ & (b & w4 & _ & (p & w5 & _ & (n & w6 & _ & [<- _]%run_ret)%run_bind)%run_bind)%run_bind)%run_bind)%run_bind)%run_bind.
  done.
Qed.
Lemma run_evidence m payload e w m' w' : env_ok e → building staging marker (w_fs w) → vget "job_id" m = VStr job_id →
  _stage_request_evidence E staging m payload filename auth e w = (Ok m', w') →
  vget "job_id" m' = VStr job_id ∧ vget "request" m' = request_entry payload ∧
  kind_at (w_fs w') (staging // "request.bin") = Some (KReg (bytes_content E payload)).
Proof.
  intros He (_ & Hl & _) Hj. unfold _stage_request_evidence.
  intros ([] & w1 & Hw & ([] & w2 & Hc & [<- <-]%run_ret)%run_bind)%run_bind.
  apply run_write_text in Hw; [|intros n Hn; eapply Hl; [apply below_app|exact Hn]].
  unfold vget. split; [by rewrite dget_dset_ne|]. split; [by rewrite dget_dset_eq|]. rewrite <-Hw.
  apply (run_touches (λ _, False) _ _ _ _ _ (touches_chmod _ _ _) He Hc). tauto.
Qed.

(** ** The clean-up of stale reservations

    It runs between the move and the marker, and may take the new job away again, when
    its own reservation has gone stale; then the reservation is gone too. *)

Local Abbreviation reserve := (reserve_path paths job_id).
Definition no_marker (t : fs) : Prop := kind_at t marker = None.
Definition unreserved (t : fs) : Prop := ∀ c, kind_at t reserve ≠ Some (KReg c).
Definition kept_or_unreserved (t : fs) : Prop := holds_job job t ∨ unreserved t.

Lemma safe_below x y : x ≠ job_id → below (queue paths // x) y → ¬ below job y.
Proof. intros Hx [k ->] H. by apply below_snoc_eq in H. Qed.
Lemma safe_entry x z y : x ≠ z → below (queue paths // x) y → y ≠ queue paths // z.
Proof.
  intros Hx Hb ->. apply Hx. rewrite <-(app_nil_r (queue paths // z)) in Hb. by apply below_snoc_eq in Hb.
Qed.

Lemma run_wp {A} (m : M A) (Q : result A → fs → Prop) e w r w' :
  wp env_ok (λ _, True) m Q (w_fs w) → env_ok e → m e w = (r, w') → Q r (w_fs w').
Proof. intros Hm He Hr. destruct (Hm e w He eq_refl) as (r' & w1 & Hr' & HQ & _). rewrite Hr in Hr'. by injection Hr' as <- <-. Qed.
Lemma wp_remove_not_reg p s : wp env_ok (λ _, True) (remove_staged_path p) (λ r t, r = Ok tt → ∀ c, kind_at t p ≠ Some (KReg c)) s.
Proof.
  unfold remove_staged_path. apply wp_bind, wp_attempt, wp_rd.
  { intros e He n x [_ Hx]%(eo_rfault e He). destruct (is_not_found x) eqn:Hn; [by destruct x|by apply wp_raise]. }
  unfold lstat_at. destruct (s !! p) as [n|] eqn:En; simpl.
  2: { destruct (is_not_found _); [apply wp_ret|by apply wp_raise]. intros _ c. unfold kind_at. by rewrite En. }
  destruct (is_dir n) eqn:Hd.
  - apply wp_rmtree_ignore_errors; [done|]. intros t Ht. split; [done|]. intros _ c. unfold kind_at.
    destruct (Ht p) as [->|[_ ->]]; [|done]. rewrite En. unfold is_dir in Hd. simpl. intros [= Hk]. by rewrite Hk in Hd.
  - unfold unlink_missing_ok. apply wp_catch, wp_wr.
    + intros e He k x [_ Hx]%(eo_wfault e He). destruct (is_not_found x) eqn:Hn; [by destruct x|done].
    + unfold unlink_at. rewrite En, Hd. split; [done|]. intros _ c. unfold kind_at. by rewrite lookup_delete_eq.
Qed.

(** Neither the new job, nor its marker and reservation. *)
Definition others (y : path) : Prop := ¬ below job y ∧ y ≠ marker ∧ y ≠ reserve.
Lemma others_entry x : x ≠ job_id → x ≠ ready_name job_id → x ≠ reserve_name job_id → touches others (remove_staged_path (queue paths // x)).
Proof.
  intros H1 H2 H3. apply touches_remove_staged_path. intros y Hy.
  split_and!; [by eapply safe_below|by eapply safe_entry|by eapply safe_entry].
Qed.
Lemma others_dot x : startswith x "." = true → touches others (remove_staged_path (queue paths // x)).
Proof.
  unfold startswith. intros [t ->]%prefix_spec. apply others_entry; intros H; symmetry in H; revert H.
  - rewrite <-(str_app_nil job_id). by apply job_id_first.
  - by apply job_id_first.
  - by apply job_id_first.
Qed.
Definition quiet (y : path) : Prop := y ≠ marker ∧ y ≠ reserve.
Lemma touches_unpublished (D : path → Prop) j : (∀ y, others y → D y) → touches D (remove_staged_path (queue paths // j)) →
  touches D (_remove_unpublished_job_locked paths j).
Proof.
  intros HD Hj. unfold _remove_unpublished_job_locked. touches. apply touches_forM. intros x _ Hx. apply list_elem_of_filter in Hx as [Hx%Is_true_true _].
  eapply touches_weaken; [exact HD|]. apply others_dot. unfold startswith in *. apply prefix_spec in Hx as [t ->]. apply prefix_spec. by eexists.
Qed.
Lemma valid_entry j : validate_job_id j = Ok j → j ≠ ready_name job_id ∧ j ≠ reserve_name job_id.
Proof. intros Hj. unfold ready_name, reserve_name. split; eapply not_valid_suffix; eauto. Qed.
Lemma others_job j : validate_job_id j = Ok j → j ≠ job_id → touches others (_remove_unpublished_job_locked paths j).
Proof. intros Hj Hne. destruct (valid_entry j Hj). apply touches_unpublished; [done|]. by apply others_entry. Qed.
Lemma quiet_job j : validate_job_id j = Ok j → touches quiet (_remove_unpublished_job_locked paths j).
Proof.
  intros Hj. destruct (valid_entry j Hj). apply touches_unpublished; [by intros y (_ & ? & ?)|].
  apply touches_remove_staged_path. intros y Hy. split; by eapply safe_entry.
Qed.
Lemma job_of_reserve name j : endswith name ".reserve" = true → job_of ".reserve" name = Some j →
  validate_job_id j = Ok j ∧ name = reserve_name j.
Proof.
  intros [t ->]%endswith_spec [Hv%is_ok_validate Hr]%job_of_valid. split; [done|]. rewrite removesuffix_app in Hr. by subst.
Qed.
Lemma drop_others name : endswith name ".reserve" = true → name ≠ reserve_name job_id → touches others (drop_reservation paths name).
Proof.
  intros He Hne. unfold drop_reservation. pose proof He as [t Ht]%endswith_spec.
  assert (touches others (remove_staged_path (queue paths // name))) as Hrm.
  { apply others_entry; [| |done]; rewrite Ht.
    - intros Hj. by apply (not_valid_suffix job_id ".reserve" Hid (or_intror eq_refl) t).
    - intros H. symmetry in H. by apply suffixes_differ in H. }
  apply touches_bind; [done|intros _]. apply touches_bind; [|intros; apply touches_ret].
  destruct (job_of ".reserve" name) as [j|] eqn:Ej; [|apply touches_ret]. apply (job_of_reserve name j He) in Ej as [Hj ->]. apply others_job; [done|]. by intros ->.
Qed.
(** One stale reservation: the marker is not made, and the new job is only taken away
    when its own reservation goes. *)
Lemma drop_no_marker name : endswith name ".reserve" = true → touches (λ y, y ≠ marker) (drop_reservation paths name).
Proof.
  intros He. destruct (decide (name = reserve_name job_id)) as [->|Hne].
  2: { eapply touches_weaken; [|by apply drop_others]. by intros y (_ & ? & _). }
  unfold drop_reservation. apply touches_bind; [|intros _; apply touches_bind; [|intros; apply touches_ret]].
  - apply touches_remove_staged_path. intros y Hy. eapply safe_entry; [|exact Hy]. intros H. symmetry in H. by apply suffixes_differ in H.
  - destruct (job_of ".reserve" _) as [j|] eqn:Ej; [|apply touches_ret]. apply (job_of_reserve _ j He) in Ej as [Hj _].
    eapply touches_weaken; [|by apply quiet_job]. by intros y [? _].
Qed.
Lemma kept_others s t : changes others s t → kept_or_unreserved s → kept_or_unreserved t.
Proof.
  intros Hc [Hs|Hs]; [left|right].
  - eapply holds_job_changes; [|exact Hc|exact Hs]. by intros y [? _].
  - intros c. rewrite (Hc reserve); [apply Hs|]. by intros (_ & _ & ?).
Qed.
Lemma run_drop name e w b w' : env_ok e → endswith name ".reserve" = true →
  drop_reservation paths name e w = (Ok b, w') → kept_or_unreserved (w_fs w) → kept_or_unreserved (w_fs w').
Proof.
  intros He Hn Hr Hs. destruct (decide (name = reserve_name job_id)) as [->|Hne].
  2: { eapply kept_others; [|exact Hs]. by eapply run_touches; [apply drop_others|exact He|exact Hr]. }
  right. unfold drop_reservation in Hr. apply run_bind in Hr as ([] & w1 & Hrm & ([] & w2 & Hj & [_ ->]%run_ret)%run_bind).
  pose proof (run_wp _ _ _ _ _ _ (wp_remove_not_reg _ _) He Hrm eq_refl) as Hu.
  assert (touches quiet (match job_of ".reserve" (reserve_name job_id) with Some j => _remove_unpublished_job_locked paths j | None => mret tt end)) as Ht.
  { destruct (job_of ".reserve" _) as [j|] eqn:Ej; [|apply touches_ret]. apply (job_of_reserve _ j Hn) in Ej as [Hv _]. by apply quiet_job. }
  pose proof (run_touches _ _ _ _ _ _ Ht He Hj reserve) as Hk. intros c. rewrite Hk; [apply Hu|by intros [_ ?]].
Qed.

(** Until the marker is there, nothing is promised of it. *)
Definition published_whole (t : fs) : Prop := is_Some (t !! marker) → holds_job job t.
Local Abbreviation wpp := (wp env_ok published_whole).
Lemma no_marker_whole t : no_marker t → published_whole t.
Proof. intros Hn [n Hm]. unfold no_marker, kind_at in Hn. by rewrite Hm in Hn. Qed.
Lemma kept_no_marker {A} (m : M A) s : touches (λ y, y ≠ marker) m → no_marker s → wpp m (λ _ t, no_marker t) s.
Proof.
  intros Hm Hs. eapply (touches_then (λ y, y ≠ marker) _ _ _ s); [exact Hm|apply changes_refl| |].
  - intros t Ht. apply no_marker_whole. unfold no_marker. rewrite Ht; [done|tauto].
  - intros r t Ht. unfold no_marker. rewrite Ht; [done|tauto].
Qed.

Definition after_stale {A} (r : result A) (t : fs) : Prop :=
  no_marker t ∧ match r with Ok _ => kept_or_unreserved t | Err _ => True end.
Lemma quiet_after {A} (m : M A) s : touches others m → no_marker s → kept_or_unreserved s → wpp m after_stale s.
Proof.
  intros Hm Hs Hk. assert (∀ t, changes others s t → no_marker t) as Hn.
  { intros t Ht. unfold no_marker. rewrite Ht; [done|]. by intros (_ & ? & _). }
  eapply (touches_then others _ _ _ s); [exact Hm|apply changes_refl| |].
  - intros t Ht. by apply no_marker_whole, Hn.
  - intros r t Ht. split; [by apply Hn|]. destruct r; [|done]. by eapply kept_others.
Qed.
Lemma after_bind {A B} (m : M A) (k : A → M B) (Q : result B → fs → Prop) s : wpp m after_stale s →
  (∀ a t, no_marker t → kept_or_unreserved t → wpp (k a) Q t) → (∀ x t, published_whole t → Q (Err x) t) → wpp (m ≫= k) Q s.
Proof.
  intros Hm Hk HE. apply wp_bind. eapply wp_mono; [exact Hm|]. intros [a|x] t [Ht Hkt]; [by apply Hk|].
  by apply HE, no_marker_whole.
Qed.
Lemma wp_cleanup_stale s : no_marker s → kept_or_unreserved s → wpp (_cleanup_stale_reservations_locked paths) after_stale s.
Proof.
  intros Hs Hk. unfold _cleanup_stale_reservations_locked, glob_suffix.
  apply wp_bind. eapply wp_mono; [apply (quiet_after time_time); [touches|done..]|]. clear s Hs Hk. intros [now|x] s [Hs Hk]; [|done].
  apply wp_bind, wp_bind. eapply wp_mono; [apply (quiet_after (listdir (queue paths))); [touches|done..]|].
  intros [l|x] u [Hu Hku]; [|done]. apply wp_ret, wp_bind.
  apply (wp_forM _ _ _ (λ l' (_ : bool) t, (∀ x, x ∈ l' → endswith x ".reserve" = true) ∧ no_marker t ∧ kept_or_unreserved t)).
  - split; [|done]. by intros x [Hx%Is_true_true _]%list_elem_of_filter.
  - intros name l' b t (Hl & Ht & Hkt).
    assert (endswith name ".reserve" = true) as He by (apply Hl; by left).
    eapply wp_mono; [apply wp_runs, kept_no_marker; [|exact Ht]|].
    { apply touches_bind; [touches|]. intros r. touches; by apply drop_no_marker. }
    intros [b'|x] v [Hv (e & w & w' & Henv & <- & <- & Hr)]; [|done].
    assert (∀ x, x ∈ l' → endswith x ".reserve" = true) as Hl' by (intros x Hx; apply Hl; by right).
    split_and!; [done..|]. apply run_bind in Hr as (r & w1 & Ha & Hr).
    assert (kept_or_unreserved (w_fs w1)) as Hk1.
    { eapply kept_others; [|exact Hkt]. eapply run_touches; [|exact Henv|exact Ha]. touches. }
    destruct r as [n|x]; [|destruct (is_not_found x); [by apply run_ret in Hr as [_ ->]|done]].
    destruct (_ || _); [|by apply run_ret in Hr as [_ ->]]. by eapply run_drop.
  - intros b t (_ & Ht & Hkt). destruct b; [|by apply wp_ret]. by apply quiet_after; [unfold fsync_directory; touches|..].
Qed.

(** ** The marker *)

Lemma run_read_json p e w d w' : read_json p e w = (Ok d, w') → ∃ c, kind_at (w_fs w) p = Some (KReg c).
Proof.
  unfold read_json. intros (v & w1 & Hv & _)%run_bind. apply run_catch in Hv as [Hv|(x & w2 & _ & _ & H)]; [|done].
  apply run_bind in Hv as (c & w2 & Hc & _). apply run_rd in Hc as [Hc _]. unfold read_control_at, lstat_at in Hc.
  destruct (w_fs w !! p) as [n|] eqn:En; [|done]. simpl in Hc. exists c. unfold kind_at. rewrite En. simpl.
  destruct (n_kind n); [|done..]. destruct (_ <? _) in Hc; [done|]. by injection Hc as ->.
Qed.
Definition marked (r : result path) (t : fs) : Prop :=
  match r with Ok _ => (∃ c, kind_at t marker = Some (KReg c)) ∧ holds_job job t | Err _ => published_whole t end.
(** From here on the job stays whole. *)
Lemma keeps_job {A} (m : M A) s : touches (λ y, ¬ below job y) m → holds_job job s → wpp m (λ _ t, holds_job job t) s.
Proof.
  intros Hm Hs. assert (∀ t, changes (λ y, ¬ below job y) s t → holds_job job t) as Hk.
  { intros t Ht. eapply holds_job_changes; [|exact Ht|exact Hs]. done. }
  eapply (touches_then (λ y, ¬ below job y) _ _ _ s); [exact Hm|apply changes_refl| |].
  - intros t Ht _. by apply Hk.
  - intros _ t Ht. by apply Hk.
Qed.
Lemma below_queue_job x : below x (queue paths) → ¬ below job x.
Proof.
  intros [k Hk] [l ->]. too_long Hk.
Qed.
Lemma touches_write_json (D : path → Prop) p payload mode owner :
  (∀ x, below x (parent p) → D x) → (∀ x, below p x → D x) →
  (∀ sfx x, below (parent p // ("." +:+ name_of p +:+ "." +:+ sfx)) x → D x) → touches D (write_json_atomic p payload mode owner).
Proof.
  intros H1 H2 H3. unfold write_json_atomic, write_new.
  assert (∀ sfx, D (parent p // ("." +:+ name_of p +:+ "." +:+ sfx))) as H4 by (intros sfx; eapply H3, below_refl).
  touches; try apply H4; try by apply touches_mkdir_parents.
  - by apply touches_create.
  - by apply touches_update.
  - apply touches_rename. intros x [Hb|Hb]; [by eapply H3|by apply H2].
  - by apply touches_unlink_missing_ok.
Qed.
Lemma touches_marker m : touches (λ y, ¬ below job y) (write_json_atomic marker m 416 None).
Proof.
  destruct (valid_entry job_id Hid) as [Hr _].
  apply touches_write_json; unfold ready_path; rewrite ?parent_snoc, ?name_of_snoc; [exact below_queue_job| |].
  - intros x. by apply safe_below.
  - intros sfx x. apply safe_below. intros H. by apply (job_id_no_dot job_id _ Hid (eq_sym H)).
Qed.
Lemma wp_write_marker m s : holds_job job s →
  wpp (_ ← write_json_atomic marker m 416 None; _ ← unlink_missing_ok reserve; _ ← fsync_directory (queue paths); mret marker) marked s.
Proof.
  intros Hs. apply wp_bind. eapply wp_mono; [apply wp_runs, keeps_job; [apply touches_marker|exact Hs]|].
  intros [[]|x] t [Ht (e & w & w' & He & _ & <- & Hr)]; [|by intros _]. apply run_write_json_atomic in Hr; [|done].
  revert Hr Ht. generalize (w_fs w'). intros u Hm Hu.
  assert (touches (λ y, y = reserve) (_ ← unlink_missing_ok reserve; _ ← fsync_directory (queue paths); mret marker)) as Hrest.
  { unfold fsync_directory. touches. by apply touches_unlink_missing_ok. }
  assert (∀ v, changes (λ y, y = reserve) u v → kind_at v marker = Some (KReg (json_file m)) ∧ holds_job job v) as Hv.
  { destruct (valid_entry job_id Hid) as [_ Hn]. intros v Hv. split.
    - rewrite Hv; [done|]. apply (safe_entry (ready_name job_id)); [apply suffixes_differ|apply below_refl].
    - eapply holds_job_changes; [|exact Hv|exact Hu]. intros y ->. by apply (safe_below (reserve_name job_id)), below_refl. }
  eapply (touches_then (λ y, y = reserve) _ _ _ u); [exact Hrest|apply changes_refl| |].
  - intros v Hc _. by apply Hv.
  - intros [p|x] v Hc; [|intros _]; destruct (Hv v Hc) as [Hk Hh]; [|done]. split; [by eexists|done].
Qed.
Lemma wp_publish_marker (time_value : Z → value) s : no_marker s → holds_job job s →
  wpp (publish_ready_marker time_value paths job_id) marked s.
Proof.
  intros Hn Hs. unfold publish_ready_marker. apply wp_bind, wp_lift. rewrite Hid. unfold queue_operation_lock.
  assert (∀ x t, published_whole t → marked (Err x) t) as Herr by done.
  apply after_bind; [|intros [] u Hu Hku|exact Herr].
  { apply quiet_after; [|done|by left]. apply touches_open_queue_lock.
    assert (∀ y, queue_lock paths ≠ queue paths // y) as Hne.
    { intros y H. too_long H. }
    split_and!; [|apply Hne|apply Hne]. intros [k H]. too_long H. }
  apply after_bind; [by apply wp_cleanup_stale|clear u Hu Hku; intros [] u Hu Hku|exact Herr].
  apply after_bind; [apply quiet_after; [touches|done..]|clear u Hu Hku; intros st u Hu Hku|exact Herr].
  apply wp_bind. eapply wp_mono; [apply wp_runs, quiet_after; [unfold _reservation_sort_key; touches|exact Hu|exact Hku]|].
  intros [[n created]|x] v [[Hv Hkv] (e & w & w' & He & <- & <- & Hr)]; [|by apply Herr, no_marker_whole].
  apply wp_write_marker. destruct Hkv as [Hkv|Hkv]; [done|]. exfalso.
  assert (touches (λ _, False) (_reservation_sort_key time_value reserve)) as Ht by (unfold _reservation_sort_key; touches).
  pose proof (run_touches _ _ _ _ _ _ Ht He Hr reserve) as Hk. apply run_bind in Hr as (d & w1 & Hd & _).
  apply run_read_json in Hd as [c Hc]. apply (Hkv c). rewrite Hk; [done|tauto].
Qed.

(** ** The whole of [publish_candidate] *)

Context (config_path : path) (files_path : option path) (config_root : path) (source_digest : option string) (allow_reapply : bool)
  (operation : string) (is_reapply : bool) (parsed : config).

Lemma staging_apart : apart staging marker ∧ apart staging job.
Proof.
  assert (∀ x y : string, x ≠ y → apart (queue paths // x) (queue paths // y)) as Ha.
  { intros x y Hne. split; intros H; apply Hne; [|symmetry]; eapply below_snoc_eq; rewrite app_nil_r; exact H. }
  split; apply Ha; intros H; symmetry in H; revert H.
  - by apply job_id_first.
  - by apply (job_id_no_dot job_id).
Qed.

(** Nothing is written outside the private directory until the move. *)
Lemma building_bind {A B} (m : M A) (k : A → M B) (Q : result B → fs → Prop) s : keeps (building staging marker) m →
  (∀ x t, published_whole t → Q (Err x) t) → building staging marker s →
  (∀ a e w w', env_ok e → w_fs w = s → m e w = (Ok a, w') → building staging marker (w_fs w') → wpp (k a) Q (w_fs w')) →
  wpp (m ≫= k) Q s.
Proof.
  intros Hm HE Hs Hk. assert (∀ t, building staging marker t → published_whole t) as Hp.
  { intros t (_ & _ & Ht). apply no_marker_whole. unfold no_marker, kind_at. by rewrite Ht. }
  apply wp_bind. eapply wp_mono; [apply wp_runs; eapply wp_weaken; [| |by apply Hm]; [done|exact Hp]|].
  intros [a|x] t [Ht (e & w & w' & He & <- & <- & Hr)]; [by eapply Hk|by apply HE, Hp].
Qed.

Definition before_staging (t : fs) : Prop := no_marker t ∧ ∀ y n, below staging y → t !! y = Some n → is_lnk n = false.
Definition made {A} (r : result A) (t : fs) : Prop := match r with Ok _ => building staging marker t | Err _ => before_staging t end.
Lemma wp_make_staging s : before_staging s → wpp (mkdir 448 staging) made s.
Proof.
  intros [Hn Hl]. unfold mkdir. apply wp_bind, wp_ask. intros e k _. apply wp_wr; [done|].
  destruct (mkdir_at _ _ s) as [t|x] eqn:Ht; [|done]. unfold mkdir_at in Ht. inv_ok. set (n := Node _ _ _ _ _).
  assert (building staging marker (<[staging:=n]> s)) as Hb.
  { destruct staging_apart as [[Hm _] _]. split_and!.
    - unfold is_dir_at. by rewrite lookup_insert_eq.
    - intros y m Hy. destruct (decide (staging = y)) as [<-|Hne]; [rewrite lookup_insert_eq; by intros [= <-]|].
      rewrite lookup_insert_ne by done. by apply Hl.
    - rewrite lookup_insert_ne; [|by intros He; apply Hm; rewrite He; apply below_refl].
      unfold no_marker, kind_at in Hn. by destruct (s !! marker). }
  split; [|done]. apply no_marker_whole. destruct Hb as (_ & _ & Hb). unfold no_marker, kind_at. by rewrite Hb.
Qed.
Lemma wp_begin s : before_staging s → wpp
  (catch (mkdir 448 staging) is_not_found (λ _, _ ← mkdir_parents 511 (parent staging); mkdir 448 staging)) made s.
Proof.
  intros Hs. apply wp_catch. eapply wp_mono; [by apply wp_make_staging|]. intros [[]|x] t Ht; [done|].
  destruct (is_not_found x); [|done]. apply wp_bind. rewrite parent_snoc.
  assert (∀ u, changes (λ y, below y (queue paths)) t u → before_staging u) as Hu.
  { destruct Ht as [Hn Hl]. intros u Hc. split.
    - unfold no_marker. rewrite Hc; [done|]. intros [k Hk]. too_long Hk.
    - intros y n Hy Hyn. assert (kind_at u y = kind_at t y) as Hky.
      { apply Hc. intros Hq. destruct Hy as [k ->]. destruct Hq as [l Hq]. too_long Hq. }
      unfold kind_at in Hky. rewrite Hyn in Hky. destruct (t !! y) as [m|] eqn:Em; [|done]. simpl in Hky. injection Hky as Hky.
      specialize (Hl y m Hy Em). unfold is_lnk in *. by rewrite Hky. }
  eapply (touches_then (λ y, below y (queue paths)) _ _ _ t); [by apply touches_mkdir_parents|apply changes_refl| |].
  - intros u Hc. by apply no_marker_whole, Hu.
  - intros [[]|y] u Hc; [by apply wp_make_staging, Hu|by apply Hu].
Qed.

Definition stage_post (r : result ()) (t : fs) : Prop :=
  match r with Ok _ => (∃ c, kind_at t marker = Some (KReg c)) ∧ holds_job job t | Err _ => published_whole t end.

(** The move, the marker, the end of the reservation. *)
Lemma wp_finish s : building staging marker s → holds_job staging s →
  wpp (_ ← rename staging job; _ ← publish_ready_marker (time_value E) paths job_id; unlink_missing_ok reserve) stage_post s.
Proof.
  intros (_ & _ & Hn) Hs. destruct staging_apart as [Hm Hj].
  assert (no_marker s) as Hns by (unfold no_marker, kind_at; by rewrite Hn).
  apply wp_bind, wp_wr; [intros; by apply no_marker_whole|].
  destruct (rename_at staging job s) as [t|x] eqn:Ht; [|by apply no_marker_whole].
  apply rename_at_Ok in Ht as [[Heq _]|[_ ->]]; [destruct Hj as [Hj _]; destruct Hj; rewrite Heq; apply below_refl|].
  assert (no_marker (move staging job s)) as Hnt.
  { unfold no_marker, kind_at. rewrite lookup_move by done. destruct Hm as [Hm _]. rewrite !decide_False; [by rewrite Hn|done|].
    intros Hb. apply (safe_below (ready_name job_id) marker); [|apply below_refl|exact Hb]. intros H. symmetry in H.
    by apply (valid_entry job_id Hid) in H. }
  split; [by apply no_marker_whole|]. apply wp_bind. eapply wp_mono; [by apply wp_publish_marker, holds_job_moved|].
  intros [p|x] t Ht; [|done]. destruct Ht as [[c Hc] Hh].
  assert (touches (λ y, y = reserve) (unlink_missing_ok reserve)) as Hrm by (by apply touches_unlink_missing_ok).
  assert (∀ v, changes (λ y, y = reserve) t v → (∃ c, kind_at v marker = Some (KReg c)) ∧ holds_job job v) as Hv.
  { intros v Hv. split; [exists c; rewrite Hv; [done|]; apply (safe_entry (ready_name job_id)); [apply suffixes_differ|apply below_refl]|].
    eapply holds_job_changes; [|exact Hv|exact Hh]. intros y ->. destruct (valid_entry job_id Hid) as [_ Hr].
    by apply (safe_below (reserve_name job_id)), below_refl. }
  eapply (touches_then (λ y, y = reserve) _ _ _ t); [exact Hrm|apply changes_refl| |].
  - intros v Hcv _. by apply Hv.
  - intros [[]|x] v Hcv; [by apply Hv|]. intros _. by apply Hv.
Qed.

(** What the manifest and the files beside it say, before the manifest is written. *)
Definition job_facts (m : dict value) (t : fs) : Prop :=
  vget "job_id" m = VStr job_id ∧
  match request_payload with
  | Some payload => kind_at t (staging // "request.bin") = Some (KReg (bytes_content E payload)) ∧ vget "request" m = request_entry payload
  | None => vget "request" m = VNone
  end.
Lemma run_manifest_file m e w w' : env_ok e → building staging marker (w_fs w') → job_facts m (w_fs w) →
  write_json_atomic (staging // "manifest.json") m 416 None e w = (Ok tt, w') → holds_job staging (w_fs w').
Proof.
  intros He (Hd & _ & _) [Hj Hf] Hr. split; [done|]. exists m.
  split; [by eapply run_write_json_atomic|]. split; [done|]. destruct request_payload as [payload|]; [|done].
  destruct Hf as [Hk Hq]. split; [|done]. rewrite <-Hk.
  apply (run_touches (λ y, y ≠ staging // "request.bin") _ _ _ _ _) with (2:=He) (3:=Hr); [|tauto].
  apply touches_write_json; rewrite ?parent_snoc, ?name_of_snoc.
  - intros x [k Hk'] ->. too_long Hk'.
  - intros x [k ->] H. rewrite <-!app_assoc in H. by apply (inj _) in H.
  - intros sfx x [k ->] H. rewrite <-!app_assoc in H. by apply (inj _) in H.
Qed.

Lemma wp_publish_candidate s : before_staging s →
  wpp (publish_candidate E job_id config_path files_path config_root filename source_digest allow_reapply operation request_payload auth
         is_reapply parsed paths staging job) stage_post s.
Proof.
  intros Hs. destruct staging_apart as [Hm _]. assert (∀ x t, published_whole t → stage_post (Err x) t) as HE by done.
  unfold publish_candidate. apply wp_bind. eapply wp_mono; [by apply wp_begin|].
  intros [[]|x] t Ht; [|by apply HE, no_marker_whole, Ht].
  apply building_bind; [by apply kept_candidate|exact HE|exact Ht|]. intros ws _ _ w1 _ _ _ H1.
  apply building_bind; [|exact HE|exact H1|].
  { destruct files_path as [f|]; [apply keeps_bind; [by apply kept_stage_bundle|intros; apply keeps_ret]|].
    destruct (_ && _); [apply keeps_test|apply keeps_ret]. }
  intros preserve _ _ w2 _ _ _ H2. apply building_bind; [by apply kept_manifest|exact HE|exact H2|].
  intros m e v w3 _ _ Hr H3. apply run_manifest in Hr as [Hj Hq].
  apply building_bind; [destruct request_payload; [by apply kept_evidence|apply keeps_ret]|exact HE|exact H3|].
  intros m' e0 v' w4 He Hv Hr H4. rewrite <-Hv in H3.
  assert (job_facts m' (w_fs w4)) as Hf.
  { unfold job_facts. destruct request_payload as [payload|]; [|by apply run_ret in Hr as [<- ->]].
    by destruct (run_evidence _ _ _ _ _ _ He H3 Hj Hr) as (? & ? & ?). }
  apply building_bind; [by apply kept_manifest_file|exact HE|exact H4|].
  intros [] e' v'' w5 He' Hv' Hr' H5. rewrite <-Hv' in Hf. apply wp_finish; [done|]. by eapply run_manifest_file.
Qed.
End publish.


Definition stage_paths : RuntimePaths := _runtime_paths sample_machine.
Definition reserved_disk : fs :=
  w_fs ((_ ← ensure_runtime_layout stage_paths false;
         _ ← reserve_staged_job_slot VInt stage_paths "job" 4;
         write_text (tmp_dir // "config.toml") (CText "text")) sample_env (World sample_disk [] 0)).2.
Definition ok_value {A} (r : result A) : is_ok r = true → A :=
  match r with Ok a => λ _, a | Err _ => λ H, match Bool.diff_false_true H with end end.
Definition stage_config : config :=
  ok_value (load_config_file sample_platform (tmp_dir // "config.toml") sample_env (World reserved_disk [] 0)).1
    ltac:(vm_compute; reflexivity).
Definition staging_dir : path := queue stage_paths // ".job.staging.1".
Definition publish_run : result () * world :=
  publish_candidate sample_machine "job" (tmp_dir // "config.toml") None data_config_root "config.toml" None true "full-apply"
    (Some "text") None false stage_config stage_paths staging_dir (queue stage_paths // "job") sample_env (World reserved_disk [] 0).

