(* ===== verification/Service.v ===== *)
(** * [domain/config/service.py]: what the jobs of the API run

    The methods of [ConfigService] in
    src/scripts/atomixos_provision/src/atomixos_provision/domain/config/service.py
    that run provision.py, with its async wrappers (they start the synchronous function in a
    thread), and the closures the coordinator hands to a job manager: the work of
    Api.v, run.  [polls] and [other] are those of the wait for the worker. *)

From S2P Require Import Prelude PyStr PyVal ConfigValue FS Auth Jobs Api Authorize Stage Worker.

Local Open Scope Z_scope.

Section service.
Context (E : machine) (config_root : path) (polls : nat) (other : nat → nat → M ()).

(** ** [provision.py]: the async wrappers *)

Definition apply_config_bytes (payload filename : string) (config_root : path) (progress_id : option string) (allow_reapply : bool)
    : M (option (dict value)) :=
  _provision_sync E payload filename config_root progress_id allow_reapply polls other.
Definition apply_config_operation (operation : value) (config_root : path) (progress_id : option string) : M (option (dict value)) :=
  _apply_config_operation_sync E operation config_root progress_id polls other.
Definition validate_config_bytes (payload filename : string) (config_root : path) : M (dict value) :=
  warnings ← _validate_sync E payload filename config_root;
  mret [("warnings", str_list warnings)].

(** ** [ConfigService] *)

Definition service_apply_bytes (body filename : string) (progress_id : option string) (allow_reapply : bool) : M (option (dict value)) :=
  apply_config_bytes body filename config_root progress_id allow_reapply.
(** The authorization as the dict of the request. *)
Definition authorization_dict (a : authorization) : dict value :=
  match authorization_value a with VDict d => d | _ => [] end.
Definition service_stage_bytes (body filename progress_id : string) (allow_reapply : bool) (auth : option authorization) : M () :=
  stage_reserved_config_bytes E progress_id body filename config_root allow_reapply (authorization_dict <$> auth).
Definition service_validate_bytes (body filename : string) : M (dict value) := validate_config_bytes body filename config_root.
Definition service_apply_partial (operation : value) (progress_id : option string) : M (option (dict value)) :=
  apply_config_operation operation config_root progress_id.
Definition service_stage_partial (operation : value) (progress_id : string) (request_payload : option string) (auth : option authorization) : M () :=
  stage_reserved_config_operation E progress_id operation config_root request_payload (authorization_dict <$> auth).

(** ** The coordinator's closures: [stage_work] and [apply_work] of a job *)

Definition tell_started (on_started : option (string → M ())) (job : Job) : M () :=
  match on_started with Some f => f (Jobs.id job) | None => mret tt end.
Definition run_work (w : job_work) (job : Job) : M (option (dict value)) :=
  match w with
  | apply_bytes body filename allow_reapply on_started =>
      _ ← tell_started on_started job;
      service_apply_bytes body filename (Some (Jobs.id job)) allow_reapply
  | stage_bytes body filename allow_reapply auth on_started =>
      _ ← tell_started on_started job;
      _ ← service_stage_bytes body filename (Jobs.id job) allow_reapply auth;
      mret None
  | apply_partial operation => service_apply_partial operation (Some (Jobs.id job))
  | stage_partial operation request_payload auth =>
      _ ← service_stage_partial operation (Jobs.id job) request_payload auth;
      mret None
  end.

(** POST /api/config/validate, with the service behind it. *)
Definition validate_route (headers : dict string) (body : string) : M response :=
  Api.validate_config service_validate_bytes headers body.
End service.
