(* ===== verification/ServiceFacts.v ===== *)
(** * A dry run changes nothing: theorems

    Validating a configuration renders it in the temporary directory; nothing else of
    the device changes. *)

From S2P Require Import Prelude PyStr PyVal Config FS FSLogic RunLogic Staging StagedJob StagingFacts KeepLogic WorkerKeeps Auth Jobs Api Bundle Authorize Render Stage Worker WorkerFacts Service.

Local Open Scope Z_scope.

(** Outside the temporary directory (and the directories above it, when they have to
    be made) nothing appears, disappears or changes its content. *)
Definition scratch (y : path) : Prop := below tmp_dir y ∨ below y tmp_dir.
Definition undisturbed (s t : fs) : Prop := changes scratch s t.

Section scratch.
Context (s0 : fs).
Definition only_scratch (t : fs) : Prop := undisturbed s0 t ∧ ∀ y n, below tmp_dir y → t !! y = Some n → is_lnk n = false.
Definition scratch_policy : policy :=
  let tmp := λ p, below tmp_dir p in Policy tmp tmp scratch tmp tmp (λ p q, tmp p ∧ tmp q).

Lemma scratch_insert t p n : scratch p → is_lnk n = false → only_scratch t → only_scratch (<[p:=n]> t).
Proof.
  intros Hp Hn [Hc Hl]. split; [eapply changes_trans; [exact Hc|]; by apply changes_insert|].
  intros y m Hy. destruct (decide (p = y)) as [->|Hne]; [rewrite lookup_insert_eq; by intros [= <-]|].
  rewrite lookup_insert_ne by done. by apply Hl.
Qed.
Lemma scratch_delete t p : scratch p → only_scratch t → only_scratch (delete p t).
Proof.
  intros Hp [Hc Hl]. split; [eapply changes_trans; [exact Hc|]; by apply changes_delete|].
  intros y m Hy [_ Hm]%lookup_delete_Some. by eapply Hl.
Qed.
#[local] Instance scratch_keeps : Keeps only_scratch scratch_policy.
Proof.
  split; simpl.
  - intros s p n m [Hc Hl] Hn Hk. split; [eapply changes_trans; [exact Hc|]; by eapply changes_meta|].
    intros y m' Hy. destruct (decide (p = y)) as [->|Hne]; [|rewrite lookup_insert_ne by done; by apply Hl].
    rewrite lookup_insert_eq. intros [= <-]. unfold is_lnk. rewrite Hk. by apply (Hl y n).
  - intros s p q n Hp Hs Hr _ [Hln _]%reg_facts. assert (q = p) as ->.
    { rewrite resolve_plain in Hr; [by injection Hr|]. intros m. by apply (proj2 Hs). }
    apply scratch_insert; [by left|done..].
  - intros s p n Hp Hs _ [Hln _]%reg_facts. apply scratch_insert; [by left|done..].
  - intros s p n Hp Hs _ Hd. apply scratch_insert; [done| |done]. unfold is_dir, is_lnk in *. by destruct (n_kind n).
  - intros s p Hp Hs _. apply scratch_delete; [by left|done].
  - intros s p Hp Hs _. apply scratch_delete; [by left|done].
  - intros s p q [Hp Hq] [Hc Hl] Ha _. split.
    + intros y Hy. assert (∀ x, below tmp_dir x → ¬ below x y) as Hout by (intros x Hx H; apply Hy; left; etrans; [exact Hx|exact H]).
      unfold kind_at. rewrite lookup_move, !decide_False by auto. by apply Hc.
    + intros y n Hy. rewrite lookup_move by done. case_decide; [|case_decide; [done|by apply Hl]].
      apply Hl. etrans; [exact Hp|apply below_app].
Qed.
#[local] Instance scratch_clears : Clears only_scratch scratch_policy (below tmp_dir).
Proof.
  split; try done; try apply _.
  - intros p x Hp. etrans; [exact Hp|apply below_app].
  - intros p x Hp Hx. etrans; [exact Hp|exact Hx].
  - intros p x Hp Hx. by apply (below_both _ _ p).
  - intros p x Hp Hx. simpl. etrans; [exact Hp|exact Hx].
  - intros s p n Hp Hs [Hln _]%reg_facts. apply scratch_insert; [by left|done..].
Qed.

Context (E : machine).
Local Abbreviation kept := (keeps only_scratch).
Let Hsnoc : ∀ p x, below tmp_dir p → below tmp_dir (p // x) := clear_snoc.
Lemma tmp_itself : below tmp_dir tmp_dir.
Proof. apply below_refl. Qed.
Let Hprepare : ∀ tar bc gz zst source filename, kept (prepare_source_bytes tar bc gz zst source filename) := kept_prepare tmp_itself.
Let Hstate : ∀ sys parsed cfg files p q, below tmp_dir p → kept (write_imported_state sys parsed cfg files p q) := kept_write_state.
Let Htmp : ∀ o, (∀ p, o = Some p → below tmp_dir p) → kept (cleanup_tmpdir o) := kept_cleanup_tmpdir tmp_itself.
#[local] Hint Resolve Hsnoc tmp_itself : clear.
#[local] Hint Resolve Hprepare Hstate : keeps.

Lemma kept_validate payload filename config_root : kept (_validate_sync E payload filename config_root).
Proof.
  unfold _validate_sync. apply keeps_bind_run; [unfold prepare_bytes; apply Hprepare|].
  intros e w [[o c] f] w' Hp. pose proof (run_prepare_bytes E _ _ _ _ _ _ _ _ Hp) as Ho.
  apply keeps_finally; [|by apply Htmp]. claim.
Qed.
Lemma kept_validate_route config_root headers body : kept (validate_route E config_root headers body).
Proof. pose proof kept_validate as Hv. claim. Qed.
End scratch.

(** C15 — Validation is a dry run.  Whatever is sent to POST /api/config/validate, whatever fails and wherever
    the process dies, nothing outside the temporary directory appears, disappears or
    changes its content; and an answer says the configuration is valid or why it is not. *)
Theorem validate_undisturbed (E : machine) (config_root : path) (headers : dict string) (body : string) (s : fs) :
  (∀ y n, below tmp_dir y → s !! y = Some n → is_lnk n = false) →
  wp env_ok (undisturbed s) (validate_route E config_root headers body)
    (λ r t, undisturbed s t ∧ ∀ a, r = Ok a → status_code a = 200 ∨ status_code a = 400) s.
Proof.
  intros Hl. eapply wp_mono; [apply wp_runs; eapply wp_weaken; [| |by apply (kept_validate_route s)]|].
  - done.
  - by intros t [Ht _].
  - intros r t [[Ht _] (e & w & w' & _ & _ & _ & Hr)]. split; [done|]. intros a ->.
    unfold validate_route, Api.validate_config in Hr. apply run_catch in Hr as [Hr|(x & w1 & _ & _ & [<- _]%run_ret)]; [|by right].
    apply run_bind in Hr as (d & w1 & _ & [<- _]%run_ret). by left.
Qed.

Definition validate_run : result response * world :=
  validate_route sample_machine data_config_root [] "text" sample_env (World sample_disk [] 0).
Lemma validate_undisturbed_witness :
  match validate_run.1 with Ok a => status_code a | Err _ => 0 end = 200 ∧ (20 < length (w_hist validate_run.2))%nat ∧
  Forall (undisturbed sample_disk) (w_hist validate_run.2).
Proof.
  split; [vm_compute; reflexivity|]. split; [apply Nat.ltb_lt; vm_compute; reflexivity|].
  assert (∀ y n, below tmp_dir y → sample_disk !! y = Some n → is_lnk n = false) as Hl.
  { assert (bool_decide (map_Forall (λ _ n, is_lnk n = false) sample_disk) = true) as Hb by (vm_compute; reflexivity).
    apply bool_decide_eq_true in Hb. intros y n _ Hy. exact (Hb y n Hy). }
  exact (proj2 (wp_run_at _ _ _ _ _ sample_env (validate_undisturbed sample_machine data_config_root [] "text" sample_disk Hl) sample_env_ok)).
Defined.
