(* ===== verification/Export.v ===== *)
(** * [export_worker.py]: exports of the configuration, one job per identifier

    One definition per function of
    src/scripts/atomixos_provision/src/atomixos_provision/export_worker.py.  The API
    puts an empty marker [requests/<uuid>.request]; the worker claims it by renaming
    it into [active/], publishes [results/<uuid>.tar.gz] or [results/<uuid>.error],
    and the API acknowledges with [requests/<uuid>.ack].  Opening a lock file stands
    for holding the lock; a file has one link. *)

From Stdlib Require Import Ascii.
From S2P Require Import Prelude PyStr PyVal FS Staging Bundle Stage Worker.

Local Open Scope Z_scope.

Definition EXPORT_CONFIG_ROOT : path := ["data"; "config"].
Definition RUNTIME_ROOT : path := ["run"; "atomixos-provision"; "export"].
Definition MAX_EXPORTS : nat := 4.
Definition WAIT_SECONDS : Z := 130 * tick_per_second.
Definition RETENTION_SECONDS : Z := 300 * tick_per_second.

(** ** Names *)

(** [[0-9a-f]{8}-[0-9a-f]{4}-4[0-9a-f]{3}-[89ab][0-9a-f]{3}-[0-9a-f]{12}] *)
Definition uuid_char (i : nat) (c : ascii) : bool :=
  if bool_decide (i ∈ [8; 13; 18; 23]%nat) then Ascii.eqb c "-"
  else if (i =? 14)%nat then Ascii.eqb c "4"
  else if (i =? 19)%nat then existsb (Ascii.eqb c) ["8"; "9"; "a"; "b"]%char
  else is_hex_lower c.
Definition UUID_PATTERN (s : string) : bool :=
  (slen s =? 36)%nat && forallb (λ ic : nat * ascii, uuid_char ic.1 ic.2) (imap (λ i c, (i, c)) (chars s)).

Variant operation : Type := Request | Ack.
#[export] Instance operation_eq_dec : EqDecision operation.
Proof. solve_decision. Defined.

(** [REQUEST_NAME.fullmatch]: the identifier and what is asked. *)
Definition REQUEST_NAME (name : string) : option (string * operation) :=
  let request_id := str_take 36 name in
  if negb (UUID_PATTERN request_id) then None
  else if bool_decide (str_drop 36 name = ".request") then Some (request_id, Request)
  else if bool_decide (str_drop 36 name = ".ack") then Some (request_id, Ack)
  else None.

Definition request_name (request_id : string) : string := request_id +:+ ".request".
Definition ack_name (request_id : string) : string := request_id +:+ ".ack".
Definition requests (root : path) : path := root // "requests".
Definition active_dir (root : path) : path := root // "active".
Definition results_dir (root : path) : path := root // "results".
Definition archive_path (root : path) (request_id : string) : path := results_dir root // (request_id +:+ ".tar.gz").
Definition error_path (root : path) (request_id : string) : path := results_dir root // (request_id +:+ ".error").

Definition api_error (msg : string) : exn := ApiError msg 500.
Definition conflict_error (msg : string) : exn := ApiError msg 409.
Definition export_timeout (msg : string) : exn := ApiError msg 504.
Definition is_ApiError (x : exn) : bool := match x with ApiError _ _ => true | _ => false end.

(** ** Files *)

Definition _lock {A} (p : path) (block : M A) : M A :=
  st ← lstat p;
  if is_lnk st then raise (OSError_ ("ELOOP: " +:+ show_path p))
  else if is_dir st then raise (OSError_ ("EISDIR: " +:+ show_path p))
  else if negb (is_reg st) then raise (api_error "Invalid export lock file")
  else block.

Definition _publish (p : path) (c : content) : M () :=
  suffix ← ask e_tmp;
  let temporary := parent p // (".export-" +:+ suffix) in
  n ← new_node (KReg (CText "")) 384;
  _ ← wr (create_at n temporary);
  finally
    (t ← time_time;
     _ ← wr (update_at (set_kind (KReg c) t) temporary);
     _ ← wr (update_at (set_mode 416 (* 0o640 *)) temporary);
     rename temporary p)
    (unlink_missing_ok temporary).

Definition _marker (p : path) : M () := n ← new_node (KReg (CText "")) 416; wr (create_at n p).

Definition _read_result (p : path) (limit : Z) : M (option content) :=
  r ← attempt (lstat p);
  match r with
  | Err x => if is_not_found x then mret None else raise x
  | Ok st =>
      if is_lnk st then raise (OSError_ ("ELOOP: " +:+ show_path p))
      else if negb (is_reg st) then raise (api_error "Invalid export result")
      else
        c ← read_content p;
        if limit <? content_size c then raise (api_error "Export result exceeds its size limit") else mret (Some c)
  end.

Definition _discard (p : path) : M () := st ← lstat p; if is_dir st then rmtree p else unlink p.

(** ** The API *)

Definition counted_suffixes : list string := [".request"; ".ack"; ".tar.gz"; ".error"].
(** [name.split(".", 1)[0]] *)
Definition id_of (name : string) : string := (partition_on "." name).1.1.
Definition occupied_in (dir : path) : M (list string) :=
  names ← listdir dir; mret (map id_of (filter (λ x, existsb (endswith x) counted_suffixes = true) names)).
Definition occupied (root : path) : M (list string) :=
  a ← occupied_in (requests root); b ← occupied_in (active_dir root); c ← occupied_in (results_dir root);
  mret (remove_dups (a ++ b ++ c)).

Definition _submit (root : path) (request_id : string) : M () :=
  _lock (root // "queue.lock")
    (ids ← occupied root;
     if (MAX_EXPORTS <=? length ids)%nat then raise (conflict_error "The export queue is busy; retry shortly")
     else if bool_decide (request_id ∈ ids) then raise (conflict_error "Export request UUID already exists")
     else _marker (requests root // request_name request_id)).

Definition _acknowledge (root : path) (request_id : string) : M () :=
  _lock (root // "queue.lock")
    (_ ← unlink_missing_ok (requests root // request_name request_id);
     _marker (requests root // ack_name request_id)).

Section export.
Context (E : machine) (archive_of : list member → content).

(** The polls of [request_export]: [other] is what happens during a pause, such as
    other processes or a cancellation; [None]: still waiting after [polls] of them. *)
Fixpoint wait_export (polls : nat) (other : nat → M ()) (root : path) (request_id : string) (deadline : Z) : M (option content) :=
  match polls with
  | O => mret None
  | S polls =>
      now ← time_time;
      if negb (now <? deadline) then
        raise (export_timeout "Configuration export timed out; retry or inspect the export service")
      else
        error ← _read_result (error_path root request_id) 4096;
        match error with
        | Some c => raise (api_error (bytes_of E c))
        | None =>
            archive ← _read_result (archive_path root request_id) MAX_SOURCE_BYTES;
            match archive with
            | Some c => mret (Some c)
            | None => _ ← other polls; wait_export polls other root request_id deadline
            end
        end
  end.

Definition request_export (polls : nat) (other : nat → M ()) (root : path) : M (option content) :=
  request_id ← ask e_tmp;
  submission ← attempt (_submit root request_id);
  finally
    (catch
       (_ ← lift submission;
        now ← time_time;
        wait_export polls other root request_id (now + WAIT_SECONDS))
       is_OSError (λ _, raise (api_error "Configuration export worker is unavailable")))
    (match submission with
     | Err x => if is_ApiError x || is_OSError x then mret tt else raise x
     | Ok _ => catch (_acknowledge root request_id) is_OSError (λ _, mret tt)
     end).

(** ** The worker *)

Definition INTERRUPTED : content := CText "Configuration export worker stopped before completing the archive".
Definition FAILED_EXPORT : content := CText "Configuration export failed; inspect the export service logs".

Definition finish_claim (root : path) (name : string) : M () :=
  _ ← match REQUEST_NAME name with
      | Some (request_id, Request) =>
          ex ← exists_ (archive_path root request_id);
          if ex : bool then mret tt else _publish (error_path root request_id) INTERRUPTED
      | _ => mret tt
      end;
  _discard (active_dir root // name).
Definition _finish_interrupted (root : path) : M () :=
  names ← listdir (active_dir root);
  _ ← iterM (finish_claim root) names;
  names ← listdir (results_dir root);
  iterM (λ x, unlink (results_dir root // x)) (filter (λ x, startswith x ".export-" = true) names).

Definition expire_entry (cutoff : Z) (root p : path) : M () :=
  st ← lstat p;
  if n_mtime st <? cutoff then
    fresh ← ask e_tmp;
    let claimed := active_dir root // fresh in
    moved ← attempt (rename p claimed);
    match moved with
    | Ok _ => _discard claimed
    | Err x => if is_not_found x then mret tt else raise x
    end
  else mret tt.
Definition _cleanup (root : path) : M () :=
  now ← time_time;
  let cutoff := now - RETENTION_SECONDS in
  iterM (λ dir, names ← listdir dir; iterM (λ x, expire_entry cutoff root (dir // x)) names)
    [results_dir root; requests root].

(** What a turn of the queue decided. *)
Variant turn : Type :=
  | Drained
  | Skipped
  | Claim (request_id : string) (claimed : path).

Definition claim_turn (root : path) : M turn :=
  names ← listdir (requests root);
  match sorted_strs names with
  | [] => mret Drained
  | name :: _ =>
      let match_ := REQUEST_NAME name in
      claimed ← match match_ with
                | Some _ => mret (active_dir root // name)
                | None => fresh ← ask e_tmp; mret (active_dir root // fresh)
                end;
      _ ← rename (requests root // name) claimed;
      st ← lstat claimed;
      match match_ with
      | Some (request_id, op) =>
          if negb (is_reg st && (n_size st =? 0)) then _ ← _discard claimed; mret Skipped
          else
            match op with
            | Ack =>
                _ ← unlink_missing_ok (archive_path root request_id);
                _ ← unlink_missing_ok (error_path root request_id);
                _ ← unlink claimed;
                mret Skipped
            | Request =>
                a ← exists_ (archive_path root request_id);
                done ← (if a : bool then mret true else exists_ (error_path root request_id));
                if done : bool then _ ← unlink claimed; mret Skipped else mret (Claim request_id claimed)
            end
      | None => _ ← _discard claimed; mret Skipped
      end
  end.

Definition export_turn (root config_root : path) (request_id : string) (claimed : path) : M () :=
  _ ← catch
        (payload ← locked_export_config_bytes E config_root;
         _publish (archive_path root request_id) (archive_of payload))
        is_Exception
        (λ _, _publish (error_path root request_id) FAILED_EXPORT);
  unlink claimed.

(** [false]: still more after [turns] turns. *)
Fixpoint drain_requests (turns : nat) (root config_root : path) : M bool :=
  match turns with
  | O => mret false
  | S turns =>
      t ← _lock (root // "queue.lock") (claim_turn root);
      match t with
      | Drained => mret true
      | Skipped => drain_requests turns root config_root
      | Claim request_id claimed =>
          _ ← export_turn root config_root request_id claimed;
          drain_requests turns root config_root
      end
  end.

Definition drain_exports (turns : nat) (finalize : bool) (root config_root : path) : M bool :=
  _lock (root // "worker.lock")
    (_ ← _lock (root // "queue.lock") (_ ← _finish_interrupted root; _cleanup root);
     if finalize then mret true else drain_requests turns root config_root).
End export.
