(* ===== verification/ExportFacts.v ===== *)
(** * Exports: every request is answered, and the queue drains *)

From Stdlib Require Import Ascii.
From S2P Require Import Prelude PyStr PyVal FS FSLogic RunLogic Staging StagedJob StagingFacts Activation ApplyTransaction ApplyFacts Auth Authorize Bundle KeepLogic Render Stage Worker WorkerFacts Export.

Local Open Scope Z_scope.

(** ** Names *)

Definition op_suffix (op : operation) : string := match op with Request => ".request" | Ack => ".ack" end.

Lemma take_drop_str n s : s = str_take n s +:+ str_drop n s.
Proof.
  apply chars_inj. unfold str_take, str_drop. rewrite chars_app, !chars_unchars. by rewrite take_drop.
Qed.
Lemma REQUEST_NAME_Some name request_id op : REQUEST_NAME name = Some (request_id, op) →
  UUID_PATTERN request_id = true ∧ name = request_id +:+ op_suffix op.
Proof.
  unfold REQUEST_NAME. intros H. rewrite (take_drop_str 36 name) at 1.
  destruct (UUID_PATTERN (str_take 36 name)) eqn:Hu; [|done]. cbn [negb] in H.
  destruct (bool_decide_reflect (str_drop 36 name = ".request")) as [Hs|_].
  - injection H as <- <-. split; [done|by rewrite Hs].
  - destruct (bool_decide_reflect (str_drop 36 name = ".ack")) as [Hs|_]; [|done].
    injection H as <- <-. split; [done|by rewrite Hs].
Qed.
Lemma uuid_length request_id : UUID_PATTERN request_id = true → slen request_id = 36%nat.
Proof. unfold UUID_PATTERN. intros [H _]%andb_true_iff. by apply Nat.eqb_eq in H. Qed.
Lemma REQUEST_NAME_complete request_id op : UUID_PATTERN request_id = true →
  REQUEST_NAME (request_id +:+ op_suffix op) = Some (request_id, op).
Proof.
  intros Hu. pose proof (uuid_length _ Hu) as Hl. rewrite slen_chars in Hl. unfold REQUEST_NAME, str_take, str_drop.
  rewrite chars_app, take_app_length', drop_app_length' by done. rewrite unchars_chars, Hu. by destruct op.
Qed.
Lemma REQUEST_NAME_request i : UUID_PATTERN i = true → REQUEST_NAME (request_name i) = Some (i, Request).
Proof. apply (REQUEST_NAME_complete i Request). Qed.
Lemma REQUEST_NAME_ack i : UUID_PATTERN i = true → REQUEST_NAME (ack_name i) = Some (i, Ack).
Proof. apply (REQUEST_NAME_complete i Ack). Qed.
Lemma uuid_head request_id suffix x : UUID_PATTERN request_id = true → request_id +:+ suffix ≠ ".export-" +:+ x.
Proof.
  intros Hu He. unfold UUID_PATTERN in Hu. apply andb_true_iff in Hu as [Hl Hf].
  destruct request_id as [|c r]; [done|]. simpl in He. injection He as -> _. done.
Qed.

(** ** The state of a request *)

Section export.
Context (root : path).

Definition empty_file (s : fs) (p : path) : Prop := ∃ c, kind_at s p = Some (KReg c) ∧ content_size c = 0.
(** The marker waits; its claim is taken; it has an answer. *)
Definition waiting (s : fs) (i : string) : Prop := empty_file s (requests root // request_name i).
Definition taken (s : fs) (i : string) : Prop := empty_file s (active_dir root // request_name i).
Definition answered (s : fs) (i : string) : Prop :=
  is_Some (kind_at s (archive_path root i)) ∨ is_Some (kind_at s (error_path root i)).
Definition handled (s : fs) (i : string) : Prop := waiting s i ∨ taken s i ∨ answered s i.
(** Between two turns: not acknowledged, and waiting or answered. *)
Definition settled (s : fs) (i : string) : Prop :=
  kind_at s (requests root // ack_name i) = None ∧ (waiting s i ∨ answered s i).

Lemma settled_handled s i : settled s i → handled s i.
Proof. unfold handled. intros [_ [H|H]]; auto. Qed.
Lemma empty_kept s t p : kind_at t p = kind_at s p → empty_file s p → empty_file t p.
Proof. intros H [c Hc]. exists c. by rewrite H. Qed.
Lemma answered_kept s t i : kind_at t (archive_path root i) = kind_at s (archive_path root i) →
  kind_at t (error_path root i) = kind_at s (error_path root i) → answered s i → answered t i.
Proof. unfold answered. by intros -> ->. Qed.

(** Entries of different directories of the root, or of different names. *)
Lemma dir_entry_ne d d' x z : d ≠ d' → ¬ below (root // d // x) (root // d' ++ z).
Proof.
  intros Hne [r Hr]. rewrite <-!app_assoc in Hr. apply (inj _) in Hr. by injection Hr.
Qed.
Lemma dir_entry_ne' d d' x y : d ≠ d' → ¬ below (root // d // x) (root // d' // y).
Proof. apply dir_entry_ne. Qed.
Lemma dir_below d d' y : d ≠ d' → ¬ below (root // d) (root // d' // y).
Proof. intros Hne [r Hr]. rewrite <-!app_assoc in Hr. apply (inj _) in Hr. by injection Hr. Qed.
Lemma entry_root d x y : below (root // d // x) y → below root y.
Proof. intros [r ->]. rewrite <-!app_assoc. apply below_app. Qed.
Lemma entry_below d x y : below (root // d // x) (root // d // y) → x = y.
Proof. intros [r Hr]. rewrite <-!app_assoc in Hr. apply (inj _) in Hr. by injection Hr. Qed.
Lemma entry_not_dir d d' x : ¬ below (root // d // x) (root // d').
Proof. intros [r Hr]. rewrite <-!app_assoc in Hr. apply (inj _) in Hr. done. Qed.

Definition frame (D : path → Prop) (s t : fs) (i : string) : Prop :=
  changes D s t ∧ (∀ x, x ∈ [archive_path root i; error_path root i; requests root // ack_name i;
                              requests root // request_name i] → ¬ D x).
Lemma settled_frame D s t i : frame D s t i → settled s i → settled t i.
Proof.
  intros [Hc Hx] [Ha Hs]. assert (∀ x, x ∈ [archive_path root i; error_path root i; requests root // ack_name i;
    requests root // request_name i] → kind_at t x = kind_at s x) as Hk by (intros x Hm; apply Hc; auto).
  split; [rewrite Hk; [done|set_solver]|]. destruct Hs as [Hs|Hs].
  - left. eapply empty_kept; [|exact Hs]. apply Hk. set_solver.
  - right. eapply answered_kept; [..|exact Hs]; apply Hk; set_solver.
Qed.

(** ** Counting *)

Definition pending_count (s : fs) : nat := length (subtree s (requests root)).
(** The requests of [t] are those of [s] but one. *)
Definition shrunk (s t : fs) : Prop :=
  ∃ x, is_Some (kind_at s (requests root // x)) ∧ kind_at t (requests root // x) = None ∧
    ∀ y, below (requests root) y → is_Some (kind_at t y) → is_Some (kind_at s y).

Lemma kind_Some (s : fs) p : is_Some (kind_at s p) ↔ is_Some (s !! p).
Proof. unfold kind_at. by rewrite fmap_is_Some. Qed.
Lemma shrunk_count s t : shrunk s t → (pending_count t < pending_count s)%nat.
Proof.
  intros (x & Hx%kind_Some & Ht & Hsub). unfold pending_count.
  assert (requests root // x ∉ subtree t (requests root)) as Hnot.
  { intros [_ H%kind_Some]%elem_subtree. rewrite Ht in H. by destruct H. }
  change (length (requests root // x :: subtree t (requests root)) ≤ length (subtree s (requests root)))%nat.
  apply submseteq_length, NoDup_submseteq; [constructor; [done|apply NoDup_subtree]|].
  intros y [->|[Hb Hy%kind_Some]%elem_subtree]%elem_of_cons; apply elem_subtree.
  - split; [apply below_app|done].
  - split; [done|]. by apply kind_Some, Hsub.
Qed.
Lemma shrunk_trans s t u : shrunk s t → (∀ y, below (requests root) y → kind_at u y = kind_at t y) → shrunk s u.
Proof.
  intros (x & Hx & Ht & Hsub) Hu. exists x. split; [done|]. split; [rewrite Hu; [done|apply below_app]|].
  intros y Hy. rewrite Hu by done. by apply Hsub.
Qed.

(** ** One turn *)

Context (K : string → Prop) (HK : ∀ i, K i → UUID_PATTERN i = true).
Context (Hcfg : ¬ below root data_config_root) (Htmp : apart root tmp_dir).

(** The configuration root is no link, and the private /tmp holds none. *)
Definition linkless (y : path) : Prop := y = data_config_root ∨ below tmp_dir y.
Definition plain (s : fs) : Prop := ∀ y, linkless y → ∀ l, kind_at s y ≠ Some (KLnk l).
Definition all_handled (s : fs) : Prop := ∀ i, K i → handled s i.
Definition between_turns (s : fs) : Prop := plain s ∧ is_dir_at s (requests root) = true ∧ ∀ i, K i → settled s i.

Lemma linkless_root y : linkless y → ¬ below root y.
Proof. intros [->|Hy] Hr; [done|]. destruct Htmp as [H1 H2]. by destruct (below_both _ _ _ Hr Hy). Qed.
Lemma plain_kept s t : (∀ y, ¬ below root y → kind_at t y = kind_at s y) → plain s → plain t.
Proof. intros H Hs y Hy. rewrite H by (by apply linkless_root). by apply Hs. Qed.

(** After a turn's decision. *)
Definition turn_post (s : fs) (r : result turn) (t : fs) : Prop :=
  match r with
  | Err _ => all_handled t
  | Ok Drained => between_turns t ∧ ∀ x, kind_at t (requests root // x) = None
  | Ok Skipped => between_turns t ∧ shrunk s t
  | Ok (Claim i claimed) =>
      UUID_PATTERN i = true ∧ claimed = active_dir root // request_name i ∧ shrunk s t ∧ plain t ∧
      is_dir_at t (requests root) = true ∧ (∀ j, K j → j ≠ i → settled t j) ∧
      (K i → kind_at t (requests root // ack_name i) = None ∧ taken t i)
  end.

Lemma between_handled s : between_turns s → all_handled s.
Proof. intros (_ & _ & H) i Hi. by apply settled_handled, H. Qed.

Lemma wp_and_run {A} (H : env → Prop) (P : fs → Prop) (m : M A) (Q R : result A → fs → Prop) s :
  wp H P m Q s → (∀ e w r w', H e → w_fs w = s → m e w = (r, w') → R r (w_fs w')) → wp H P m (λ r t, Q r t ∧ R r t) s.
Proof. intros Hm HR e w He Hw. destruct (Hm e w He Hw) as (r & w' & Hr & HQ & Hn). exists r, w'. split_and!; eauto. Qed.

Lemma wp_listdir_env (P : fs → Prop) p (Q : result (list string) → fs → Prop) s : is_dir_at s p = true →
  (∀ x, Q (Err x) s) → (∀ l, (∀ x, x ∈ l ↔ is_Some (s !! (p // x))) → Q (Ok l) s) → wp env_ok P (listdir p) Q s.
Proof.
  intros Hd HE HQ. unfold listdir. apply wp_bind, wp_rd; [intros; apply HE|].
  rewrite (resolve_dir s p Hd). simpl. unfold need_dir.
  assert (∃ n, s !! p = Some n ∧ is_dir n = true) as (n & -> & ->).
  { unfold is_dir_at in Hd. destruct (s !! p); [eauto|discriminate]. }
  apply wp_bind, wp_rd; [intros; apply HE|]. rewrite (resolve_dir s p Hd). simpl.
  apply wp_bind, wp_ask. intros e k He. apply wp_ret, HQ. intros x.
  rewrite (eo_perm e He), <-elem_children, list_elem_of_fmap. split.
  - intros (q & -> & (y & -> & Hy)%list_elem_of_fmap). by rewrite name_of_snoc.
  - intros Hx. exists (p // x). rewrite name_of_snoc. split; [done|]. apply list_elem_of_fmap. eauto.
Qed.

(** The end of a turn that decides nothing: what it changes is neither pending nor
    an answer of ours. *)
Lemma wp_skip (D : path → Prop) (m : M turn) s t : touches D m → (∀ e w a w', m e w = (Ok a, w') → a = Skipped) →
  between_turns t → shrunk s t → (∀ y, D y → below root y) → (∀ y, below (requests root) y → ¬ D y) →
  (∀ i, K i → ¬ D (archive_path root i) ∧ ¬ D (error_path root i)) →
  wp env_ok all_handled m (turn_post s) t.
Proof.
  intros Hm Hr (Hpl & Hd & Hs) Hsh Hin Hq Ha.
  assert (∀ u, changes D t u → between_turns u) as Hb.
  { intros u Hu. split; [eapply plain_kept; [|exact Hpl]; intros y Hy; apply Hu; auto|]. split; [apply dir_kind; rewrite Hu by (apply Hq, below_refl); by apply dir_kind|].
    intros i Hi. eapply settled_frame; [|by apply Hs]. split; [exact Hu|]. destruct (Ha i Hi).
    intros x Hx. repeat (apply elem_of_cons in Hx as [->|Hx]; [try done; apply Hq, below_app|]). by apply elem_of_nil in Hx. }
  eapply wp_mono; [apply (wp_and_run _ _ _ (λ r u, changes D t u) (λ r _, ∀ a, r = Ok a → a = Skipped))|].
  - eapply touches_then; [exact Hm|apply changes_refl|intros u Hu; by apply between_handled, Hb|done].
  - intros e w r w' _ _ Hrun a ->. by eapply Hr.
  - intros [a|x] u [Hu Hsk]; [|by apply between_handled, Hb]. rewrite (Hsk a eq_refl). split; [by apply Hb|].
    eapply shrunk_trans; [exact Hsh|]. intros y Hy. apply Hu, Hq, Hy.
Qed.

Lemma append_inj a b x : a +:+ x = b +:+ x → a = b.
Proof. intros H. apply chars_inj. apply (f_equal chars) in H. rewrite !chars_app in H. by apply app_inv_tail in H. Qed.

(** The queue after an entry has been moved away. *)
Section moved.
Context (s : fs) (name x : string).
Local Abbreviation source := (requests root // name).
Local Abbreviation target := (active_dir root // x).
Local Abbreviation moved_fs := (move source target s).

Lemma entry_apart : apart source target.
Proof. split; by apply dir_entry_ne'. Qed.
Lemma moved_kind y : ¬ below source y → ¬ below target y → kind_at moved_fs y = kind_at s y.
Proof. intros H1 H2. unfold kind_at. rewrite lookup_move by apply entry_apart. by rewrite !decide_False. Qed.
Lemma moved_gone y : below source y → kind_at moved_fs y = None.
Proof.
  intros H. unfold kind_at. rewrite lookup_move by apply entry_apart. rewrite decide_False, decide_True; [done..|].
  intros H'. destruct entry_apart as [H1 H2], (below_both _ _ _ H H'); auto.
Qed.
Lemma moved_target : kind_at moved_fs target = kind_at s source.
Proof.
  unfold kind_at. rewrite lookup_move by apply entry_apart. rewrite decide_True by apply below_refl.
  by rewrite drop_ge, app_nil_r.
Qed.
Lemma moved_shrunk : is_Some (s !! source) → shrunk s moved_fs.
Proof.
  intros Hs. exists name. split; [by apply kind_Some|]. split; [apply moved_gone, below_refl|].
  intros y Hy. destruct (decide (below source y)) as [H|H]; [rewrite moved_gone by done; by intros []|].
  rewrite moved_kind; [done..|]. intros H'. destruct Hy as [r ->]. by apply (dir_entry_ne "active" "requests" x r).
Qed.
Lemma moved_settled i : settled s i → name ≠ request_name i ∨ answered s i → settled moved_fs i.
Proof.
  intros [Ha Hs] Hor. assert (kind_at moved_fs (requests root // ack_name i) = None) as Hack.
  { destruct (decide (below source (requests root // ack_name i))) as [H|H]; [by apply moved_gone|].
    rewrite moved_kind; [done..|by apply dir_entry_ne']. }
  assert (answered s i → answered moved_fs i) as Hans.
  { apply answered_kept; apply moved_kind; try (by apply dir_entry_ne'); intros H; destruct (dir_entry_ne' "requests" "results" name _ ltac:(done) H). }
  split; [done|]. destruct Hor as [Hne|H]; [|by auto]. destruct Hs as [Hw|H]; [left|by auto].
  eapply empty_kept; [|exact Hw]. apply moved_kind; [|by apply dir_entry_ne']. by intros ->%entry_below.
Qed.
Lemma moved_plain : plain s → plain moved_fs.
Proof. apply plain_kept. intros y Hy. apply moved_kind; by intros H%entry_root. Qed.
Lemma moved_between : between_turns s → (∀ i, K i → name = request_name i → answered s i) → between_turns moved_fs.
Proof.
  intros (Hpl & Hd & Hs) Ha. split_and!.
  - by apply moved_plain.
  - apply dir_kind. rewrite moved_kind; [by apply dir_kind|apply entry_not_dir..].
  - intros i Hi. apply moved_settled; [by apply Hs|]. destruct (decide (name = request_name i)); [right|left]; auto.
Qed.
Lemma moved_handled : between_turns s → (∀ i, K i → name = request_name i → x = name) → all_handled moved_fs.
Proof.
  intros (_ & _ & Hs) Hx i Hi. destruct (decide (name = request_name i)) as [He|Hne].
  - destruct (Hs i Hi) as [Ha [Hw|Hd]]; [|apply settled_handled, moved_settled; [by split; [|right]|by right]].
    right. left. assert (request_name i = x) as Hix by (by rewrite (Hx i Hi He)). unfold taken. rewrite Hix.
    destruct Hw as [c Hc]. exists c. by rewrite moved_target, He.
  - apply settled_handled, moved_settled; [by apply Hs|by left].
Qed.
End moved.

Lemma clean_empty s p n : s !! p = Some n → is_reg n && (n_size n =? 0) = true ↔ empty_file s p.
Proof.
  intros Hn. unfold empty_file, kind_at, n_size, is_reg. rewrite Hn. simpl. destruct (n_kind n) as [c| | |]; simpl.
  - rewrite Z.eqb_eq. split; [eauto|]. by intros (c' & [= <-] & H).
  - split; [done|]. by intros (c' & ? & _).
  - split; [done|]. by intros (c' & ? & _).
  - split; [done|]. by intros (c' & ? & _).
Qed.
Lemma touches_discard (D : path → Prop) p : (∀ y, below p y → D y) → touches D (_discard p).
Proof.
  intros H. unfold _discard. touches; [by apply touches_rmtree|]. apply H, below_refl.
Qed.
Lemma wp_exists_present (P : fs → Prop) p (Q : result bool → fs → Prop) s :
  (∀ x, Q (Err x) s) → (is_Some (kind_at s p) → Q (Ok true) s) → Q (Ok false) s → wp env_ok P (exists_ p) Q s.
Proof.
  intros HE HT HF. unfold exists_, test, stat. apply wp_catch, wp_bind, wp_rd.
  - intros e He n x [Hx Hm]%(eo_rfault e He). by rewrite Hm.
  - destruct (stat_at s p) as [n|x] eqn:E; [|destruct (is_missing_error x); [by apply wp_ret|done]]. apply wp_ret, HT.
    apply kind_Some. destruct (s !! p) eqn:Hp; [done|]. unfold stat_at, resolve in E. simpl in E. rewrite Hp in E. simpl in E.
    unfold lstat_at in E. rewrite Hp in E. done.
Qed.

Lemma answer_names_ne i j : UUID_PATTERN i = true → UUID_PATTERN j = true → i +:+ ".tar.gz" ≠ j +:+ ".error".
Proof.
  intros Hi%uuid_length Hj%uuid_length H. apply (f_equal slen) in H. rewrite !slen_chars in *. rewrite !chars_app, !length_app in H.
  simpl in H. lia.
Qed.
(** What a turn does with an entry it cannot use, and with an acknowledgement. *)
Lemma wp_drop s name x : between_turns s → is_Some (s !! (requests root // name)) →
  (∀ i, K i → name = request_name i → answered s i) →
  wp env_ok all_handled (_ ← _discard (active_dir root // x); mret Skipped) (turn_post s)
     (move (requests root // name) (active_dir root // x) s).
Proof.
  intros Hb Hs Ha. apply (wp_skip (below (active_dir root // x))).
  - touches. by apply touches_discard.
  - by intros e w a w' (u & w1 & _ & [<- _]%run_ret)%run_bind.
  - by apply moved_between.
  - by apply moved_shrunk.
  - intros y Hy. by apply entry_root in Hy.
  - intros y [r ->]. by apply (dir_entry_ne "active" "requests").
  - intros i _. split; by apply dir_entry_ne'.
Qed.
Lemma wp_ack s i x : between_turns s → is_Some (s !! (requests root // ack_name i)) → UUID_PATTERN i = true →
  wp env_ok all_handled
    (_ ← unlink_missing_ok (archive_path root i); _ ← unlink_missing_ok (error_path root i);
     _ ← unlink (active_dir root // x); mret Skipped) (turn_post s)
    (move (requests root // ack_name i) (active_dir root // x) s).
Proof.
  intros Hb Hs Hu. apply (wp_skip (λ y, below (active_dir root // x) y ∨ y = archive_path root i ∨ y = error_path root i)).
  - touches; [apply touches_unlink_missing_ok; auto..|]. left. apply below_refl.
  - by intros e w a w' (u & w1 & _ & (u' & w2 & _ & (u'' & w3 & _ & [<- _]%run_ret)%run_bind)%run_bind)%run_bind.
  - apply moved_between; [done|]. intros j Hj He. apply (f_equal REQUEST_NAME) in He.
    by rewrite REQUEST_NAME_ack, REQUEST_NAME_request in He by auto.
  - by apply moved_shrunk.
  - intros y [H|[->| ->]]; eapply entry_root; [exact H|apply below_refl..].
  - intros y Hy [H|[->| ->]]; [|by apply (dir_below "requests" "results") in Hy..].
    destruct Hy as [r ->]. by apply (dir_entry_ne "active" "requests") in H.
  - intros j Hj. assert (i ≠ j) as Hne.
    { intros ->. destruct Hb as (_ & _ & Hb). destruct (Hb j Hj) as [Ha _]. apply kind_Some in Hs. rewrite Ha in Hs. by destruct Hs. }
    split; (intros [H|[H|H]]; [by apply dir_entry_ne' in H|apply app_inj_tail in H as [_ H]..]).
    + by apply append_inj in H.
    + by apply (answer_names_ne j i (HK j Hj) Hu) in H.
    + symmetry in H. by apply (answer_names_ne i j Hu (HK j Hj)) in H.
    + by apply append_inj in H.
Qed.

Lemma wp_request s i : between_turns s → is_Some (s !! (requests root // request_name i)) → UUID_PATTERN i = true →
  empty_file (move (requests root // request_name i) (active_dir root // request_name i) s) (active_dir root // request_name i) →
  all_handled (move (requests root // request_name i) (active_dir root // request_name i) s) →
  wp env_ok all_handled
    (a ← exists_ (archive_path root i);
     done ← (if a : bool then mret true else exists_ (error_path root i));
     if done : bool then _ ← unlink (active_dir root // request_name i); mret Skipped
     else mret (Claim i (active_dir root // request_name i))) (turn_post s)
    (move (requests root // request_name i) (active_dir root // request_name i) s).
Proof.
  intros Hb Hname Hu Hemp Hhand. set (t := move _ _ s) in *. pose proof Hb as (Hpl & Hd & Hs).
  assert (answered t i → answered s i) as Hback.
  { apply answered_kept; symmetry; apply moved_kind; by apply dir_entry_ne'. }
  assert (∀ j, K j → request_name i = request_name j → j = i) as Hinj by (intros j _ He; by apply append_inj in He).
  assert (answered t i → wp env_ok all_handled (_ ← unlink (active_dir root // request_name i); mret Skipped) (turn_post s) t) as Hdone.
  { intros Ha. apply (wp_skip (below (active_dir root // request_name i))).
    - touches. apply below_refl.
    - by intros e w a w' (u & w1 & _ & [<- _]%run_ret)%run_bind.
    - apply moved_between; [done|]. intros j Hj ->%Hinj; auto.
    - by apply moved_shrunk.
    - intros y Hy. by apply entry_root in Hy.
    - intros y [r ->]. by apply (dir_entry_ne "active" "requests").
    - intros j _. split; by apply dir_entry_ne'. }
  assert (turn_post s (Ok (Claim i (active_dir root // request_name i))) t) as Hclaim.
  { split_and!; [done|done|by apply moved_shrunk|by apply moved_plain| | |].
    - apply dir_kind. unfold t. rewrite moved_kind; [by apply dir_kind|apply entry_not_dir..].
    - intros j Hj Hne. apply moved_settled; [by apply Hs|]. left. intros He. by apply Hne, Hinj.
    - intros Hi. split; [|done]. unfold t. destruct (Hs i Hi) as [Ha _]. rewrite moved_kind; [done|..|by apply dir_entry_ne'].
      intros He%entry_below. apply (f_equal REQUEST_NAME) in He. by rewrite REQUEST_NAME_ack, REQUEST_NAME_request in He. }
  apply wp_bind, wp_exists_present; [done| |].
  - intros Ha. apply wp_bind, wp_ret. apply Hdone. by left.
  - apply wp_bind, wp_exists_present; [done| |by apply wp_ret]. intros Ha. apply Hdone. by right.
Qed.

Lemma elem_sorted x l : x ∈ sorted_strs l ↔ x ∈ l.
Proof. unfold sorted_strs. by rewrite merge_sort_Permutation. Qed.

Lemma wp_claim_turn s : between_turns s → wp env_ok all_handled (claim_turn root) (turn_post s) s.
Proof.
  intros Hb. pose proof Hb as (Hpl & Hd & Hs). unfold claim_turn.
  apply wp_bind, wp_listdir_env; [done|intros x; by apply between_handled|]. intros names Hn.
  destruct (sorted_strs names) as [|name rest] eqn:Hsort.
  { apply wp_ret. split; [done|]. intros x. destruct (kind_at s (requests root // x)) eqn:Hx; [|done]. exfalso.
    assert (x ∈ names) as Hin by (apply Hn, kind_Some; by rewrite Hx). rewrite <-elem_sorted, Hsort in Hin. by apply elem_of_nil in Hin. }
  assert (is_Some (s !! (requests root // name))) as Hname by (apply Hn; rewrite <-elem_sorted, Hsort; by left).
  set (x := match REQUEST_NAME name with Some _ => name | None => "" end).
  assert (∀ y (k : M turn), (REQUEST_NAME name ≠ None → y = name) →
    wp env_ok all_handled k (turn_post s) (move (requests root // name) (active_dir root // y) s) →
    wp env_ok all_handled (_ ← rename (requests root // name) (active_dir root // y); k) (turn_post s) s) as Hmove.
  { intros y k Hy Hk. apply wp_bind, wp_wr; [intros; by apply between_handled|].
    destruct (rename_at _ _ s) as [t|e] eqn:Ht; [|by apply between_handled].
    apply rename_at_Ok in Ht as [[Ht _]|[_ ->]]; [destruct (entry_apart name y) as [Hne _]; rewrite Ht in Hne; by destruct Hne|].
    split; [|done]. apply moved_handled; [done|]. intros i Hi ->. apply Hy. by rewrite REQUEST_NAME_request by auto. }
  assert (∀ y, (REQUEST_NAME name ≠ None → y = name) → all_handled (move (requests root // name) (active_dir root // y) s)) as Hhand.
  { intros y Hy. apply moved_handled; [done|]. intros i Hi ->. apply Hy. by rewrite REQUEST_NAME_request by auto. }
  destruct (REQUEST_NAME name) as [[i op]|] eqn:Hr.
  - apply wp_bind, wp_ret. apply Hmove; [done|]. set (t := move _ _ s).
    destruct (t !! (active_dir root // name)) as [st|] eqn:Hst.
    2:{ exfalso. pose proof (moved_target s name name) as Hk. unfold kind_at in Hk. fold t in Hk. rewrite Hst in Hk.
        destruct Hname as [n Hname]. by rewrite Hname in Hk. }
    apply wp_bind, wp_rd; [intros; by apply Hhand|]. unfold lstat_at. rewrite Hst. simpl.
    destruct (is_reg st && (n_size st =? 0)) eqn:Hclean; simpl.
    + apply REQUEST_NAME_Some in Hr as Hi. destruct Hi as [Hu Hi]. destruct op; simpl in Hi; subst name; [|by apply wp_ack].
      apply (clean_empty t _ st Hst) in Hclean.
      apply wp_request; [done..|by apply Hhand].
    + apply wp_drop; [done..|]. intros j Hj He. destruct (Hs j Hj) as [_ [Hw|Ha]]; [|done]. exfalso.
      assert (empty_file t (active_dir root // name)) as Hemp.
      { destruct Hw as [c Hc]. exists c. unfold t. by rewrite moved_target, He. }
      apply (clean_empty t _ st Hst) in Hemp. congruence.
  - apply wp_bind, wp_bind, wp_ask. intros e n _. apply wp_ret. apply Hmove; [done|]. set (t := move _ _ s).
    apply wp_bind, wp_rd; [intros; by apply Hhand|]. destruct (lstat_at _ _); [|by apply Hhand].
    apply wp_drop; [done..|]. intros j Hj ->. by rewrite REQUEST_NAME_request in Hr by auto.
Qed.

(** ** The export itself *)

Context (Hlock : ¬ below root (PROVISION_LOCK_DIR // "config.lock")).
Context (E : machine) (archive_of : list member → content).

Definition lock_area (y : path) : Prop := below y (PROVISION_LOCK_DIR // "config.lock") ∨ below tmp_dir y.
Local Abbreviation inside s := (framed lock_area tmp_dir s).

Lemma plain_croot s : plain s → real_path 40 s data_config_root = Some data_config_root.
Proof.
  intros H. apply (of_option_Ok _ (OSError_ ("ELOOP: " +:+ show_path data_config_root))), resolve_plain. intros n Hn. destruct (is_lnk n) eqn:Hl; [|done]. unfold is_lnk in Hl.
  destruct (n_kind n) as [| |l|] eqn:Hk; try done. destruct (H data_config_root (or_introl eq_refl) l).
  unfold kind_at. rewrite Hn. simpl. by rewrite Hk.
Qed.
Lemma plain_changes s t : changes (λ _, False) s t → plain s → plain t.
Proof. intros H. apply plain_kept. intros y _. apply H. tauto. Qed.
Lemma run_check_root e w q w' : plain (w_fs w) → check_root E data_config_root e w = (Ok q, w') → q = data_config_root.
Proof.
  intros Hp. unfold check_root, validate_config_root, resolve_path. intros (r & w1 & Hr & H)%run_bind.
  apply run_rd in Hr as [Hr _]. cbv beta in Hr. rewrite plain_croot in Hr by done. simpl in Hr. injection Hr as <-. rewrite bool_decide_false in H by done.
  apply run_bind in H as (? & ? & _ & (l & ? & _ & H)%run_bind). destruct l; [done|].
  destruct (_ && _); [by apply run_ret in H as [<- _]|]. rewrite bool_decide_true in H by done. by apply run_ret in H as [<- _].
Qed.
Lemma run_lock_path e w q w' : plain (w_fs w) → _provisioning_lock_path data_config_root e w = (Ok q, w') →
  q = PROVISION_LOCK_DIR // "config.lock".
Proof.
  intros Hp. unfold _provisioning_lock_path, resolve_path. intros (r & w1 & Hr & H)%run_bind.
  apply run_rd in Hr as [Hr _]. cbv beta in Hr. rewrite plain_croot in Hr by done. simpl in Hr. injection Hr as <-.
  rewrite bool_decide_true in H by done. by apply run_ret in H as [<- _].
Qed.

Lemma keeps_open_lock s0 : keeps (inside s0) (_open_lock_file E (PROVISION_LOCK_DIR // "config.lock")).
Proof.
  unfold _open_lock_file. destruct (negb _) eqn:Hn; [by apply negb_true_iff, bool_decide_eq_false in Hn|]. clear Hn.
  assert (∀ x, below x PROVISION_LOCK_DIR → lock_area x) as Hup.
  { intros x Hx. left. unfold below in *. etrans; [exact Hx|]. apply below_app. }
  change (parent (PROVISION_LOCK_DIR // "config.lock")) with PROVISION_LOCK_DIR.
  unfold _ensure_runtime_lock_parent, _ensure_runtime_lock_permissions.
  keeps; try (by apply Hup); try (by apply keeps_update_meta_at).
  apply keeps_create; [left; apply below_refl|]. unfold is_reg. by rewrite H.
Qed.
Lemma below_snoc (p q : path) x : below p q → below p (q // x).
Proof. intros [r ->]. exists (r // x). by rewrite (assoc_L (++)). Qed.
Lemma keeps_snapshot_dir D s0 fuel L source destination b : (∀ x, below x tmp_dir ∨ below tmp_dir x → D x) → below tmp_dir destination →
  keeps (framed D tmp_dir s0) (_snapshot_dir fuel L source destination b).
Proof.
  intros HD. revert source destination b.
  assert (∀ dest x, below tmp_dir dest → below x dest → D x) as Hup by (intros dest x Hd Hx; apply HD; by eapply below_both).
  assert (∀ dest x, below tmp_dir dest → below tmp_dir (dest // x) ∧ D (dest // x)) as Hin.
  { intros dest x Hd. apply (below_snoc _ _ x) in Hd. auto. }
  induction fuel as [|fuel IH]; intros source destination b Hd; simpl; unfold snapshot_file; keeps; simpl; eauto.
  apply IH. by apply below_snoc.
Qed.
Lemma keeps_export_bundle s0 p : keeps (inside s0) (export_bundle_bytes (tar_size E) (gzip_size E) p).
Proof.
  assert (∀ x, below x tmp_dir ∨ below tmp_dir x → lock_area x) as HD.
  { intros x [Hx|Hx]; [|by right]. destruct (decide (x = tmp_dir)) as [->|Hne]; [right; apply below_refl|].
    left. destruct Hx as [r Hr]. destruct x as [|y x]; [by eexists|]. destruct x; [|discriminate Hr]. injection Hr as <- _. by destruct Hne. }
  assert (∀ p n, keeps (inside s0) (_read_export_file p n)) as Hread.
  { intros q n. unfold _read_export_file. keeps. }
  assert (∀ c f, keeps (inside s0) (_build_export_tar (tar_size E) (gzip_size E) c f)) as Hbuild.
  { intros c f. unfold _build_export_tar, export_entry, rglob. keeps. }
  unfold export_bundle_bytes, with_temporary_directory. keeps; simpl.
  - apply HD. right. by eexists.
  - unfold _snapshot_files_source, _open_dir_no_follow. keeps. apply keeps_snapshot_dir; [done|by eexists].
  - assert (lock_area x); [|done]. apply HD. right. etrans; [|exact H]. by eexists.
Qed.

Lemma still_inside s t : plain s → changes (λ _, False) s t → inside s t.
Proof.
  intros Hp Hc. split; [by eapply changes_weaken; [|exact Hc]|].
  intros y n Hy Hn. destruct (is_lnk n) eqn:Hl; [|done]. unfold is_lnk in Hl.
  destruct (n_kind n) as [| |l|] eqn:Hk; try done. destruct (plain_changes _ _ Hc Hp y (or_intror Hy) l).
  unfold kind_at. rewrite Hn. simpl. by rewrite Hk.
Qed.
Lemma touches_check_root (D : path → Prop) p : touches D (check_root E p).
Proof. unfold check_root, validate_config_root, resolve_path. touches. Qed.
Lemma touches_lock_path (D : path → Prop) p : touches D (_provisioning_lock_path p).
Proof. unfold _provisioning_lock_path, resolve_path. touches. Qed.

(** Reading the configuration touches the lock and the private /tmp. *)
Lemma wp_locked_export s : plain s →
  wp env_ok (inside s) (locked_export_config_bytes E data_config_root) (λ _ t, inside s t) s.
Proof.
  intros Hp.
  assert (∀ (m : M path) q, touches (λ _, False) m →
    (∀ e w a w', plain (w_fs w) → m e w = (Ok a, w') → a = q) → ∀ t, changes (λ _, False) s t →
    wp env_ok (inside s) m (λ r u, changes (λ _, False) s u ∧ ∀ a, r = Ok a → a = q) t) as Hread.
  { intros m q Hm HR t Ht. apply (wp_and_run _ _ _ _ (λ r _, ∀ a, r = Ok a → a = q)).
    - eapply touches_then; [exact Hm|exact Ht|by intros u; apply still_inside|done].
    - intros e w r w' He <- Hr a ->. eapply HR; [|done]. by eapply plain_changes. }
  unfold locked_export_config_bytes. apply wp_bind.
  eapply wp_mono; [apply (Hread _ data_config_root (touches_check_root _ _)); [by apply run_check_root|apply changes_refl]|].
  intros [q|x] t [Ht Hq]; [|by apply still_inside]. rewrite (Hq q eq_refl).
  unfold provisioning_lock. apply wp_bind.
  eapply wp_mono; [apply (Hread _ (PROVISION_LOCK_DIR // "config.lock") (touches_lock_path _ _)); [by apply run_lock_path|exact Ht]|].
  intros [l|x] u [Hu Hl]; [|by apply still_inside]. rewrite (Hl l eq_refl).
  assert (keeps (inside s) (_ ← _open_lock_file E (PROVISION_LOCK_DIR // "config.lock");
                            export_bundle_bytes (tar_size E) (gzip_size E) data_config_root)) as Hk.
  { apply keeps_bind; [apply keeps_open_lock|intros _; apply keeps_export_bundle]. }
  by apply Hk, still_inside.
Qed.

(** ** Publishing *)

Definition temporary (suffix : string) : path := results_dir root // (".export-" +:+ suffix).
Definition answer_area (i : string) (y : path) : Prop :=
  below (archive_path root i) y ∨ below (error_path root i) y ∨ ∃ sfx, below (temporary sfx) y.

Lemma touches_finally {A} (D : path → Prop) (m : M A) f : touches D m → touches D f → touches D (finally m f).
Proof. intros Hm Hf. unfold finally. touches; done. Qed.
Lemma touches_publish_export i p c : p = archive_path root i ∨ p = error_path root i → touches (answer_area i) (_publish p c).
Proof.
  intros Hp. assert (parent p = results_dir root) as Hpar by (destruct Hp as [->| ->]; apply removelast_last).
  assert (∀ sfx y, below (results_dir root // (".export-" +:+ sfx)) y → answer_area i y) as Ht.
  { intros sfx y Hy. do 2 right. by exists sfx. }
  unfold _publish. rewrite Hpar. touches.
  - apply touches_create. eapply Ht, below_refl.
  - apply touches_finally; touches.
    + apply touches_update. eapply Ht, below_refl.
    + apply touches_update. eapply Ht, below_refl.
    + apply touches_rename. intros x [Hx|Hx]; [by eapply Ht|]. destruct Hp as [->| ->]; [by left|right; by left].
    + apply touches_unlink_missing_ok. eapply Ht, below_refl.
Qed.
Lemma run_publish_export i p c e w u w' : env_ok e → UUID_PATTERN i = true → p = archive_path root i ∨ p = error_path root i →
  _publish p c e w = (Ok u, w') → is_Some (kind_at (w_fs w') p).
Proof.
  intros He Hi Hp. unfold _publish. intros (sfx & w1 & _ & (n & w2 & _ & ([] & w3 & _ & H)%run_bind)%run_bind)%run_bind.
  apply run_finally in H as (w4 & H & Hu).
  assert (kind_at (w_fs w') p = kind_at (w_fs w4) p) as ->.
  { apply (run_touches (eq (parent p // (".export-" +:+ sfx))) _ _ _ _ _ (touches_unlink_missing_ok _ _ eq_refl) He Hu).
    assert (parent p = results_dir root) as -> by (destruct Hp as [->| ->]; apply removelast_last).
    intros Hq. destruct Hp as [->| ->]; apply app_inj_tail in Hq as [_ Hq]; symmetry in Hq; by apply uuid_head in Hq. }
  apply run_bind in H as (t & w5 & _ & ([] & w6 & _ & ([] & w7 & Hm & Hr)%run_bind)%run_bind).
  destruct u. rewrite (run_rename _ _ _ _ _ Hr). apply run_wr in Hm. unfold update_at in Hm.
  destruct (w_fs w6 !! _) eqn:Hx; [|done]. injection Hm as <-. unfold kind_at. by rewrite lookup_insert_eq.
Qed.

(** What an export changes is none of the other requests' business. *)
Lemma answer_area_root i y : answer_area i y → below root y.
Proof. intros [H|[H|[sfx H]]]; by apply entry_root in H. Qed.
Lemma answer_area_other i j : UUID_PATTERN i = true → UUID_PATTERN j = true → j ≠ i →
  ¬ answer_area i (archive_path root j) ∧ ¬ answer_area i (error_path root j).
Proof.
  intros Hi Hj Hne. split; (intros [H|[H|[sfx H]]]; apply entry_below in H).
  - by apply append_inj in H.
  - symmetry in H. by apply (answer_names_ne j i Hj Hi) in H.
  - symmetry in H. by apply uuid_head in H.
  - by apply (answer_names_ne i j Hi Hj) in H.
  - by apply append_inj in H.
  - symmetry in H. by apply uuid_head in H.
Qed.
Lemma answer_area_dir i d y : d ≠ "results" → ¬ answer_area i (root // d ++ y).
Proof. intros Hd [H|[H|[sfx H]]]; by apply dir_entry_ne in H. Qed.

(** While request [i] is answered. *)
Definition answering (i : string) (s t : fs) : Prop :=
  plain t ∧ ∀ y, below root y → ¬ answer_area i y → kind_at t y = kind_at s y.
Lemma inside_answering i s t : plain s → inside s t → answering i s t.
Proof.
  intros Hp [Hc Hl]. split.
  - intros y [->|Hy] l.
    + rewrite Hc; [by apply Hp; left|]. intros [[r Hr]|[r Hr]]; discriminate Hr.
    + unfold kind_at. destruct (t !! y) as [n|] eqn:Hn; [|done]. specialize (Hl y n Hy Hn). intros [= Hk].
      unfold is_lnk in Hl. by rewrite Hk in Hl.
  - intros y Hy _. apply Hc. intros [H|H].
    + apply Hlock. unfold below in *. by etrans.
    + by eapply linkless_root in Hy; [|right].
Qed.
Lemma answering_changes i s t u : answering i s t → changes (answer_area i) t u → answering i s u.
Proof.
  intros [Hp Hk] Hc. split; [eapply plain_kept; [|exact Hp]|].
  - intros y Hy. apply Hc. intros Ha. by apply answer_area_root in Ha.
  - intros y Hy Ha. by rewrite Hc, Hk.
Qed.

Section export_turn.
Context (i : string) (s : fs) (Hi : UUID_PATTERN i = true) (Hplain : plain s) (Hd : is_dir_at s (requests root) = true).
Context (Hs : ∀ j, K j → j ≠ i → settled s j) (Ht : K i → kind_at s (requests root // ack_name i) = None ∧ taken s i).

Lemma answering_entry t d y : answering i s t → d ≠ "results" → kind_at t (root // d ++ y) = kind_at s (root // d ++ y).
Proof. intros [_ Hk] Hne. apply Hk; [rewrite <-app_assoc; apply below_app|by apply answer_area_dir]. Qed.
Lemma answering_settled t j : answering i s t → K j → j ≠ i → settled t j.
Proof.
  intros Ha Hj Hne. destruct (Hs j Hj Hne) as [Hack Hor]. split.
  - rewrite <-Hack. by apply answering_entry.
  - destruct (answer_area_other i j Hi (HK j Hj) Hne), Ha as [Hp Hk]. destruct Hor as [Hw|Han]; [left|right].
    + eapply empty_kept; [|exact Hw]. by apply (answering_entry t "requests").
    + eapply answered_kept; [..|exact Han]; apply Hk; try done; by eapply entry_root, below_refl.
Qed.
Lemma answering_handled t : answering i s t → all_handled t.
Proof.
  intros Ha j Hj. destruct (decide (j = i)) as [->|Hne]; [|by apply settled_handled, answering_settled].
  right. left. destruct (Ht Hj) as [_ Htk]. eapply empty_kept; [|exact Htk]. by apply (answering_entry t "active").
Qed.
Lemma wp_publish_answer p c t : p = archive_path root i ∨ p = error_path root i → answering i s t →
  wp env_ok all_handled (_publish p c) (λ r u, answering i s u ∧ ∀ a, r = Ok a → answered u i) t.
Proof.
  intros Hp Ha. apply (wp_and_run _ _ _ _ (λ r u, ∀ a, r = Ok a → answered u i)).
  - eapply touches_then; [by apply touches_publish_export|apply changes_refl|..].
    + intros u Hu. eapply answering_handled, answering_changes; done.
    + intros r u Hu. by eapply answering_changes.
  - intros e w r w' He _ Hr a ->. apply (run_publish_export i) in Hr; [|done..]. destruct Hp as [->| ->]; [by left|by right].
Qed.
Lemma wp_answer : wp env_ok all_handled
  (catch (payload ← locked_export_config_bytes E data_config_root; _publish (archive_path root i) (archive_of payload))
     is_Exception (λ _, _publish (error_path root i) FAILED_EXPORT))
  (λ r u, answering i s u ∧ ∀ a, r = Ok a → answered u i) s.
Proof.
  assert (∀ t, inside s t → answering i s t) as Hin by (intros t; by apply inside_answering).
  apply wp_catch, wp_bind. eapply wp_mono.
  { eapply wp_weaken; [done| |by apply wp_locked_export]. intros t Hti. by apply answering_handled, Hin. }
  assert (∀ t x, answering i s t → if is_Exception x
    then wp env_ok all_handled (_publish (error_path root i) FAILED_EXPORT) (λ r u, answering i s u ∧ ∀ a, r = Ok a → answered u i) t
    else answering i s t ∧ ∀ a : (), Err x = Ok a → answered t i) as Herr.
  { intros t x Ha. destruct (is_Exception x); [|done]. apply wp_publish_answer; auto. }
  intros [payload|x] t Hti%Hin; simpl; [|by apply Herr].
  eapply wp_mono; [apply wp_publish_answer; [by left|done]|]. intros [a|x] u [Ha Hu]; [done|by apply Herr].
Qed.
Lemma wp_export_turn : wp env_ok all_handled (export_turn E archive_of root data_config_root i (active_dir root // request_name i))
  (λ r t, match r with
          | Ok _ => between_turns t ∧ ∀ y, below (requests root) y → kind_at t y = kind_at s y
          | Err _ => all_handled t
          end) s.
Proof.
  unfold export_turn. apply wp_bind. eapply wp_mono; [apply wp_answer|].
  intros [a|x] t [Ha Hans]; [|by apply answering_handled]. specialize (Hans a eq_refl).
  assert (∀ u, changes (below (active_dir root // request_name i)) t u → between_turns u ∧
    ∀ y, below (requests root) y → kind_at u y = kind_at s y) as Hb.
  { intros u Hu.
    assert (∀ d y, d ≠ "active" → kind_at u (root // d ++ y) = kind_at t (root // d ++ y)) as Hk.
    { intros d y Hne. apply Hu. intros Hy. by apply dir_entry_ne in Hy. }
    assert (∀ y, below (requests root) y → kind_at u y = kind_at s y) as Hreq.
    { intros y [r ->]. etrans; [by apply Hk|]. by apply answering_entry. }
    split; [|done]. split_and!.
    - eapply plain_kept; [|apply Ha]. intros y Hy. apply Hu. by intros H%entry_root.
    - apply dir_kind. rewrite Hreq by apply below_refl. by apply dir_kind.
    - intros j Hj. assert (settled t j) as [Hack Hor].
      { destruct (decide (j = i)) as [->|Hne]; [|by apply answering_settled]. split; [|by right].
        destruct (Ht Hj) as [Hack _]. rewrite <-Hack. by apply (answering_entry t "requests" [_] Ha). }
      split; [by rewrite <-Hack; apply (Hk "requests" [_])|]. destruct Hor as [Hw|Han]; [left|right].
      + eapply empty_kept; [|exact Hw]. by apply (Hk "requests" [_]).
      + eapply answered_kept; [by apply (Hk "results" [_])..|exact Han]. }
  eapply (touches_then (below (active_dir root // request_name i))).
  - apply touches_unlink, below_refl.
  - apply changes_refl.
  - intros u Hu. by apply between_handled, Hb.
  - intros [b|x] u Hu; [by apply Hb|]. by apply between_handled, Hb.
Qed.
End export_turn.

(** ** The loop *)

Lemma wp_lock {A} (P : fs → Prop) p (b : M A) (Q : result A → fs → Prop) s : (∀ x, Q (Err x) s) → wp env_ok P b Q s →
  wp env_ok P (_lock p b) Q s.
Proof.
  intros HE Hb. unfold _lock. apply wp_bind, wp_rd; [intros; apply HE|]. destruct (lstat_at s p) as [n|x]; [|apply HE].
  repeat (case_match; [by apply wp_raise|]). done.
Qed.
Lemma wp_drain turns s : between_turns s →
  wp env_ok all_handled (drain_requests E archive_of turns root data_config_root)
    (λ r t, all_handled t ∧ (r = Ok true → (∀ x, kind_at t (requests root // x) = None) ∧ ∀ i, K i → answered t i) ∧ (r = Ok false → (turns ≤ pending_count s)%nat)) s.
Proof.
  revert s. induction turns as [|turns IH]; intros s Hb; simpl.
  { apply wp_ret. split_and!; [by apply between_handled|done|lia]. }
  apply wp_bind, wp_lock; [intros x; split_and!; [by apply between_handled|done..]|].
  eapply wp_mono; [by apply wp_claim_turn|]. intros [[| |i claimed]|x] t Ht; simpl in Ht.
  - apply wp_ret. destruct Ht as [Hbt Hnone]. split_and!; [by apply between_handled| |done]. intros _. split; [done|]. intros i Hi.
    destruct Hbt as (_ & _ & Hst). destruct (Hst i Hi) as [_ [[c [Hw _]]|Ha]]; [|done]. by rewrite Hnone in Hw.
  - destruct Ht as [Hbt Hsh%shrunk_count]. eapply wp_mono; [by apply IH|]. intros r u (Hh & Ht & Hf).
    split_and!; [done..|]. intros Hr%Hf. lia.
  - destruct Ht as (Hi & -> & Hsh & Hpl & Hd & Hs & Ht). apply wp_bind. eapply wp_mono; [by apply wp_export_turn|].
    intros [a|x] u Hu; [|done]. destruct Hu as [Hbu Hk]. pose proof (shrunk_count _ _ (shrunk_trans _ _ _ Hsh Hk)) as Hc.
    eapply wp_mono; [by apply IH|]. intros r v (Hh & Hv & Hf). split_and!; [done..|]. intros Hr%Hf. lia.
  - split_and!; done.
Qed.
End export.

(** ** Properties *)

(** C17 — An admitted export is never lost: from a queue where the request [i] waits (or is answered) and
    is not acknowledged, at every point of a run of the worker's loop, whatever fails and wherever it
    is killed, its marker waits, its claim is taken, or its answer is published; and a loop that ends
    has published its answer. *)
Theorem export_request_kept (E : machine) (archive_of : list member → content) (root : path) (turns : nat) i s :
  ¬ below root data_config_root → apart root tmp_dir → ¬ below root (PROVISION_LOCK_DIR // "config.lock") →
  UUID_PATTERN i = true → plain s → is_dir_at s (requests root) = true → settled root s i →
  wp env_ok (λ t, handled root t i) (drain_requests E archive_of turns root data_config_root)
    (λ r t, handled root t i ∧ (r = Ok true → answered root t i)) s.
Proof.
  intros Hc Ht Hl Hi Hp Hd Hs.
  assert (between_turns root (eq i) s) as Hb by (split_and!; [done..|by intros j <-]).
  eapply wp_weaken; [done| |eapply wp_mono; [apply (wp_drain root (eq i)); [by intros j <-|done..]|]].
  - intros t Hh. by apply Hh.
  - intros r t (Hh & Ha & _). split; [by apply Hh|]. intros Hr. by apply (Ha Hr).
Qed.

(** C18 — The export queue drains: with more turns than there are entries below [requests/], and nobody
    adding any, the loop never runs out of turns, whatever the entries are and whatever fails; when it
    returns the directory is empty. *)
Theorem export_queue_drains (E : machine) (archive_of : list member → content) (root : path) (turns : nat) s :
  ¬ below root data_config_root → apart root tmp_dir → ¬ below root (PROVISION_LOCK_DIR // "config.lock") →
  plain s → is_dir_at s (requests root) = true → (pending_count root s < turns)%nat →
  wp env_ok (λ _, True) (drain_requests E archive_of turns root data_config_root)
    (λ r t, r ≠ Ok false ∧ (r = Ok true → ∀ x, kind_at t (requests root // x) = None)) s.
Proof.
  intros Hc Ht Hl Hp Hd Hn.
  assert (between_turns root (λ _, False) s) as Hb by (split_and!; [done..|by intros j []]).
  eapply wp_weaken; [done| |eapply wp_mono; [apply (wp_drain root (λ _, False)); [by intros j []|done..]|]]; [done|].
  intros r t (_ & Ha & Hf). split; [|intros Hr; by apply (Ha Hr)]. intros Hr%Hf. lia.
Qed.

(** ** A sample queue *)

Definition sample_request : string := "01234567-89ab-4def-8123-456789abcdef".
Definition export_disk : fs := list_to_map
  [ ([], plain_dir); (["tmp"], plain_dir); (["run"], plain_dir); (PROVISION_LOCK_DIR, plain_dir); (RUNTIME_ROOT, plain_dir);
    (requests RUNTIME_ROOT, plain_dir); (active_dir RUNTIME_ROOT, plain_dir); (results_dir RUNTIME_ROOT, plain_dir);
    (RUNTIME_ROOT // "queue.lock", plain_file (CText ""));
    (requests RUNTIME_ROOT // request_name sample_request, plain_file (CText ""));
    (requests RUNTIME_ROOT // "junk", plain_file (CText "x"));
    (["data"], plain_dir); (data_config_root, plain_dir); (data_config_root // "config.toml", plain_file (CText "text")) ].
Definition export_run : result bool * world :=
  run_op (drain_requests sample_machine (λ _, CText "archive") 5 RUNTIME_ROOT data_config_root) sample_env export_disk.

Lemma sample_plain : plain export_disk.
Proof.
  assert (map_Forall (λ _ n, is_lnk n = false) export_disk) as H by (apply (bool_decide_unpack _); vm_compute; exact Logic.I).
  intros y _ l. unfold kind_at. destruct (export_disk !! y) as [n|] eqn:Hy; [|done]. apply H in Hy. unfold is_lnk in Hy.
  simpl. intros [= Hk]. by rewrite Hk in Hy.
Qed.
Lemma sample_apart : apart RUNTIME_ROOT tmp_dir.
Proof. split; intros [r Hr]; discriminate Hr. Qed.
Lemma sample_roots : ¬ below RUNTIME_ROOT data_config_root ∧ ¬ below RUNTIME_ROOT (PROVISION_LOCK_DIR // "config.lock").
Proof. split; intros [r Hr]; discriminate Hr. Qed.

Lemma export_request_kept_witness :
  export_run.1 = Ok true ∧ answered RUNTIME_ROOT (w_fs export_run.2) sample_request ∧
  Forall (λ t, handled RUNTIME_ROOT t sample_request) (w_hist export_run.2).
Proof.
  assert (export_run.1 = Ok true) as Hr by (vm_compute; reflexivity).
  destruct sample_roots as [Hc Hl].
  assert (settled RUNTIME_ROOT export_disk sample_request) as Hs.
  { split; [vm_compute; reflexivity|]. left. exists (CText ""). split; vm_compute; reflexivity. }
  pose proof (wp_run _ _ _ _ _ sample_env (export_request_kept sample_machine (λ _, CText "archive") RUNTIME_ROOT 5
    sample_request export_disk Hc sample_apart Hl eq_refl sample_plain eq_refl Hs) sample_env_ok) as H.
  unfold export_run, run_op in *. destruct (drain_requests _ _ _ _ _ _ _) as [r w]. simpl in *. subst r.
  destruct H as [[_ Ha] Hh]. auto.
Defined.
Lemma export_queue_drains_witness :
  export_run.1 = Ok true ∧ ∀ x, kind_at (w_fs export_run.2) (requests RUNTIME_ROOT // x) = None.
Proof.
  assert (export_run.1 = Ok true) as Hr by (vm_compute; reflexivity).
  destruct sample_roots as [Hc Hl].
  assert (pending_count RUNTIME_ROOT export_disk < 5)%nat as Hn by (vm_compute; lia).
  pose proof (wp_run _ _ _ _ _ sample_env (export_queue_drains sample_machine (λ _, CText "archive") RUNTIME_ROOT 5
    export_disk Hc sample_apart Hl sample_plain eq_refl Hn) sample_env_ok) as H.
  unfold export_run, run_op in *. destruct (drain_requests _ _ _ _ _ _ _) as [r w]. simpl in *. subst r.
  destruct H as [[_ Ha] _]. auto.
Defined.
