(* ===== verification/Controllers.v ===== *)
(** * The remaining API routes: jobs, nonces, health, exports

    domain/jobs/controller.py, domain/auth/controller.py, domain/system/controller.py,
    the export of domain/config/controller.py and service.py, and the response
    schemas they use (schemas.py, exceptions.py), under
    src/scripts/atomixos_provision/src/atomixos_provision/. *)

From S2P Require Import Prelude PyStr PyVal ConfigCheck Config FS Auth Bundle Jobs Api Stage Worker Export.

Local Open Scope Z_scope.

(** ** [exceptions.py] *)

(** The response of an [ApiError]; its body is that of the base class. *)
Definition api_error_response (message : string) (code : Z) : response :=
  Response code [("error", VStr message)] None.

(** ** [schemas.py] *)

Definition schema_dict (d : dict value) : dict value := filter (λ kv, is_none kv.2 = false) d.

Definition opt_text (o : option string) : value := match o with Some s => VStr s | None => VNone end.

Definition provision_result_response_from_dict (result_ : dict value) : result (dict value) :=
  warnings ← py_list (vget_or "warnings" (VList []) result_);
  Ok [("warnings", VList warnings); ("reapply", vget "reapply" result_); ("rolled_back", vget "rolled_back" result_);
      ("forwarding_url", vget "forwarding_url" result_)].

Section schemas.
(** [round(seconds, 2)] of a number of ticks, and [float(v)] of what is not a float. *)
Context (elapsed : Z → value) (to_float : value → result value).

Definition py_float (v : value) : result value := match v with VFloat _ _ => Ok v | _ => to_float v end.
Definition item (k : string) (d : dict value) : result value := of_option (dget k d) (KeyError k).

Definition job_event_response_from_dict (event : dict value) : result (dict value) :=
  step ← item "step" event;
  seconds ← item "elapsed_seconds" event;
  seconds ← py_float seconds;
  Ok [("step", VStr (py_str step)); ("elapsed_seconds", seconds); ("message", vget "message" event);
      ("service", vget "service" event); ("mode", vget "mode" event); ("status", vget "status" event)].

(** [snapshot["completed_at"] and snapshot["started_at"]]: neither missing nor zero. *)
Definition duration (j : Job) : value :=
  match completed_at j, started_at j with
  | Some c, Some s => if (c =? 0) || (s =? 0) then VNone else elapsed (c - s)
  | _, _ => VNone
  end.
Definition job_response_from_job (j : Job) : result (dict value) :=
  result_ ← (if bool_decide (job_result j = []) then Ok VNone
             else r ← provision_result_response_from_dict (job_result j); Ok (VDict (schema_dict r)));
  events ← mapR (λ event, r ← job_event_response_from_dict event; Ok (VDict (schema_dict r))) (events j);
  Ok [("id", VStr (Jobs.id j)); ("state", VStr (state_value (state j))); ("current_step", VStr (stage j));
      ("events", match events with [] => VNone | _ => VList events end); ("error", opt_text (job_error j));
      ("result", result_); ("rollback_status", opt_text (rollback_status j)); ("duration_seconds", duration j)].

(** [Job.to_dict] *)
Definition to_dict (j : Job) : result (dict value) := r ← job_response_from_job j; Ok (schema_dict r).

(** ** Routes *)

(** [get] is the one of the job manager. *)
Definition get_job (get : string → M (option Job)) (job_id : string) : M response :=
  j ← get job_id;
  match j with
  | None => mret (api_error_response "job not found" 404)
  | Some job => r ← lift (job_response_from_job job); mret (Response 200 (schema_dict r) None)
  end.
End schemas.

Definition health : response := Response 200 [("status", VStr "ok")] None.

(** [GET /api/nonce]: [value] is the new nonce, [client] the peer's address. *)
Definition nonce (client : option string) (value : string) (store : NonceStore) : M (NonceStore * response) :=
  let client_id := default "" client in
  t_prune ← time_time; t_issue ← time_time;
  mret (issue client_id value t_prune t_issue store, Response 200 (schema_dict [("nonce", VStr value)]) None).

Section export.
Context (E : machine) (archive_of : list member → content).

(** [ConfigService.export_config]; [None]: still waiting after [polls] pauses. *)
Definition service_export (polls : nat) (other : nat → M ()) (config_root : path) : M (option content) :=
  if bool_decide (config_root = EXPORT_CONFIG_ROOT) then request_export E polls other RUNTIME_ROOT
  else payload ← locked_export_config_bytes E config_root; mret (Some (archive_of payload)).

(** The archive, or the response of an API error. *)
Definition export_config (polls : nat) (other : nat → M ()) (config_root : path) : M (option content + response) :=
  r ← attempt (service_export polls other config_root);
  match r with
  | Ok archive => mret (inl archive)
  | Err (ApiError message code) => mret (inr (api_error_response message code))
  | Err x => raise x
  end.
End export.
