(* ===== verification/BootUi.v ===== *)
(** * [ui.py]: the pages of the first boot

    One definition per function of
    src/scripts/atomixos_provision/src/atomixos_provision/ui.py.  In the texts of
    the markup a back quote stands for a double quote ([markup]).  The page
    itself, a constant text around three escaped values, is kept as those values
    ([Page]; BootPage.v gives its text); the set of the jobs the pages started, which the process keeps in
    memory, is passed in and out, its lock held where the code holds it. *)

From Stdlib Require Import Ascii.
From S2P Require Import Prelude PyStr PyVal ConfigCheck Config FS Staging StagedJob Activation BootstrapSecurity Jobs Api.

Local Open Scope Z_scope.

Definition _BOOT_UI_JOBS_DIR : string := "boot-ui-jobs".

(** ** Markup *)

Definition markup (s : string) : string := str_map (λ c, if Ascii.eqb c "`" then dquote_char else c) s.

(** [html.escape(s)] *)
Definition escape_char (c : ascii) : string :=
  if Ascii.eqb c "&" then "&amp;"
  else if Ascii.eqb c "<" then "&lt;"
  else if Ascii.eqb c ">" then "&gt;"
  else if Ascii.eqb c dquote_char then "&quot;"
  else if Ascii.eqb c quote_char then "&#x27;"
  else String c "".
Definition html_escape (s : string) : string := concat_map_str escape_char s.

Definition _html_page_fragment (content status_class : string) : string :=
  let classes := "message" +:+ (if bool_decide (status_class = "") then "" else " " +:+ status_class) in
  markup "<section id=`job-status` class=`" +:+ classes +:+ markup "`>" +:+ content +:+ "</section>".

(** [events[-40:]] *)
Definition recent {A} (l : list A) : list A := drop (length l - 40) l.
Definition render_event (event : dict value) : result string :=
  step ← of_option (dget "step" event) (KeyError "step");
  let message := vget "message" event in
  Ok ("<li><code>" +:+ html_escape (py_str step) +:+ "</code>"
      +:+ (if truthy message then ": " +:+ html_escape (py_str message) else "") +:+ "</li>").
Definition _render_job_events (events : list (dict value)) : result string :=
  items ← mapR render_event (recent events);
  let event_items := join "" items in
  Ok (if bool_decide (event_items = "") then ""
      else markup "<div class=`event-log`><ol class=`events`>" +:+ event_items +:+ "</ol></div>").

Definition render_warning (w : value) : string := "<li>" +:+ html_escape (py_str w) +:+ "</li>".

Definition _render_job_message_html (j : Job) : result string :=
  event_html ← _render_job_events (events j);
  match state j with
  | SUBMITTED | RUNNING =>
      Ok ("<p><strong>Applying configuration...</strong></p><p>Current stage: <code>" +:+ html_escape (stage j)
          +:+ "</code></p>" +:+ event_html)
  | SUCCEEDED =>
      let warnings := vget_or "warnings" (VList []) (job_result j) in
      let forwarding_url := vget "forwarding_url" (job_result j) in
      items ← py_list warnings;
      let warning_html := join "" (map render_warning items) in
      let url := html_escape (py_str forwarding_url) in
      let forwarding_html :=
        if truthy forwarding_url
        then markup "<p>Continue at <a href=`" +:+ url +:+ markup "`>" +:+ url +:+ "</a>.</p>" else "" in
      Ok ("<p><strong>Configuration applied.</strong></p>" +:+ forwarding_html +:+ event_html
          +:+ (if truthy warnings then "<h2>Warnings</h2><ul>" +:+ warning_html +:+ "</ul>" else ""))
  | FAILED =>
      let error := default "" (job_error j) in
      let rollback := default "" (rollback_status j) in
      let rollback_html :=
        if bool_decide (rollback = "") then ""
        else "<p><strong>Rollback status:</strong> " +:+ html_escape rollback +:+ "</p>" in
      Ok ("<p><strong>Configuration failed.</strong></p><p>"
          +:+ html_escape (if bool_decide (error = "") then "unknown error" else error) +:+ "</p>"
          +:+ rollback_html +:+ event_html)
  end.

Definition render_job_fragment (j : Job) : result string :=
  message ← _render_job_message_html j;
  Ok match state j with
     | SUBMITTED | RUNNING =>
         _html_page_fragment message "" +:+ markup "<script>startJobStream(`" +:+ html_escape (Jobs.id j)
         +:+ markup "`);</script>"
     | SUCCEEDED => _html_page_fragment message "status-succeeded" +:+ "<script>completeApplyButton();</script>"
     | FAILED => _html_page_fragment message "status-failed" +:+ "<script>resetApplyButton();</script>"
     end.

Definition _render_recovered_success_fragment : string :=
  _html_page_fragment
    ("<p><strong>Configuration applied.</strong></p>"
     +:+ "<p>The bootstrap service reconnected after provisioning completed.</p>")
    "status-succeeded".

(** ** Markers of the jobs the pages started *)

Section ui.
Context (runtime_root config_root : path).

Definition _boot_ui_jobs_dir : path := runtime_root // _BOOT_UI_JOBS_DIR.
Definition _boot_ui_marker_path (job_id : string) : result path :=
  job_id ← validate_job_id job_id; Ok (_boot_ui_jobs_dir // job_id).

(** The open is one call and the write another. *)
Definition _remember_boot_ui_job (job_id : string) : M () :=
  opened ← catch
    (_ ← mkdir_parents 511 _boot_ui_jobs_dir;
     _ ← chmod 448 (* 0o700 *) _boot_ui_jobs_dir;
     marker_path ← lift (_boot_ui_marker_path job_id);
     n ← new_node (KReg (CText "")) 384 (* 0o600 *);
     _ ← wr (create_at n marker_path);
     mret (Some marker_path))
    is_OSError (λ _, mret None);
  match opened with
  | None => mret tt
  | Some marker_path =>
      t ← time_time;
      _ ← wr (update_at (set_kind (KReg (CText ("pending" +:+ nl))) t) marker_path);
      fsync marker_path
  end.

(** A marker nobody else may write; [0o022]. *)
Definition _has_boot_ui_job_marker (job_id : string) : M bool :=
  marker ← catch
    (marker_path ← lift (_boot_ui_marker_path job_id);
     n ← lstat marker_path;
     mret (Some n))
    (λ x, is_not_found x || is_ProvisionError x) (λ _, mret None);
  mret match marker with
       | None => false
       | Some n => if is_lnk n || negb (is_reg n) then false else Z.land (n_mode n) 18 =? 0
       end.

Definition _forget_boot_ui_job (job_id : string) : M () :=
  marker_path ← lift (_boot_ui_marker_path job_id); unlink_missing_ok marker_path.

(** ** Guards *)

Definition _device_is_provisioned : M bool := is_provisioned_config_root config_root.

Definition _require_unprovisioned : M () :=
  provisioned ← _device_is_provisioned;
  if provisioned : bool then raise NotFoundException else mret tt.

(** [jobs] is the set in memory, [get] the job manager's. *)
Definition _require_unprovisioned_or_boot_ui_terminal_job (get : string → M (option Job)) (jobs : list string)
    (job_id : string) : M () :=
  provisioned ← _device_is_provisioned;
  if negb provisioned then mret tt
  else if bool_decide (job_id = "") then raise NotFoundException
  else
    known ← (if bool_decide (job_id ∈ jobs) then mret true else _has_boot_ui_job_marker job_id);
    if negb known then raise NotFoundException
    else
      j ← get job_id;
      match j with
      | Some _ => mret tt
      | None => still ← _device_is_provisioned; if still : bool then mret tt else raise NotFoundException
      end.

(** ** Handlers *)

(** The body of an answer: markup, or the page around what it is given. *)
Variant ui_body : Type :=
  | Html (text : string)
  | Page (config_text message_html bootstrap_token : string)
  | Image (c : content).
Record ui_response : Type := UiResponse { u_status : Z; u_body : ui_body }.

Definition boot_ui (bootstrap_token : string) (headers : dict string) : result ui_response :=
  _ ← enforce_bootstrap_browser_origin headers;
  Ok (UiResponse 200 (Page "" "" bootstrap_token)).

(** [Path.parents[n]] *)
Definition parents (n : nat) (p : path) : path := take (length p - S n) p.
Definition _asset_path (this_file : path) (filename : string) : M (option path) :=
  let source_path := parents 2 this_file // "assets" // filename in
  ex ← exists_ source_path;
  if ex : bool then mret (Some source_path)
  else
    let installed_path := parents 5 this_file // "share" // "atomixos" // filename in
    ex ← exists_ installed_path;
    mret (if ex : bool then Some installed_path else None).
Definition serve_asset (this_file : path) (filename : string) (configured : option path) : M ui_response :=
  found ← match configured with Some p => mret (Some p) | None => _asset_path this_file filename end;
  let missing := UiResponse 404 (Html "") in
  match found with
  | None => mret missing
  | Some p =>
      ex ← exists_ p;
      if ex : bool then c ← read_content p; mret (UiResponse 200 (Image c)) else mret missing
  end.
Definition serve_logo (this_file : path) : option path → M ui_response := serve_asset this_file "atomixos.png".
Definition serve_config_dropzone_image (this_file : path) : option path → M ui_response :=
  serve_asset this_file "config_dropzone.png".

(** [secrets.compare_digest] of two texts. *)
Definition is_ascii (c : ascii) : bool := (ord c <? 128)%N.
Definition compare_digest (a b : string) : result bool :=
  if all_chars is_ascii a && all_chars is_ascii b then Ok (bool_decide (a = b))
  else Err (TypeError "comparing strings with non-ASCII characters is not supported").

(** The fields of the form: a text is empty when its field is missing. *)
Variant form_field : Type := TextField (text : string) | FileField (filename payload : string).
Record form_data : Type := Form { f_token : string; f_config : string; f_config_file : option form_field }.

(** UTF-8, and its decoding with replacements. *)
Context (encode decode_replace : string → string).

Definition uploaded_config_text (payload filename : string) : string :=
  let lowered := lower filename in
  if endswith lowered ".toml" || endswith lowered ".txt" then decode_replace payload else "".

(** The payload, its name, and the text shown back. *)
Definition read_upload (form : form_data) : option (string * string * string) :=
  match f_config_file form with
  | Some (FileField filename payload) =>
      if bool_decide (filename = "") then
        if bool_decide (f_config form = "") then None else Some (encode (f_config form), "config.toml", f_config form)
      else Some (payload, filename, uploaded_config_text payload filename)
  | _ => if bool_decide (f_config form = "") then None else Some (encode (f_config form), "config.toml", f_config form)
  end.

Definition _is_htmx_request (headers : dict string) : bool := bool_decide (lower (header "hx-request" headers) = "true").

(** [s.capitalize()] *)
Definition capitalize (s : string) : string :=
  match s with String c s' => String (upper_ascii_char c) (lower s') | EmptyString => "" end.

(** [for _ in range(n)]: how many looks at the job the loop takes; [looks] is the
    job at each look. *)
Fixpoint looks_taken (n : nat) (looks : nat → Job) (i : nat) : nat :=
  match n with
  | O => i
  | S n => if is_active (looks i) then looks_taken n looks (S i) else S i
  end.

Definition final_status (s : JobState) : Z := match s with FAILED => 400 | SUCCEEDED => 200 | _ => 202 end.

(** What is answered for an admitted job. *)
Definition submitted_response (bootstrap_token : string) (htmx waits : bool) (config_text : string) (looks : nat → Job)
    : result ui_response :=
  let later i := body ← render_job_fragment (looks i); Ok (UiResponse 202 (Html body)) in
  if waits then
    let i := looks_taken 40 looks 0 in
    let final_state := state (looks i) in
    if negb (active_state final_state) then
      if htmx then body ← render_job_fragment (looks (S i)); Ok (UiResponse 200 (Html body))
      else
        message ← _render_job_message_html (looks (S i));
        Ok (UiResponse (final_status final_state)
              (Page (if bool_decide (final_state = SUCCEEDED) then config_text else "") message bootstrap_token))
    else later (S i)
  else later 0%nat.

(** [started] is the identifier the work began under before the submission ended,
    if it did; a submission notes it in [jobs] and on disk. *)
Definition apply_form (R : job_runner) (bootstrap_token : string) (headers : dict string) (form : form_data)
    (started : option string) (looks : nat → Job) (jobs : list string) : M (list string * result ui_response) :=
  match (_ ← enforce_bootstrap_browser_origin headers; compare_digest (f_token form) bootstrap_token) with
  | Err x => mret (jobs, Err x)
  | Ok false => mret (jobs, Ok (UiResponse 403 (Html "<html><body><h1>Error</h1><p>Invalid bootstrap token.</p></body></html>")))
  | Ok true =>
      match read_upload form with
      | None => mret (jobs, Ok (UiResponse 400 (Html "<html><body><h1>Error</h1><p>No config provided.</p></body></html>")))
      | Some (payload, filename, config_text) =>
          s ← attempt (submit_bytes R payload filename false None (Some _remember_boot_ui_job));
          let jobs := option_list started ++ jobs in
          match s with
          | Err x => mret (jobs, Err x)
          | Ok submission =>
              match sr_job submission with
              | None =>
                  mret (jobs, Ok (UiResponse 409 (Html (_html_page_fragment
                    ("<p>" +:+ capitalize (conflict_message submission) +:+ ".</p>") "status-failed"))))
              | Some job =>
                  r ← attempt (_remember_boot_ui_job (Jobs.id job));
                  let waits := waits_for_privileged_worker submission || bool_decide (is_Some (f_config_file form)) in
                  mret (Jobs.id job :: jobs,
                        _ ← r; submitted_response bootstrap_token (_is_htmx_request headers) waits config_text looks)
              end
          end
      end
  end.

Definition discard (job_id : string) (jobs : list string) : list string := filter (λ x, x ≠ job_id) jobs.

Definition not_found_fragment : ui_response :=
  UiResponse 404 (Html (_html_page_fragment "<p>Provisioning job not found.</p>" "status-failed")).

(** What follows a terminal state on a provisioned device: the page is served once. *)
Definition serve_terminal (body : string) (job_id : string) (jobs : list string) : M (list string * result ui_response) :=
  provisioned ← attempt _device_is_provisioned;
  match provisioned with
  | Err x => mret (jobs, Err x)
  | Ok false => mret (jobs, Ok (UiResponse 200 (Html body)))
  | Ok true =>
      known ← attempt (if bool_decide (job_id ∈ jobs) then mret true else _has_boot_ui_job_marker job_id);
      match known with
      | Err x => mret (jobs, Err x)
      | Ok false => mret (jobs, Err NotFoundException)
      | Ok true =>
          r ← attempt (_forget_boot_ui_job job_id);
          mret (discard job_id jobs, _ ← r; Ok (UiResponse 200 (Html body)))
      end
  end.

(** The job is looked at when it is rendered and when its state is tested. *)
Definition job_fragment (get : string → M (option Job)) (job_id : string) (later : Job) (jobs : list string)
    : M (list string * result ui_response) :=
  j ← attempt (get job_id);
  match j with
  | Err x => mret (jobs, Err x)
  | Ok None =>
      provisioned ← attempt _device_is_provisioned;
      match provisioned with
      | Err x => mret (jobs, Err x)
      | Ok false => mret (jobs, Ok not_found_fragment)
      | Ok true =>
          r ← attempt (_forget_boot_ui_job job_id);
          mret (discard job_id jobs, _ ← r; Ok (UiResponse 200 (Html _render_recovered_success_fragment)))
      end
  | Ok (Some job) =>
      match render_job_fragment job with
      | Err x => mret (jobs, Err x)
      | Ok body =>
          if active_state (state later) then mret (jobs, Ok (UiResponse 200 (Html body)))
          else serve_terminal body job_id jobs
      end
  end.

(** ** The event stream *)

Variant sse : Type := Data (text : string) | Done.

(** [turns] rounds of the loop of [stream], two looks at the job each; [None]: the
    job is still running. *)
Fixpoint stream (turns : nat) (looks : nat → Job) (last_body : string) : result (list sse * bool) :=
  match turns with
  | O => Ok ([], false)
  | S turns =>
      body ← render_job_fragment (looks 0%nat);
      let shown := if bool_decide (body = last_body) then [] else [Data body] in
      if active_state (state (looks 1%nat)) then
        rest ← stream turns (λ i, looks (S (S i))) body;
        Ok (shown ++ rest.1, rest.2)
      else Ok (shown ++ [Done], true)
  end.

(** What the client receives, and the set when the stream has ended. *)
Definition job_events (get : string → M (option Job)) (job_id : string) (turns : nat) (looks : nat → Job) (jobs : list string)
    : M (list string * result (list sse + ui_response)) :=
  j ← attempt (get job_id);
  match j with
  | Err x => mret (jobs, Err x)
  | Ok None =>
      provisioned ← attempt _device_is_provisioned;
      match provisioned with
      | Err x => mret (jobs, Err x)
      | Ok false => mret (jobs, Ok (inr not_found_fragment))
      | Ok true =>
          r ← attempt (_forget_boot_ui_job job_id);
          mret (discard job_id jobs, _ ← r; Ok (inl [Data _render_recovered_success_fragment; Done]))
      end
  | Ok (Some _) =>
      match stream turns looks "" with
      | Err x => mret (jobs, Err x)
      | Ok (sent, false) => mret (jobs, Ok (inl sent))
      | Ok (sent, true) =>
          provisioned ← attempt _device_is_provisioned;
          match provisioned with
          | Err x => mret (jobs, Err x)
          | Ok false => mret (jobs, Ok (inl sent))
          | Ok true =>
              r ← attempt (_forget_boot_ui_job job_id);
              mret (discard job_id jobs, _ ← r; Ok (inl sent))
          end
      end
  end.

(** ** Routes: a handler behind its guard *)

Definition post_apply (R : job_runner) (bootstrap_token : string) (headers : dict string) (form : form_data)
    (started : option string) (looks : nat → Job) (jobs : list string) : M (list string * result ui_response) :=
  g ← attempt _require_unprovisioned;
  match g with
  | Err x => mret (jobs, Err x)
  | Ok _ => apply_form R bootstrap_token headers form started looks jobs
  end.
Definition get_boot_ui (bootstrap_token : string) (headers : dict string) : M ui_response :=
  _ ← _require_unprovisioned; lift (boot_ui bootstrap_token headers).
Definition get_job_fragment (get : string → M (option Job)) (job_id : string) (later : Job) (jobs : list string)
    : M (list string * result ui_response) :=
  g ← attempt (_require_unprovisioned_or_boot_ui_terminal_job get jobs job_id);
  match g with
  | Err x => mret (jobs, Err x)
  | Ok _ => job_fragment get job_id later jobs
  end.
End ui.
