(* ===== verification/BootUiFacts.v ===== *)
(** * The pages of the first boot: what reaches the device, and what is shown *)

From Stdlib Require Import Ascii.
From S2P Require Import Prelude PyStr PyVal ConfigCheck Config FS FSLogic RunLogic Staging StagingFacts StagedJob Activation BootstrapSecurity Jobs Api BootUi.

Local Open Scope Z_scope.

(** ** The markup of a page does not depend on the texts in it

    [outline] reads markup as a browser does: what is outside of tags, and what is
    between the quotes of an attribute, is dropped. *)

Variant lex : Type := Text | Tag | Quoted.
Definition lex_step (st : lex) (c : ascii) : lex * string :=
  let emit st' := (st', String c "") in
  match st with
  | Text => if Ascii.eqb c "<" then emit Tag else (Text, "")
  | Tag => if Ascii.eqb c dquote_char then emit Quoted else if Ascii.eqb c ">" then emit Text else emit Tag
  | Quoted => if Ascii.eqb c dquote_char then emit Tag else (Quoted, "")
  end.
Fixpoint outline (st : lex) (s : string) : lex * string :=
  match s with
  | EmptyString => (st, "")
  | String c s' => let '(st1, o1) := lex_step st c in let '(st2, o2) := outline st1 s' in (st2, o1 +:+ o2)
  end.

Lemma outline_app st s t :
  outline st (s +:+ t) = let '(st1, o1) := outline st s in let '(st2, o2) := outline st1 t in (st2, o1 +:+ o2).
Proof.
  revert st. induction s as [|c s IH]; intros st; [change ("" +:+ t) with t; simpl; by destruct (outline st t)|].
  change (String c s +:+ t) with (String c (s +:+ t)). simpl. destruct (lex_step st c) as [st1 o1].
  rewrite IH. destruct (outline st1 s) as [st2 o2], (outline st2 t) as [st3 o3]. by rewrite str_app_assoc.
Qed.
Lemma outline_seq st st1 st2 s t o1 o2 :
  outline st s = (st1, o1) → outline st1 t = (st2, o2) → outline st (s +:+ t) = (st2, o1 +:+ o2).
Proof. intros H1 H2. by rewrite outline_app, H1, H2. Qed.


(** No character of an escaped text is markup. *)
Lemma outline_escape_char st c : st ≠ Tag → outline st (escape_char c) = (st, "").
Proof. intros Hst. destruct st; [|done|]; destruct c as [[] [] [] [] [] [] [] []]; reflexivity. Qed.
Lemma outline_escape st s : st ≠ Tag → outline st (html_escape s) = (st, "").
Proof.
  intros Hst. unfold html_escape, concat_map_str. induction (chars s) as [|c l IH]; [by destruct st|].
  simpl map. rewrite join_empty_cons, outline_app, outline_escape_char, IH; done.
Qed.
Lemma outline_escape_seq st s t st2 o : st ≠ Tag → outline st t = (st2, o) → outline st (html_escape s +:+ t) = (st2, o).
Proof. intros Hst Ht. rewrite outline_app, outline_escape, Ht by done. done. Qed.

(** The outline of each part. *)
Definition copies (n : nat) (s : string) : string := join "" (replicate n s).
Lemma outline_copies {A} (f : A → string) o l :
  (∀ x, x ∈ l → outline Text (f x) = (Text, o)) → outline Text (join "" (map f l)) = (Text, copies (length l) o).
Proof.
  unfold copies. induction l as [|x l IH]; intros Hf; [done|]. simpl map. simpl replicate. rewrite !join_empty_cons.
  eapply outline_seq; [apply Hf; by left|]. apply IH. intros y Hy. apply Hf. by right.
Qed.

Definition events_outline (n : nat) : string :=
  if (n =? 0)%nat then "" else markup "<div class=``><ol class=``>" +:+ copies n "<li><code></code></li>" +:+ "</ol></div>".
Definition warnings_outline (n : nat) : string :=
  if (n =? 0)%nat then "" else "<h2></h2><ul>" +:+ copies n "<li></li>" +:+ "</ul>".
Definition message_outline (s : JobState) (events warnings : nat) (url rollback : bool) : string :=
  match s with
  | SUBMITTED | RUNNING => "<p><strong></strong></p><p><code></code></p>" +:+ events_outline events
  | SUCCEEDED => "<p><strong></strong></p>" +:+ (if url then markup "<p><a href=``></a></p>" else "")
                 +:+ events_outline events +:+ warnings_outline warnings
  | FAILED => "<p><strong></strong></p><p></p>" +:+ (if rollback then "<p><strong></strong></p>" else "")
              +:+ events_outline events
  end.
Definition fragment_outline (s : JobState) (events warnings : nat) (url rollback : bool) : string :=
  markup "<section id=`` class=``>" +:+ message_outline s events warnings url rollback +:+ "</section><script></script>".

(** The outline of a concatenation of constants, escaped texts and known parts. *)
Ltac outlined :=
  lazymatch goal with
  | |- outline _ (html_escape _ +:+ _) = _ => eapply outline_escape_seq; [done|outlined]
  | |- outline _ (html_escape _) = _ => apply outline_escape; done
  | |- outline _ (_ +:+ _) = _ => eapply outline_seq; [outlined|outlined]
  | |- _ => first [eassumption | vm_compute; reflexivity]
  end.
(** Solves [outline st s = (st', o)] up to the association of the concatenations in [o]. *)
Ltac outline_as := etrans; [outlined | rewrite <-?str_app_assoc; reflexivity].

Lemma outline_event event s : render_event event = Ok s → outline Text s = (Text, "<li><code></code></li>").
Proof.
  unfold render_event. intros H. apply bind_Ok in H as (step & _ & H). injection H as <-.
  destruct (truthy _); outline_as.
Qed.
Lemma outline_warning w : outline Text (render_warning w) = (Text, "<li></li>").
Proof. unfold render_warning. outline_as. Qed.

Lemma outline_events evs s : _render_job_events evs = Ok s → outline Text s = (Text, events_outline (length (recent evs))).
Proof.
  unfold _render_job_events. intros H. apply bind_Ok in H as (items & Hi & H). apply mapR_Ok in Hi. injection H as <-.
  assert (length (recent evs) = length items) as -> by by eapply Forall2_length.
  assert (outline Text (join "" items) = (Text, copies (length items) "<li><code></code></li>")) as Ho.
  { rewrite <-(list_fmap_id items) at 1. apply (outline_copies Datatypes.id). intros x Hx.
    apply list_elem_of_lookup in Hx as [i Hx]. destruct (Forall2_lookup_r _ _ _ _ _ Hi Hx) as (ev & _ & He).
    by eapply outline_event. }
  destruct items as [|x items]; [reflexivity|]. rewrite bool_decide_eq_false_2.
  2:{ intros Hx. rewrite Hx in Ho. unfold copies in Ho. simpl replicate in Ho. by rewrite join_empty_cons in Ho. }
  change (events_outline _) with (markup "<div class=``><ol class=``>" +:+ copies (length (x :: items)) "<li><code></code></li>" +:+ "</ol></div>").
  outline_as.
Qed.

Definition warning_count (j : Job) : nat :=
  match py_list (vget_or "warnings" (VList []) (job_result j)) with Ok l => length l | Err _ => 0 end.
Lemma truthy_count v l : py_list v = Ok l → truthy v = negb (length l =? 0)%nat.
Proof.
  destruct v; try done; intros [= <-]; simpl; unfold dkeys; rewrite ?length_map; by first [destruct s|destruct l0|destruct d].
Qed.

Lemma outline_message j s : _render_job_message_html j = Ok s →
  outline Text s = (Text, message_outline (state j) (length (recent (events j))) (warning_count j)
    (truthy (vget "forwarding_url" (job_result j))) (negb (bool_decide (default "" (rollback_status j) = "")))).
Proof.
  unfold _render_job_message_html. intros H. apply bind_Ok in H as (evs & He & H). apply outline_events in He.
  unfold message_outline, warning_count. destruct (state j).
  - injection H as <-. outline_as.
  - injection H as <-. outline_as.
  - apply bind_Ok in H as (items & Hi & H). injection H as <-. rewrite Hi, (truthy_count _ _ Hi).
    assert (outline Text (join "" (map render_warning items)) = (Text, copies (length items) "<li></li>")) as Hw.
    { apply outline_copies. intros x _. apply outline_warning. }
    unfold warnings_outline. destruct (truthy (vget "forwarding_url" _)), (length items =? 0)%nat; cbn [negb]; outline_as.
  - injection H as <-. destruct (bool_decide (default "" (rollback_status j) = "")); cbn [negb]; outline_as.
Qed.

(** No text can change the markup of a job's page: whatever the stage, the messages, the
    warnings, the error, the URL or the identifier are, a browser that reads the fragment sees exactly
    the tags and attribute names of its template; only the number of events (the last 40) and
    warnings, and the presence of a URL and of a rollback status, vary. *)
Theorem job_markup_fixed (j : Job) (text : string) : render_job_fragment j = Ok text →
  outline Text text = (Text, fragment_outline (state j) (length (recent (events j))) (warning_count j)
    (truthy (vget "forwarding_url" (job_result j))) (negb (bool_decide (default "" (rollback_status j) = "")))).
Proof.
  unfold render_job_fragment. intros H. apply bind_Ok in H as (message & Hm & H). apply outline_message in Hm.
  injection H as <-. unfold fragment_outline, _html_page_fragment. destruct (state j); outline_as.
Qed.

(** ** The form reaches the device only through every check *)

(** The two managers treat alike a first configuration without evidence. *)
Definition agree_first_boot (R1 R2 : job_runner) : Prop :=
  is_staged R1 = is_staged R2
  ∧ (∀ body name f, submit_staged R1 (stage_bytes body name false None f) = submit_staged R2 (stage_bytes body name false None f))
  ∧ (∀ body name f, submit_direct R1 (apply_bytes body name false f) = submit_direct R2 (apply_bytes body name false f)).

Lemma agree_submit R1 R2 body name f : agree_first_boot R1 R2 →
  submit_bytes R1 body name false None f = submit_bytes R2 body name false None f.
Proof. intros (Hs & Hq & Hd). unfold submit_bytes. by rewrite Hs, Hq, Hd. Qed.

(** The request comes from a page of this very host, by an allowed name. *)
Definition same_origin (headers : dict string) : Prop :=
  ∃ o, _host_origin (header "host" headers) = Some o ∧ _allowed_host (o_host o) = true ∧
    ∀ name, name ∈ ["origin"; "referer"] → header name headers ≠ "" → _header_origin (header name headers) = Some o.

Lemma check_header_Ok o headers name : check_header o headers name = Ok tt →
  header name headers ≠ "" → _header_origin (header name headers) = Some o.
Proof.
  unfold check_header. intros H Hn. rewrite bool_decide_eq_false_2 in H by done.
  by destruct (bool_decide (_ = _)) eqn:Ho; [apply bool_decide_eq_true in Ho|].
Qed.
Lemma enforce_Ok headers : enforce_bootstrap_browser_origin headers = Ok tt → same_origin headers.
Proof.
  unfold enforce_bootstrap_browser_origin. destruct (_host_origin _) as [o|] eqn:Ho; [|done].
  destruct (_allowed_host _) eqn:Ha; [|done]. intros ([] & H1 & H2)%bind_Ok. exists o. split_and!; [done..|].
  intros name Hn. apply elem_of_cons in Hn as [->|Hn]; [by apply check_header_Ok|].
  apply list_elem_of_singleton in Hn as ->. by apply check_header_Ok.
Qed.
Lemma compare_digest_true a b : compare_digest a b = Ok true → a = b.
Proof. unfold compare_digest. destruct (_ && _); [|done]. intros [= H]. by apply bool_decide_eq_true in H. Qed.

(** C21 — The form of the first-boot page reaches the job manager only when the device is not
    provisioned, the form holds the token of this page, and the browser's headers name this host by an
    allowed name (no foreign page, no rebound DNS name); and then only with a first configuration,
    never as a reapply and never with signature evidence.  In every other case the answer and the
    effects do not depend on the job manager. *)
Theorem boot_ui_apply_guarded (runtime_root config_root : path) (encode decode : string → string) (R1 R2 : job_runner)
    (token : string) (headers : dict string) (form : form_data) started looks jobs e w :
  let run R := post_apply runtime_root config_root encode decode R token headers form started looks jobs e w in
  run R1 ≠ run R2 →
  (∃ w', is_provisioned_config_root config_root e w = (Ok false, w'))
  ∧ f_token form = token ∧ same_origin headers ∧ ¬ agree_first_boot R1 R2.
Proof.
  intros run Hne. subst run. cbv beta in Hne. unfold post_apply, mbind, M_bind, attempt, _require_unprovisioned, _device_is_provisioned, mbind, M_bind in Hne.
  destruct (is_provisioned_config_root config_root e w) as [[[]|x] w1]; try done. simpl in Hne.
  unfold apply_form in Hne.
  destruct (enforce_bootstrap_browser_origin headers) as [[]|x] eqn:Ho; [|done]. simpl in Hne.
  destruct (compare_digest (f_token form) token) as [[]|x] eqn:Ht; try done.
  split_and!; [by eexists|by apply compare_digest_true|by apply enforce_Ok|].
  intros Ha. apply Hne. destruct (read_upload _ _ form) as [[[payload filename] config_text]|]; [|done].
  by rewrite (agree_submit R1 R2).
Qed.

Definition accepting : job_runner := JobRunner false (λ _, mret None) (λ _, mret None) (λ _, mret (Some (new_job "j" 1))).
Definition refusing : job_runner := JobRunner false (λ _, mret None) (λ _, mret None) (λ _, mret None).
Definition first_boot_disk : fs := list_to_map [([], plain_dir); (["run"], plain_dir)].
Definition post_sample (R : job_runner) : result (list string * result ui_response) * world :=
  post_apply ["run"] ["cfg"] (λ s, s) (λ s, s) R "secret"
    [("host", "172.20.30.1:8080"); ("origin", "http://172.20.30.1:8080")] (Form "secret" "version = 1" None) None
    (λ _, new_job "j" 1) [] sample_env (World first_boot_disk [] 0).

Lemma boot_ui_apply_guarded_witness :
  post_sample accepting ≠ post_sample refusing ∧
  same_origin [("host", "172.20.30.1:8080"); ("origin", "http://172.20.30.1:8080")] ∧ ¬ agree_first_boot accepting refusing.
Proof.
  assert (post_sample accepting ≠ post_sample refusing) as H.
  { intros H. apply (f_equal (λ r, match r.1 with Ok (jobs, _) => jobs | Err _ => [] end)) in H.
    vm_compute in H. discriminate. }
  split; [exact H|].
  destruct (boot_ui_apply_guarded _ _ _ _ accepting refusing _ _ _ _ _ _ _ _ H) as (_ & _ & Ho & Ha). by split.
Defined.

Lemma job_markup_fixed_witness :
  let j := set_error (Some "<script>alert(1)</script>") (set_state FAILED (new_job "`><b>" 0)) in
  ∃ text, render_job_fragment j = Ok text ∧ outline Text text = (Text, fragment_outline FAILED 0 0 false false).
Proof.
  intros j. destruct (render_job_fragment j) as [text|x] eqn:H; [|exfalso; vm_compute in H; discriminate].
  exists text. split; [done|]. exact (job_markup_fixed j text H).
Defined.

(** ** A result is shown once *)

Definition provisioned (config_root : path) (s : fs) : Prop :=
  ∃ name c, name ∈ [FIRST_CONFIG_MARKER; "config.toml"] ∧ kind_at s (config_root // name) = Some (KReg c).

Lemma run_is_regular p e w b w' : env_ok e → _is_regular_file p e w = (Ok b, w') →
  w_fs w' = w_fs w ∧ (b = true ↔ ∃ c, kind_at (w_fs w) p = Some (KReg c)).
Proof.
  intros He. unfold _is_regular_file. intros [(n & w1 & Hl & [<- ->]%run_ret)%run_bind|(x & w1 & Hm & Hx & [<- ->]%run_ret)]%run_catch.
  - unfold lstat, rd in Hl. destruct (e_rfault e (w_n w)); [done|]. injection Hl as Hl <-. split; [done|].
    unfold lstat_at, kind_at in *. destruct (w_fs w !! p) as [n'|]; [|done]. injection Hl as ->. unfold is_reg. simpl.
    destruct (n_kind n); naive_solver.
  - unfold lstat, rd, mbind, M_bind in Hm. destruct (e_rfault e (w_n w)) as [y|] eqn:Hf.
    + injection Hm as -> _. by destruct (eo_rfault e He _ _ Hf) as [_ Hy]; destruct x.
    + unfold lstat_at, kind_at in *. destruct (w_fs w !! p); [done|]. injection Hm as _ <-. split; [done|]. naive_solver.
Qed.
Lemma run_is_provisioned root e w b w' : env_ok e → is_provisioned_config_root root e w = (Ok b, w') →
  w_fs w' = w_fs w ∧ (b = true ↔ provisioned root (w_fs w)).
Proof.
  intros He. unfold is_provisioned_config_root. intros (first & w1 & [Hw1 H1]%run_is_regular & H)%run_bind; [|done].
  destruct first.
  - apply run_ret in H as [<- ->]. split; [done|]. split; [|done]. intros _. destruct H1 as [H1 _]. destruct H1 as [c Hc]; [done|].
    exists FIRST_CONFIG_MARKER, c. split; [left|done].
  - apply run_is_regular in H as [Hw2 H2]; [|done]. rewrite Hw1 in *. split; [done|]. rewrite H2. split.
    + intros [c Hc]. exists "config.toml", c. split; [right; left|done].
    + intros (name & c & Hn & Hc). apply elem_of_cons in Hn as [->|Hn]; [destruct H1 as [_ H1]; by discriminate H1; exists c|].
      apply list_elem_of_singleton in Hn as ->. by exists c.
Qed.

Lemma run_forget root job_id e w w' : env_ok e → _forget_boot_ui_job root job_id e w = (Ok tt, w') →
  w_fs w' !! (_boot_ui_jobs_dir root // job_id) = None.
Proof.
  intros He. unfold _forget_boot_ui_job. intros (p & w1 & Hp & H)%run_bind. apply run_lift in Hp as [Hp ->].
  unfold _boot_ui_marker_path in Hp. apply bind_Ok in Hp as (i & Hi & [= <-]).
  apply validate_job_id_Ok in Hi as [-> _].
  apply run_catch in H as [H|(x & w2 & H & Hx & [_ ->]%run_ret)].
  - unfold unlink, wr in H. destruct (e_wfault e (w_n w)); [done|]. destruct (unlink_at _ _) as [s|x] eqn:Hu; [|done].
    injection H as <-. simpl. unfold unlink_at in Hu. destruct (w_fs w !! _) as [n|]; [|done]. destruct (is_dir n); [done|].
    injection Hu as <-. apply lookup_delete_eq.
  - unfold unlink, wr in H. destruct (e_wfault e (w_n w)) as [y|] eqn:Hf.
    + injection H as -> _. by destruct (eo_wfault e He _ _ Hf) as [_ Hy]; destruct x.
    + destruct (unlink_at _ _) as [s|y] eqn:Hu; [done|]. injection H as -> <-. simpl. unfold unlink_at in Hu.
      destruct (w_fs w !! _) as [n|] eqn:Hl; [|done]. destruct (is_dir n); [|done]. injection Hu as <-. done.
Qed.

(** The guard of the job pages on a provisioned device. *)
Lemma guard_unknown root config_root get jobs job_id e w : env_ok e → provisioned config_root (w_fs w) →
  job_id ∉ jobs → w_fs w !! (_boot_ui_jobs_dir root // job_id) = None →
  ∃ x w', _require_unprovisioned_or_boot_ui_terminal_job root config_root get jobs job_id e w = (Err x, w').
Proof.
  intros He Hp Hj Hm. unfold _require_unprovisioned_or_boot_ui_terminal_job, _device_is_provisioned, mbind, M_bind.
  destruct (is_provisioned_config_root config_root e w) as [[b|x] w1] eqn:Hb; [|by eexists _, _].
  apply run_is_provisioned in Hb as [Hw1 Hb]; [|done]. destruct b; [|by discriminate (proj2 Hb Hp)].
  cbv beta iota delta [negb]. case_bool_decide; [by eexists _, _|]. rewrite bool_decide_eq_false_2 by done. cbv iota.
  destruct (_has_boot_ui_job_marker root job_id e w1) as [[known|x] w2] eqn:Hk;
    cbv beta iota delta [negb]; [|by eexists _, _].
  destruct known; [|by eexists _, _]. exfalso. revert Hk. unfold _has_boot_ui_job_marker.
  intros (marker & w3 & Hc & [Hr _]%run_ret)%run_bind. destruct marker as [n|]; [|done].
  apply run_catch in Hc as [(p & w4 & Hpath & (n' & w5 & Hl & _)%run_bind)%run_bind|(x & w4 & _ & _ & [? _]%run_ret)]; [|done].
  apply run_lift in Hpath as [Hpath ->]. unfold _boot_ui_marker_path in Hpath. apply bind_Ok in Hpath as (i & Hi & [= <-]).
  apply validate_job_id_Ok in Hi as [-> _]. unfold lstat, rd in Hl. destruct (e_rfault e _); [done|].
  injection Hl as Hl _. unfold lstat_at in Hl. by rewrite Hw1, Hm in Hl.
Qed.

(** What an answer of a job page leaves behind. *)
Lemma run_page_tail root config_root job_id jobs body e w jobs' resp w' : env_ok e →
  (serve_terminal root config_root body job_id jobs e w = (Ok (jobs', Ok resp), w')) →
  provisioned config_root (w_fs w') → job_id ∉ jobs' ∧ w_fs w' !! (_boot_ui_jobs_dir root // job_id) = None.
Proof.
  intros He. unfold serve_terminal. intros (p & w1 & (r & [= <-] & Hp)%run_attempt & H)%run_bind Hprov.
  destruct p as [b|x]; [|by apply run_ret in H as [? _]]. apply run_is_provisioned in Hp as [Hw1 Hb]; [|done]. destruct b.
  2:{ apply run_ret in H as [_ ->]. rewrite Hw1 in Hprov. by discriminate (proj2 Hb Hprov). }
  apply run_bind in H as (known & w2 & _ & H). destruct known as [[]|x]; [|by apply run_ret in H as [? _]..].
  apply run_bind in H as (r & w3 & (r' & [= <-] & Hf)%run_attempt & [H ->]%run_ret).
  injection H as <- H. apply bind_Ok in H as ([] & -> & _). split; [|by eapply run_forget].
  unfold discard. rewrite list_elem_of_filter. naive_solver.
Qed.

(** The result of a job is shown at most once after provisioning: when the page has answered with
    a finished (or forgotten) job and the device is provisioned, the job is neither in memory nor
    marked on disk any more, and every later request for it is refused until it is started again. *)
Theorem job_page_once (runtime_root config_root : path) (get : string → M (option Job)) job_id later jobs e w jobs' body w' :
  env_ok e →
  get_job_fragment runtime_root config_root get job_id later jobs e w = (Ok (jobs', Ok (UiResponse 200 body)), w') →
  (∀ w0 j w1, get job_id e w0 = (Ok (Some j), w1) → active_state (state later) = false) →
  provisioned config_root (w_fs w') →
  job_id ∉ jobs' ∧ w_fs w' !! (_boot_ui_jobs_dir runtime_root // job_id) = None ∧
  ∀ get2 e2 w2, env_ok e2 → w_fs w2 = w_fs w' →
    ∃ x w3, _require_unprovisioned_or_boot_ui_terminal_job runtime_root config_root get2 jobs' job_id e2 w2 = (Err x, w3).
Proof.
  intros He H Hlater Hp. assert (job_id ∉ jobs' ∧ w_fs w' !! (_boot_ui_jobs_dir runtime_root // job_id) = None) as [Hj Hm].
  2:{ split_and!; [done..|]. intros get2 e2 w2 He2 Hw2. rewrite <-Hw2 in Hp, Hm. by eapply guard_unknown. }
  revert H. unfold get_job_fragment. intros (g & w1 & _ & H)%run_bind. destruct g as [[]|x]; [|by apply run_ret in H as [? _]].
  unfold job_fragment in H. apply run_bind in H as (j & w2 & (r & [= <-] & Hg)%run_attempt & H).
  destruct j as [[job|]|x]; [| |by apply run_ret in H as [? _]].
  - specialize (Hlater _ _ _ Hg). destruct (render_job_fragment job) as [text|x]; [|by apply run_ret in H as [? _]].
    rewrite Hlater in H. by eapply run_page_tail.
  - apply run_bind in H as (p & w3 & (r & [= <-] & Hpr)%run_attempt & H).
    destruct p as [[]|x]; [|by apply run_ret in H as [? _]..].
    apply run_bind in H as (r & w4 & (r' & [= <-] & Hf)%run_attempt & [H ->]%run_ret).
    injection H as <- H. apply bind_Ok in H as ([] & -> & _). split; [|by eapply run_forget].
    unfold discard. rewrite list_elem_of_filter. naive_solver.
Qed.

Definition finished_job : Job := set_state SUCCEEDED (new_job "j" 0).
Definition shown_disk : fs := list_to_map
  [ ([], plain_dir); (["cfg"], plain_dir); (["cfg"; "config.toml"], plain_file (CText "version = 1")); (["run"], plain_dir);
    (["run"; _BOOT_UI_JOBS_DIR], plain_dir); (["run"; _BOOT_UI_JOBS_DIR; "j"], plain_file (CText ("pending" +:+ nl))) ].
Definition shown_run : result (list string * result ui_response) * world :=
  get_job_fragment ["run"] ["cfg"] (λ _, mret (Some finished_job)) "j" finished_job [] sample_env (World shown_disk [] 0).

Lemma job_page_once_witness :
  ∃ jobs' body w', shown_run = (Ok (jobs', Ok (UiResponse 200 body)), w') ∧ "j" ∉ jobs'.
Proof.
  assert (match shown_run with
          | (Ok (_, Ok (UiResponse n _)), w') =>
              bool_decide (n = 200) && match kind_at (w_fs w') ["cfg"; "config.toml"] with Some (KReg _) => true | _ => false end
          | _ => false
          end = true) as H by (vm_compute; reflexivity).
  destruct shown_run as [[[jobs' [[n body]|x]]|x] w'] eqn:Hr; [|done..].
  apply andb_true_iff in H as [->%bool_decide_eq_true Hk]. exists jobs', body, w'. split; [done|].
  assert (provisioned ["cfg"] (w_fs w')) as Hp.
  { destruct (kind_at _ _) as [[c| | |]|] eqn:Hc; try done. exists "config.toml", c. split; [right; left|done]. }
  apply (job_page_once ["run"] ["cfg"] (λ _, mret (Some finished_job)) "j" finished_job [] sample_env (World shown_disk [] 0) jobs' body w');
    [apply sample_env_ok|exact Hr|by intros|exact Hp].
Defined.
