(* ===== verification/BootPage.v ===== *)
(** * [ui.py]: the text of the first-boot page

    [render_bootstrap_page] of
    src/scripts/atomixos_provision/src/atomixos_provision/ui.py, with its constant
    text: the lines of the page, in which a tilde, which the page does not use,
    stands for a double quote. *)

From Stdlib Require Import Ascii.
From S2P Require Import Prelude PyStr PyVal ConfigCheck Config FS Staging StagedJob Activation BootstrapSecurity Jobs Api BootUi.

Definition tilde : ascii := ascii_of_nat 126.
Definition quoted (s : string) : string := str_map (λ c, if Ascii.eqb c tilde then dquote_char else c) s.

(** The metadata, the style, and the script of the page. *)
Definition page_style : list string := [
  "<!doctype html>";
  "<html>";
  "  <head>";
  "    <meta charset=~utf-8~>";
  "    <meta name=~viewport~ content=~width=device-width, initial-scale=1~>";
  "    <title>AtomixOS Bootstrap</title>";
  "    <style>";
  "      :root { color-scheme: dark; --bg: #06102a; --panel: rgba(11, 26, 58, 0.88); --fg: #d4e6ff; --muted: #c3dbff; --accent: #4ea3ff; }";
  "      * { box-sizing: border-box; }";
  "      body { margin: 0; font-family: Inter, ui-sans-serif, system-ui, sans-serif; color: var(--fg); background: radial-gradient(circle at 16% 8%, rgba(76,146,255,.2), transparent 36%), var(--bg); }";
  "      main { max-width: 60rem; margin: 0 auto; padding: 1.5rem 1rem 2rem; }";
  "      .hero { text-align: center; margin-bottom: 1rem; }";
  "      .hero-mark { width: min(19rem, 68vw); height: auto; display: block; margin: 0 auto -.9rem; }";
  "      .hero h1 { margin: 0; }";
  "      .grid { display: grid; grid-template-columns: repeat(auto-fit, minmax(18rem, 1fr)); gap: 1rem; }";
  "      .panel, .message { background: var(--panel); border: 1px solid rgba(93,121,168,.34); border-radius: 14px; padding: 1rem; }";
  "      #job-status { margin-top: 1rem; }";
  "      label { display: block; margin-top: .9rem; margin-bottom: .35rem; font-weight: 600; }";
  "      input[type=file] { position: absolute; inline-size: 1px; block-size: 1px; opacity: 0; overflow: hidden; clip-path: inset(50%); }";
  "      input[type=text], textarea { width: 100%; border-radius: 10px; border: 1px solid rgba(124,183,255,.28); background: rgba(10,22,50,.9); color: var(--fg); padding: .8rem .9rem; font: inherit; }";
  "      .file-actions { display: grid; grid-template-columns: max-content auto 1fr; align-items: center; gap: 1rem; }";
  "      .file-picker { display: flex; align-items: center; }";
  "      .file-trigger { display: inline-block; border: 0; border-radius: 999px; background: var(--accent); color: #f4f9ff; cursor: pointer; font: inherit; font-weight: 700; padding: .75rem 1.15rem; }";
  "      .file-separator { color: var(--muted); font-weight: 700; }";
  "      .apply-row { align-items: center; display: flex; gap: 1rem; flex-wrap: wrap; margin-top: 1rem; }";
  "      .file-name { color: var(--fg); display: inline-block; font-weight: 700; }";
  "      .drop-zone { align-items: center; background: rgba(39, 86, 162, .34); border: 1px dashed rgba(124,183,255,.7); border-radius: 10px; color: var(--muted); display: flex; flex-direction: column; justify-content: center; min-height: 11rem; padding: .75rem; }";
  "      .drop-zone.dragging { border-color: var(--accent); background: rgba(78,163,255,.18); color: var(--fg); }";
  "      .drop-icon { border-radius: 8px; display: block; height: min(15rem, 36vw); max-height: 100%; max-width: 100%; object-fit: contain; width: min(15rem, 36vw); }";
  "      .drop-copy { color: var(--fg); font-weight: 700; margin-top: .4rem; }";
  "      textarea { min-height: 18rem; resize: vertical; font-family: ui-monospace, SFMono-Regular, Menlo, Consolas, monospace; }";
  "      .short { min-height: 6rem; } .medium { min-height: 8rem; }";
  "      button { margin-top: 1rem; border: 0; border-radius: 999px; background: var(--accent); color: #f4f9ff; cursor: pointer; font: inherit; font-weight: 700; padding: .75rem 1.15rem; }";
  "      .apply-row button { margin-top: 0; }";
  "      button:disabled { cursor: not-allowed; filter: grayscale(.45); opacity: .5; }";
  "      button.ready { animation: pulse 1.05s ease-in-out infinite; }";
  "      button.submitting { align-items: center; display: inline-flex; gap: .55rem; justify-content: center; }";
  "      button.submitting::before { animation: spin .8s linear infinite; border: 2px solid rgba(244,249,255,.42); border-top-color: #f4f9ff; border-radius: 50%; content: ~~; height: 1em; width: 1em; }";
  "      @keyframes pulse { 0%, 100% { box-shadow: inset 0 0 .45rem rgba(244,249,255,.22), inset 0 0 1.1rem rgba(78,163,255,.45), 0 0 .45rem rgba(78,163,255,.25); transform: scale(1); } 50% { box-shadow: inset 0 0 .75rem rgba(244,249,255,.38), inset 0 0 1.8rem rgba(78,163,255,.82), 0 0 .8rem rgba(78,163,255,.35); transform: scale(1.012); } }";
  "      @keyframes spin { to { transform: rotate(360deg); } }";
  "      .events { list-style-position: inside; margin: .75rem 0 0; padding-left: 0; }";
  "      .event-log { max-height: 14rem; overflow-y: auto; }";
  "      .status-failed { border-color: rgba(255, 116, 116, .6); }";
  "      .status-succeeded { border-color: rgba(86, 214, 150, .6); }";
  "      code { color: #c6defe; }";
  "    </style>";
  "    <script src=~https://unpkg.com/htmx.org@2.0.7~ integrity=~sha384-ZBXiYtYQ6hJ2Y0ZNoYuI+Nq5MqWBr+chMrS/RkXpNzQCApHEhOt2aY8EJgqwHLkJ~ crossorigin=~anonymous~></script>" ].
Definition page_script : list string := [
  "    <script>";
  "      function updateSelectedFile(input) {";
  "        const target = document.querySelector('#selected-file');";
  "        const submit = document.querySelector('#apply-button');";
  "        if (!target) return;";
  "        const hasFile = Boolean(input.files && input.files.length);";
  "        target.textContent = hasFile ? input.files[0].name : 'No file selected';";
  "        if (!submit) return;";
  "        submit.disabled = !hasFile;";
  "        submit.classList.toggle('ready', hasFile);";
  "      }";
  "      function resetApplyButton() {";
  "        const submit = document.querySelector('#apply-button');";
  "        const input = document.querySelector('#config-file');";
  "        if (!submit) return;";
  "        const hasFile = Boolean(input && input.files && input.files.length);";
  "        submit.classList.remove('submitting');";
  "        submit.textContent = 'Apply configuration';";
  "        submit.disabled = !hasFile;";
  "        submit.classList.toggle('ready', hasFile);";
  "      }";
  "      function completeApplyButton() {";
  "        const submit = document.querySelector('#apply-button');";
  "        if (!submit) return;";
  "        submit.classList.remove('ready');";
  "        submit.classList.remove('submitting');";
  "        submit.textContent = 'Applied';";
  "        submit.disabled = true;";
  "      }";
  "      window.addEventListener('DOMContentLoaded', () => {";
  "        const input = document.querySelector('#config-file');";
  "        const dropZone = document.querySelector('#config-drop-zone');";
  "        if (!input || !dropZone) return;";
  "        const stop = (event) => { event.preventDefault(); event.stopPropagation(); };";
  "        dropZone.addEventListener('dragenter', (event) => { stop(event); dropZone.classList.add('dragging'); });";
  "        dropZone.addEventListener('dragover', stop);";
  "        dropZone.addEventListener('dragleave', (event) => { stop(event); dropZone.classList.remove('dragging'); });";
  "        dropZone.addEventListener('drop', (event) => {";
  "          stop(event);";
  "          dropZone.classList.remove('dragging');";
  "          if (!event.dataTransfer || !event.dataTransfer.files || !event.dataTransfer.files.length) return;";
  "          input.files = event.dataTransfer.files;";
  "          updateSelectedFile(input);";
  "        });";
  "        document.body.addEventListener('htmx:beforeRequest', (event) => {";
  "          const form = event.target;";
  "          if (!(form instanceof HTMLFormElement) || form.action.indexOf('/apply') === -1) return;";
  "          const submit = document.querySelector('#apply-button');";
  "          if (!submit) return;";
  "          submit.disabled = true;";
  "          submit.classList.remove('ready');";
  "          submit.classList.add('submitting');";
  "          submit.textContent = 'Applying...';";
  "        });";
  "      });";
  "      function startJobStream(jobId) {";
  "        const target = document.querySelector('#job-status');";
  "        if (!target || !window.EventSource) return;";
  "        if (target.dataset.streamJobId === jobId) return;";
  "        target.dataset.streamJobId = jobId;";
  "        const source = new EventSource(`/ui/jobs/${encodeURIComponent(jobId)}/events`);";
  "        source.onmessage = (event) => {";
  "          if (!event.data) return;";
  "          const nextTarget = document.querySelector('#job-status');";
  "          if (!nextTarget) return;";
  "          nextTarget.outerHTML = event.data;";
  "          const updatedTarget = document.querySelector('#job-status');";
  "          if (updatedTarget) updatedTarget.dataset.streamJobId = jobId;";
  "          const log = updatedTarget && updatedTarget.querySelector('.event-log');";
  "          if (log) log.scrollTop = log.scrollHeight;";
  "        };";
  "        source.addEventListener('done', () => {";
  "          source.close();";
  "          const status = document.querySelector('#job-status');";
  "          if (status && status.classList.contains('status-failed')) resetApplyButton();";
  "          else completeApplyButton();";
  "        });";
  "        source.onerror = () => { source.close(); resetApplyButton(); };";
  "      }";
  "    </script>" ].
Definition page_form : list string := [
  "  </head>";
  "  <body>";
  "    <main>";
  "      <section class=~hero~>";
  "        <img class=~hero-mark~ src=~/assets/atomixos.png~ alt=~AtomixOS logo~>";
  "        <h1>Bootstrap Console</h1>";
  "      </section>";
  "      <section class=~grid~>";
  "        <form class=~panel~ method=~post~ action=~/apply~ enctype=~multipart/form-data~ hx-post=~/apply~ hx-target=~#job-status~ hx-swap=~outerHTML~ hx-encoding=~multipart/form-data~>";
  "          <h2>Load Configuration</h2>";
  "          <p>Upload a <code>config.toml</code> or <code>config.tar.zst</code> or <code>config.tar.gz</code> bundle.</p>" ].
Definition page_upload : list string := [
  "          <label id=~config-file-label~ for=~config-file~>Config file or bundle</label>";
  "          <div class=~file-actions~>";
  "            <div class=~file-picker~><label class=~file-trigger~ for=~config-file~>Choose file</label></div>";
  "            <span class=~file-separator~>or</span>";
  "            <div id=~config-drop-zone~ class=~drop-zone~ aria-label=~Drop a config.toml, config.tar.zst, or config.tar.gz bundle here~>";
  "              <img class=~drop-icon~ src=~/assets/config_dropzone.png~ alt=~Drop config file into AtomixOS container~>";
  "              <span class=~drop-copy~>Drop one here</span>";
  "            </div>";
  "          </div>";
  "          <input id=~config-file~ type=~file~ name=~config_file~ aria-labelledby=~config-file-label~ onchange=~updateSelectedFile(this)~>";
  "          <div class=~apply-row~>";
  "            <button id=~apply-button~ type=~submit~ disabled>Apply configuration</button>";
  "            <span id=~selected-file~ class=~file-name~>No file selected</span>";
  "          </div>";
  "        </form>";
  "      </section>" ].
Definition page_end : list string := [
  "    </main>";
  "  </body>";
  "</html>" ].

Definition token_line (bootstrap_token : string) : string :=
  quoted "          <input type=~hidden~ name=~bootstrap_token~ value=~" +:+ html_escape bootstrap_token +:+ quoted "~>".

(** [json.dumps(config_text).replace("<", "\u003c")]: a JavaScript string. *)
Definition script_text (s : string) : string :=
  concat_map_str (λ c, if Ascii.eqb c "<" then "\u003c" else String c "") (json_dumps_str s).
Definition message_block (message_html : string) : string :=
  if bool_decide (message_html = "") then quoted "<section id=~job-status~></section>"
  else quoted "<section id=~job-status~ class=~message~>" +:+ message_html +:+ "</section>".
Definition applied_config_block (config_text : string) : string :=
  if bool_decide (config_text = "") then ""
  else quoted (join "" [ "<section class=~panel~>"; "<h2>Applied Configuration</h2>";
         "<button type=~button~ onclick=~downloadAppliedConfig()~>Download applied config.toml</button>";
         "<textarea class=~medium~ readonly>" ])
       +:+ html_escape config_text
       +:+ quoted (join "" [ "</textarea>"; "<script>"; "function downloadAppliedConfig() {"; "const blob = new Blob([" ])
       +:+ script_text config_text
       +:+ quoted (join "" [ "], {type: 'text/plain'});"; "const link = document.createElement('a');";
         "link.href = URL.createObjectURL(blob);"; "link.download = 'config.toml';"; "link.click();";
         "URL.revokeObjectURL(link.href);"; "}"; "</script>"; "</section>" ]).

Definition render_bootstrap_page (config_text message_html bootstrap_token : string) : string :=
  join nl (map quoted (page_style ++ page_script ++ page_form)
           ++ [token_line bootstrap_token]
           ++ map quoted page_upload
           ++ ["      " +:+ message_block message_html; "      " +:+ applied_config_block config_text]
           ++ map quoted page_end).

(** The text of an answer. *)
Definition body_text (b : ui_body) : option string :=
  match b with
  | Html text => Some text
  | Page config_text message_html bootstrap_token => Some (render_bootstrap_page config_text message_html bootstrap_token)
  | Image _ => None
  end.
