(* ===== verification/BootPageFacts.v ===== *)
(** * No text can change the markup of the first-boot page *)

From Stdlib Require Import Ascii.
From S2P Require Import Prelude PyStr PyVal ConfigCheck Config FS Staging StagedJob Activation BootstrapSecurity Jobs Api BootUi BootUiFacts ConfigBuilderFacts BootPage.

(** A text without ["<"] is no markup. *)
Lemma outline_no_lt s : has_char "<" s = false → outline Text s = (Text, "").
Proof.
  unfold has_char. intros Hs%any_char_false. rewrite <-(unchars_chars s). induction (chars s) as [|c l IH]; [done|].
  apply Forall_cons in Hs as [Hc Hs]. change (unchars (c :: l)) with (String c (unchars l)). simpl.
  rewrite Ascii.eqb_sym in Hc. rewrite Hc, (IH Hs). done.
Qed.
Lemma script_text_no_lt s : has_char "<" (script_text s) = false.
Proof.
  unfold script_text, concat_map_str, has_char. apply any_char_false. induction (chars (json_dumps_str s)) as [|c l IH]; [constructor|].
  simpl map. rewrite join_empty_cons, chars_app. apply Forall_app. split; [|exact IH].
  by destruct c as [[] [] [] [] [] [] [] []]; repeat constructor.
Qed.

(** The page around its variable parts. *)
Definition before_token : string := join nl (map quoted (page_style ++ page_script ++ page_form)).
Definition before_message : string := join nl (map quoted page_upload).
Definition after_config : string := join nl (map quoted page_end).
Lemma page_parts config_text message_html token :
  render_bootstrap_page config_text message_html token =
  before_token +:+ nl +:+ token_line token +:+ nl +:+ before_message +:+ nl +:+ "      " +:+ message_block message_html +:+ nl
  +:+ "      " +:+ applied_config_block config_text +:+ nl +:+ after_config.
Proof.
  assert (∀ p x y, x = y → p +:+ x = p +:+ y) as tail by congruence.
  assert (∀ x l, l ≠ [] → join nl ([x] ++ l) = x +:+ nl +:+ join nl l) as one by (by intros x [|y l]).
  unfold render_bootstrap_page. rewrite join_app by done. do 2 apply tail. rewrite one by done. do 2 apply tail.
  rewrite join_app by done. do 2 apply tail. change ([?x; ?y] ++ ?l) with ([x] ++ ([y] ++ l)).
  rewrite !one by done. fold after_config. generalize after_config. intros e. by rewrite <-!str_app_assoc.
Qed.

Definition config_part (shown : bool) : string := if shown then (outline Text (applied_config_block "x")).2 else "".
Definition message_part (shown : bool) (o : string) : string :=
  if shown then quoted "<section id=~~ class=~~>" +:+ o +:+ "</section>" else quoted "<section id=~~></section>".
Definition page_outline (config message : bool) (o : string) : string :=
  (outline Text before_token).2 +:+ quoted "<input type=~~ name=~~ value=~~>" +:+ (outline Text before_message).2
  +:+ message_part message o +:+ config_part config +:+ (outline Text after_config).2.
Definition shown (s : string) : bool := negb (bool_decide (s = "")).

Lemma outline_token token : outline Text (token_line token) = (Text, quoted "<input type=~~ name=~~ value=~~>").
Proof. unfold token_line. outline_as. Qed.
Lemma outline_message_block message o : outline Text message = (Text, o) →
  outline Text (message_block message) = (Text, message_part (shown message) o).
Proof. intros Hm. unfold message_block, shown. case_bool_decide; [reflexivity|]. outline_as. Qed.
Lemma outline_config_block config : outline Text (applied_config_block config) = (Text, config_part (shown config)).
Proof.
  unfold applied_config_block, shown. case_bool_decide; [reflexivity|].
  pose proof (outline_no_lt _ (script_text_no_lt config)) as Hs. outline_as.
Qed.


