(* ===== verification/QuadletSync.v ===== *)
(** * [quadlet_sync.py]: the rendered units, copied where Podman reads them

    One definition per function of
    src/scripts/atomixos_provision/src/atomixos_provision/quadlet_sync.py.  The order
    of a set is the environment's. *)

From Stdlib Require Import Ascii.
From S2P Require Import Prelude PyStr PyVal PyLib ConfigCheck Config ConfigValue FS Staging Activation ApplyTransaction Bundle Render.

Local Open Scope Z_scope.

Definition QUADLET_SUFFIXES : list string := [".build"; ".container"; ".image"; ".kube"; ".network"; ".pod"; ".volume"].
Definition MANAGED_MANIFEST : string := ".atomixos-managed-quadlets.json".

(** [Path(s).name] and [Path(s).suffix]: the last component; its part from the last
    dot, when something is before it and after it. *)
Definition path_name (s : string) : string := List.last (path_parts s) "".
Definition path_suffix (s : string) : string :=
  let '(stem, dot, ext) := rpartition_on "." (path_name s) in
  if dot && negb (bool_decide (stem = "")) && negb (bool_decide (ext = "")) then "." +:+ ext else "".

(** A set in some order. *)
Definition set_order (l : list string) : M (list string) :=
  l' ← ask (λ e n, e_order e n (map (λ x, [x]) (remove_dups l))); mret (map name_of l').

Definition load_runtime_metadata (config_root : path) : M (list value) :=
  let metadata_path := config_root // RUNTIME_METADATA_FILENAME in
  ex ← exists_ metadata_path;
  if negb ex then raise (provision_error ("missing runtime metadata: " +:+ show_path metadata_path))
  else
    c ← read_content metadata_path;
    metadata ← lift (try_except (json_loads c) is_json_error
      (λ x, Err (provision_error ("invalid runtime metadata in " +:+ show_path metadata_path +:+ ": " +:+ "JSONDecodeError"))));
    match metadata with
    | VDict d =>
        match vget "units" d with
        | VList units => mret units
        | _ => raise (provision_error ("invalid runtime metadata structure in " +:+ show_path metadata_path))
        end
    | _ => raise (provision_error ("invalid runtime metadata structure in " +:+ show_path metadata_path))
    end.

Definition validate_runtime_filename (filename : string) : result () :=
  raise_if (bool_decide (filename = "") || negb (bool_decide (path_name filename = filename)) || path_is_absolute filename
            || bool_decide (filename ∈ ["."; ".."]) || negb (bool_decide (path_suffix filename ∈ QUADLET_SUFFIXES)))
    (provision_error ("invalid runtime unit filename: " +:+ py_repr filename)).

(** [mkstemp] with the prefix, fill it, and move it over [destination]. *)
Definition replace_file (write : path → M ()) (destination : path) : M () :=
  suffix ← ask e_tmp;
  let tmp := parent destination // ("." +:+ name_of destination +:+ "." +:+ suffix) in
  n ← new_node (KReg (CText "")) 384;
  _ ← wr (create_at n tmp);
  catch
    (_ ← write tmp;
     _ ← fsync tmp;
     _ ← chmod 420 (* 0o644 *) tmp;
     _ ← rename tmp destination;
     _fsync_directory (parent destination))
    (λ _, true)
    (λ x, _ ← unlink_missing_ok tmp; raise x).
Definition fill (c : content) (p : path) : M () := t ← time_time; wr (update_at (set_kind (KReg c) t) p).

Definition _copy_unit_atomic (source destination : path) : M () :=
  replace_file (λ tmp, c ← read_content source; fill c tmp) destination.

Definition strings (l : list value) : option (list string) := mapM (λ v, match v with VStr s => Some s | _ => None end) l.
Definition _load_managed_manifest (target : path) : M (list string) :=
  let manifest := target // MANAGED_MANIFEST in
  ex ← exists_ manifest;
  if negb ex then mret []
  else
    c ← read_content manifest;
    data ← lift (try_except (json_loads c) is_json_error
      (λ _, Err (provision_error ("invalid managed quadlet manifest: " +:+ show_path manifest))));
    match match data with VList l => strings l | _ => None end with
    | Some managed =>
        order ← set_order managed;
        _ ← lift (forR (λ _ filename, validate_runtime_filename filename) order tt);
        mret (remove_dups managed)
    | None => raise (provision_error ("invalid managed quadlet manifest structure: " +:+ show_path manifest))
    end.

Definition manifest_content (filenames : list string) : content := json_doc (str_list (sorted_strs filenames)).
Definition _write_managed_manifest (target : path) (filenames : list string) : M () :=
  replace_file (fill (manifest_content filenames)) (target // MANAGED_MANIFEST).

(** The units of the two modes. *)
Definition sort_unit (acc : list string * list string) (unit_ : value) : result (list string * list string) :=
  match unit_ with
  | VDict d =>
      match vget "filename" d with
      | VStr filename =>
          mode ← hashable (vget "mode" d);
          if eq_str mode "rootful" then _ ← validate_runtime_filename filename; Ok (acc.1 ++ [filename], acc.2)
          else if eq_str mode "rootless" then _ ← validate_runtime_filename filename; Ok (acc.1, acc.2 ++ [filename])
          else Err (provision_error "invalid runtime unit metadata")
      | _ => Err (provision_error "invalid runtime unit metadata")
      end
  | _ => Err (provision_error "invalid runtime unit entry")
  end.

Definition sync_target (source target : path) (desired : list string) : M () :=
  _ ← mkdir_parents 511 target;
  existing ← _load_managed_manifest target;
  order ← set_order desired;
  _ ← iterM (λ filename, _copy_unit_atomic (source // filename) (target // filename)) order;
  stale ← set_order (filter (λ x, x ∉ desired) existing);
  _ ← iterM (λ filename, unlink_missing_ok (target // filename)) stale;
  _write_managed_manifest target (remove_dups desired).

Definition sync_quadlet_units (config_root rootful_target : path) (rootless_target : option path) : M () :=
  let source := config_root // "quadlet" in
  units ← load_runtime_metadata config_root;
  '(rootful, rootless) ← lift (forR sort_unit units ([], []));
  _ ← sync_target source rootful_target rootful;
  match rootless_target with
  | None =>
      if bool_decide (rootless = []) then mret tt
      else raise (provision_error "rootless target path is required when rootless units are present")
  | Some target => sync_target source target rootless
  end.
