(* ===== verification/QuadletSyncFacts.v ===== *)
(** * Synchronized units: nothing else is touched, and what is wanted is there *)

From Stdlib Require Import Ascii.
From S2P Require Import Prelude PyStr PyVal PyLib ConfigCheck FS FSLogic RunLogic Staging StagingFacts Activation Bundle Render Worker WorkerFacts QuadletSync.

Local Open Scope Z_scope.

Definition valid_name (f : string) : Prop := validate_runtime_filename f = Ok tt.
(** The names the program uses in a target directory: a unit or the list of the
    managed ones, and their temporary files. *)
Definition entry_name (f : string) : Prop := valid_name f ∨ f = MANAGED_MANIFEST.
Definition temp_name (f suffix : string) : string := "." +:+ f +:+ "." +:+ suffix.
Definition sync_area (target x : path) : Prop :=
  below x target ∨ ∃ f, entry_name f ∧ (below (target // f) x ∨ ∃ sfx, below (target // temp_name f sfx) x).

Lemma touches_bind_run {A B} (D : path → Prop) (m : M A) (f : A → M B) : touches D m →
  (∀ e w a w', env_ok e → m e w = (Ok a, w') → touches D (f a)) → touches D (m ≫= f).
Proof.
  intros Hm Hf s0 s Hs e w He Hw. destruct (Hm s0 s Hs e w He Hw) as ([a|x] & w1 & Hr & Ht & new & Hh & Hn).
  - destruct (Hf e w a w1 He Hr s0 _ Ht e w1 He eq_refl) as (r & w2 & Hr2 & Ht2 & new2 & Hh2 & Hn2).
    exists r, w2. unfold mbind, M_bind. rewrite Hr. split_and!; [done..|]. exists (new2 ++ new).
    rewrite Hh2, Hh, (assoc_L (++)). split; [done|]. by apply Forall_app.
  - exists (Err x), w1. unfold mbind, M_bind. rewrite Hr. split_and!; [done..|]. by exists new.
Qed.

Lemma touches_fill (D : path → Prop) c p : D p → touches D (fill c p).
Proof. intros Hp. unfold fill. touches. by apply touches_update. Qed.
Lemma touches_replace D write target f : (∀ x, sync_area target x → D x) → entry_name f →
  (∀ sfx, touches D (write (target // temp_name f sfx))) → touches D (replace_file write (target // f)).
Proof.
  intros HD Hf Hw. assert (parent (target // f) = target) as Hp by apply removelast_last.
  assert (∀ sfx x, below (target // temp_name f sfx) x → D x) as Ht.
  { intros sfx x Hx. apply HD. right. exists f. split; [done|]. right. by exists sfx. }
  assert (∀ x, below (target // f) x → D x) as Hd.
  { intros x Hx. apply HD. right. exists f. split; [done|]. by left. }
  unfold replace_file. rewrite Hp, name_of_snoc. touches.
  - apply touches_create. eapply Ht, below_refl.
  - apply touches_rename. intros x [Hx|Hx]; [by eapply Ht|by apply Hd].
  - apply touches_unlink_missing_ok. eapply Ht, below_refl.
Qed.
Lemma touches_copy_unit D source target f : (∀ x, sync_area target x → D x) → entry_name f →
  touches D (_copy_unit_atomic source (target // f)).
Proof.
  intros HD Hf. apply touches_replace; [done..|]. intros sfx. touches. apply touches_fill, HD. right. exists f.
  split; [done|]. right. exists sfx. apply below_refl.
Qed.
Lemma touches_managed D target l : (∀ x, sync_area target x → D x) → touches D (_write_managed_manifest target l).
Proof.
  intros HD. apply touches_replace; [done|by right|]. intros sfx. apply touches_fill, HD. right. exists MANAGED_MANIFEST.
  split; [by right|]. right. exists sfx. apply below_refl.
Qed.

(** ** Names read are valid *)

Lemma run_set_order l e w l' w' : env_ok e → set_order l e w = (Ok l', w') → w_fs w' = w_fs w ∧ ∀ x, x ∈ l' ↔ x ∈ l.
Proof.
  intros He. unfold set_order. intros (q & w1 & Hq & [<- ->]%run_ret)%run_bind. unfold ask in Hq. injection Hq as <- <-.
  split; [done|]. intros x. rewrite list_elem_of_fmap. setoid_rewrite (eo_perm e He). split.
  - intros (y & -> & (z & -> & Hz)%list_elem_of_fmap). rewrite elem_of_remove_dups in Hz. exact Hz.
  - intros Hx. exists [x]. split; [done|]. apply list_elem_of_fmap. exists x. by rewrite elem_of_remove_dups.
Qed.
Lemma forR_validate l u : forR (λ (_ : ()) f, validate_runtime_filename f) l u = Ok tt → ∀ f, f ∈ l → valid_name f.
Proof.
  revert u. induction l as [|x l IH]; simpl; intros u H f Hf; [by apply elem_of_nil in Hf|].
  apply bind_Ok in H as ([] & Hx & H). apply elem_of_cons in Hf as [->|Hf]; [done|by eapply IH].
Qed.
Lemma run_load_managed target e w l w' : env_ok e → _load_managed_manifest target e w = (Ok l, w') → ∀ f, f ∈ l → valid_name f.
Proof.
  intros He. unfold _load_managed_manifest. intros (ex & w1 & _ & H)%run_bind. destruct (negb ex).
  { apply run_ret in H as [<- _]. intros f Hf. by apply elem_of_nil in Hf. }
  apply run_bind in H as (c & w2 & _ & (data & w3 & _ & H)%run_bind).
  destruct (match data with VList l0 => strings l0 | _ => None end) as [managed|]; [|done].
  apply run_bind in H as (order & w4 & Ho & (u & w5 & Hv & [<- _]%run_ret)%run_bind).
  apply run_set_order in Ho as [_ Ho]; [|done]. apply run_lift in Hv as [Hv _]. destruct u.
  intros f Hf. rewrite elem_of_remove_dups, <-Ho in Hf. by eapply forR_validate.
Qed.
Lemma sort_units_valid units acc r : forR sort_unit units acc = Ok r →
  (∀ f, f ∈ acc.1 ++ acc.2 → valid_name f) → ∀ f, f ∈ r.1 ++ r.2 → valid_name f.
Proof.
  revert acc. induction units as [|u units IH]; simpl; intros acc H Ha; [by injection H as <-|].
  apply bind_Ok in H as (acc' & Hu & H). eapply IH; [exact H|]. unfold sort_unit in Hu.
  destruct u as [| | | | | | |d]; try done. destruct (vget "filename" d) as [| | | |f| | |]; try done. inv_ok.
  destruct (eq_str a "rootful"); [|destruct (eq_str a "rootless"); [|done]]; inv_ok; intros g Hg; simpl in Hg;
    rewrite !elem_of_app, ?list_elem_of_singleton in Hg; destruct_or!; subst; try (apply Ha; rewrite elem_of_app; by auto); by destruct a0.
Qed.

(** ** Nothing else is touched *)

Lemma touches_set_order (D : path → Prop) l : touches D (set_order l).
Proof. unfold set_order. touches. Qed.
Lemma touches_load_managed (D : path → Prop) target : touches D (_load_managed_manifest target).
Proof. unfold _load_managed_manifest. pose proof (touches_set_order D). touches. Qed.
Lemma touches_metadata (D : path → Prop) root : touches D (load_runtime_metadata root).
Proof. unfold load_runtime_metadata. touches. Qed.
Lemma touches_sync_target D source target desired : (∀ x, sync_area target x → D x) → (∀ f, f ∈ desired → valid_name f) →
  touches D (sync_target source target desired).
Proof.
  intros HD Hv. unfold sync_target. apply touches_bind.
  { apply touches_mkdir_parents. intros x Hx. apply HD. by left. }
  intros _. apply touches_bind_run; [apply touches_load_managed|]. intros e w existing w' He Hex.
  pose proof (run_load_managed _ _ _ _ _ He Hex) as Hev.
  apply touches_bind_run; [apply touches_set_order|]. clear e w w' He Hex. intros e w order w' He Ho.
  apply run_set_order in Ho as [_ Ho]; [|done]. apply touches_bind.
  { apply touches_forM. intros f _ Hf. apply touches_copy_unit; [done|]. left. by apply Hv, Ho. }
  intros _. apply touches_bind_run; [apply touches_set_order|]. clear e w w' He Ho. intros e w stale w' He Hs.
  apply run_set_order in Hs as [_ Hs]; [|done]. apply touches_bind; [|intros _; by apply touches_managed].
  apply touches_forM. intros f _ Hf. apply touches_unlink_missing_ok, HD. right. exists f. split; [|left; apply below_refl].
  left. apply Hs, list_elem_of_filter in Hf as [_ Hf]. by apply Hev.
Qed.


(** ** A crash before the list of managed units is written *)

Definition metadata_of (units : list string) : node :=
  plain_file (CJson (VDict [("units", VList (map (λ f, VDict [("filename", VStr f); ("mode", VStr "rootful")]) units))]) 9).
Definition sync_disk : fs := list_to_map
  [ ([], plain_dir); (["cfg"], plain_dir); (["cfg"; "quadlet"], plain_dir); (["etc"], plain_dir);
    (["cfg"; "quadlet"; "web.container"], plain_file (CText "unit"));
    (["cfg"; RUNTIME_METADATA_FILENAME], metadata_of ["web.container"]) ].
Definition sync_run (s : fs) : result () * world := run_op (sync_quadlet_units ["cfg"] ["etc"] None) sample_env s.
(** The first tree of the run that has the unit. *)
Definition crash_tree : option fs :=
  last (filter (λ t, is_Some (t !! ["etc"; "web.container"])) (w_hist (sync_run sync_disk).2)).
(** The next configuration has no units. *)
Definition next_run : option (result () * world) :=
  (λ t, sync_run (<[["cfg"; RUNTIME_METADATA_FILENAME] := metadata_of []]> t)) <$> crash_tree.

(** A unit copied before a crash, but not yet in the list of managed units, is never removed: a later
    synchronization for a configuration without it succeeds and leaves it in place. *)
Lemma sync_crash_orphan :
  ∃ r w, next_run = Some (r, w) ∧ r = Ok tt ∧ kind_at (w_fs w) ["etc"; "web.container"] = Some (KReg (CText "unit")).
Proof.
  assert ((λ rw : result () * world, (rw.1, kind_at (w_fs rw.2) ["etc"; "web.container"])) <$> next_run
    = Some (Ok tt, Some (KReg (CText "unit")))) as H by (vm_compute; reflexivity).
  destruct next_run as [[r w]|]; [|done]. simpl in H. exists r, w. split; [done|]. by injection H as -> ->.
Qed.
