(* ===== verification/Cli.v ===== *)
(** * The command line and the application: server.py, settings.py, app.py

    One definition per command of
    src/scripts/atomixos_provision/src/atomixos_provision/server.py (and of
    src/scripts/first-boot-provision.py, which runs it), with the settings
    (settings.py) and what app.py assembles.  A command ends with an exit status
    and the lines it printed; an exception it does not catch ends it too.  click
    has parsed the arguments; uvicorn runs the application. *)

From Stdlib Require Import Ascii.
From S2P Require Import Prelude PyStr PyVal ConfigCheck Config FS Staging StagedJob Activation Auth ConfigBuilder Bundle Jobs Authorize Render Stage Worker Export QuadletSync.

Local Open Scope Z_scope.

(** ** Settings *)

(** The environment variables read here. *)
Record environ : Type := Environ {
  ATOMIXOS_CONFIG_ROOT : option path;
  ATOMIXOS_BOOTSTRAP_HOST : option string;
  ATOMIXOS_BOOTSTRAP_PORT : option string;
  LISTEN_PID : option string;
  LISTEN_FDS : option string }.

Record AppSettings : Type := Settings {
  config_root : path; host : string; port : Z; max_source_bytes : Z }.

Definition _env_int (value : option string) (dflt : Z) : Z :=
  match value with None => dflt | Some s => default dflt (int_text s) end.

Section settings.
Context (V : environ) (defaults : lan_defaults).

(** [AppSettings()] *)
Definition env_settings : AppSettings := {|
  config_root := default data_config_root (ATOMIXOS_CONFIG_ROOT V);
  host := default (DEFAULT_LAN_GATEWAY_IP defaults) (ATOMIXOS_BOOTSTRAP_HOST V);
  port := _env_int (ATOMIXOS_BOOTSTRAP_PORT V) 8080;
  max_source_bytes := MAX_SOURCE_BYTES |}.
Definition with_config_root (root : path) (s : AppSettings) : AppSettings :=
  Settings root (host s) (port s) (max_source_bytes s).

(** The socket systemd passed, by its descriptor. *)
Definition _get_systemd_socket (pid : Z) : option Z :=
  match LISTEN_PID V, LISTEN_FDS V with
  | Some listen_pid, Some listen_fds =>
      match int_text listen_pid, int_text listen_fds with
      | Some p, Some n => if negb (p =? pid) then None else if n <? 1 then None else Some 3
      | Some p, None => None
      | None, _ => None
      end
  | _, _ => None
  end.
End settings.

(** ** The application *)

(** Which class of job manager. *)
Variant manager_kind : Type := InProcess (* JobManager *) | Staged (* StagedJobManager *).

(** The state [create_app] gives the application; the configuration service and the
    coordinator are made of the root and the manager. *)
Record app_state : Type := AppState {
  app_settings : AppSettings;
  app_manager : manager_kind;
  signer_initialized : bool;
  bootstrap_token : string }.

Section server.
Context (E : machine) (V : environ) (defaults : lan_defaults).

Definition DEFAULT_CONFIG_ROOT : path := data_config_root.
Definition create_app (config_root_ : option path) (settings : option AppSettings) (token : string) : M app_state :=
  let settings := match settings, config_root_ with
                  | None, None => env_settings V defaults
                  | None, Some root => with_config_root root (env_settings V defaults)
                  | Some s, None => s
                  | Some s, Some root => with_config_root root s
                  end in
  let root := config_root settings in
  kind ← (if staging_enabled E then
            resolved ← resolve_path root;
            mret (if bool_decide (resolved = DEFAULT_CONFIG_ROOT) then Staged else InProcess)
          else mret InProcess);
  signers ← exists_ (root // "admin-signers");
  mret (AppState settings kind signers token).

(** ** Commands *)

(** A printed line: a text, or the JSON text of a value. *)
Variant line : Type := Text (s : string) | Json (v : value).
Record exit_status : Type := Exit { code : Z; out : list line; err : list line }.

(** [except Exception as exc: h exc] *)
Definition on_exception {A} (m : M A) (h : exn → M A) : M A := catch m is_Exception h.

(** Where uvicorn listens. *)
Variant listener : Type := Fd (fd : Z) | Address (host : string) (port : Z).
(** [asset_dir] is the directory of the installed images. *)
Definition serve (asset_dir : path) (pid : Z) (token : string) (config_root_ : option path) (host_ : option string) (port_ : option Z)
    : M (app_state * option path * option path * listener) :=
  let env := env_settings V defaults in
  root ← check_root E (default (config_root env) config_root_);
  let settings := Settings root (default (host env) host_) (default (port env) port_) (max_source_bytes env) in
  app ← create_app None (Some settings) token;
  logo ← exists_ (asset_dir // "atomixos.png");
  dropzone ← exists_ (asset_dir // "config_dropzone.png");
  mret (app,
        (if logo : bool then Some (asset_dir // "atomixos.png") else None),
        (if dropzone : bool then Some (asset_dir // "config_dropzone.png") else None),
        match _get_systemd_socket V pid with
        | Some fd => Fd fd
        | None => Address (host settings) (port settings)
        end).

Definition validate (config_path : path) : M exit_status :=
  on_exception
    (_ ← validate_config_from_path E config_path None;
     mret (Exit 0 [Text ("Valid: " +:+ show_path config_path)] []))
    (λ exc, mret (Exit 1 [] [Text ("Invalid: " +:+ exn_text exc)])).

(** [other] is what other processes do while the import waits for its staged job;
    [None]: it still waits after [polls] looks. *)
Definition import_bundle (source_path config_root_ : path) (polls : nat) (other : nat → nat → M ()) : M (option exit_status) :=
  on_exception
    (r ← import_config_from_path E source_path config_root_ polls other;
     mret (match r with Some _ => Some (Exit 0 [] []) | None => None end))
    (λ exc, mret (Some (Exit 1 [] [Text ("Import failed: " +:+ exn_text exc)]))).

(** The JSON fields of an exception. *)
Definition error_fields (exc : exn) : dict value :=
  ("error", VStr (exn_text exc)) :: match exn_rollback exc with Some s => [("rollback_status", VStr s)] | None => [] end.
Definition failed (exc : exn) : exit_status := Exit 1 [Json (VDict (("ok", VBool false) :: error_fields exc))] [].
Definition first_result (results : list (dict value)) : value := match results with r :: _ => VDict r | [] => VNone end.
Definition drained (results : list (dict value)) (errors : list exn) : exit_status :=
  let ok := bool_decide (errors = []) in
  Exit (if ok then 0 else 1)
    [Json (VDict [("ok", VBool ok); ("result", first_result results); ("results", VList (map VDict results));
                  ("errors", VList (map (λ exc, VDict (error_fields exc)) errors))])] [].

(** One job without [--drain]; with it, at most [turns] jobs: [None] when more are left. *)
Definition apply_staged (turns : nat) (config_root_ : path) (runtime_root : option path) (drain_ : bool) : M (option exit_status) :=
  on_exception
    (if drain_ then
       '(results, errors, finished) ← drain E turns config_root_ runtime_root [] [];
       mret (if finished : bool then Some (drained results errors) else None)
     else
       r ← apply_staged_job E config_root_ runtime_root;
       match r with
       | inl result_ => mret (Some (Exit 0 [Json (VDict [("ok", VBool true); ("result", match result_ with Some d => VDict d | None => VNone end)])] []))
       | inr exc => raise exc
       end)
    (λ exc, mret (Some (failed exc))).

Definition export_worker (archive_of : list member → content) (turns : nat) (finalize : bool) : M bool :=
  euid ← ask (λ e _, e_uid e);
  if negb (euid =? 0) then raise (ClickException "export-worker requires root")
  else drain_exports E archive_of turns finalize RUNTIME_ROOT EXPORT_CONFIG_ROOT.

Definition finalize_staged (config_root_ : path) (runtime_root : option path) (reason : option string) : M exit_status :=
  on_exception
    (finalized ← finalize_staged_jobs E config_root_ runtime_root
                   (Some (default "privileged apply worker stopped before writing a result" reason));
     mret (Exit 0 [Json (VDict [("ok", VBool true); ("finalized", VInt (Z.of_nat finalized))])] []))
    (λ exc, mret (Exit 1 [Json (VDict [("ok", VBool false); ("error", VStr (exn_text exc))])] [])).

Definition sync_quadlet (config_root_ quadlet_dir : path) (rootless_dir : option path) : M exit_status :=
  _ ← sync_quadlet_units config_root_ quadlet_dir rootless_dir; mret (Exit 0 [] []).

Definition check_health (config_root_ : path) : M exit_status :=
  policy ← load_activation_policy config_root_;
  failures ← check_required_services (app_uid E) config_root_ policy None;
  mret (match failures with
        | [] => Exit 0 [] []
        | _ => Exit 1 [] [Text ("Required services failed: " +:+ join ", " failures)]
        end).

(** ** [main] *)

Variant command : Type :=
  | Validate (config_path : path)
  | Import (source_path config_root_ : path)
  | ApplyStaged (config_root_ : path) (runtime_root : option path) (drain_ : bool)
  | ExportWorker (finalize : bool)
  | FinalizeStaged (config_root_ : path) (runtime_root : option path) (reason : option string)
  | Recover (config_root_ : path)
  | SyncQuadlet (config_root_ quadlet_dir : path) (rootless_dir : option path)
  | CheckHealth (config_root_ : path)
  | CompleteInitial (config_root_ : path).

(** Every command but [serve], which does not return. *)
Definition cli (archive_of : list member → content) (turns : nat) (other : nat → nat → M ()) (c : command) : M (option exit_status) :=
  let done := λ m : M (), _ ← m; mret (Some (Exit 0 [] [])) in
  match c with
  | Validate config_path => r ← validate config_path; mret (Some r)
  | Import source_path root => import_bundle source_path root turns other
  | ApplyStaged root runtime_root drain_ => apply_staged turns root runtime_root drain_
  | ExportWorker finalize => r ← export_worker archive_of turns finalize; mret (if r : bool then Some (Exit 0 [] []) else None)
  | FinalizeStaged root runtime_root reason => r ← finalize_staged root runtime_root reason; mret (Some r)
  | Recover root => done (recover E root)
  | SyncQuadlet root quadlet_dir rootless_dir => r ← sync_quadlet root quadlet_dir rootless_dir; mret (Some r)
  | CheckHealth root => r ← check_health root; mret (Some r)
  | CompleteInitial root => done (complete_initial E root)
  end.
End server.
