(* ===== verification/CliFacts.v ===== *)
(** * The command line reports what happened: theorems *)

From S2P Require Import Prelude PyStr PyVal FS FSLogic RunLogic Staging StagedJob StagingFacts Activation ApplyTransaction ActivationFacts Auth Bundle Authorize Render Stage Worker WorkerFacts Export QuadletSync Cli.

Local Open Scope Z_scope.

Section drain.
Context (E : machine) (root_ : path) (runtime_root : option path) (e : env).
Context (He : env_ok e) (Hp : apart (root (worker_paths E runtime_root)) data_config_root).

(** At some moment of the run, the receipt of the root was committed with [res] and the
    result file of its job said so. *)
Definition was_applied (res : dict value) : Prop :=
  ∃ w job_id, committed_receipt (w_fs w) job_id res ∧ published E (worker_paths E runtime_root) (w_fs w) job_id (success_payload res).

Lemma applied_job w res w' : apply_staged_job E root_ runtime_root e w = (Ok (inl (Some res)), w') → was_applied res.
Proof.
  unfold apply_staged_job, worker_root.
  intros (q & w1 & Hq & (? & w2 & _ & (cl & w3 & Hcl & H)%run_bind)%run_bind)%run_bind.
  apply run_bind in Hq as (? & ? & Hv & (? & ? & _ & [<- _]%run_ret)%run_bind). apply run_validate_root in Hv as ->.
  destruct cl as [c|]; [|by apply run_ret in H as [? _]]. apply run_claim in Hcl.
  exists w', (cj_job_id c). by eapply run_apply_claimed.
Qed.
Lemma applied_drain turns w results errors results' errors' b w' : Forall was_applied results →
  drain E turns root_ runtime_root results errors e w = (Ok (results', errors', b), w') → Forall was_applied results'.
Proof.
  revert w results errors. induction turns as [|turns IH]; intros w results errors Hr; simpl.
  - intros [[= <- <- <-] _]%run_ret. done.
  - intros (r & w1 & Ha & H)%run_bind. apply run_attempt in Ha as (r0 & [= <-] & Ha).
    destruct r as [[[res|]|x]|x].
    + eapply IH, H. apply Forall_app. split; [done|]. repeat constructor. by eapply applied_job.
    + by apply run_ret in H as [[= <- <- <-] _].
    + by eapply IH, H.
    + destruct (is_Exception x); [|done]. by apply run_ret in H as [[= <- <- <-] _].
Qed.
End drain.

(** The results a line reports. *)
Definition reported (l : line) : list value :=
  match l with
  | Json (VDict d) => match dget "results" d with
                      | Some (VList rs) => rs
                      | _ => match dget "result" d with Some (VDict r) => [VDict r] | _ => [] end
                      end
  | _ => []
  end.
Definition says_ok (l : line) : bool := match l with Json (VDict d) => match vget "ok" d with VBool b => b | _ => false end | _ => false end.


(** The worker drains a queue with one job. *)
Definition drained_run : result (option exit_status) * world :=
  apply_staged sample_machine 2 data_config_root None true sample_env (World (w_fs staged_world) [] 0).

