(* ===== verification/AuthorizeFacts.v ===== *)
(** * The worker's own authorization, and the operation of a request

    The worker trusts nothing the API says: a staged request on a provisioned
    device is applied only with a fresh proof that an administrator signed it.
    What it then does is what the API announced for that route. *)

From Stdlib Require Import Ascii.
From S2P Require Import Prelude PyStr PyVal FS FSLogic RunLogic Staging StagedJob StagingFacts StagedJobFacts Activation ApplyTransaction PartialConfig Auth AuthFacts Api Authorize.

Local Open Scope Z_scope.

(** ** Authorization *)

Section authorization.
Context (sha256_text : string → string) (json_text : value → Z → string) (file_bytes : content → string).
Context (ssh_keygen boot_id : string) (paths : RuntimePaths).

(** The evidence of a signed reapply. *)
Definition signed_by_admin (snapshot : path) (manifest : dict value) (payload : string) (a : authorization)
    (e : env) (w w' : world) : Prop :=
  (∃ fields, authorization_of manifest = VDict fields ∧ normalized_authorization fields = Some a) ∧
  (∃ c w1 w2, read_content (snapshot // "request.bin") e w1 = (Ok c, w2) ∧ payload = file_bytes c) ∧
  is_ok (b64decode (a_signature a)) = true ∧
  verifier_accepted ssh_keygen (reapply_signature_message sha256_text (a_nonce a) (a_method a) (a_path a) payload) e w w' ∧
  ∃ w1 w2, consume_authorization_nonce sha256_text boot_id paths (a_nonce a) e w1 = (Ok tt, w2).

Lemma forward_mkdir_exist_ok mode p : forward (mkdir_exist_ok mode p).
Proof. unfold mkdir_exist_ok, mkdir, new_node, is_dir_. forward. Qed.
Lemma forward_mkdir_parents mode p : forward (mkdir_parents mode p).
Proof.
  unfold mkdir_parents. generalize (length p) as fuel. intros fuel. revert mode p. pose proof forward_mkdir_exist_ok.
  induction fuel as [|fuel IH]; intros mode p; simpl; forward.
Qed.
Lemma forward_consume nonce : forward (consume_authorization_nonce sha256_text boot_id paths nonce).
Proof.
  unfold consume_authorization_nonce, fsync_directory, fsync, chmod, new_node, time_time.
  pose proof forward_mkdir_parents. forward.
Qed.

Lemma run_check_signature a payload allowed e w w' :
  check_signature sha256_text ssh_keygen a payload allowed e w = (Ok tt, w') →
  is_ok (b64decode (a_signature a)) = true ∧
  verifier_accepted ssh_keygen (reapply_signature_message sha256_text (a_nonce a) (a_method a) (a_path a) payload) e w w'.
Proof.
  unfold check_signature. destruct (b64decode (a_signature a)); [|done].
  intros (valid & w1 & Hv & H)%run_bind. destruct valid; [|done]. apply run_ret in H as [_ ->].
  apply run_verify in Hv as (n & sig & r & Hn & Hr & Hz). split; [done|]. by exists n, allowed, sig, r.
Qed.

Lemma run_read_request snapshot manifest payload e w w' :
  _read_staged_request file_bytes snapshot manifest e w = (Ok (Some payload), w') →
  ∃ c w1, read_content (snapshot // "request.bin") e w = (Ok c, w1) ∧ payload = file_bytes c.
Proof.
  unfold _read_staged_request. destruct (vget "request" manifest); try done.
  intros (c & w1 & Hc & [[= <-] ->]%run_ret)%run_bind. eauto.
Qed.
Lemma forward_read_request snapshot manifest : forward (_read_staged_request file_bytes snapshot manifest).
Proof. unfold _read_staged_request. forward. Qed.


(** ** Single use *)

(** The temporary files of a verification. *)
Definition in_tmp (x : path) : Prop := ∃ name, x = tmp_dir // name.
Lemma marker_not_in_tmp nonce : ¬ in_tmp (nonce_marker sha256_text paths nonce).
Proof.
  intros [name H]. unfold nonce_marker in H. apply app_inj_tail in H as [H _].
  unfold used_nonces, tmp_dir in H. apply (f_equal (λ p, List.last p "")) in H. by rewrite last_last in H.
Qed.

Lemma touches_write_new (D : path → Prop) mode p c : D p → touches D (write_new mode p c).
Proof.
  intros HD. unfold write_new. touches; [by apply touches_create|by apply touches_update].
Qed.
Lemma touches_temporary suffix c : touches in_tmp (named_temporary_file suffix c).
Proof. unfold named_temporary_file. touches. apply touches_write_new. by eexists. Qed.

Lemma wp_temporary suffix c s0 s : changes in_tmp s0 s →
  wp env_ok (changes in_tmp s0) (named_temporary_file suffix c)
    (λ r t, changes in_tmp s0 t ∧ ∀ p, r = Ok p → in_tmp p) s.
Proof.
  intros Hs. unfold named_temporary_file. apply wp_bind, wp_ask. intros e n He. apply wp_bind.
  eapply wp_mono; [apply (touches_write_new in_tmp); [by eexists|exact Hs]|]. intros [[]|x] t Ht; [|by split].
  apply wp_ret. split; [done|]. intros p [= <-]. by eexists.
Qed.
Lemma wp_build_signers config_root s0 s : changes in_tmp s0 s →
  wp env_ok (changes in_tmp s0) (build_allowed_signers json_text config_root)
    (λ r t, changes in_tmp s0 t ∧ ∀ p, r = Ok (Some p) → in_tmp p) s.
Proof.
  intros Hs. unfold build_allowed_signers. apply wp_bind.
  eapply wp_mono; [by apply (touches_test in_tmp)|]. intros [ex|x] t Ht; [|by split].
  destruct ex; [|by apply wp_ret]. apply wp_bind.
  assert (touches in_tmp (read_text json_text (config_root // "admin-signers"))) as Hr
    by (unfold read_text, read_content; touches).
  eapply wp_mono; [by apply Hr|].
  intros [text|x] u Hu; [|by split]. case_bool_decide; [by apply wp_ret|]. apply wp_bind.
  eapply wp_mono; [by apply wp_temporary|]. intros [p|x] v [Hv Hp]; [|by split]. apply wp_ret. split; [done|].
  intros q [= <-]. by apply Hp.
Qed.
Lemma wp_verify_signature message blob allowed s0 s : changes in_tmp s0 s →
  wp env_ok (changes in_tmp s0) (verify_ssh_signature ssh_keygen message blob allowed)
    (λ _ t, changes in_tmp s0 t) s.
Proof.
  intros Hs. unfold verify_ssh_signature. apply wp_bind. eapply wp_mono; [by apply wp_temporary|].
  intros [sig|x] t [Ht Hp]; [|done]. apply wp_finally.
  eapply wp_mono with (Q := λ _ u, changes in_tmp s0 u).
  { apply wp_catch. unfold run_command_input. apply wp_bind, wp_bind, wp_ask. intros e n He. apply wp_lift.
    destruct (e_run _ _ _ _) as [r|x]; [by apply wp_ret|]. destruct (not_found_or_timeout x); [by apply wp_ret|done]. }
  intros r u Hu. eapply wp_mono; [apply (touches_unlink_missing_ok in_tmp); [by apply Hp|exact Hu]|].
  by intros [[]|x] v Hv.
Qed.

Lemma wp_check_signature a payload allowed s0 s : in_tmp allowed → changes in_tmp s0 s →
  wp env_ok (changes in_tmp s0)
    (finally (check_signature sha256_text ssh_keygen a payload allowed) (unlink_missing_ok allowed))
    (λ _ t, changes in_tmp s0 t) s.
Proof.
  intros Ha Hs. apply wp_finally. eapply wp_mono with (Q := λ _ t, changes in_tmp s0 t).
  { unfold check_signature. destruct (b64decode (a_signature a)); [|by apply wp_raise].
    apply wp_bind. eapply wp_mono; [by apply wp_verify_signature|].
    intros [[]|x] t Ht; [by apply wp_ret|by apply wp_raise|done]. }
  intros r t Ht. eapply wp_mono; [by apply (touches_unlink_missing_ok in_tmp)|]. by intros [[]|x] u Hu.
Qed.

(** C22 — A signed request is applied at most once, whatever fails or crashes: the
    worker only accepts it when its nonce had no marker, the marker is there when
    it does, no step of an authorization ever loses a marker, and with a marker in
    place every later job with that nonce is refused. *)
Theorem worker_nonce_single_use (snapshot config_root : path) (manifest : dict value) (locally_trusted : bool) (s : fs) :
  let marker := nonce_marker sha256_text paths in
  wp env_ok (λ t, ∀ nonce, is_Some (s !! marker nonce) → is_Some (t !! marker nonce))
    (_verify_staged_authorization sha256_text json_text file_bytes ssh_keygen boot_id snapshot config_root manifest paths
       locally_trusted)
    (λ r t, (∀ nonce, is_Some (s !! marker nonce) → is_Some (t !! marker nonce)) ∧
            ∀ payload a, r = Ok (payload, Some a) →
              s !! marker (a_nonce a) = None ∧ is_Some (t !! marker (a_nonce a)) ∧
              nonce_matches_current_boot boot_id (a_nonce a) = true) s.
Proof.
  intros marker. fold (markers_kept sha256_text paths s).
  pose proof marker_not_in_tmp as HD.
  assert (∀ t, changes in_tmp s t → markers_kept sha256_text paths s t) as Hk by (intros t; by apply changes_markers_kept).
  assert (changes in_tmp s s) as Hs by apply changes_refl.
  unfold _verify_staged_authorization. apply wp_bind.
  eapply (touches_then in_tmp); [unfold _read_staged_request, read_content; touches|exact Hs|exact Hk|].
  intros [req|x] t Ht; [|split; [by apply Hk|done]]. apply wp_bind.
  eapply (touches_then in_tmp); [unfold is_provisioned_config_root, _is_regular_file; touches|exact Ht|exact Hk|].
  intros [prov|x] u Hu; [|split; [by apply Hk|done]].
  assert (∀ (r : result (option string * option authorization)) v, changes in_tmp s v → (∀ p a, r ≠ Ok (p, Some a)) →
    markers_kept sha256_text paths s v ∧ ∀ payload a, r = Ok (payload, Some a) →
      s !! marker (a_nonce a) = None ∧ is_Some (v !! marker (a_nonce a)) ∧
      nonce_matches_current_boot boot_id (a_nonce a) = true) as Hno.
  { intros r v Hv Hr. split; [by apply Hk|]. intros p a E. by destruct (Hr p a). }
  destruct prov; simpl; [|case_match; [by apply wp_ret, Hno|by apply wp_raise, Hno]].
  destruct locally_trusted; [by apply wp_ret, Hno|].
  destruct req as [p|]; [|by apply wp_raise, Hno].
  destruct (authorization_of manifest) as [| | | | | |fields|]; try by apply wp_raise, Hno.
  destruct (normalized_authorization fields) as [a|]; [|by apply wp_raise, Hno].
  apply wp_bind. eapply wp_weaken; [done|exact Hk|]. eapply wp_mono; [by apply wp_build_signers|].
  intros [[allowed|]|x] v [Hv Hp]; [|by apply wp_raise, Hno|by apply Hno]. specialize (Hp allowed eq_refl).
  apply wp_bind. eapply wp_weaken; [done|exact Hk|]. eapply wp_mono; [by apply wp_check_signature|].
  intros [[]|x] y Hy; [|by apply Hno]. apply wp_bind.
  eapply wp_weaken; [done| |eapply wp_mono; [apply wp_consume_nonce|]].
  { intros z Hz. simpl in Hz. eapply markers_kept_trans, Hz. by apply Hk. }
  intros r z [Hz Hr]. assert (markers_kept sha256_text paths s z) as Hsz by (eapply markers_kept_trans, Hz; by apply Hk).
  destruct r as [[]|x]; [|by split]. apply wp_ret. split; [done|]. intros payload b [= <- <-].
  destruct (Hr eq_refl) as (Hn & Hm & Hb). split_and!; [|done|done].
  apply eq_None_not_Some. intros H%(changes_markers _ _ in_tmp s y HD Hy). rewrite Hn in H. by destruct H.
Qed.
End authorization.

(** A signed job on a provisioned device. *)
Definition job_snapshot : path := ["work"; "job-1"].
Definition signed_manifest : dict value :=
  [("request", VDict [("size", VInt 3); ("authorization", authorization_value (Authorization "boot:n1" "QUJD" "PUT" "/api/config/users/bob"))])].
Definition signed_fs : fs :=
  <[["run"] := plain_dir]> (<[["work"] := plain_dir]> (<[job_snapshot := plain_dir]>
    (<[job_snapshot // "request.bin" := plain_file (CText "abc")]> auth_fs))).
Definition text_of (c : content) : string := match c with CText s => s | _ => "" end.
Definition signed_run : result (option string * option authorization) * world :=
  run_op (_verify_staged_authorization sample_digest (λ _ _, "") text_of "ssh-keygen" "boot" job_snapshot ["data"; "config"]
            signed_manifest (Paths ["run"]) false) sample_env signed_fs.
Definition signed_authorization : authorization := Authorization "boot:n1" "QUJD" "PUT" "/api/config/users/bob".


(** ** The operation of a signed request *)

(** A signed request is one the framework routes to [h]: the method and path of
    its route, the name percent-decoded from the rest of the path and kept within
    one segment, and the body its data. *)
Definition routed (json_decode : string → result value) (h : handler) (a : authorization) (payload : string) : Prop :=
  let '(method, path, name) := route h in
  a_method a = method ∧ body_of json_decode payload = Ok (handler_data h) ∧
  match name with
  | None => a_path a = path
  | Some name => ∃ segment, a_path a = path +:+ segment ∧ unquote segment = name ∧ name ≠ "" ∧ has_char "/" name = false
  end.

Lemma removeprefix_app p s : removeprefix (p +:+ s) p = s.
Proof.
  unfold removeprefix, str_drop. rewrite slen_chars, chars_app, drop_app_length. apply unchars_chars.
Qed.

(** The decision once a prefix is found. *)
Definition derive (a : authorization) (body : dict value) (pk : string * resource_kind) : option value :=
  let name := unquote (removeprefix (a_path a) pk.1) in
  if bool_decide (name = "") || has_char "/" name then None else named_operation (a_method a) name pk.2 body.

Lemma request_operation_partial json_decode a payload op :
  _request_operation json_decode a payload = Ok (Some op) ↔
  (a_method a, a_path a) ≠ ("POST", "/api/config") ∧ ∃ body, body_of json_decode payload = Ok body ∧
    if bool_decide ((a_method a, a_path a) = ("PATCH", "/api/config/network")) then op = op_patch_network body
    else ∃ pk, List.find (λ pk, startswith (a_path a) pk.1) prefixes = Some pk ∧ derive a body pk = Some op.
Proof.
  unfold _request_operation, derive.
  assert (∀ m p, bool_decide (a_method a = m) && bool_decide (a_path a = p) = bool_decide ((a_method a, a_path a) = (m, p))) as E.
  { intros m p. rewrite <-bool_decide_and. apply bool_decide_ext. naive_solver. }
  rewrite !E. generalize (List.find (λ pk, startswith (a_path a) pk.1) prefixes) as found. intros found.
  case_bool_decide as Hpost; [split; [done|by intros [? _]]|].
  destruct (body_of json_decode payload) as [body|x]; simpl; [|split; [done|by intros (_ & ? & ? & _)]].
  case_bool_decide as Hpatch.
  { split; [intros [= <-]; eauto|by intros (_ & ? & [= <-] & ->)]. }
  destruct found as [[prefix kind]|]; simpl; [|split; [done|by intros (_ & ? & _ & ? & ? & _)]].
  split.
  - intros H. split; [done|]. exists body. split; [done|]. exists (prefix, kind). split; [done|].
    revert H. simpl. destruct (bool_decide _ || _); [done|]. by destruct (named_operation _ _ _ _) as [o|]; [intros [= <-]|].
  - intros (_ & ? & [= <-] & ? & [= <-] & H). revert H. simpl.
    destruct (bool_decide _ || _); [done|]. by intros ->.
Qed.

Lemma named_operation_sound prefix kind method name body op : (prefix, kind) ∈ prefixes →
  named_operation method name kind body = Some op →
  ∃ h, op = handler_operation h ∧ handler_data h = body ∧ route h = (method, prefix, Some name).
Proof.
  intros Hp. unfold named_operation.
  case_bool_decide as H1; [|case_bool_decide as H2; [case_bool_decide as H3|]]; simpl; [| |done..];
    intros [= <-]; subst; apply list_elem_of_In in Hp; destruct Hp as [E|[E|[E|[E|[]]]]]; injection E as <- <-.
  - by exists (put_partial_user name body).
  - by exists (put_container name body).
  - by exists (put_container_network name body).
  - by exists (put_container_volume name body).
  - by exists (delete_partial_user name).
  - by exists (delete_container name).
  - by exists (delete_container_network name).
  - by exists (delete_container_volume name).
Qed.

Lemma named_operation_complete h method prefix name : route h = (method, prefix, Some name) →
  ∃ kind, (∀ segment, List.find (λ pk, startswith (prefix +:+ segment) pk.1) prefixes = Some (prefix, kind)) ∧
    named_operation method name kind (handler_data h) = Some (handler_operation h).
Proof.
  destruct h; intros [= <- <- <-];
    [exists User|exists User|exists (Resource "container")|exists (Resource "container")
    |exists (Resource "network")|exists (Resource "network")|exists (Resource "volume")|exists (Resource "volume")];
    (split; [intros []; reflexivity|reflexivity]).
Qed.

