(* ===== verification/LanGateway.v ===== *)
(** * [lan-gateway-apply.py]: LAN gateway settings on the running system

    One definition per function of src/scripts/lan-gateway-apply.py, which the
    boot runs on what provisioning wrote: it validates lan-settings.json and
    host-network.json again, writes the dnsmasq, chrony, hosts and networkd files
    that changed, and restarts the services those files configure.  The
    interface settings that [load_host_network_settings] returns are the records
    of Config.v; the tests [isinstance(..., dict)] the script repeats on its own
    result are always true of them.  The paths and names the process environment
    gives are the record [gateway_files]. *)

From Stdlib Require Import Ascii.
From S2P Require Import Prelude PyStr PyVal IPAddr ConfigCheck Config FS Staging StagedJob Activation ApplyTransaction Auth.

Local Open Scope Z_scope.

Record gateway_files : Type := GatewayFiles {
  CONFIG_FILE : path;
  HOST_NETWORK_FILE : path;
  DNSMASQ_CONFIG_FILE : path;
  DNSMASQ_HOSTS_FILE : path;
  CHRONY_LAN_FILE : path;
  BOOTSTRAP_SOCKET_OVERRIDE : path;
  BOOTSTRAP_TRANSPORT : string;
  NETWORK_FILE : path;
  HOST_NETWORK_CONFIG_DIR : path;
  WAN_NETWORK_DROPIN : path;
  ETC_HOSTS_FILE : path;
  WAN_INTERFACE : string;
  LAN_INTERFACE : string;
  SYS_CLASS_NET_DIR : path;
}.

Definition WAN_KEY : string := "wan".
Definition LAN_KEY : string := "lan".
Definition REQUIRED_STRING_FIELDS : list string :=
  ["gateway_cidr"; "gateway_ip"; "subnet_cidr"; "netmask"; "dhcp_start"; "dhcp_end"; "domain"].

Definition value_error (msg : string) : exn := ValueError msg.

(** [isinstance(l, list)] of strings that satisfy [p]. *)
Definition strings_such_that (p : string → bool) (v : value) : option (list string) :=
  match v with
  | VList l =>
      if forallb (λ x, match x with VStr s => p s | _ => false end) l
      then Some (omap (λ x, match x with VStr s => Some s | _ => None end) l) else None
  | _ => None
  end.
Definition nonempty (s : string) : bool := negb (bool_decide (s = "")).

(** The labels of [DNS_LABEL_PATTERN] and their number of characters in all. *)
Definition dns_name_re (v : string) : bool :=
  (slen v <=? 253)%nat && forallb dns_label_re (split_on dot v).

Section script.
Context (F : gateway_files) (json_text : value → Z → string).

(** ** Defaults

    [candidates] are the installed and the repository file. *)

Definition is_default_error (x : exn) : bool :=
  match x with ValueError _ | KeyError _ | TypeError _ => true | _ => is_OSError x end.
Definition ntp_servers_of (v : value) : result value :=
  match v with
  | VDict d => of_option (dget "ntp_servers" d) (KeyError "ntp_servers")
  | _ => Err (TypeError "indices must be integers")
  end.

Fixpoint load_default_ntp_servers (searched candidates : list path) : M (list string) :=
  match candidates with
  | [] => raise (value_error ("unable to find LAN defaults (checked: "
                              +:+ comma_join (map show_path searched) +:+ ")"))
  | candidate :: rest =>
      f ← is_file_ candidate;
      if negb f then load_default_ntp_servers searched rest
      else
        servers ← catch (c ← read_content candidate; v ← lift (json_loads c); lift (ntp_servers_of v))
          is_default_error
          (λ x, raise (value_error ("invalid LAN defaults in " +:+ show_path candidate +:+ ": " +:+ exn_text x)));
        lift (of_option (strings_such_that (λ _, true) servers)
                (value_error ("invalid ntp_servers in " +:+ show_path candidate)))
  end.

(** ** Files and commands *)

Definition replace_file (p : path) (content : string) : M bool :=
  _ ← mkdir_parents 511 (parent p);
  ex ← exists_ p;
  same ← (if ex : bool then t ← read_text json_text p; mret (bool_decide (t = content)) else mret false);
  if same : bool then mret false
  else
    suffix ← ask e_tmp;
    let temp_path := parent p // ("." +:+ name_of p +:+ "." +:+ suffix +:+ ".tmp") in
    _ ← write_new 384 (* 0o600 *) temp_path (CText content);
    _ ← chmod 420 (* 0o644 *) temp_path;
    _ ← rename temp_path p;
    mret true.

Definition is_octet (o : string) : bool := (slen o =? 2)%nat && all_chars is_hex_lower o.
Definition read_mac_suffix (interface : string) : M string :=
  let address_path := SYS_CLASS_NET_DIR F ++ [interface; "address"] in
  raw ← catch (t ← read_text json_text address_path; mret (Some (lower (strip t)))) is_OSError (λ _, mret None);
  match raw with
  | None => mret ""
  | Some raw =>
      let octets := split_on colon raw in
      mret (if (length octets =? 6)%nat && forallb is_octet octets then join "" octets else "")
  end.

Definition command_error (args : list string) (detail : string) : exn :=
  value_error ("command failed: " +:+ join " " args +:+ ": " +:+ detail).
Definition run_command (args : list string) : M () :=
  r ← catch (FS.run_command args) is_not_found (λ x, raise (command_error args (exn_text x)));
  if returncode r =? 0 then mret tt
  else
    let err := strip (stderr r) in
    let out := strip (stdout r) in
    raise (command_error args (if nonempty err then err else if nonempty out then out
                               else "exit status " +:+ str_int (returncode r))).

Definition write_bootstrap_socket_rebind (gateway_ip : string) : M () :=
  _ ← replace_file (BOOTSTRAP_SOCKET_OVERRIDE F)
        ("[Socket]" +:+ nl +:+ "ListenStream=" +:+ nl +:+ "ListenStream=" +:+ gateway_ip +:+ ":8080" +:+ nl);
  mret tt.
Definition apply_bootstrap_socket_rebind (gateway_ip : string) : M () :=
  _ ← write_bootstrap_socket_rebind gateway_ip;
  run_command ["systemctl"; "daemon-reload"].

Definition host_names (alias domain : string) : list string :=
  dedup ([alias] ++ (if has_char dot alias then [] else [alias +:+ "." +:+ domain])).

(** ** Values of lan-settings.json *)

Definition in_config (file : path) (key what v : string) : exn :=
  value_error (key +:+ " must be a valid " +:+ what +:+ " in " +:+ show_path file +:+ ": " +:+ py_repr v).

Definition parse_ipv4_interface (v key : string) : result ipv4_interface :=
  of_option (parse_interface v) (in_config (CONFIG_FILE F) key "IPv4 interface" v).
Definition parse_host_ipv4_interface (v key : string) : result ipv4_interface :=
  of_option (parse_interface v) (in_config (HOST_NETWORK_FILE F) key "IPv4 interface" v).
Definition parse_ipv4_address (v key : string) : result Z :=
  of_option (parse_ipv4 v) (in_config (CONFIG_FILE F) key "IPv4 address" v).
Definition parse_ipv4_network (v key : string) : result ipv4_interface :=
  of_option (parse_network v) (in_config (CONFIG_FILE F) key "IPv4 network" v).
Definition validate_dns_name (v key : string) : result string :=
  if dns_name_re v then Ok v else Err (in_config (CONFIG_FILE F) key "DNS name" v).

Definition require_string (payload : dict value) (key : string) : result string :=
  match dget key payload with
  | None => Err (value_error ("missing required key '" +:+ key +:+ "' in " +:+ show_path (CONFIG_FILE F)))
  | Some (VStr s) =>
      if nonempty s then Ok s
      else Err (value_error (key +:+ " must be a non-empty string in " +:+ show_path (CONFIG_FILE F)))
  | Some _ => Err (value_error (key +:+ " must be a non-empty string in " +:+ show_path (CONFIG_FILE F)))
  end.
Definition optional_string (payload : dict value) (key : string) : result string :=
  match vget_or key (VStr "") payload with
  | VStr s => Ok s
  | _ => Err (value_error (key +:+ " must be a string in " +:+ show_path (CONFIG_FILE F)))
  end.
Definition gateway_aliases (payload : dict value) : result (list string) :=
  of_option (strings_such_that nonempty (vget_or "gateway_aliases" (VList []) payload))
    (value_error ("gateway_aliases must be a list of non-empty strings in " +:+ show_path (CONFIG_FILE F))).

Definition check_ntp_server (server : string) : result () :=
  _ ← raise_if (any_char (λ c, isspace c || is_control c) server)
        (value_error ("ntp_servers must not contain whitespace or control characters in "
                      +:+ show_path (CONFIG_FILE F)));
  if is_ip_address server then Ok tt
  else _ ← validate_dns_name server "ntp_servers"; Ok tt.
Definition ntp_servers (DEFAULT_NTP_SERVERS : list string) (payload : dict value) : result (list string) :=
  servers ← of_option
    (strings_such_that nonempty (vget_or "ntp_servers" (VList (map VStr DEFAULT_NTP_SERVERS)) payload))
    (value_error ("ntp_servers must be a list of non-empty strings in " +:+ show_path (CONFIG_FILE F)));
  _ ← mapR check_ntp_server servers;
  Ok servers.

(** ** Values of host-network.json *)

Definition parse_ip_address (v key : string) : result string :=
  of_option (IPAddr.parse_ip_address v) (in_config (HOST_NETWORK_FILE F) key "IP address" v).
Definition parse_host_ipv4_address (v key : string) : result Z :=
  of_option (parse_ipv4 v) (in_config (HOST_NETWORK_FILE F) key "IPv4 address" v).
Definition validate_host_dns_name (v key : string) : result string :=
  if dns_name_re v then Ok v else Err (in_config (HOST_NETWORK_FILE F) key "DNS name" v).
Definition require_host_keys (payload : dict value) (allowed : list string) (where_ : string) : result () :=
  let unexpected := sorted_difference (dkeys payload) allowed in
  raise_if (negb (bool_decide (unexpected = [])))
    (value_error ("unsupported keys at " +:+ where_ +:+ " in " +:+ show_path (HOST_NETWORK_FILE F)
                  +:+ ": " +:+ comma_join unexpected)).
Definition host_error (key what : string) : exn :=
  value_error (key +:+ " must be " +:+ what +:+ " in " +:+ show_path (HOST_NETWORK_FILE F)).
Definition require_host_string (payload : dict value) (key : string) : result string :=
  match vget key payload with
  | VStr s => if nonempty s then Ok s else Err (host_error key "a non-empty string")
  | _ => Err (host_error key "a non-empty string")
  end.
Definition host_string_list (payload : dict value) (key : string) : result (list string) :=
  of_option (strings_such_that nonempty (vget_or key (VList []) payload))
    (host_error key "a list of non-empty strings").
Definition host_ip_list (payload : dict value) (key : string) : result (list string) :=
  l ← host_string_list payload key; mapR (λ v, parse_ip_address v key) l.
Definition host_search_domains (payload : dict value) (key : string) : result (list string) :=
  l ← host_string_list payload key; mapR (λ v, validate_host_dns_name v key) l.

(** [HOST_INTERFACE_RE] *)
Definition HOST_INTERFACE_RE (name : string) : bool := SUPPORTED_INTERFACE_RE name.

Definition load_host_interface (name : string) (v : value) : result interface_settings :=
  let where_ := "interfaces." +:+ name in
  _ ← raise_if (negb (HOST_INTERFACE_RE name))
        (value_error ("unsupported interface name in " +:+ show_path (HOST_NETWORK_FILE F) +:+ ": " +:+ py_repr name));
  _ ← raise_if (bool_decide (name ∈ [WAN_INTERFACE F; LAN_INTERFACE F]) && negb (bool_decide (name ∈ [WAN_KEY; LAN_KEY])))
        (value_error (where_ +:+ " is the WAN or LAN interface; configure it as wan or lan in "
                      +:+ show_path (HOST_NETWORK_FILE F)));
  interface ← match v with VDict d => Ok d | _ => Err (host_error where_ "an object") end;
  _ ← require_host_keys interface ["mode"; "address"; "gateway"; "dns_servers"; "dns_search_domains"] where_;
  mode ← require_host_string interface "mode";
  _ ← raise_if (negb (bool_decide (mode ∈ ["dhcp"; "static"]))) (host_error (where_ +:+ ".mode") "dhcp or static");
  _ ← raise_if (bool_decide (name = LAN_KEY) && negb (bool_decide (mode = "static")))
        (host_error (where_ +:+ ".mode") ("static because " +:+ name +:+ " is the LAN gateway"));
  address ← (if bool_decide (mode = "static") then
      a ← require_host_string interface "address";
      i ← parse_host_ipv4_interface a (where_ +:+ ".address");
      Ok (Some (str_interface i))
    else
      _ ← raise_if (dmem "address" interface)
            (value_error (where_ +:+ ".address is only supported for static mode in " +:+ show_path (HOST_NETWORK_FILE F)));
      Ok None);
  gateway ← (if dmem "gateway" interface then
      g ← require_host_string interface "gateway";
      ip ← parse_host_ipv4_address g (where_ +:+ ".gateway");
      Ok (Some (str_ipv4 ip))
    else Ok None);
  dns_servers ← (if dmem "dns_servers" interface then
      l ← host_string_list interface "dns_servers";
      servers ← mapR (λ server, parse_ip_address server (where_ +:+ ".dns_servers")) l;
      Ok (Some servers)
    else Ok None);
  dns_search_domains ← (if dmem "dns_search_domains" interface then
      l ← host_string_list interface "dns_search_domains";
      domains ← mapR (λ domain, validate_host_dns_name domain (where_ +:+ ".dns_search_domains")) l;
      Ok (Some domains)
    else Ok None);
  Ok (InterfaceSettings mode address gateway dns_servers dns_search_domains).

(** [json.loads(file.read_text())] with the script's messages. *)
Definition load_json_object (file : path) : M (dict value) :=
  raw ← catch (c ← read_content file; lift (json_loads c))
    (λ x, is_OSError x || match x with ValueError _ => true | _ => false end)
    (λ x, raise (value_error (if is_OSError x
       then "unable to read " +:+ show_path file +:+ ": " +:+ exn_text x
       else "invalid JSON in " +:+ show_path file +:+ ": " +:+ exn_text x)));
  match raw with
  | VDict d => mret d
  | _ => raise (value_error (show_path file +:+ " must contain a JSON object"))
  end.

Definition check_host_network (payload : dict value) : result host_network :=
  _ ← require_host_keys payload ["dns_servers"; "dns_search_domains"; "default_gateway"; "interfaces"] "host-network";
  dns_servers ← host_ip_list payload "dns_servers";
  dns_search_domains ← host_search_domains payload "dns_search_domains";
  default_gateway ← (if dmem "default_gateway" payload then
      g ← require_host_string payload "default_gateway";
      ip ← parse_host_ipv4_address g "default_gateway";
      Ok (Some (str_ipv4 ip))
    else Ok None);
  interfaces ← match vget_or "interfaces" (VDict []) payload with
               | VDict d => Ok d
               | _ => Err (host_error "interfaces" "an object")
               end;
  normalized ← forR (λ acc '(name, v), i ← load_host_interface name v; Ok (dset name i acc)) interfaces [];
  Ok (HostNetwork dns_servers dns_search_domains normalized default_gateway).

Definition load_host_network_settings : M host_network :=
  ex ← exists_ (HOST_NETWORK_FILE F);
  if negb ex then mret (HostNetwork [] [] [] None)
  else payload ← load_json_object (HOST_NETWORK_FILE F); lift (check_host_network payload).

(** ** networkd files *)

Definition network_unit_name (interface : string) : string := "30-atomixos-" +:+ interface +:+ ".network".
Definition network_config_path (interface : string) : path :=
  if bool_decide (interface = WAN_KEY) then WAN_NETWORK_DROPIN F
  else if bool_decide (interface = LAN_KEY) then NETWORK_FILE F
  else HOST_NETWORK_CONFIG_DIR F // network_unit_name interface.
Definition render_domains (domains : list string) : string := join " " domains.

(** [a or b] of lists. *)
Definition or_list (a b : list string) : list string := match a with [] => b | _ => a end.

Definition interface_lines (interface : string) (settings : interface_settings) (host_settings : host_network)
    (lan_gateway_cidr : option string) : result (list string) :=
  let is_wan := bool_decide (interface = WAN_KEY) in
  let is_dropin := is_wan || bool_decide (interface = LAN_KEY) in
  let dhcp := bool_decide (is_mode settings = "dhcp") in
  mode_lines ← (if dhcp then Ok ["DHCP=ipv4"; "IPv6AcceptRA=false"]
    else
      address ← of_option (is_address settings) (KeyError "address");
      _ ← raise_if (bool_decide (interface = LAN_KEY) && negb (bool_decide (Some address = lan_gateway_cidr)))
            (value_error ("interfaces." +:+ interface +:+ ".address must match gateway_cidr in "
               +:+ show_path (CONFIG_FILE F) +:+ " and " +:+ show_path (HOST_NETWORK_FILE F)));
      Ok ["Address=" +:+ address; "DHCP=no"; "IPv6AcceptRA=false"]);
  let own_gateway := default "" (is_gateway settings) in
  let gateway := if bool_decide (own_gateway = "") && is_wan
                 then default "" (hn_default_gateway host_settings) else own_gateway in
  let own_dns := default [] (is_dns_servers settings) in
  let dns_servers := if is_wan then or_list own_dns (hn_dns_servers host_settings) else own_dns in
  let own_domains := default [] (is_dns_search_domains settings) in
  let domains := if is_wan then or_list own_domains (hn_dns_search_domains host_settings) else own_domains in
  let dhcpv4_lines := (if nonempty gateway && dhcp then ["UseRoutes=false"] else [])
                      ++ (if negb (bool_decide (dns_servers = [])) && dhcp then ["UseDNS=false"] else []) in
  Ok ((if is_dropin then [] else ["[Match]"; "Name=" +:+ interface; ""])
      ++ ["[Network]"] ++ mode_lines
      ++ (if nonempty gateway then ["Gateway=" +:+ gateway] else [])
      ++ map (λ server, "DNS=" +:+ server) dns_servers
      ++ (if bool_decide (domains = []) then [] else ["Domains=" +:+ render_domains domains])
      ++ (if bool_decide (dhcpv4_lines = []) then [] else ["" ; "[DHCPv4]"] ++ dhcpv4_lines)).
Definition render_interface_network (interface : string) (settings : interface_settings)
    (host_settings : host_network) (lan_gateway_cidr : option string) : result string :=
  lines ← interface_lines interface settings host_settings lan_gateway_cidr;
  Ok (join nl lines +:+ nl).

(** A dict of paths, in insertion order. *)
Fixpoint pset (p : path) (v : string) (d : list (path * string)) : list (path * string) :=
  match d with
  | [] => [(p, v)]
  | (q, w) :: d' => if decide (p = q) then (p, v) :: d' else (q, w) :: pset p v d'
  end.
(** [d.setdefault(p, v)] *)
Definition psetdefault (p : path) (v : string) (d : list (path * string)) : list (path * string) :=
  if bool_decide (p ∈ d.*1) then d else d ++ [(p, v)].

Definition plan_host_network_settings (host_settings : host_network) (lan_gateway_cidr : option string)
    : result (list (path * string)) :=
  let interfaces := hn_interfaces host_settings in
  let global := nonempty (default "" (hn_default_gateway host_settings))
                || negb (bool_decide (hn_dns_servers host_settings = []))
                || negb (bool_decide (hn_dns_search_domains host_settings = [])) in
  let interfaces := if global && negb (dmem WAN_KEY interfaces)
                    then (WAN_KEY, InterfaceSettings "dhcp" None None None None) :: interfaces
                    else interfaces in
  forR (λ planned '(name, settings),
      text ← render_interface_network name settings host_settings lan_gateway_cidr;
      Ok (pset (network_config_path name) text planned)) interfaces [].

Definition is_host_network_file (name : string) : bool :=
  startswith name "30-atomixos-eth" && endswith name ".network" && (23 <=? slen name)%nat.
Definition apply_planned_host_network_settings (planned : list (path * string)) : M bool :=
  changed ← forM (λ changed '(p, content), c ← replace_file p content; mret (c || changed)) planned false;
  let desired_files := planned.*1 in
  wan ← exists_ (WAN_NETWORK_DROPIN F);
  changed ← (if wan && negb (bool_decide (WAN_NETWORK_DROPIN F ∈ desired_files))
             then _ ← unlink (WAN_NETWORK_DROPIN F); mret true else mret changed);
  dir ← exists_ (HOST_NETWORK_CONFIG_DIR F);
  if dir : bool then
    names ← listdir (HOST_NETWORK_CONFIG_DIR F);
    forM (λ (changed : bool) name,
      if bool_decide (HOST_NETWORK_CONFIG_DIR F // name ∈ desired_files) then mret changed
      else _ ← unlink (HOST_NETWORK_CONFIG_DIR F // name); mret true)
      (filter (λ name, is_host_network_file name = true) names) changed
  else mret changed.
Definition apply_host_network_settings (host_settings : host_network) (lan_gateway_cidr : option string) : M bool :=
  planned ← lift (plan_host_network_settings host_settings lan_gateway_cidr);
  apply_planned_host_network_settings planned.

(** ** lan-settings.json *)

Section defaults.
Context (DEFAULT_NTP_SERVERS : list string).

Definition config_error (what : string) : exn := value_error (what +:+ " in " +:+ show_path (CONFIG_FILE F)).

Definition check_payload (payload : dict value) : result (dict value) :=
  payload ← forR (λ payload key, s ← require_string payload key; Ok (dset key (VStr s) payload))
              REQUIRED_STRING_FIELDS payload;
  hostname_pattern ← optional_string payload "hostname_pattern";
  let payload := dset "hostname_pattern" (VStr hostname_pattern) payload in
  raw_aliases ← gateway_aliases payload;
  let payload := dset "gateway_aliases" (VList (map VStr raw_aliases)) payload in
  servers ← ntp_servers DEFAULT_NTP_SERVERS payload;
  let payload := dset "ntp_servers" (VList (map VStr servers)) payload in
  let text key := str_of (vget key payload) in
  gateway ← parse_ipv4_interface (text "gateway_cidr") "gateway_cidr";
  gateway_ip ← parse_ipv4_address (text "gateway_ip") "gateway_ip";
  subnet ← parse_ipv4_network (text "subnet_cidr") "subnet_cidr";
  dhcp_start ← parse_ipv4_address (text "dhcp_start") "dhcp_start";
  dhcp_end ← parse_ipv4_address (text "dhcp_end") "dhcp_end";
  _ ← parse_ipv4_network ("0.0.0.0/" +:+ text "netmask") "netmask";
  domain ← validate_dns_name (text "domain") "domain";
  _ ← (if nonempty hostname_pattern then
         _ ← raise_if (negb (contains "{mac}" hostname_pattern)) (config_error "hostname_pattern must include '{mac}'");
         _ ← validate_dns_name (str_replace "{mac}" "001122334455" hostname_pattern) "hostname_pattern";
         Ok tt
       else Ok tt);
  aliases ← mapR (λ alias, validate_dns_name alias "gateway_aliases") raw_aliases;
  _ ← raise_if (negb (if_ip gateway =? gateway_ip)) (config_error "gateway_ip must match gateway_cidr");
  _ ← raise_if (negb ((if_network gateway =? if_network subnet) && (if_prefixlen gateway =? if_prefixlen subnet)))
        (config_error "subnet_cidr must match gateway_cidr");
  _ ← raise_if (negb (bool_decide (str_ipv4 (if_netmask gateway) = text "netmask")))
        (config_error "netmask must match gateway_cidr");
  _ ← raise_if (negb (in_network dhcp_start subnet) || negb (in_network dhcp_end subnet))
        (config_error "dhcp_start and dhcp_end must be inside subnet_cidr");
  _ ← raise_if (dhcp_end <? dhcp_start) (config_error "dhcp_start must be less than or equal to dhcp_end");
  _ ← raise_if ((dhcp_start <=? gateway_ip) && (gateway_ip <=? dhcp_end))
        (config_error "dhcp_start and dhcp_end must not include gateway_ip");
  Ok (dset "gateway_aliases" (VList (map VStr aliases)) (dset "domain" (VStr domain)
      (dset "dhcp_end" (VStr (str_ipv4 dhcp_end)) (dset "dhcp_start" (VStr (str_ipv4 dhcp_start))
      (dset "netmask" (VStr (str_ipv4 (if_netmask gateway))) (dset "subnet_cidr" (VStr (str_network subnet))
      (dset "gateway_ip" (VStr (str_ipv4 gateway_ip)) (dset "gateway_cidr" (VStr (str_interface gateway)) payload)))))))).

Definition load_settings : M (dict value) :=
  payload ← load_json_object (CONFIG_FILE F); lift (check_payload payload).

(** ** [main] *)

Definition dnsmasq_text (payload : dict value) : string :=
  let text key := str_of (vget key payload) in
  "dhcp-range=" +:+ text "dhcp_start" +:+ "," +:+ text "dhcp_end" +:+ "," +:+ text "netmask" +:+ ",24h" +:+ nl
  +:+ "dhcp-option=3," +:+ text "gateway_ip" +:+ nl
  +:+ "dhcp-option=6," +:+ text "gateway_ip" +:+ nl
  +:+ "dhcp-option=42," +:+ text "gateway_ip" +:+ nl
  +:+ "domain=" +:+ text "domain" +:+ nl
  +:+ "expand-hosts" +:+ nl
  +:+ "addn-hosts=" +:+ show_path (DNSMASQ_HOSTS_FILE F) +:+ nl
  +:+ "local=/" +:+ text "domain" +:+ "/" +:+ nl
  +:+ "log-dhcp" +:+ nl.
Definition hosts_line (gateway_ip domain alias : string) : string :=
  gateway_ip +:+ " " +:+ join " " (host_names alias domain).
Definition dnsmasq_hosts_text (gateway_ip domain : string) (resolved_names : list string) : string :=
  join nl (map (hosts_line gateway_ip domain) resolved_names)
  +:+ (if bool_decide (resolved_names = []) then "" else nl).
Definition chrony_text (servers : list string) (subnet_cidr : string) : string :=
  "# Managed by lan-gateway-apply" +:+ nl
  +:+ join "" (map (λ server, "server " +:+ server +:+ " iburst" +:+ nl) servers)
  +:+ "allow " +:+ subnet_cidr +:+ nl.

Definition GATEWAY_TAG : string := "# ATOMIXOS_LAN_GATEWAY".
Fixpoint drop_empty (l : list string) : list string :=
  match l with [] => [] | x :: l' => if bool_decide (x = "") then drop_empty l' else l end.
(** The lines of the hosts file that stay: other people's, without the empty
    lines at the end. *)
Definition kept_hosts (text : string) : list string :=
  rev (drop_empty (rev (filter (λ line, contains GATEWAY_TAG line = false) (splitlines text)))).
Definition etc_hosts_text (kept : list string) (gateway_ip domain : string) (resolved_names : list string) : string :=
  join nl (kept ++ map (λ alias, hosts_line gateway_ip domain alias +:+ " " +:+ GATEWAY_TAG) resolved_names) +:+ nl.

Definition resolved_names_of (gateway_names : list string) : list string := dedup (filter (λ n, n ≠ "") gateway_names).

(** Everything that is decided before a file is changed. *)
Definition validate_all : M (dict value * list (path * string)) :=
  payload ← load_settings;
  host_settings ← load_host_network_settings;
  let gateway_cidr := str_of (vget "gateway_cidr" payload) in
  planned ← lift (plan_host_network_settings host_settings (Some gateway_cidr));
  mret (payload, psetdefault (NETWORK_FILE F) ("[Network]" +:+ nl +:+ "Address=" +:+ gateway_cidr +:+ nl) planned).

Definition apply_all (payload : dict value) (planned : list (path * string)) : M () :=
  let gateway_ip := str_of (vget "gateway_ip" payload) in
  let domain := str_of (vget "domain" payload) in
  let hostname_pattern := str_of (vget "hostname_pattern" payload) in
  named ← (if nonempty hostname_pattern then
             mac_suffix ← read_mac_suffix (LAN_INTERFACE F);
             mret (if nonempty mac_suffix then [str_replace "{mac}" mac_suffix hostname_pattern] else [])
           else mret []);
  let resolved_names := resolved_names_of (named ++ strings_in (vget "gateway_aliases" payload)) in
  dnsmasq_changed ← replace_file (DNSMASQ_CONFIG_FILE F) (dnsmasq_text payload);
  dnsmasq_hosts_changed ← replace_file (DNSMASQ_HOSTS_FILE F) (dnsmasq_hosts_text gateway_ip domain resolved_names);
  chrony_changed ← replace_file (CHRONY_LAN_FILE F)
    (chrony_text (strings_in (vget "ntp_servers" payload)) (str_of (vget "subnet_cidr" payload)));
  hosts ← exists_ (ETC_HOSTS_FILE F);
  kept ← (if hosts : bool then t ← read_text json_text (ETC_HOSTS_FILE F); mret (kept_hosts t) else mret []);
  _ ← replace_file (ETC_HOSTS_FILE F) (etc_hosts_text kept gateway_ip domain resolved_names);
  network_changed ← apply_planned_host_network_settings planned;
  _ ← (if network_changed : bool then
         _ ← run_command ["networkctl"; "reload"];
         _ ← run_command ["systemctl"; "try-restart"; "systemd-networkd.service"];
         run_command ["systemctl"; "try-restart"; "systemd-resolved.service"]
       else mret tt);
  _ ← (if dnsmasq_changed || dnsmasq_hosts_changed
       then run_command ["systemctl"; "try-restart"; "dnsmasq.service"] else mret tt);
  _ ← (if chrony_changed : bool then run_command ["systemctl"; "try-restart"; "chronyd.service"] else mret tt);
  if bool_decide (BOOTSTRAP_TRANSPORT F = "network") then apply_bootstrap_socket_rebind gateway_ip else mret tt.

Definition main : M () :=
  ex ← exists_ (CONFIG_FILE F);
  if negb ex then mret tt
  else r ← validate_all; apply_all r.1 r.2.
End defaults.
End script.
