(* ===== verification/LanGatewayFacts.v ===== *)
(** * Properties of the LAN gateway script *)

From Stdlib Require Import Ascii.
From S2P Require Import Prelude PyStr PyVal IPAddr ConfigCheck Config ConfigFacts ConfigValue FS FSLogic RunLogic Staging StagedJob ApplyTransaction LanGateway.

Local Open Scope Z_scope.

(** ** Names, as written and as provisioning normalises them *)

Lemma dns_label_lower l : dns_label_re (lower l) = dns_label_re l.
Proof.
  unfold dns_label_re, lower, str_map. rewrite chars_unchars.
  assert (∀ c, is_alnum_ascii (lower_char c) = is_alnum_ascii c) as Ha by (intros c; char_cases c).
  assert (∀ c, is_dns_char (lower_char c) = is_dns_char c) as Hd by (intros c; char_cases c).
  destruct (chars l) as [|c rest]; simpl; [done|]. rewrite Ha. f_equal.
  rewrite <-map_rev. destruct (rev rest) as [|d mid]; simpl; [done|].
  rewrite Ha, length_map. do 2 f_equal. induction mid as [|x mid IH]; simpl; [done|]. by rewrite Hd, IH.
Qed.

Lemma split_chars_map (f : ascii → ascii) sep l :
  (∀ c, Ascii.eqb (f c) sep = Ascii.eqb c sep) → split_chars sep (map f l) = map (map f) (split_chars sep l).
Proof.
  intros Hf. induction l as [|c l IH]; simpl; [done|]. rewrite Hf, IH.
  destruct (Ascii.eqb c sep); [done|]. by destruct (split_chars sep l).
Qed.

Lemma slen_lower s : slen (lower s) = slen s.
Proof. unfold lower, str_map. rewrite !slen_chars, chars_unchars. apply length_map. Qed.

Lemma dns_name_lower n : dns_name_re (lower n) = dns_name_re n.
Proof.
  unfold dns_name_re. rewrite slen_lower. f_equal. unfold split_on.
  assert (chars (lower n) = map lower_char (chars n)) as -> by apply chars_unchars.
  rewrite split_chars_map by (intros c; char_cases c).
  induction (split_chars dot (chars n)) as [|w ws IH]; simpl; [done|]. rewrite IH. f_equal.
  rewrite <-(dns_label_lower (unchars w)). unfold lower, str_map. by rewrite chars_unchars.
Qed.

Lemma dns_name_re_ok n : dns_name_re n = true ↔ dns_name_ok n.
Proof.
  unfold dns_name_re, dns_name_ok. rewrite andb_true_iff, Nat.leb_le, forallb_Forall. done.
Qed.

(** A name that has no surrounding space and no final dot. *)
Definition exact_name (n : string) : Prop := strip n = n ∧ rstrip_by (Ascii.eqb dot) n = n.

Lemma rstrip_lower n : rstrip_by (Ascii.eqb dot) n = n → rstrip_by (Ascii.eqb dot) (lower n) = lower n.
Proof.
  intros H. unfold rstrip_by in *. unfold lower, str_map. rewrite chars_unchars.
  apply (f_equal chars) in H. rewrite chars_unchars in H.
  rewrite <-map_rev. apply (f_equal (@rev _)) in H. rewrite rev_involutive in H.
  assert (∀ c, Ascii.eqb dot (lower_char c) = Ascii.eqb dot c) as Hd by (intros c; char_cases c).
  rewrite drop_while_id.
  - by rewrite <-map_rev, rev_involutive.
  - intros c l E. destruct (rev (chars n)) as [|d t] eqn:Er; [done|]. injection E as <- _.
    rewrite Hd. destruct (Ascii.eqb dot d) eqn:Ed; [|done]. cbn [drop_while] in H. rewrite Ed in H.
    exfalso. destruct (drop_while_suffix (Ascii.eqb dot) t) as [k Hk].
    apply (f_equal length) in H. apply (f_equal length) in Hk. rewrite length_app in Hk. simpl in H. lia.
Qed.

Lemma split_chars_snoc sep l : split_chars sep (l ++ [sep]) = split_chars sep l ++ [[]].
Proof.
  induction l as [|c l IH]; simpl; [by rewrite Ascii.eqb_refl|]. rewrite IH.
  destruct (Ascii.eqb c sep); [done|].
  destruct (split_chars sep l) as [|w ws] eqn:E; [by apply split_chars_nonempty in E|]. done.
Qed.

Lemma dns_name_re_exact n : dns_name_re n = true → exact_name n.
Proof.
  intros H. apply dns_name_re_ok in H as Hok. split.
  - apply strip_no_space. eapply Forall_impl; [exact (dns_name_chars _ Hok)|].
    intros c [Hc| ->]; [by apply dns_char_not_space | done].
  - unfold rstrip_by. rewrite drop_while_id; [by rewrite rev_involutive, unchars_chars|].
    intros c l E. destruct (Ascii.eqb_spec dot c) as [<-|]; [|done]. exfalso.
    apply (f_equal (@rev _)) in E. rewrite rev_involutive in E. simpl in E.
    destruct Hok as [_ Hl]. unfold split_on in Hl. rewrite E, split_chars_snoc, map_app in Hl.
    apply Forall_app in Hl as [_ Hl]. by inversion Hl.
Qed.

(** The gateway's strict check accepts exactly the names that provisioning
    accepts without having to normalise more than their case. *)
Lemma strict_name n path : is_ok (require_dns_name (VStr n) path) = true →
  dns_name_re n = true ↔ exact_name n.
Proof.
  intros Hok. split; [apply dns_name_re_exact|]. intros [Hs Hd].
  destruct (require_dns_name (VStr n) path) as [name|] eqn:E; [|done].
  apply require_dns_name_Ok in E as (raw & [= <-] & -> & _ & Hname).
  rewrite Hs, rstrip_lower in Hname by done. apply dns_name_re_ok in Hname. by rewrite dns_name_lower in Hname.
Qed.

(** ** Texts that are read back *)

Lemma nonempty_str_ipv4 n : 0 ≤ n < 2 ^ 32 → nonempty (str_ipv4 n) = true.
Proof.
  intros H%parse_str_ipv4. unfold nonempty. case_bool_decide as E; [|done]. by rewrite E in H.
Qed.
Lemma nonempty_str_interface i : interface_ok i → nonempty (str_interface i) = true.
Proof.
  intros H%parse_str_interface. unfold nonempty. case_bool_decide as E; [|done]. by rewrite E in H.
Qed.
Lemma dns_name_ok_nonempty n : dns_name_ok n → nonempty n = true.
Proof. intros [_ H]. unfold nonempty. case_bool_decide as E; [|done]. subst. by inversion H. Qed.

(** The network of an interface, as an interface of its own. *)
Definition network_of (i : ipv4_interface) : ipv4_interface := IPv4Interface (if_network i) (if_prefixlen i).

Lemma network_of_ok i : interface_ok i → interface_ok (network_of i) ∧ if_network (network_of i) = if_network i.
Proof.
  intros [Hip Hp]. split.
  2: { unfold if_network, if_netmask, network_of. simpl. unfold if_network, if_netmask.
       by rewrite <-Z.land_assoc, Z.land_diag. }
  split; [|done]. simpl. unfold if_network, if_netmask. rewrite land_netmask by done.
  assert (0 < 2 ^ (32 - if_prefixlen i)) by (apply Z.pow_pos_nonneg; lia).
  pose proof (Z.mul_div_le (if_ip i) _ H). pose proof (Z.div_pos (if_ip i) _ ltac:(lia) H). nia.
Qed.

Lemma parse_str_network i : interface_ok i → parse_network (str_network i) = Some (network_of i).
Proof.
  intros [Hok Hnet]%network_of_ok. unfold parse_network.
  change (str_network i) with (str_interface (network_of i)). rewrite parse_str_interface by done. simpl.
  by rewrite Hnet, Z.eqb_refl.
Qed.

Lemma netmask_text p : 0 ≤ p ≤ 32 →
  is_Some (parse_network ("0.0.0.0/" +:+ str_ipv4 (netmask_of p))) ∧ 0 ≤ netmask_of p < 2 ^ 32.
Proof.
  assert (forallb (λ p, (match parse_network ("0.0.0.0/" +:+ str_ipv4 (netmask_of p)) with Some _ => true | None => false end)
            && (0 <=? netmask_of p) && (netmask_of p <? 2 ^ 32)) (seqZ 0 33) = true) as H by (vm_compute; reflexivity).
  intros Hp. rewrite forallb_forall in H. specialize (H p). rewrite <-list_elem_of_In, elem_of_seqZ in H.
  specialize (H ltac:(lia)). bool_prop. by destruct (parse_network _).
Qed.

Lemma strings_such_that_map p l : forallb p l = true → strings_such_that p (str_list l) = Some l.
Proof.
  intros H. simpl. assert (forallb (λ x, match x with VStr s => p s | _ => false end) (map VStr l) = true) as ->.
  { induction l as [|x l IH]; simpl in *; [done|]. bool_prop. rewrite H. simpl. by apply IH. }
  f_equal. clear H. induction l as [|x l IH]; [done|]. exact (f_equal (cons x) IH).
Qed.

(** ** What provisioning guarantees *)

(** A hostname pattern with a MAC address filled in. *)
Definition probe (pattern : string) : string := str_replace "{mac}" "001122334455" pattern.

Definition ntp_server_ok (server : string) : Prop :=
  nonempty server = true ∧ any_char (λ c, isspace c || is_control c) server = false ∧
  (is_ip_address server = true ∨ ∃ path, is_ok (require_dns_name (VStr server) path) = true).

Lemma require_string_list_strings v path l : require_string_list v path = Ok l → Forall (λ s, nonempty s = true) l.
Proof.
  destruct v as [| | | | |[|x items]| |]; try done. intros H%imapR_Ok.
  apply Forall_forall. intros y Hy. apply list_elem_of_lookup in Hy as [i Hi].
  destruct (Forall2_lookup_r _ _ _ _ _ H Hi) as (x' & _ & j & Hx).
  apply require_string_Ok in Hx as (_ & _ & _ & Hne). unfold nonempty. by rewrite bool_decide_eq_false_2.
Qed.

Lemma require_ntp_server_list_Ok v path l : require_ntp_server_list v path = Ok l → Forall ntp_server_ok l.
Proof.
  unfold require_ntp_server_list. intros H. inv_ok. pose proof (require_string_list_strings _ _ _ Ha) as Hne.
  clear Ha. apply imapR_Ok in Ha0. induction Ha0 as [|x y l ys [j Hj] _ IH]; [constructor|].
  inversion Hne; subst. constructor; [|auto]. split; [done|]. unfold ntp_server_item in Hj. inv_ok. split; [done|].
  destruct (is_ip_address x); [by left|]. right. inv_ok. exists (at_index path j). by rewrite Ha0.
Qed.

Lemma load_hostname_pattern_probe defaults lan path p : load_hostname_pattern defaults lan path = Ok p →
  p = "" ∨ (contains "{mac}" p = true ∧ ∃ path, is_ok (require_dns_name (VStr (probe p)) path) = true).
Proof.
  unfold load_hostname_pattern. intros H. apply bind_Ok in H as (q & _ & H).
  case_bool_decide; [left; congruence|]. inv_ok. bool_prop. right. split; [done|].
  exists (path +:+ ".hostname_pattern"). unfold probe. by rewrite Ha0.
Qed.

Lemma load_network_settings_names defaults network s ntp : load_network_settings defaults network = Ok (s, ntp) →
  Forall ntp_server_ok ntp ∧ ∃ gw first last, lan_contract s gw first last ∧
  (lan_hostname_pattern s = "" ∨ (contains "{mac}" (lan_hostname_pattern s) = true ∧
     ∃ path, is_ok (require_dns_name (VStr (probe (lan_hostname_pattern s))) path) = true)).
Proof.
  unfold load_network_settings. intros H. repeat (apply bind_Ok in H as (? & ? & H)). injection H as <- <-.
  split; [by eapply require_ntp_server_list_Ok|].
  edestruct load_lan_settings_contract as (gw & first & last & Hc); [eassumption|]. exists gw, first, last. split; [done|].
  match goal with H : load_lan_settings _ _ _ = Ok _ |- _ => rename H into Hs end.
  unfold load_lan_settings in Hs. repeat (apply bind_Ok in Hs as (? & ? & Hs)). injection Hs as <-. simpl.
  by eapply load_hostname_pattern_probe.
Qed.

(** ** lan-settings.json *)

Section accepted.
Context (F : gateway_files) (defaults_ntp : list string).

Lemma required_fields (keys : list string) (payload : dict value) :
  Forall (λ k, ∃ s, dget k payload = Some (VStr s) ∧ nonempty s = true) keys →
  forR (λ payload key, s ← require_string F payload key; Ok (dset key (VStr s) payload)) keys payload = Ok payload.
Proof.
  induction 1 as [|k keys (s & Hk & Hs) _ IH]; simpl; [done|].
  assert (require_string F payload k = Ok s) as -> by (unfold require_string; by rewrite Hk, Hs).
  simpl. by rewrite dset_id.
Qed.

Lemma check_ntp_server_iff n : ntp_server_ok n →
  is_ok (check_ntp_server F n) = true ↔ is_ip_address n = true ∨ exact_name n.
Proof.
  intros (_ & Hc & Hn). unfold check_ntp_server. rewrite Hc. simpl.
  destruct (is_ip_address n); [naive_solver|]. destruct Hn as [?|[path Hn]]; [done|].
  pose proof (strict_name _ _ Hn). unfold validate_dns_name. destruct (dns_name_re n); naive_solver.
Qed.

Lemma mapR_is_ok {A B} (f : A → result B) l : is_ok (mapR f l) = true ↔ Forall (λ x, is_ok (f x) = true) l.
Proof.
  induction l as [|x l IH]; simpl; [by split; [constructor|]|]. rewrite Forall_cons, <-IH.
  destruct (f x); simpl; [destruct (mapR f l)|]; naive_solver.
Qed.

Lemma check_ntp_servers servers : Forall ntp_server_ok servers →
  is_ok (mapR (check_ntp_server F) servers) = true ↔ Forall (λ n, is_ip_address n = true ∨ exact_name n) servers.
Proof.
  intros H. rewrite mapR_is_ok, !Forall_forall. rewrite Forall_forall in H.
  split; intros Hx n Hn; apply (check_ntp_server_iff n (H n Hn)); auto.
Qed.

Lemma aliases_pass names : Forall dns_name_ok names →
  mapR (λ alias, validate_dns_name F alias "gateway_aliases") names = Ok names.
Proof.
  induction 1 as [|n l Hn _ IH]; simpl; [done|]. apply dns_name_re_ok in Hn.
  assert (validate_dns_name F n "gateway_aliases" = Ok n) as -> by (unfold validate_dns_name; by rewrite Hn).
  simpl. by rewrite IH.
Qed.

(** The last checks: the addresses agree with one another. *)
Lemma addresses_agree gw first last : interface_ok gw → 0 ≤ first ≤ last ∧ last < 2 ^ 32 →
  (∀ x, first ≤ x ≤ last → in_network x gw = true ∧ x ≠ if_ip gw) →
  ((if_network gw =? if_network (network_of gw)) && (if_prefixlen gw =? if_prefixlen (network_of gw)) = true) ∧
  in_network first (network_of gw) = true ∧ in_network last (network_of gw) = true ∧
  (last <? first) = false ∧ (first <=? if_ip gw) && (if_ip gw <=? last) = false.
Proof.
  intros Hgw Hr Hl. destruct (network_of_ok gw Hgw) as [_ Hnet].
  destruct (Hl first) as [Hf _]; [lia|]. destruct (Hl last) as [Hla _]; [lia|].
  unfold in_network in *. change (if_netmask (network_of gw)) with (if_netmask gw).
  rewrite Hnet, !Z.eqb_refl, Hf, Hla. split_and!; [done..|apply Z.ltb_ge; lia|].
  apply andb_false_iff. destruct (Z.leb_spec first (if_ip gw)); [right|by left].
  apply Z.leb_gt. destruct (Z.lt_ge_cases last (if_ip gw)) as [|E]; [done|]. destruct (Hl (if_ip gw)) as [_ ?]; [lia|done].
Qed.

(** The entries of lan-settings.json, in terms of the addresses they print. *)
Record lan_fields (P : dict value) (s : lan_settings) (ntp : list string) (gw : ipv4_interface) (first last : Z) : Prop := {
  f_cidr : dget "gateway_cidr" P = Some (VStr (str_interface gw));
  f_ip : dget "gateway_ip" P = Some (VStr (str_ipv4 (if_ip gw)));
  f_subnet : dget "subnet_cidr" P = Some (VStr (str_network gw));
  f_netmask : dget "netmask" P = Some (VStr (str_ipv4 (if_netmask gw)));
  f_start : dget "dhcp_start" P = Some (VStr (str_ipv4 first));
  f_end : dget "dhcp_end" P = Some (VStr (str_ipv4 last));
  f_domain : dget "domain" P = Some (VStr (lan_domain s));
  f_pattern : dget "hostname_pattern" P = Some (VStr (lan_hostname_pattern s));
  f_aliases : dget "gateway_aliases" P = Some (str_list (lan_gateway_aliases s));
  f_ntp : dget "ntp_servers" P = Some (str_list ntp);
}.

Lemma provisioned_fields s ntp gw first last :
  lan_contract s gw first last → lan_fields (lan_settings_value s ntp) s ntp gw first last.
Proof.
  intros [_ (T1 & T2 & T3 & T4 & T5 & T6) _ _ _ _ _].
  by split; rewrite <-?T1, <-?T2, <-?T3, <-?T4, <-?T5, <-?T6.
Qed.

Lemma fields_required P s ntp gw first last : lan_contract s gw first last → lan_fields P s ntp gw first last →
  forR (λ payload key, s ← require_string F payload key; Ok (dset key (VStr s) payload)) REQUIRED_STRING_FIELDS P = Ok P.
Proof.
  intros [[Hgw Hlen] _ Hr _ Hd _ _] [D1 D2 D3 D4 D5 D6 D7 _ _ _].
  destruct (network_of_ok gw Hgw) as [Hnok _]. destruct (netmask_text (if_prefixlen gw)) as [_ Hm]; [lia|].
  assert (nonempty (str_network gw) = true) by by apply (nonempty_str_interface (network_of gw)).
  pose proof (nonempty_str_interface gw Hgw). pose proof (dns_name_ok_nonempty _ Hd).
  pose proof nonempty_str_ipv4 as Hn. destruct Hgw as [Hip _].
  apply required_fields. repeat (apply Forall_cons; split); [..|apply Forall_nil]; eexists; (split; [eassumption|]);
    first [assumption | apply Hn; unfold if_netmask; lia].
Qed.

Lemma fields_rewritten P s ntp gw first last : lan_fields P s ntp gw first last →
  dset "gateway_aliases" (str_list (lan_gateway_aliases s)) (dset "domain" (VStr (lan_domain s))
    (dset "dhcp_end" (VStr (str_ipv4 last)) (dset "dhcp_start" (VStr (str_ipv4 first))
    (dset "netmask" (VStr (str_ipv4 (if_netmask gw))) (dset "subnet_cidr" (VStr (str_network gw))
    (dset "gateway_ip" (VStr (str_ipv4 (if_ip gw))) (dset "gateway_cidr" (VStr (str_interface gw)) P))))))) = P.
Proof.
  intros [D1 D2 D3 D4 D5 D6 D7 _ D9 _].
  by rewrite (dset_id _ _ _ D1), (dset_id _ _ _ D2), (dset_id _ _ _ D3), (dset_id _ _ _ D4), (dset_id _ _ _ D5),
    (dset_id _ _ _ D6), (dset_id _ _ _ D7), (dset_id _ _ _ D9).
Qed.

(** What is left of the gateway's checks on settings that provisioning made. *)
Lemma check_payload_provisioned P s ntp gw first last :
  lan_contract s gw first last → lan_fields P s ntp gw first last → Forall ntp_server_ok ntp →
  lan_hostname_pattern s = "" ∨ contains "{mac}" (lan_hostname_pattern s) = true →
  check_payload F defaults_ntp P =
    (_ ← mapR (check_ntp_server F) ntp;
     _ ← (if nonempty (lan_hostname_pattern s) then
            _ ← validate_dns_name F (probe (lan_hostname_pattern s)) "hostname_pattern"; Ok tt
          else Ok tt);
     Ok P).
Proof.
  intros Hc Hf Hntp Hpat. pose proof (fields_required _ _ _ _ _ _ Hc Hf) as Hreq.
  pose proof (fields_rewritten _ _ _ _ _ _ Hf) as Hsame. destruct Hc as [[Hgw Hlen] _ Hr Hl Hd _ [_ Ha]].
  destruct (network_of_ok gw Hgw) as [Hnok Hnet]. destruct (netmask_text (if_prefixlen gw)) as [[m Hm] _]; [lia|].
  assert (validate_dns_name F (lan_domain s) "domain" = Ok (lan_domain s)) as Vd
    by (apply dns_name_re_ok in Hd; unfold validate_dns_name; by rewrite Hd).
  destruct Hf as [D1 D2 D3 D4 D5 D6 D7 D8 D9 D10]. unfold check_payload. rewrite Hreq. simpl.
  unfold optional_string, vget_or. rewrite D8. simpl. rewrite dset_id by done.
  unfold gateway_aliases, vget_or. rewrite D9. cbn [from_option id].
  rewrite strings_such_that_map by (apply forallb_Forall; eapply Forall_impl; [exact Ha|apply dns_name_ok_nonempty]).
  simpl. change (VList (map VStr ?l)) with (str_list l). rewrite (dset_id "gateway_aliases") by done.
  unfold ntp_servers, vget_or. rewrite D10. cbn [from_option id].
  rewrite strings_such_that_map by (apply forallb_Forall; eapply Forall_impl; [exact Hntp|by intros n [? _]]).
  simpl. destruct (mapR (check_ntp_server F) ntp) as [?|x]; [|done]. simpl.
  change (VList (map VStr ntp)) with (str_list ntp). rewrite (dset_id "ntp_servers") by done.
  unfold vget. rewrite D1, D2, D3, D4, D5, D6, D7. cbn [from_option id str_of].
  unfold parse_ipv4_interface, parse_ipv4_address, parse_ipv4_network.
  rewrite (parse_str_interface gw), !parse_str_ipv4, parse_str_network by (done || apply Hgw || lia). simpl.
  change (if_netmask gw) with (netmask_of (if_prefixlen gw)).
  change ("0.0.0.0/" +:+ ?t) with (String "0" ("." +:+ ("0.0.0/" +:+ t))) in *. rewrite Hm, Vd. simpl.
  destruct (addresses_agree gw first last Hgw Hr Hl) as (A1 & A2 & A3 & A4 & A5). simpl in A1.
  rewrite A1, A2, A3, A4, A5, (aliases_pass _ Ha), Z.eqb_refl, bool_decide_eq_true_2 by done.
  assert (str_network (network_of gw) = str_network gw) as -> by (unfold str_network; by rewrite Hnet).
  destruct (nonempty (lan_hostname_pattern s)) eqn:Ep; [destruct Hpat as [Hpat|Hpat]; [by rewrite Hpat in Ep|]; rewrite Hpat|]; simpl.
  - unfold probe. destruct (validate_dns_name F _ "hostname_pattern"); [|done]. exact (f_equal Ok Hsame).
  - exact (f_equal Ok Hsame).
Qed.
End accepted.

(** What the gateway's stricter reading of names asks of the pattern and the NTP servers. *)
Definition names_exact (pattern : string) (ntp : list string) : Prop :=
  (pattern = "" ∨ exact_name (probe pattern)) ∧ Forall (λ n, is_ip_address n = true ∨ exact_name n) ntp.


Definition sample_files : gateway_files :=
  let etc x := ["etc"; x] in
  GatewayFiles ["data"; "config"; "lan-settings.json"] ["data"; "config"; "host-network.json"] (etc "dnsmasq.conf")
    (etc "dnsmasq-hosts") (etc "chrony-lan.conf") ["run"; "50-lan-bind.conf"] "network" (etc "20-lan.conf")
    (etc "network") (etc "10-wan.conf") (etc "hosts") "eth0" "eth1" ["sys"].
Definition ntp_network (server : string) : value := VDict [("ntp", VDict [("servers", VList [VStr server])])].


(** Provisioning accepts an NTP server written with a final dot, and the gateway script then refuses
    the file it wrote; the same for a hostname pattern. *)
Example final_dot_rejected :
  (∃ s, load_network_settings repo_lan_defaults (ntp_network "pool.ntp.org.") = Ok (s, ["pool.ntp.org."]) ∧
     is_ok (check_payload sample_files [] (lan_settings_value s ["pool.ntp.org."])) = false) ∧
  (∃ s ntp, load_network_settings repo_lan_defaults
              (VDict [("dnsmasq", VDict [("hostname_pattern", VStr "gw-{mac}.lan.")])]) = Ok (s, ntp) ∧
     is_ok (check_payload sample_files [] (lan_settings_value s ntp)) = false).
Proof. split; repeat (eexists; try (split; [vm_compute; reflexivity|])); vm_compute; reflexivity. Qed.

(** ** Validation before mutation *)

Lemma read_only_load_json p : read_only (load_json_object p).
Proof. unfold load_json_object, read_content. read_only. Qed.
Lemma read_only_validate_all F dn : read_only (validate_all F dn).
Proof.
  unfold validate_all, load_settings, load_host_network_settings.
  repeat first [apply read_only_exists | apply read_only_load_json | progress read_only].
Qed.

Definition json_object_at (p : path) (s : fs) : option (dict value) :=
  match stat_at s p with
  | Ok n => match n_kind n with KReg (CJson (VDict d) _) => Some d | _ => None end
  | Err _ => None
  end.

Lemma run_load_json p e w d w' : load_json_object p e w = (Ok d, w') → json_object_at p (w_fs w) = Some d.
Proof.
  unfold load_json_object, json_object_at. intros (v & w1 & [H|(x & w2 & _ & _ & H)]%run_catch & Hd)%run_bind; [|discriminate].
  apply run_bind in H as (c & w2 & Hr & [Hv _]%run_lift). unfold read_content, rd in Hr.
  destruct (e_rfault e _); [discriminate|]. injection Hr as Hr _.
  apply bind_Ok in Hr as (n & Hn & Hc). rewrite Hn. destruct (n_kind n) as [c'| | |]; try done. injection Hc as ->.
  destruct c; try discriminate. injection Hv as ->. destruct v; try discriminate. by injection Hd as -> _.
Qed.

(** The script checks everything before it changes anything: if a run of [main] changed the file
    system at all, however it ended, then lan-settings.json held a JSON object that passed every
    check of [load_settings], host-network.json was absent or held one that passed
    [check_host_network], and the networkd files of every configured interface could be rendered
    from the two; a file that fails a check leaves every file as it was. *)
Theorem gateway_checks_first (F : gateway_files) (json_text : value → Z → string) (defaults_ntp : list string)
    (e : env) (w w' : world) (r : result ()) :
  main F json_text defaults_ntp e w = (r, w') → w_hist w' ≠ w_hist w →
  ∃ raw payload host planned,
    json_object_at (CONFIG_FILE F) (w_fs w) = Some raw ∧ check_payload F defaults_ntp raw = Ok payload ∧
    (host = HostNetwork [] [] [] None ∨
     ∃ rawh, json_object_at (HOST_NETWORK_FILE F) (w_fs w) = Some rawh ∧ check_host_network F rawh = Ok host) ∧
    plan_host_network_settings F host (Some (str_of (vget "gateway_cidr" payload))) = Ok planned.
Proof.
  unfold main. intros H Hch. pose proof (read_only_exists (CONFIG_FILE F) e w) as [Hf0 Hh0].
  unfold mbind, M_bind in H. destruct (exists_ (CONFIG_FILE F) e w) as [[b|x] w1] eqn:E1; simpl in *; [|by injection H as _ <-].
  destruct b; simpl in H; [|by injection H as _ <-].
  pose proof (read_only_validate_all F defaults_ntp e w1) as [_ Hh1].
  destruct (validate_all F defaults_ntp e w1) as [[[payload planned']|x] w2] eqn:E2; simpl in *; [|injection H as _ <-; congruence].
  clear H Hch. rewrite <-Hf0. unfold validate_all in E2. apply run_bind in E2 as (p & w3 & Hp & E2).
  apply run_bind in E2 as (host & w4 & Hh & E2). apply run_bind in E2 as (pl & w5 & [Hpl _]%run_lift & [[= <- _] _]%run_ret).
  unfold load_settings in Hp. apply run_bind in Hp as (raw & w6 & Hraw & [Hc ->]%run_lift).
  pose proof (read_only_load_json (CONFIG_FILE F) e w1) as [Hf3 _]. rewrite Hraw in Hf3. simpl in Hf3.
  exists raw, p, host, pl. split_and!; [by eapply run_load_json|done| |done]. rewrite <-Hf3.
  unfold load_host_network_settings in Hh. apply run_bind in Hh as (b & w7 & Hb & Hh).
  pose proof (read_only_exists (HOST_NETWORK_FILE F) e w6) as [Hf7 _]. rewrite Hb in Hf7. simpl in Hf7.
  destruct b; simpl in Hh; [|apply run_ret in Hh as [<- _]; by left]. right.
  apply run_bind in Hh as (rawh & w8 & Hr & [Hch _]%run_lift). exists rawh. rewrite <-Hf7. split; [by eapply run_load_json|done].
Qed.

(** A boot on which the settings changed. *)
Definition sample_lan : lan_settings :=
  LanSettings "172.20.30.1/24" "172.20.30.1" "172.20.30.0/24" "255.255.255.0" "172.20.30.10" "172.20.30.254" "local" "" ["atomixos"].
Definition sample_gateway_fs : fs :=
  list_to_map
    [ ([], plain_dir); (["etc"], plain_dir); (["etc"; "network"], plain_dir); (["run"], plain_dir);
      (["data"], plain_dir); (["data"; "config"], plain_dir);
      (CONFIG_FILE sample_files, plain_file (CJson (VDict (lan_settings_value sample_lan ["pool.ntp.org"])) 400)) ].
Definition gateway_run : result () * world :=
  run_op (main sample_files (λ _ _, "") []) sample_env sample_gateway_fs.

Lemma gateway_checks_first_witness :
  is_ok gateway_run.1 = true ∧ w_fs gateway_run.2 !! ["etc"; "chrony-lan.conf"] ≠ None ∧
  ∃ raw payload host planned,
    json_object_at (CONFIG_FILE sample_files) sample_gateway_fs = Some raw ∧ check_payload sample_files [] raw = Ok payload ∧
    (host = HostNetwork [] [] [] None ∨
     ∃ rawh, json_object_at (HOST_NETWORK_FILE sample_files) sample_gateway_fs = Some rawh ∧
             check_host_network sample_files rawh = Ok host) ∧
    plan_host_network_settings sample_files host (Some (str_of (vget "gateway_cidr" payload))) = Ok planned.
Proof.
  assert (0 <? length (w_hist gateway_run.2) = true)%nat as Hc by (vm_compute; reflexivity).
  split; [vm_compute; reflexivity|]. split; [vm_compute; discriminate|].
  assert (w_hist gateway_run.2 ≠ w_hist (World sample_gateway_fs [] 0)) as Hne
    by (intros E; rewrite E in Hc; discriminate Hc).
  clear Hc. destruct gateway_run as [r w'] eqn:E.
  exact (gateway_checks_first sample_files (λ _ _, "") [] sample_env (World sample_gateway_fs [] 0) w' r E Hne).
Defined.
