(* ===== verification/Firewall.v ===== *)
(** * [provisioned-firewall-inbound.py]: inbound firewall rules

    One definition per function of src/scripts/provisioned-firewall-inbound.py:
    it reads the rules of the input chain, and replaces the ones it made before by
    the ones firewall-inbound.json asks for, in one nft transaction.  The nft
    program is part of the environment; its rules are the text it prints and
    reads. *)

From Stdlib Require Import Ascii.
From S2P Require Import Prelude PyStr PyVal ConfigCheck FS Staging StagedJob Auth LanGateway.

Local Open Scope Z_scope.

Record firewall_env : Type := FirewallEnv {
  FIREWALL_FILE : path;      (* CONFIG_FILE *)
  RULE_COMMENT : string;
  FW_WAN_INTERFACE : string;
  FW_LAN_INTERFACE : string;
  NFT : string;
}.

Definition LAN_DEFAULT_OPEN_COMMENT : string := "ATOMIXOS_LAN_DEFAULT_OPEN".
Definition LAN_REQUIRED_TCP : list Z := [22; 53; 8080].
Definition LAN_REQUIRED_UDP : list Z := [53; 67; 68; 123].

Definition port_in_range (v : value) : option Z :=
  match v with VInt n => if (1 <=? n) && (n <=? 65535) then Some n else None | _ => None end.
Definition validate_ports (v : value) (path : string) : result (list Z) :=
  match v with
  | VNone => Ok []
  | VList l =>
      imapR 0 (λ idx item, of_option (port_in_range item)
        (value_error ("expected port integer in range 1..65535 at " +:+ at_index path idx))) l
  | _ => Err (value_error ("expected array at " +:+ path))
  end.

(** [INTERFACE_PATTERN] and [RULE_COMMENT_PATTERN] *)
Definition INTERFACE_PATTERN (name : string) : bool :=
  nonempty name && all_chars (λ c, is_alnum_ascii c || Ascii.eqb c "_" || Ascii.eqb c "." || Ascii.eqb c ":" || Ascii.eqb c "-") name.
Definition RULE_COMMENT_PATTERN (comment : string) : bool := nonempty comment && all_chars (between 32 126) comment.

Definition validate_interface_name (name : string) : result string :=
  if INTERFACE_PATTERN name then Ok name else Err (value_error ("invalid interface name: " +:+ py_repr name)).
Definition validate_rule_comment (comment : string) : result string :=
  _ ← raise_if (bool_decide (comment = "")) (value_error "invalid rule comment: empty");
  _ ← raise_if ((128 <? slen comment)%nat || has_char dquote_char comment || negb (RULE_COMMENT_PATTERN comment))
        (value_error ("invalid rule comment: " +:+ py_repr comment));
  Ok comment.

(** ** The comment of a listed rule

    [NFT_COMMENT_PATTERN] is a word boundary, [comment], space, and a quoted body
    of escaped and plain characters. *)

Fixpoint quoted_body (l : list ascii) : option (list ascii) :=
  match l with
  | [] => None
  | c :: l' =>
      if Ascii.eqb c dquote_char then Some []
      else if Ascii.eqb c backslash then
        match l' with
        | d :: l'' => if (ord d =? 10)%N then None else body ← quoted_body l''; Some (c :: d :: body)
        | [] => None
        end
      else body ← quoted_body l'; Some (c :: body)
  end.

(** What follows [comment] at a match. *)
Definition after_keyword (l : list ascii) : option (list ascii) :=
  match l with
  | c :: l' => if isspace c then
                 match drop_while isspace l' with
                 | d :: l'' => if Ascii.eqb d dquote_char then quoted_body l'' else None
                 | [] => None
                 end
               else None
  | [] => None
  end.
Definition is_word_char (c : ascii) : bool := isalnum c || Ascii.eqb c "_".
Definition keyword : list ascii := chars "comment".
(** The first match; [boundary] tells whether a word may start here. *)
Fixpoint search_comment (boundary : bool) (l : list ascii) : option (list ascii) :=
  let here := if boundary && bool_decide (take 7 l = keyword) then after_keyword (drop 7 l) else None in
  match here with
  | Some body => Some body
  | None => match l with [] => None | c :: l' => search_comment (negb (is_word_char c)) l' end
  end.

(** [json.loads] of the body as a string, as its code points.  The two halves of a
    surrogate pair stay apart; no comment the script writes has either. *)
Fixpoint json_unescape (l : list ascii) : option (list N) :=
  match l with
  | [] => Some []
  | c :: l' =>
      if Ascii.eqb c backslash then
        match l' with
        | d :: l'' =>
            let simple n := rest ← json_unescape l''; Some (n :: rest) in
            if Ascii.eqb d dquote_char || Ascii.eqb d backslash || Ascii.eqb d "/" then simple (ord d)
            else if Ascii.eqb d "b" then simple 8%N else if Ascii.eqb d "f" then simple 12%N
            else if Ascii.eqb d "n" then simple 10%N else if Ascii.eqb d "r" then simple 13%N
            else if Ascii.eqb d "t" then simple 9%N
            else if Ascii.eqb d "u" then
              match l'' with
              | h1 :: h2 :: h3 :: h4 :: rest =>
                  if forallb is_hex [h1; h2; h3; h4]
                  then r ← json_unescape rest; Some (Z.to_N (hex_value (unchars [h1; h2; h3; h4])) :: r)
                  else None
              | _ => None
              end
            else None
        | [] => None
        end
      else if (ord c <? 32)%N then None
      else rest ← json_unescape l'; Some (ord c :: rest)
  end.

Definition nft_rule_comment (line : string) : option (list N) :=
  body ← search_comment true (chars line); json_unescape body.
Definition has_comment (line comment : string) : bool :=
  bool_decide (nft_rule_comment line = Some (map ord (chars comment))).

(** [re.search(r"handle (\d+)$", line)] *)
Definition rule_handle (line : string) : option string :=
  let digits := unchars (rev (take (length (chars line) - length (drop_while is_digit_ascii (rev (chars line)))) (rev (chars line)))) in
  if nonempty digits && endswith (rstrip_by is_digit_ascii line) "handle " then Some digits else None.

Definition delete_command (line : string) (comments : list string) : list string :=
  if existsb (has_comment line) comments then
    match rule_handle line with
    | Some handle => ["delete rule inet filter input handle " +:+ handle]
    | None => []
    end
  else [].

(** ** Rules *)

Definition port_rule (interface proto : string) (ports : list Z) (rule_comment : string) : string :=
  "add rule inet filter input iifname " +:+ String dquote_char interface +:+ String dquote_char (" " +:+ proto
  +:+ " dport { " +:+ join ", " (map str_int ports) +:+ " } accept comment " +:+ String dquote_char rule_comment
  +:+ String dquote_char "").
Definition open_rule (interface comment : string) : string :=
  "add rule inet filter input iifname " +:+ String dquote_char interface +:+ String dquote_char (" accept comment "
  +:+ String dquote_char comment +:+ String dquote_char "").

(** [sorted(set(ports) | required)] *)
Definition with_required (ports required : list Z) : list Z := merge_sort Z.le (remove_dups (ports ++ required)).
Definition required_ports (proto : string) : list Z :=
  if bool_decide (proto = "tcp") then LAN_REQUIRED_TCP else LAN_REQUIRED_UDP.

Definition restrictive (lan_payload : value) : result bool :=
  match lan_payload with
  | VDict lan =>
      tcp ← validate_ports (vget "tcp" lan) "firewall-inbound.lan.tcp";
      match tcp with
      | _ :: _ => Ok true
      | [] => udp ← validate_ports (vget "udp" lan) "firewall-inbound.lan.udp";
              Ok (negb (bool_decide (udp = [])))
      end
  | _ => Ok false
  end.

Section script.
Context (F : firewall_env).

Definition proto_commands (scope_name interface rule_comment : string) (restrictive_lan : bool) (scope : dict value)
    (proto : string) : result (list string) :=
  ports ← validate_ports (vget proto scope) ("firewall-inbound." +:+ scope_name +:+ "." +:+ proto);
  let ports := if bool_decide (scope_name = "lan") && restrictive_lan
               then with_required ports (required_ports proto) else ports in
  Ok (match ports with [] => [] | _ => [port_rule interface proto ports rule_comment] end).

Definition scope_commands (payload : dict value) (scope_name interface rule_comment : string) (restrictive_lan : bool)
    : result (list string) :=
  match vget scope_name payload with
  | VNone => Ok []
  | VDict scope =>
      tcp ← proto_commands scope_name interface rule_comment restrictive_lan scope "tcp";
      udp ← proto_commands scope_name interface rule_comment restrictive_lan scope "udp";
      Ok (tcp ++ udp)
  | _ => Err (value_error (show_path (FIREWALL_FILE F) +:+ " " +:+ py_repr scope_name +:+ " entry must contain a JSON object"))
  end.

Definition add_commands (payload : dict value) (rule_comment wan_interface lan_interface open_comment : string)
    : result (list string) :=
  restrictive_lan ← restrictive (vget "lan" payload);
  wan ← scope_commands payload "wan" wan_interface rule_comment restrictive_lan;
  lan ← scope_commands payload "lan" lan_interface rule_comment restrictive_lan;
  Ok (wan ++ lan ++ (if restrictive_lan : bool then [] else [open_rule lan_interface open_comment])).

(** ** [main] *)

Definition load_payload : M (dict value) := load_json_object (FIREWALL_FILE F).

Definition run_nft (args : list string) (input_text : string) : M proc_result :=
  r ← catch (run_command_input (NFT F :: args) input_text) is_not_found
        (λ x, raise (value_error ("unable to execute nft command " +:+ py_repr (NFT F) +:+ ": " +:+ exn_text x)));
  if returncode r =? 0 then mret r
  else raise (value_error ("nft command failed: " +:+ strip
         (if nonempty (stderr r) then stderr r else if nonempty (stdout r) then stdout r
          else "exit status " +:+ str_int (returncode r)))).
(** [if commands: run_nft("-f", "-", input_text=...)] *)
Definition submit (commands : list string) : M () :=
  match commands with
  | [] => mret tt
  | _ => _ ← run_nft ["-f"; "-"] (join nl commands); mret tt
  end.

Definition main : M () :=
  rule_comment ← lift (validate_rule_comment (RULE_COMMENT F));
  wan_interface ← lift (validate_interface_name (FW_WAN_INTERFACE F));
  lan_interface ← lift (validate_interface_name (FW_LAN_INTERFACE F));
  open_comment ← lift (validate_rule_comment LAN_DEFAULT_OPEN_COMMENT);
  existing ← run_nft ["-a"; "list"; "chain"; "inet"; "filter"; "input"] "";
  let deletes := concat (map (λ line, delete_command line [rule_comment; open_comment]) (splitlines (stdout existing))) in
  ex ← exists_ (FIREWALL_FILE F);
  if negb ex then submit deletes
  else
    payload ← load_payload;
    adds ← lift (add_commands payload rule_comment wan_interface lan_interface open_comment);
    submit (deletes ++ adds).
End script.
