(* ===== verification/FirewallFacts.v ===== *)
(** * Properties of the inbound firewall script *)

From Stdlib Require Import Ascii.
From S2P Require Import Prelude PyStr PyVal Config ConfigFacts ConfigValue FS FSLogic RunLogic StagedJob Auth LanGateway LanGatewayFacts Firewall.

Local Open Scope Z_scope.

Lemma dget_dict_map {A} (f : A → value) k (d : dict A) : dget k (dict_map f d) = f <$> dget k d.
Proof. unfold dict_map. induction d as [|[j v] d IH]; simpl; [done|]. by case_decide. Qed.

(** The configured ports of a scope, and the rule they give. *)
Definition configured (inbound : dict (dict (list Z))) (scope proto : string) : list Z :=
  default [] (dget proto (default [] (dget scope inbound))).
Definition rule_for (interface proto : string) (ports : list Z) (comment : string) : list string :=
  match ports with [] => [] | _ => [port_rule interface proto ports comment] end.

Lemma validate_ports_value ports path : Forall port_ok ports → validate_ports (ports_value ports) path = Ok ports.
Proof.
  unfold validate_ports, ports_value. generalize 0%nat. induction ports as [|n l IH]; intros i H; simpl; [done|].
  inversion H as [|? ? Hn Hl]; subst. unfold port_ok in Hn. rewrite (proj2 (Z.leb_le 1 n)), (proj2 (Z.leb_le n 65535)) by lia.
  simpl. by rewrite IH.
Qed.

Section inbound.
Context (F : firewall_env) (inbound : dict (dict (list Z))).
Hypothesis Hok : ∀ name scope, dget name inbound = Some scope → ports_ok scope.

Lemma configured_ok scope proto : Forall port_ok (configured inbound scope proto).
Proof.
  unfold configured. destruct (dget scope inbound) as [d|] eqn:E; simpl; [|constructor].
  destruct (dget proto d) as [ports|] eqn:Ep; simpl; [|constructor]. by apply (Hok _ _ E) in Ep as (_ & _ & ?).
Qed.

Lemma validate_configured scope d proto path : dget scope inbound = Some d →
  validate_ports (vget proto (dict_map ports_value d)) path = Ok (configured inbound scope proto).
Proof.
  intros Hd. pose proof (configured_ok scope proto) as Hp. unfold configured in *. rewrite Hd in *. simpl in *.
  unfold vget. rewrite dget_dict_map. destruct (dget proto d) as [ports|]; [|done]. by apply validate_ports_value.
Qed.

Lemma scope_vget scope : vget scope (firewall_value inbound) =
  match dget scope inbound with Some d => VDict (dict_map ports_value d) | None => VNone end.
Proof. unfold vget, firewall_value. rewrite dget_dict_map. by destruct (dget scope inbound). Qed.

Lemma scope_commands_wan interface comment restr :
  scope_commands F (firewall_value inbound) "wan" interface comment restr =
    Ok (rule_for interface "tcp" (configured inbound "wan" "tcp") comment
        ++ rule_for interface "udp" (configured inbound "wan" "udp") comment).
Proof.
  unfold scope_commands. rewrite scope_vget. destruct (dget "wan" inbound) as [d|] eqn:Ed.
  - unfold proto_commands. rewrite !(validate_configured _ d) by done. simpl. done.
  - unfold configured. by rewrite Ed.
Qed.

Lemma with_required_nonempty ports proto : with_required ports (required_ports proto) ≠ [].
Proof.
  unfold with_required. intros E. pose proof (merge_sort_Permutation Z.le (remove_dups (ports ++ required_ports proto))) as H.
  rewrite E in H. apply Permutation_nil_l in H.
  assert (53 ∈ remove_dups (ports ++ required_ports proto)) as Hin; [|rewrite <-H in Hin; by apply not_elem_of_nil in Hin].
  apply elem_of_remove_dups, elem_of_app. right. unfold required_ports. case_bool_decide; vm_compute; set_solver.
Qed.

Lemma scope_commands_lan d interface comment : dget "lan" inbound = Some d →
  scope_commands F (firewall_value inbound) "lan" interface comment true =
    Ok [port_rule interface "tcp" (with_required (configured inbound "lan" "tcp") LAN_REQUIRED_TCP) comment;
        port_rule interface "udp" (with_required (configured inbound "lan" "udp") LAN_REQUIRED_UDP) comment].
Proof.
  intros Hd. unfold scope_commands. rewrite scope_vget, Hd. unfold proto_commands.
  rewrite !(validate_configured _ d) by done. cbn -[with_required LAN_REQUIRED_TCP LAN_REQUIRED_UDP].
  pose proof (with_required_nonempty (configured inbound "lan" "tcp") "tcp") as H1.
  pose proof (with_required_nonempty (configured inbound "lan" "udp") "udp") as H2.
  change (required_ports "tcp") with LAN_REQUIRED_TCP in *. change (required_ports "udp") with LAN_REQUIRED_UDP in *.
  by destruct (with_required _ LAN_REQUIRED_TCP), (with_required _ LAN_REQUIRED_UDP).
Qed.
End inbound.

Lemma restrictive_inbound (inbound : dict (dict (list Z))) :
  (∀ name scope, dget name inbound = Some scope → (name = "wan" ∨ name = "lan") ∧ scope ≠ [] ∧ ports_ok scope) →
  restrictive (vget "lan" (firewall_value inbound)) = Ok (dmem "lan" inbound).
Proof.
  intros Hc. assert (∀ name scope, dget name inbound = Some scope → ports_ok scope) as Hok by naive_solver.
  rewrite scope_vget. unfold dmem. destruct (dget "lan" inbound) as [d|] eqn:Ed; [|done].
  unfold restrictive. rewrite !(validate_configured _ Hok "lan" d) by done. simpl.
  destruct (configured inbound "lan" "tcp") as [|n l] eqn:Et; [|done]. simpl. f_equal. apply negb_true_iff, bool_decide_eq_false.
  intros Eu. destruct (Hc _ _ Ed) as (_ & Hne & Hp). unfold configured in Et, Eu. rewrite Ed in Et, Eu. simpl in *.
  destruct d as [|[proto ports] d']; [done|]. destruct (Hp proto ports) as (Hproto & Hports & _); [simpl; by rewrite decide_True|].
  destruct Hproto as [->| ->]; [simpl in Et; congruence|simpl in Eu; congruence].
Qed.

Lemma elem_of_with_required ports required n : n ∈ with_required ports required ↔ n ∈ ports ∨ n ∈ required.
Proof. unfold with_required. by rewrite merge_sort_Permutation, elem_of_remove_dups, elem_of_app. Qed.

(** C31 — Inbound rules for every configuration provisioning accepts: the script takes the file as it
    was written and asks nft for exactly these rules: the configured WAN ports (never the
    bootstrap port 8080 over TCP) and, when any LAN port is configured, two LAN rules whose ports
    are the configured ones with SSH, DNS, the API, DHCP and NTP always among them; without LAN
    ports the LAN stays open by one rule of its own.  So no accepted configuration locks the
    operator out of the LAN. *)
Theorem firewall_rules_sound (F : firewall_env) (network : value) (inbound : dict (dict (list Z)))
    (comment wan lan open_comment : string) :
  load_firewall_inbound network = Ok inbound →
  add_commands F (firewall_value inbound) comment wan lan open_comment =
    Ok ((rule_for wan "tcp" (configured inbound "wan" "tcp") comment
         ++ rule_for wan "udp" (configured inbound "wan" "udp") comment)
        ++ if dmem "lan" inbound
           then [port_rule lan "tcp" (with_required (configured inbound "lan" "tcp") LAN_REQUIRED_TCP) comment;
                 port_rule lan "udp" (with_required (configured inbound "lan" "udp") LAN_REQUIRED_UDP) comment]
           else [open_rule lan open_comment]) ∧
  8080 ∉ configured inbound "wan" "tcp" ∧
  (∀ scope proto n, n ∈ configured inbound scope proto → 1 ≤ n ≤ 65535) ∧
  (∀ ports required n, n ∈ with_required ports required ↔ n ∈ ports ∨ n ∈ required).
Proof.
  intros H%load_firewall_inbound_contract. destruct H as [Hc Hwan].
  assert (∀ name scope, dget name inbound = Some scope → ports_ok scope) as Hok by naive_solver.
  split_and!; [| | |apply elem_of_with_required].
  - unfold add_commands. rewrite restrictive_inbound by done. cbn [mbind result_bind].
    rewrite (scope_commands_wan F inbound Hok). cbn [mbind result_bind]. unfold dmem.
    destruct (dget "lan" inbound) as [d|] eqn:Ed.
    + rewrite (scope_commands_lan F inbound Hok d) by done. cbn [mbind result_bind]. by rewrite app_nil_r.
    + unfold scope_commands. rewrite scope_vget, Ed. done.
  - unfold configured. destruct (dget "wan" inbound) as [d|] eqn:Ed; simpl; [|apply not_elem_of_nil].
    destruct (dget "tcp" d) as [tcp|] eqn:Et; simpl; [by eapply Hwan|apply not_elem_of_nil].
  - intros scope proto n Hn. pose proof (configured_ok inbound Hok scope proto) as Hp.
    rewrite Forall_forall in Hp. by apply Hp.
Qed.

Definition sample_inbound : value :=
  VDict [("firewall", VDict [("inbound", VDict
    [("wan", VDict [("tcp", VList [VInt 443])]); ("lan", VDict [("udp", VList [VInt 5353; VInt 53])])])])].
Definition sample_firewall : firewall_env :=
  FirewallEnv ["data"; "config"; "firewall-inbound.json"] "ATOMIXOS_PROVISIONED_INBOUND" "wan" "lan" "nft".

Lemma firewall_rules_sound_witness :
  ∃ inbound, load_firewall_inbound sample_inbound = Ok inbound ∧
    with_required (configured inbound "lan" "udp") LAN_REQUIRED_UDP = [53; 67; 68; 123; 5353] ∧
    8080 ∉ configured inbound "wan" "tcp".
Proof.
  eexists. split; [vm_compute; reflexivity|]. split; [vm_compute; reflexivity|].
  apply (firewall_rules_sound sample_firewall sample_inbound _ "c" "wan" "lan" "o"). vm_compute. reflexivity.
Defined.

(** ** The transaction *)

(** A command that the environment ran to exit status 0. *)
Definition ran (e : env) (argv : list string) (input : string) (r : proc_result) : Prop :=
  ∃ n, e_run e n argv input = Ok r ∧ returncode r = 0.

Lemma run_run_nft F args input e w r w' : run_nft F args input e w = (Ok r, w') → ran e (NFT F :: args) input r ∧ w_fs w' = w_fs w.
Proof.
  unfold run_nft. intros (r' & w1 & H & Hr)%run_bind.
  apply run_catch in H as [H|(x & w2 & _ & _ & H)]; [|discriminate].
  unfold run_command_input in H. apply run_bind in H as (q & w3 & [= <- <-] & [Hq ->]%run_lift).
  destruct (returncode r' =? 0) eqn:E; [|discriminate]. apply run_ret in Hr as [-> ->]. split; [|done].
  exists (w_n w). split; [done|]. by apply Z.eqb_eq.
Qed.

Lemma run_submit F commands e w w' : submit F commands e w = (Ok tt, w') →
  commands = [] ∨ ∃ r, ran e [NFT F; "-f"; "-"] (join nl commands) r.
Proof.
  destruct commands as [|c l]; [by left|]. simpl. intros (r & w1 & H & _)%run_bind. right. exists r.
  by apply run_run_nft in H as [? _].
Qed.

(** The rules of a listing that the script made, by handle. *)
Definition own_rule (F : firewall_env) (listing handle : string) : Prop :=
  ∃ line, line ∈ splitlines listing ∧ rule_handle line = Some handle ∧
    (has_comment line (RULE_COMMENT F) = true ∨ has_comment line LAN_DEFAULT_OPEN_COMMENT = true).

Lemma elem_of_deletes F listing handle :
  "delete rule inet filter input handle " +:+ handle ∈
    concat (map (λ line, delete_command line [RULE_COMMENT F; LAN_DEFAULT_OPEN_COMMENT]) (splitlines listing)) ↔
  own_rule F listing handle.
Proof.
  unfold own_rule. rewrite list_elem_of_In, in_concat. setoid_rewrite in_map_iff. split.
  - intros (x & (line & <- & Hl) & Hx). exists line. rewrite list_elem_of_In. unfold delete_command in Hx. simpl in Hx.
    destruct (has_comment line (RULE_COMMENT F)), (has_comment line LAN_DEFAULT_OPEN_COMMENT);
      simpl in Hx; destruct (rule_handle line) as [h|]; simpl in Hx; try done;
      destruct Hx as [E|[]]; apply (f_equal (str_drop 37)) in E; apply (f_equal chars) in E;
      unfold str_drop in E; rewrite !chars_unchars, !chars_app in E; apply chars_inj in E; subst; auto.
  - intros (line & Hl & Hh & Hc). exists (delete_command line [RULE_COMMENT F; LAN_DEFAULT_OPEN_COMMENT]).
    split; [exists line; split; [done|by apply list_elem_of_In]|]. unfold delete_command. simpl. rewrite Hh.
    destruct Hc as [->| ->]; simpl; [by left|]. rewrite orb_true_r. by left.
Qed.

Lemma validated_comment c c' : validate_rule_comment c = Ok c' → c' = c.
Proof. unfold validate_rule_comment. intros H. inv_ok. done. Qed.
Lemma validated_interface n n' : validate_interface_name n = Ok n' → n' = n.
Proof. unfold validate_interface_name. destruct (INTERFACE_PATTERN n); [|done]. by intros [= <-]. Qed.


(** A chain with one rule of the script's and one of somebody else's. *)
Definition sample_listing : string :=
  "table inet filter {" +:+ nl +:+ "  iifname " +:+ json_dumps_str "lan" +:+ " accept comment "
  +:+ json_dumps_str "ATOMIXOS_LAN_DEFAULT_OPEN" +:+ " # handle 12" +:+ nl
  +:+ "  tcp dport 22 accept comment " +:+ json_dumps_str "admin" +:+ " # handle 13" +:+ nl.
Definition firewall_world : env :=
  Env (λ _, None) (λ _, None) (λ n, Z.of_nat n) (λ _ l, l) (λ n, pretty n)
      (λ _ argv _, Ok (Proc 0 (if bool_decide ("list" ∈ argv) then sample_listing else "") "")) 0 0 18.
Definition firewall_fs : fs :=
  list_to_map [ (["data"], plain_dir); (["data"; "config"], plain_dir);
    (FIREWALL_FILE sample_firewall, plain_file (CJson (VDict [("wan", VDict [("tcp", VList [VInt 443])])]) 40)) ].

