(* ===== verification/ApplyUsers.v ===== *)
(** * [apply-users.py]: local accounts for the configured users

    One definition per function of src/scripts/apply-users.py, which every boot and
    every reapply runs on users.json: it creates and updates the accounts of the
    configured users through the system's user commands, locks the accounts of
    users that are no longer configured, and records the users it manages.  The
    user and group databases answer differently as the commands run: a lookup is
    given by the number of the call. *)

From Stdlib Require Import Ascii.
From S2P Require Import Prelude PyStr PyVal ConfigCheck FS Staging StagedJob Activation LanGateway.

Local Open Scope Z_scope.

Record users_env : Type := UsersEnv {
  USERS_JSON : path;
  MANAGED_STATE : path;
  SSH_KEYS_DIR : path;
  ADMIN_SHELL : string;
  SYSTEM_SHELL : string;
  worker_active : bool;   (* os.environ.get(WORKER_ACTIVE) *)
}.

Definition SHELLS (shell : value) : option string :=
  if eq_str shell "bash" then Some "/run/current-system/sw/bin/bash"
  else if eq_str shell "sh" then Some "/run/current-system/sw/bin/sh"
  else if eq_str shell "zsh" then Some "/run/current-system/sw/bin/zsh"
  else None.
Definition PROTECTED_USERS : list string := ["root"; "appsvc"].
Definition admin_group_names : list string := ["wheel"; "podman"].

(** [USERNAME_RE], the pattern of config.py. *)
Definition USERNAME_RE (name : string) : bool := username_re name.
Definition valid_username (name : string) : bool := USERNAME_RE name && negb (bool_decide (name ∈ PROTECTED_USERS)).

Definition data_config : path := ["data"; "config"].

Section script.
Context (U : users_env).
Context (getpwnam : nat → string → option (Z * Z)) (getgrnam : nat → string → option (list string)).

(** [raise SystemExit(1)], after the log message. *)
Definition exit1 {A} : M A := raise (SystemExit 1).

Definition lookup_user (name : string) : M (option (Z * Z)) := ask (λ _ n, getpwnam n name).
Definition user_exists (name : string) : M bool :=
  u ← lookup_user name; mret (match u with Some _ => true | None => false end).
Definition lookup_group (name : string) : M (option (list string)) := ask (λ _ n, getgrnam n name).
Definition group_exists (name : string) : M bool :=
  g ← lookup_group name; mret (match g with Some _ => true | None => false end).

Definition run (cmd : list string) : M () :=
  result ← FS.run_command cmd;
  if returncode result =? 0 then mret tt else exit1.

Definition user_shell (user : dict value) (is_admin : bool) : M string :=
  match vget "shell" user with
  | VNone => mret (if is_admin then ADMIN_SHELL U else SYSTEM_SHELL U)
  | VList _ => raise (TypeError "unhashable type: 'list'")
  | VDict _ => raise (TypeError "unhashable type: 'dict'")
  | shell => match SHELLS shell with Some s => mret s | None => exit1 end
  end.

Definition create_command (name shell : string) (is_admin : bool) : list string :=
  ["useradd"; (if is_admin then "--create-home" else "--system"); "--shell"; shell; name].

Definition ensure_account (name : string) (user : dict value) (previous : list string) (is_admin : bool) : M () :=
  ex ← user_exists name;
  if ex : bool then
    if negb (bool_decide (name ∈ previous)) then exit1
    else run ["usermod"; "--expiredate="; "--lock"; name]
  else
    shell ← user_shell user is_admin;
    _ ← run (create_command name shell is_admin);
    run ["usermod"; "--lock"; name].

Definition ensure_groups (name : string) (is_admin : bool) : M () :=
  if is_admin then
    admin_groups ← filterM group_exists admin_group_names;
    match admin_groups with
    | [] => mret tt
    | _ => run ["usermod"; "--append"; "--groups"; join "," admin_groups; name]
    end
  else
    iterM (λ group_name,
      group ← lookup_group group_name;
      match group with
      | Some members => if bool_decide (name ∈ members) then run ["gpasswd"; "--delete"; name; group_name] else mret tt
      | None => mret tt
      end) admin_group_names.

(** [user] is the decoded entry; [.get] of anything but an object raises. *)
Definition ensure_user (name : string) (user : value) (previous : list string) : M () :=
  if bool_decide (name ∈ PROTECTED_USERS) then mret tt
  else
    match user with
    | VDict d =>
        let is_admin := truthy (vget_or "isAdmin" (VBool false) d) in
        _ ← ensure_account name d previous is_admin;
        ensure_groups name is_admin
    | _ => raise (AttributeError "object has no attribute 'get'")
    end.

Definition in_data_config (p : path) : bool := bool_decide (below data_config p).

Definition ensure_authorized_keys_owner (name : string) : M () :=
  let key_path := SSH_KEYS_DIR U // name in
  st ← catch (n ← lstat key_path; mret (Some n)) is_not_found (λ _, mret None);
  match st with
  | None => mret tt
  | Some _ =>
      ex ← user_exists name;
      if negb ex then mret tt
      else
        link ← catch (n ← lstat key_path; mret (is_lnk n)) is_missing_error (λ _, mret false);
        if link : bool then exit1
        else
          resolved_key ← resolve_path key_path;
          if in_data_config resolved_key && negb (worker_active U) then exit1
          else
            user ← lookup_user name;
            match user with
            | None => raise (KeyError ("getpwnam(): name not found: " +:+ name))
            | Some (uid, gid) =>
                _ ← wr (update_at (set_owner uid gid) key_path);
                chmod 384 (* 0o600 *) key_path
            end
  end.

Definition lock_user (name : string) : M () :=
  if bool_decide (name ∈ PROTECTED_USERS) then mret tt
  else
    ex ← user_exists name;
    if negb ex then mret tt
    else run ["usermod"; "--lock"; "--expiredate=1"; "--shell=/sbin/nologin"; name].

(** ** The record of managed users *)

Definition load_previous_managed : M (list string) :=
  ex ← exists_ (MANAGED_STATE U);
  if negb ex then mret []
  else catch (c ← read_content (MANAGED_STATE U); v ← lift (json_loads c); mret (remove_dups (strings_in v)))
         is_json_or_os (λ _, mret []).

Definition save_managed_state (names : list string) : M () :=
  suffix ← ask e_tmp;
  let tmp_path := parent (MANAGED_STATE U) // (".managed-users-" +:+ suffix) in
  n ← new_node (KReg (CText "")) 384 (* 0o600 *);
  _ ← wr (create_at n tmp_path);
  catch
    (t ← time_time;
     _ ← wr (update_at (set_kind (KReg (managed_content names)) t) tmp_path);
     _ ← wr (update_at (set_mode 384) tmp_path);
     _ ← fsync tmp_path;
     rename tmp_path (MANAGED_STATE U))
    (λ _, true)
    (λ x, _ ← unlink_missing_ok tmp_path; raise x).

(** ** [main] *)

Definition require_worker_for_data_config_mutation : M () :=
  users ← resolve_path (USERS_JSON U);
  managed ← resolve_path (MANAGED_STATE U);
  keys ← resolve_path (SSH_KEYS_DIR U);
  if (in_data_config users || in_data_config managed || in_data_config keys) && negb (worker_active U)
  then exit1 else mret tt.

(** One entry of users.json; the users recorded so far. *)
Definition apply_user (previous current : list string) (entry : string * value) : M (list string) :=
  let '(username, user) := entry in
  if negb (valid_username username) && negb (bool_decide (username ∈ PROTECTED_USERS)) then mret current
  else if negb (is_dict user) then raise (AttributeError "object has no attribute 'get'")
  else
    _ ← ensure_user username user previous;
    _ ← ensure_authorized_keys_owner username;
    mret (if bool_decide (username ∈ PROTECTED_USERS) then current else union_names current [username]).

Definition load_users_json : M (dict value) :=
  v ← catch (c ← read_content (USERS_JSON U); lift (json_loads c)) is_json_or_os (λ _, exit1);
  match v with VDict d => mret d | _ => exit1 end.

(** [previous - current] *)
Definition removed_users (previous current : list string) : list string :=
  sorted_strs (filter (λ name, name ∉ current) previous).

Definition main : M () :=
  _ ← require_worker_for_data_config_mutation;
  ex ← exists_ (USERS_JSON U);
  if negb ex then mret tt
  else
    users ← load_users_json;
    previous ← load_previous_managed;
    current ← forM (apply_user previous) users [];
    _ ← iterM lock_user (removed_users previous current);
    save_managed_state current.
End script.
