(* ===== verification/ApplyUsersFacts.v ===== *)
(** * Properties of the account script *)

From S2P Require Import Prelude PyStr PyVal ConfigCheck FS FSLogic RunLogic Staging StagedJob Activation ApplyUsers.

Local Open Scope Z_scope.

(** ** Which commands a program may run

    Two environments are alike up to [D] if they answer everything in the same way
    but the commands outside [D].  A program that behaves the same in all such
    environments runs no command outside [D], in any of its runs: successful,
    failing or cut short. *)

Definition alike (D : list string → Prop) (e e' : env) : Prop :=
  (∀ n, e_rfault e n = e_rfault e' n) ∧ (∀ n, e_wfault e n = e_wfault e' n) ∧ (∀ n, e_time e n = e_time e' n) ∧
  (∀ n l, e_order e n l = e_order e' n l) ∧ (∀ n, e_tmp e n = e_tmp e' n) ∧
  (∀ n argv input, D argv → e_run e n argv input = e_run e' n argv input) ∧ e_uid e = e_uid e' ∧ e_gid e = e_gid e' ∧ e_umask e = e_umask e'.
Definition confined {A} (D : list string → Prop) (m : M A) (w : world) : Prop :=
  ∀ e e', alike D e e' → m e w = m e' w.

Section confined.
Context {A B : Type} (D : list string → Prop).

Lemma confined_ret (a : A) w : confined D (mret a) w.
Proof. done. Qed.
Lemma confined_raise x w : confined D (raise (A:=A) x) w.
Proof. done. Qed.
Lemma confined_lift (r : result A) w : confined D (lift r) w.
Proof. done. Qed.
Lemma confined_rd (f : fs → result A) w : confined D (rd f) w.
Proof. intros e e' (H & _). unfold rd. by rewrite H. Qed.
Lemma confined_wr f w : confined D (wr f) w.
Proof. intros e e' (_ & H & _). unfold wr. by rewrite H. Qed.
Lemma confined_bind (m : M A) (f : A → M B) w :
  confined D m w → (∀ e a w1, m e w = (Ok a, w1) → confined D (f a) w1) → confined D (m ≫= f) w.
Proof.
  intros Hm Hf e e' He. unfold mbind, M_bind. rewrite <-(Hm _ _ He).
  destruct (m e w) as [[a|x] w1] eqn:E; [|done]. by apply (Hf _ _ _ E).
Qed.
Lemma confined_catch (m : M A) c (h : exn → M A) w :
  confined D m w → (∀ e x w1, m e w = (Err x, w1) → confined D (h x) w1) → confined D (catch m c h) w.
Proof.
  intros Hm Hh e e' He. unfold catch. rewrite <-(Hm _ _ He).
  destruct (m e w) as [[a|x] w1] eqn:E; [done|]. destruct (c x); [|done]. by apply (Hh _ _ _ E).
Qed.
Lemma confined_run argv w : D argv → confined D (FS.run_command argv) w.
Proof.
  intros Hd e e' (_ & _ & _ & _ & _ & H & _). unfold FS.run_command, run_command_input, ask, lift, mbind, M_bind.
  by rewrite H.
Qed.
End confined.

Lemma alike_weaken (D D' : list string → Prop) e e' : (∀ argv, D argv → D' argv) → alike D' e e' → alike D e e'.
Proof. unfold alike. naive_solver. Qed.
Lemma confined_weaken {A} (D D' : list string → Prop) (m : M A) w :
  (∀ argv, D argv → D' argv) → confined D m w → confined D' m w.
Proof. intros HD Hm e e' He. apply Hm. by eapply alike_weaken. Qed.

(** A program that runs no command at all is confined by anything. *)
Definition silent {A} (m : M A) : Prop := ∀ D w, confined D m w.

Lemma silent_bind {A B} (m : M A) (f : A → M B) : silent m → (∀ a, silent (f a)) → silent (m ≫= f).
Proof. intros Hm Hf D w. apply confined_bind; [apply Hm|]. intros. apply Hf. Qed.
Lemma silent_catch {A} (m : M A) c (h : exn → M A) : silent m → (∀ x, silent (h x)) → silent (catch m c h).
Proof. intros Hm Hh D w. apply confined_catch; [apply Hm|]. intros. apply Hh. Qed.
Lemma silent_forM {A B} (f : B → A → M B) l b : (∀ b x, silent (f b x)) → silent (forM f l b).
Proof. intros Hf. revert b. induction l as [|x l IH]; intros b; simpl; [done|]. by apply silent_bind. Qed.

(** Questions whose answer does not depend on the commands. *)
Lemma silent_time : silent time_time.
Proof. intros D w e e' (_ & _ & H & _). unfold time_time, ask. by rewrite H. Qed.
Lemma silent_tmp : silent (ask e_tmp).
Proof. intros D w e e' (_ & _ & _ & _ & H & _). unfold ask. by rewrite H. Qed.
Lemma silent_node k mode : silent (new_node k mode).
Proof. intros D w e e' (_ & _ & Ht & _ & _ & _ & Hu & Hg & Hm). unfold new_node, ask. by rewrite Ht, Hu, Hg, Hm. Qed.
Lemma silent_const {A} (f : nat → A) : silent (ask (λ _ n, f n)).
Proof. done. Qed.

Create HintDb silent.
#[export] Hint Resolve confined_ret confined_raise confined_lift confined_rd confined_wr : silent.
#[export] Hint Resolve silent_time silent_tmp silent_node silent_const : silent.
Ltac silent := repeat (cbv beta zeta; match goal with
  | |- silent (match ?x with _ => _ end) => destruct x
  | |- silent (_ ≫= _) => apply silent_bind; [|intros]
  | |- silent (catch _ _ _) => apply silent_catch; [|intros]
  | |- silent (forM _ _ _) => apply silent_forM; intros
  | |- silent _ => solve [auto with silent | intros ? ?; auto with silent]
  end).

Lemma silent_exists p : silent (exists_ p).
Proof. unfold exists_, test, stat. silent. Qed.
Lemma silent_unlink_missing_ok p : silent (unlink_missing_ok p).
Proof. unfold unlink_missing_ok, unlink. silent. Qed.
#[export] Hint Resolve silent_exists silent_unlink_missing_ok : silent.

(** ** Accounts *)

(** The account a command is about. *)
Definition account_of (argv : list string) (name : string) : Prop :=
  match argv with
  | "gpasswd" :: rest => rest = ["--delete"; name; List.last rest ""]
  | _ => List.last argv "" = name
  end.

Section accounts.
Context (U : users_env).
Context (getpwnam : nat → string → option (Z * Z)) (getgrnam : nat → string → option (list string)).

(** The commands that name [name]; the ones the script may run after [n] calls. *)
Definition about (name : string) (argv : list string) : Prop := account_of argv name.
Definition allowed (previous : list string) (n : nat) (argv : list string) : Prop :=
  ∃ name, about name argv ∧ name ∉ PROTECTED_USERS ∧
    (name ∈ previous ∨ (valid_username name = true ∧ ∃ k, (n ≤ k)%nat ∧ getpwnam k name = None)).

Lemma confined_run_cmd D cmd w : D cmd → confined D (run cmd) w.
Proof. intros H. unfold run. apply confined_bind; [by apply confined_run|]. intros. by destruct (_ =? _). Qed.

Lemma silent_user_shell user is_admin : silent (user_shell U user is_admin).
Proof. unfold user_shell, exit1. silent. Qed.

Lemma confined_iterM {A} D (f : A → M ()) l w :
  (∀ x w, x ∈ l → confined D (f x) w) → confined D (iterM f l) w.
Proof.
  unfold iterM. revert w. induction l as [|x l IH]; intros w Hf; simpl; [done|].
  apply confined_bind; [apply Hf; constructor|]. intros e [] w1 _. apply IH. intros y w2 Hy. apply Hf. by constructor.
Qed.

Lemma confined_account name user previous is_admin w D :
  (name ∈ previous ∨ getpwnam (w_n w) name = None → ∀ argv, about name argv → D argv) →
  confined D (ensure_account U getpwnam name user previous is_admin) w.
Proof.
  intros HD. unfold ensure_account, user_exists. apply confined_bind.
  { apply confined_bind; [apply silent_const|]. intros. apply confined_ret. }
  intros e b w1 Hb. apply run_bind in Hb as (u & w2 & [= <- <-] & [<- _]%run_ret).
  destruct (getpwnam (w_n w) name) as [p|] eqn:Eu.
  - destruct (bool_decide (name ∈ previous)) eqn:Ep; simpl; [|apply confined_raise].
    bool_prop. apply confined_run_cmd, HD; [by left|done].
  - apply confined_bind; [apply silent_user_shell|]. intros e1 shell w3 _.
    apply confined_bind; [apply confined_run_cmd; by apply HD; [right|]|]. intros. apply confined_run_cmd. by apply HD; [right|].
Qed.

Lemma confined_groups name is_admin w D : (∀ argv, about name argv → D argv) →
  confined D (ensure_groups getgrnam name is_admin) w.
Proof.
  intros HD. unfold ensure_groups. destruct is_admin.
  - apply confined_bind; [unfold filterM; apply silent_forM; intros; unfold group_exists, lookup_group; silent|].
    intros e gs w1 _. destruct gs; [done|]. by apply confined_run_cmd, HD.
  - apply confined_iterM. intros g w1 _. apply confined_bind; [apply silent_const|]. intros e [members|] w2 _; [|done].
    destruct (bool_decide _); [|done]. by apply confined_run_cmd, HD.
Qed.
End accounts.

Section script.
Context (U : users_env).
Context (getpwnam : nat → string → option (Z * Z)) (getgrnam : nat → string → option (list string)).

Lemma silent_keys_owner name : silent (ensure_authorized_keys_owner U getpwnam name).
Proof.
  unfold ensure_authorized_keys_owner, lstat, resolve_path, user_exists, lookup_user, exit1, chmod. silent.
Qed.

Lemma forward_user_exists name : forward (user_exists getpwnam name).
Proof. unfold user_exists, lookup_user. forward. Qed.
Lemma forward_run cmd : forward (run cmd).
Proof. unfold run, FS.run_command, run_command_input, exit1. forward. Qed.
#[local] Hint Resolve forward_user_exists forward_run : forward.
Lemma forward_ensure_user name user previous : forward (ensure_user U getpwnam getgrnam name user previous).
Proof.
  unfold ensure_user, ensure_account, ensure_groups, user_shell, group_exists, lookup_group, exit1, filterM, iterM.
  forward.
Qed.
Lemma forward_keys_owner name : forward (ensure_authorized_keys_owner U getpwnam name).
Proof. unfold ensure_authorized_keys_owner, lstat, resolve_path, lookup_user, exit1, chmod. forward. Qed.
#[local] Hint Resolve forward_ensure_user forward_keys_owner : forward.
Lemma forward_apply_user previous current entry : forward (apply_user U getpwnam getgrnam previous current entry).
Proof. unfold apply_user. forward. Qed.

Lemma confined_apply_user n previous current entry w : (n ≤ w_n w)%nat →
  confined (allowed getpwnam previous n) (apply_user U getpwnam getgrnam previous current entry) w.
Proof.
  intros Hn. destruct entry as [name user]. unfold apply_user.
  destruct (negb (valid_username name) && _) eqn:Ev; [done|]. destruct (negb (is_dict user)); [done|].
  apply confined_bind.
  - unfold ensure_user. case_bool_decide as Hp; [done|]. destruct user as [| | | | | |d|]; try done.
    assert (valid_username name = true) as Hv.
    { by destruct (valid_username name). }
    assert (name ∈ previous ∨ getpwnam (w_n w) name = None →
            ∀ argv, about name argv → allowed getpwnam previous n argv) as HD.
    { intros Hx argv Ha. exists name. split_and!; [done..|]. destruct Hx; [by left|right]. split; [done|]. by exists (w_n w). }
    apply confined_bind; [by apply confined_account|]. intros e [] w1 Hr. apply confined_groups. apply HD.
    unfold ensure_account, user_exists in Hr. apply run_bind in Hr as (b & w2 & Hb & Hr).
    apply run_bind in Hb as (u & w3 & [= <- <-] & [<- ->]%run_ret).
    destruct (getpwnam (w_n w) name); [|by right]. left. case_bool_decide; [done|]. discriminate Hr.
  - intros e [] w1 _. apply confined_bind; [apply silent_keys_owner|]. done.
Qed.

Lemma confined_users n previous users current w : (n ≤ w_n w)%nat →
  confined (allowed getpwnam previous n) (forM (apply_user U getpwnam getgrnam previous) users current) w.
Proof.
  revert current w. induction users as [|x l IH]; intros current w Hn; simpl; [done|].
  apply confined_bind; [by apply confined_apply_user|]. intros e c w1 H%forward_of; [|apply forward_apply_user].
  apply IH. lia.
Qed.

Lemma silent_load_previous : silent (load_previous_managed U).
Proof. unfold load_previous_managed, read_content. silent. Qed.
Lemma silent_load_users : silent (load_users_json U).
Proof. unfold load_users_json, read_content, exit1. silent. Qed.
Lemma silent_save names : silent (save_managed_state U names).
Proof. unfold save_managed_state, fsync, rename. silent. Qed.
Lemma silent_require_worker : silent (require_worker_for_data_config_mutation U).
Proof. unfold require_worker_for_data_config_mutation, resolve_path, exit1. silent. Qed.

(** ** The whole script *)

(** The managed users on record. *)
Definition managed_at (s : fs) : list string :=
  match stat_at s (MANAGED_STATE U) with
  | Ok n => match n_kind n with KReg (CJson v _) => strings_in v | _ => [] end
  | Err _ => []
  end.

Lemma run_load_previous e w previous w' : load_previous_managed U e w = (Ok previous, w') →
  ∀ name, name ∈ previous → name ∈ managed_at (w_fs w).
Proof.
  unfold load_previous_managed. intros (b & w1 & Hb & H)%run_bind name.
  pose proof (read_only_exists (MANAGED_STATE U) e w) as [Hf _]. rewrite Hb in Hf. simpl in Hf.
  destruct b; simpl in H; [|apply run_ret in H as [<- _]; by intros ?%not_elem_of_nil].
  apply run_catch in H as [H|(x & w2 & _ & _ & H)]; [|apply run_ret in H as [<- _]; by intros ?%not_elem_of_nil].
  apply run_bind in H as (c & w2 & Hc & H). apply run_bind in H as (v & w3 & [Hv _]%run_lift & [<- _]%run_ret).
  rewrite elem_of_remove_dups. unfold read_content, rd in Hc. destruct (e_rfault e _); [discriminate|].
  injection Hc as Hc _. apply bind_Ok in Hc as (n & Hn & Hc). unfold managed_at. rewrite <-Hf, Hn.
  destruct (n_kind n); try done. injection Hc as ->. destruct c; try discriminate. by injection Hv as ->.
Qed.

Lemma allowed_mono previous previous' n n' argv : (∀ name, name ∈ previous → name ∈ previous') → (n' ≤ n)%nat →
  allowed getpwnam previous n argv → allowed getpwnam previous' n' argv.
Proof.
  intros Hp Hn (name & Ha & Hx & [H|(Hv & k & Hk & H)]); exists name; split_and!; auto.
  right. split; [done|]. exists k. split; [lia|done].
Qed.

Lemma read_only_main_start : read_only (require_worker_for_data_config_mutation U) ∧ read_only (load_users_json U).
Proof. unfold require_worker_for_data_config_mutation, resolve_path, load_users_json, read_content, exit1. split; read_only. Qed.
Lemma forward_main_start : forward (require_worker_for_data_config_mutation U) ∧ forward (load_users_json U) ∧ forward (load_previous_managed U).
Proof.
  unfold require_worker_for_data_config_mutation, resolve_path, load_users_json, load_previous_managed, read_content, exit1.
  split_and!; forward.
Qed.

(** C30 — Whose accounts the script can touch: in every run of [main], whatever is in the files and
    whether it succeeds, fails or raises, each account command it may run names an account that is
    not protected and that is either on the record of managed users or, being a configured name of
    the safe pattern, did not exist at a lookup made before.  An existing account that the script
    did not create is never modified, locked or given a group. *)
Theorem apply_users_confined (w : world) :
  confined (allowed getpwnam (managed_at (w_fs w)) (w_n w)) (main U getpwnam getgrnam) w.
Proof.
  destruct read_only_main_start as [Hr1 Hr2]. destruct forward_main_start as (Hf1 & Hf2 & Hf3).
  unfold main. apply confined_bind; [apply silent_require_worker|]. intros e [] w1 E1.
  destruct (Hr1 e w) as [Hs1 _]. rewrite E1 in Hs1. simpl in Hs1. apply forward_of in E1; [|done].
  apply confined_bind; [apply silent_exists|]. intros e2 b w2 E2.
  destruct (read_only_exists (USERS_JSON U) e2 w1) as [Hs2 _]. rewrite E2 in Hs2. simpl in Hs2.
  apply forward_of in E2; [|apply forward_exists]. destruct b; simpl; [|done].
  apply confined_bind; [apply silent_load_users|]. intros e3 users w3 E3.
  destruct (Hr2 e3 w2) as [Hs3 _]. rewrite E3 in Hs3. simpl in Hs3. apply forward_of in E3; [|done].
  apply confined_bind; [apply silent_load_previous|]. intros e4 previous w4 E4.
  pose proof (run_load_previous _ _ _ _ E4) as Hprev. rewrite Hs3, Hs2, Hs1 in Hprev. apply forward_of in E4; [|done].
  apply confined_bind.
  { eapply (confined_weaken (allowed getpwnam previous (w_n w4))); [|by apply confined_users].
    intros argv. apply allowed_mono; [done|lia]. }
  intros e5 current w5 _. apply confined_bind; [|intros; apply silent_save].
  apply confined_iterM. intros name w6 Hname. unfold lock_user. case_bool_decide as Hp; [done|].
  apply confined_bind; [unfold user_exists, lookup_user; apply silent_bind; [apply silent_const|done]|].
  intros e7 b w7 _. destruct b; simpl; [|done]. apply confined_run_cmd. exists name. split_and!; [done..|]. left.
  apply Hprev. unfold removed_users, sorted_strs in Hname. rewrite merge_sort_Permutation in Hname.
  by apply list_elem_of_filter in Hname as [_ ?].
Qed.
End script.
