(* ===== verification/PagesDeploy.v ===== *)
(** * [enable-docs-deployment.py]: publishing the documentation site

    One definition per function of src/scripts/enable-docs-deployment.py.  The
    script drives GitHub through the gh program; [answer] says what gh answers, and
    may depend on every call so far.  A program is a function of the calls made
    before it, with their answers, oldest first, to its result and the calls made
    after it.  [json.loads] and [json.dumps] are parameters. *)

From Stdlib Require Import Ascii.
From S2P Require Import Prelude PyStr PyVal ConfigCheck Config FS StagedJob Auth.

Local Open Scope Z_scope.

(** ** The gh program *)

Record call : Type := Call { c_args : list string; c_stdin : option string }.
Definition log : Type := list (call * result proc_result).
Definition Gh (A : Type) : Type := log → result A * log.

#[export] Instance Gh_ret : MRet Gh := λ A a l, (Ok a, l).
#[export] Instance Gh_bind : MBind Gh := λ A B f m l,
  match m l with (Ok a, l') => f a l' | (Err x, l') => (Err x, l') end.

Definition gh_raise {A} (x : exn) : Gh A := λ l, (Err x, l).
Definition gh_lift {A} (r : result A) : Gh A := λ l, (r, l).
(** [try: m except EnablementError as error: h error] *)
Definition is_EnablementError (x : exn) : bool :=
  match x with EnablementError _ | MissingGhError _ => true | _ => false end.
Definition gh_catch {A} (m : Gh A) (h : exn → Gh A) : Gh A := λ l,
  match m l with
  | (Err x, l') => if is_EnablementError x then h x l' else (Err x, l')
  | r => r
  end.
Fixpoint gh_iter {A} (f : A → Gh ()) (l : list A) : Gh () :=
  match l with [] => mret tt | x :: l' => _ ← f x; gh_iter f l' end.

Definition PAGES_ENVIRONMENT : string := "github-pages".
Definition PUBLISH_BRANCH : string := "main".
Definition CUSTOM_BRANCH_POLICY : dict value :=
  [("protected_branches", VBool false); ("custom_branch_policies", VBool true)].

(** ** Reading answers *)

Definition or_else (s t : string) : string := if bool_decide (s = "") then t else s.

(** [re.search(r"\(HTTP (\d{3})\)\s*$", result.stderr)]: what follows the match is
    white space, so the match ends the text without its trailing white space. *)
Definition http_status (r : proc_result) : option string :=
  match rev (chars (rstrip_by isspace (stderr r))) with
  | z :: d3 :: d2 :: d1 :: rest =>
      if Ascii.eqb z ")" && forallb is_digit_ascii [d1; d2; d3] && endswith (unchars (rev rest)) "(HTTP "
      then Some (unchars [d1; d2; d3]) else None
  | _ => None
  end.
Definition failure_detail (r : proc_result) : string :=
  or_else (strip (stderr r)) (or_else (strip (stdout r)) ("gh exited " +:+ str_int (returncode r))).

(** [v[k]] *)
Definition item (v : value) (k : string) : result value :=
  match v with
  | VDict d => of_option (dget k d) (KeyError k)
  | _ => Err (TypeError "object is not subscriptable by a string")
  end.
Definition is_lookup_error (x : exn) : bool :=
  match x with AttributeError _ | KeyError _ | TypeError _ => true | _ => false end.

Definition unexpected_rules : exn := EnablementError "Pages environment query returned unexpected protection rules".
Definition reviewer_entry (reviewer : value) : result value :=
  reviewer_type ← item reviewer "type";
  who ← item reviewer "reviewer";
  identifier ← item who "id";
  match identifier with
  | VInt _ => if eq_str reviewer_type "User" || eq_str reviewer_type "Team"
              then Ok (VDict [("type", reviewer_type); ("id", identifier)]) else Err unexpected_rules
  | _ => Err unexpected_rules
  end.
Definition protection_rule (body : dict value) (rule : value) : result (dict value) :=
  match rule with
  | VDict d =>
      match vget "type" d with
      | VStr kind =>
          if bool_decide (kind = "") then Err unexpected_rules
          else if bool_decide (kind = "wait_timer") then
            timer ← item rule "wait_timer";
            match timer with VInt _ => Ok (dset "wait_timer" timer body) | _ => Err unexpected_rules end
          else if bool_decide (kind = "required_reviewers") then
            reviewers ← item rule "reviewers";
            match vget_or "prevent_self_review" (VBool false) d, reviewers with
            | VBool b, VList l =>
                entries ← mapR reviewer_entry l;
                Ok (dset "reviewers" (VList entries) (dset "prevent_self_review" (VBool b) body))
            | _, _ => Err unexpected_rules
            end
          else Ok body
      | _ => Err unexpected_rules
      end
  | _ => Err unexpected_rules
  end.
Definition environment_update (current : dict value) : result (dict value) :=
  let body := [("deployment_branch_policy", VDict CUSTOM_BRANCH_POLICY)] in
  let body := match dget "can_admins_bypass" current with
              | Some b => dset "can_admins_bypass" b body
              | None => body
              end in
  try_except (rules ← py_list (vget_or "protection_rules" (VList []) current); forR protection_rule rules body)
    is_lookup_error (λ _, Err unexpected_rules).

Definition is_bool (v : value) : bool := match v with VBool _ => true | _ => false end.
(** A policy the environment query may return. *)
Definition policy_expected (policy : value) : bool :=
  match policy with
  | VNone => true
  | VDict d => forallb (λ key, is_bool (vget key d)) (dkeys CUSTOM_BRANCH_POLICY)
  | _ => false
  end.

Section script.
Context (which : option string).                       (* shutil.which("gh") *)
Context (answer : log → call → result proc_result).    (* subprocess.run of gh *)
Context (json_loads : string → option value) (json_dumps : value → string).

Definition parse_build_type (output : string) : result string :=
  site ← of_option (json_loads output) (EnablementError "Pages query returned invalid JSON");
  match site with
  | VDict d => match vget "build_type" d with
               | VStr s => Ok s
               | _ => Err (EnablementError "Pages query returned an unexpected build type")
               end
  | _ => Err (EnablementError "Pages query returned an unexpected build type")
  end.
Definition parse_environment (output : string) : result (dict value) :=
  current ← of_option (json_loads output) (EnablementError "Pages environment query returned invalid JSON");
  match current with
  | VDict d =>
      match dget "deployment_branch_policy" d, dget "protection_rules" d with
      | Some policy, Some rules =>
          _ ← raise_if (negb (policy_expected policy))
                (EnablementError "Pages environment query returned an unexpected deployment branch policy");
          _ ← raise_if (negb (is_list rules)) unexpected_rules;
          _ ← raise_if (negb (is_bool (vget_or "can_admins_bypass" (VBool false) d)))
                (EnablementError "Pages environment query returned an unexpected administrator bypass setting");
          Ok d
      | _, _ => Err (EnablementError "Pages environment query returned an unexpected response shape")
      end
  | _ => Err (EnablementError "Pages environment query returned an unexpected response shape")
  end.

(** ** Calls *)

Definition run_gh (args : list string) (stdin : option string) : Gh proc_result := λ l,
  let c := Call args stdin in let r := answer l c in (r, l ++ [(c, r)]).
Definition gh (args : list string) (operation : string) (stdin : option string) : Gh proc_result :=
  r ← run_gh args stdin;
  if returncode r =? 0 then mret r
  else gh_raise (EnablementError (operation +:+ " failed: " +:+ failure_detail r)).

Definition query_optional (endpoint operation : string) : Gh (option string) :=
  r ← run_gh ["api"; endpoint] None;
  if returncode r =? 0 then mret (Some (stdout r))
  else if bool_decide (http_status r = Some "404") then mret None
  else gh_raise (EnablementError (operation +:+ " failed: " +:+ failure_detail r)).
Definition put_environment (environment : string) (body : dict value) (operation : string) : Gh () :=
  _ ← gh ["api"; "--method"; "PUT"; environment; "--input"; "-"] operation (Some (json_dumps (VDict body)));
  mret tt.

(** A deployment branch policy: its id, its type and its name. *)
Record policy : Type := Policy { p_id : string; p_type : string; p_name : string }.
Definition is_main (p : policy) : bool := bool_decide (p_type p = "branch") && bool_decide (p_name p = PUBLISH_BRANCH).
Definition policy_of (row : list string) : option policy :=
  match row with
  | [i; t; n] => if negb (bool_decide (i = "")) && all_chars isdigit i && (bool_decide (t = "branch") || bool_decide (t = "tag")) && negb (bool_decide (n = ""))
                 then Some (Policy i t n) else None
  | _ => None
  end.
Definition tab_char : ascii := ascii_of_nat 9.
Definition policy_rows (output : string) : list (list string) :=
  map (split_on tab_char) (filter (λ line, line ≠ "") (splitlines output)).
Definition read_policies (output : string) : result (list policy) :=
  mapR (λ row, of_option (policy_of row) (EnablementError "Pages environment policy query returned unexpected policy data"))
    (policy_rows output).

Definition list_args (policies : string) : list string :=
  ["api"; "--paginate"; policies; "--jq";
   ".branch_policies[] | [.id, .type // " +:+ json_dumps_str "branch" +:+ ", .name] | @tsv"].
Definition create_args (policies : string) : list string :=
  ["api"; "--method"; "POST"; policies; "-f"; "name=" +:+ PUBLISH_BRANCH; "-f"; "type=branch"].

(** The [try] block: the policies, with one for main. *)
Definition ensure_main (policies : string) : Gh (list policy) :=
  existing ← gh (list_args policies) "Pages environment policy query" None;
  rows ← gh_lift (read_policies (stdout existing));
  _ ← (if existsb is_main rows then mret tt
       else _ ← gh (create_args policies) "Pages policy creation" None; mret tt);
  mret rows.
(** Its [except] block. *)
Definition restore_mode (environment : string) (current update : dict value) (error : exn) : Gh (list policy) :=
  match current with
  | [] => gh_raise (EnablementError (exn_text error +:+ "; new environment allows no deployment branches until setup is rerun"))
  | _ =>
      let previous := vget "deployment_branch_policy" current in
      let update := dset "deployment_branch_policy" previous update in
      _ ← gh_catch (put_environment environment update "Pages environment rollback")
            (λ rollback_error, gh_raise (EnablementError (exn_text error +:+ "; " +:+ exn_text rollback_error
               +:+ "; previous deployment branch policy: " +:+ json_dumps previous)));
      gh_raise (EnablementError (exn_text error +:+ "; previous deployment branch settings restored"))
  end.
Definition mode_changes (current : dict value) : bool :=
  negb (py_eq (vget "deployment_branch_policy" current) (VDict CUSTOM_BRANCH_POLICY)).
Definition allow_publish_branch (environment policies : string) (current : dict value) : Gh (list policy) :=
  update ← gh_lift (environment_update current);
  let changed := mode_changes current in
  _ ← (if changed then put_environment environment update "Pages environment update" else mret tt);
  gh_catch (ensure_main policies)
    (λ error, if negb changed then gh_raise error else restore_mode environment current update error).

Definition delete_args (policies policy_id : string) : list string :=
  ["api"; "--method"; "DELETE"; policies +:+ "/" +:+ policy_id].
Definition remove_policy (policies : string) (p : policy) : Gh () :=
  if is_main p then mret tt
  else _ ← gh (delete_args policies (p_id p)) "Pages policy removal" None; mret tt.
Definition set_build_type (method endpoint operation : string) : Gh () :=
  _ ← gh ["api"; "--method"; method; endpoint; "-f"; "build_type=workflow"] operation None; mret tt.
Definition environment_of (repository : string) : string := "repos/" +:+ repository +:+ "/environments/" +:+ PAGES_ENVIRONMENT.
Definition policies_of (repository : string) : string := environment_of repository +:+ "/deployment-branch-policies".
Definition variable_args (repository : string) : list string :=
  ["variable"; "set"; "DOCS_DEPLOYMENT_ENABLED"; "--body"; "true"; "--repo"; repository].

(** The site is built by the workflow. *)
Definition ensure_site (endpoint : string) : Gh () :=
  site ← query_optional endpoint "Pages query";
  match site with
  | None => set_build_type "POST" endpoint "Pages creation"
  | Some output =>
      build_type ← gh_lift (parse_build_type output);
      if bool_decide (build_type = "workflow") then mret tt else set_build_type "PUT" endpoint "Pages update"
  end.
(** Only main may deploy. *)
Definition restrict_environment (environment policies : string) : Gh () :=
  queried ← query_optional environment "Pages environment query";
  current ← match queried with None => mret [] | Some output => gh_lift (parse_environment output) end;
  rows ← allow_publish_branch environment policies current;
  gh_iter (remove_policy policies) rows.

Definition enable : Gh string :=
  match which with
  | None => gh_raise (MissingGhError "GitHub CLI (gh) is not installed or is not on PATH")
  | Some _ =>
      _ ← gh ["auth"; "status"] "GitHub authentication check" None;
      r ← gh ["repo"; "view"; "--json"; "nameWithOwner"; "--jq"; ".nameWithOwner"] "GitHub repository resolution" None;
      let repository := strip (stdout r) in
      if bool_decide (repository = "") then gh_raise (EnablementError "GitHub repository resolution returned no owner/name")
      else
        let endpoint := "repos/" +:+ repository +:+ "/pages" in
        _ ← ensure_site endpoint;
        let environment := environment_of repository in
        let policies := policies_of repository in
        _ ← restrict_environment environment policies;
        _ ← gh (variable_args repository) "deployment variable update" None;
        r ← gh ["api"; endpoint; "--jq"; ".html_url"] "Pages URL query" None;
        let url := strip (stdout r) in
        if bool_decide (url = "") then gh_raise (EnablementError "Pages URL query returned no html_url") else mret url
  end.

(** ** [main]: the exit status and the texts printed on stdout and stderr *)

Definition recovery : list string :=
  let policies := policies_of "OWNER/REPO" in
  [ "Manual recovery:";
    "  gh api --method PUT repos/OWNER/REPO/pages -f build_type=workflow";
    "  # Use POST instead of PUT when Pages does not exist.";
    "  # In Settings > Environments > " +:+ PAGES_ENVIRONMENT +:+ ", choose Selected branches and tags,";
    "  # keeping any required reviewers and wait timer. Then add main by API:";
    "  gh api --method POST " +:+ policies +:+ " -f name=" +:+ PUBLISH_BRANCH +:+ " -f type=branch";
    "  # Then delete every other policy listed by: gh api " +:+ policies;
    "  gh api --method DELETE " +:+ policies +:+ "/POLICY_ID";
    "  gh variable set DOCS_DEPLOYMENT_ENABLED --body true --repo OWNER/REPO" ].
Definition main : Gh (Z * list string * list string) := λ l,
  match enable l with
  | (Ok url, l') => (Ok (0, ["GitHub Pages deployment enabled: " +:+ url], []), l')
  | (Err x, l') =>
      if is_EnablementError x then
        (Ok (1, [], ["error: " +:+ exn_text x]
                    ++ match x with MissingGhError _ => ["Install GitHub CLI: https://cli.github.com/"] | _ => [] end
                    ++ [join nl recovery]), l')
      else (Err x, l')
  end.
End script.
