(* ===== verification/PagesDeployFacts.v ===== *)
(** * The site is published from main only: theorems

    Whatever gh answers, and wherever the script stops, policies are removed only
    once main is allowed, the deployment is switched on last, and a set-up that
    fails after changing the mode of the environment asks for the old one back. *)

From Stdlib Require Import Ascii.
From S2P Require Import Prelude PyStr PyVal ConfigCheck Config FS StagedJob Auth PagesDeploy.

Local Open Scope Z_scope.

(** ** Programs that call gh

    [justified l c] says that the call [c] may be made after the calls [l]. *)

Section calls.
Context (answer : log → call → result proc_result) (justified : log → call → Prop).

Inductive good : log → Prop :=
  | good_nil : good []
  | good_snoc l c a : good l → justified l c → good (l ++ [(c, a)]).
Lemma good_split l l1 c a l2 : good l → l = l1 ++ (c, a) :: l2 → justified l1 c.
Proof.
  intros Hl. revert l2. induction Hl as [|l c' a' Hl IH Hc]; intros l2 E; [by destruct l1|].
  destruct l2 as [|x l2 _] using rev_ind.
  - by apply app_inj_tail in E as [-> [= -> ->]].
  - rewrite app_comm_cons, app_assoc in E. apply app_inj_tail in E as [-> _]. by apply (IH l2).
Qed.

(** From a good log with [P], the log stays good and only grows, and has [Q] on success. *)
Definition triple {A} (P : log → Prop) (m : Gh A) (Q : A → log → Prop) : Prop :=
  ∀ l, good l → P l → good (m l).2 ∧ l `prefix_of` (m l).2 ∧ ∀ a, (m l).1 = Ok a → Q a (m l).2.
(** What stays true of a longer log. *)
Definition lasting (R : log → Prop) : Prop := ∀ l l', l `prefix_of` l' → R l → R l'.

Lemma triple_weaken {A} (P P' : log → Prop) (m : Gh A) (Q Q' : A → log → Prop) :
  triple P' m Q' → (∀ l, P l → P' l) → (∀ a l, Q' a l → Q a l) → triple P m Q.
Proof. intros Hm HP HQ l Hl Hp. destruct (Hm l Hl) as (?&?&?); auto. Qed.
Lemma triple_frame {A} (R P : log → Prop) (m : Gh A) (Q : A → log → Prop) :
  lasting R → triple P m Q → triple (λ l, P l ∧ R l) m (λ a l, Q a l ∧ R l).
Proof. intros HR Hm l Hl [Hp Hr]. destruct (Hm l Hl Hp) as (?&?&?). split_and!; eauto. Qed.
Lemma triple_ret {A} (a : A) (P : log → Prop) (Q : A → log → Prop) : (∀ l, P l → Q a l) → triple P (mret a) Q.
Proof. intros Hq l Hl Hp. split_and!; [done|done|]. intros b [= <-]. by apply Hq. Qed.
Lemma triple_raise {A} x (P : log → Prop) (Q : A → log → Prop) : triple P (gh_raise x) Q.
Proof. by intros l Hl _. Qed.
Lemma triple_lift {A} (r : result A) (P : log → Prop) : triple P (gh_lift r) (λ a l, P l ∧ r = Ok a).
Proof. by intros l Hl Hp. Qed.
Lemma triple_bind {A B} (P : log → Prop) (m : Gh A) (Q : A → log → Prop) (f : A → Gh B) (S : B → log → Prop) :
  triple P m Q → (∀ a, triple (Q a) (f a) S) → triple P (m ≫= f) S.
Proof.
  intros Hm Hf l Hl Hp. destruct (Hm l Hl Hp) as (H1 & H2 & H3). unfold mbind, Gh_bind.
  destruct (m l) as [[a|x] l1]; simpl in *; [|done]. destruct (Hf a l1 H1 (H3 a eq_refl)) as (?&?&?).
  split_and!; [done|by etrans|done].
Qed.
Lemma triple_catch {A} (P : log → Prop) (m : Gh A) (h : exn → Gh A) (Q : A → log → Prop) :
  triple P m Q → (∀ x, triple (λ _, True) (h x) Q) → triple P (gh_catch m h) Q.
Proof.
  intros Hm Hh l Hl Hp. destruct (Hm l Hl Hp) as (H1 & H2 & H3). unfold gh_catch.
  destruct (m l) as [[a|x] l1]; simpl in *; [done|]. destruct (is_EnablementError x); [|done].
  destruct (Hh x l1 H1 I) as (?&?&?). split_and!; [done|by etrans|done].
Qed.
(** A loop whose turns each establish something that lasts. *)
Lemma triple_iter {A} (P : log → Prop) (f : A → Gh ()) (Q : A → log → Prop) xs :
  lasting P → (∀ x, lasting (Q x)) → (∀ x, x ∈ xs → triple P (f x) (λ _ l, P l ∧ Q x l)) →
  triple P (gh_iter f xs) (λ _ l, P l ∧ ∀ x, x ∈ xs → Q x l).
Proof.
  intros HP HQ. induction xs as [|x xs IH]; intros Hf; simpl.
  - apply triple_ret. intros l Hl. split; [done|]. intros x Hx. by apply elem_of_nil in Hx.
  - eapply triple_bind; [apply Hf; by constructor|]. intros []. simpl.
    eapply triple_weaken; [apply (triple_frame (Q x)); [apply HQ|apply IH]|done|].
    + intros y Hy. apply Hf. by constructor.
    + intros [] l [[Hl Hxs] Hx]. split; [done|]. intros y Hy. apply elem_of_cons in Hy as [->|Hy]; auto.
Qed.
Lemma triple_run (P : log → Prop) args stdin :
  (∀ l, P l → justified l (Call args stdin)) →
  triple P (run_gh answer args stdin) (λ r l, ∃ l0, P l0 ∧ l = l0 ++ [(Call args stdin, Ok r)]).
Proof.
  intros HJ l Hl Hp. simpl. split_and!; [constructor; auto|by eexists|]. intros r Hr. exists l. by rewrite Hr.
Qed.
(** A call that gh answered with status 0. *)
Definition succeeded (l : log) (c : call) (out : string) : Prop := ∃ r, (c, Ok r) ∈ l ∧ returncode r = 0 ∧ stdout r = out.
Lemma triple_gh (P : log → Prop) args operation stdin :
  lasting P → (∀ l, P l → justified l (Call args stdin)) →
  triple P (gh answer args operation stdin) (λ r l, P l ∧ succeeded l (Call args stdin) (stdout r)).
Proof.
  intros HP HJ. unfold gh. eapply triple_bind; [by apply triple_run|]. intros r. cbv beta.
  destruct (returncode r =? 0) eqn:E; [|apply triple_raise].
  apply triple_ret. intros l (l0 & Hp & ->).
  split; [by eapply HP; [by eexists|]|]. exists r. split_and!; [|lia|done]. apply elem_of_app. right. by apply list_elem_of_singleton.
Qed.
End calls.

Lemma triple_exists {A X} J (P : X → log → Prop) (m : Gh A) (Q : A → log → Prop) :
  (∀ x, triple J (P x) m Q) → triple J (λ l, ∃ x, P x l) m Q.
Proof. intros Hm l Hl [x Hp]. by apply (Hm x). Qed.
Lemma triple_pure {A} J (φ : Prop) (P : log → Prop) (m : Gh A) (Q : A → log → Prop) :
  (φ → triple J P m Q) → triple J (λ l, P l ∧ φ) m Q.
Proof. intros Hm l Hl [Hp Hf]. by apply Hm. Qed.
Lemma lasting_and (P Q : log → Prop) : lasting P → lasting Q → lasting (λ l, P l ∧ Q l).
Proof. intros HP HQ l l' Hl [? ?]. split; [by eapply HP|by eapply HQ]. Qed.
Lemma lasting_or (P Q : log → Prop) : lasting P → lasting Q → lasting (λ l, P l ∨ Q l).
Proof. intros HP HQ l l' Hl [?|?]; [left; by eapply HP|right; by eapply HQ]. Qed.
Lemma lasting_const (φ : Prop) : lasting (λ _, φ).
Proof. by intros l l' _. Qed.
Lemma lasting_ex {X} (P : X → log → Prop) : (∀ x, lasting (P x)) → lasting (λ l, ∃ x, P x l).
Proof. intros HP l l' Hl [x Hx]. exists x. by eapply HP. Qed.
Lemma lasting_succeeded c out : lasting (λ l, succeeded l c out).
Proof.
  intros l l' [k ->] (r & Hr & H). exists r. split; [|done]. apply elem_of_app. by left.
Qed.
Create HintDb lasting.
#[export] Hint Resolve lasting_and lasting_or lasting_const lasting_ex lasting_succeeded : lasting.

(** ** What the script may do when *)

Section script.
Context (which : option string) (answer : log → call → result proc_result).
Context (json_loads : string → option value) (json_dumps : value → string).

Definition put_args (environment : string) : list string := ["api"; "--method"; "PUT"; environment; "--input"; "-"].
(** gh listed the policies as [rows], and one of them is for main or was created. *)
Definition main_allowed (policies : string) (rows : list policy) (l : log) : Prop :=
  (∃ out, succeeded l (Call (list_args policies) None) out ∧ read_policies out = Ok rows) ∧
  (existsb is_main rows = true ∨ ∃ out, succeeded l (Call (create_args policies) None) out).
(** The environment deploys selected branches only: it said so, or accepted it. *)
Definition selected_mode (environment : string) (l : log) : Prop :=
  (∃ current, (∃ out, succeeded l (Call ["api"; environment] None) out ∧ parse_environment json_loads out = Ok current) ∧
     mode_changes current = false) ∨
  (∃ body, (∃ out, succeeded l (Call (put_args environment) (Some (json_dumps (VDict body)))) out) ∧
     dget "deployment_branch_policy" body = Some (VDict CUSTOM_BRANCH_POLICY)).
Definition removed (policies : string) (p : policy) (l : log) : Prop :=
  is_main p = true ∨ ∃ out, succeeded l (Call (delete_args policies (p_id p)) None) out.
Definition restricted (repository : string) (rows : list policy) (l : log) : Prop :=
  main_allowed (policies_of repository) rows l ∧ selected_mode (environment_of repository) l.

Definition justified (l : log) (c : call) : Prop :=
  (∀ rest, c_args c = "api" :: "--method" :: "DELETE" :: rest →
     ∃ repository rows p, c = Call (delete_args (policies_of repository) (p_id p)) None ∧
       p ∈ rows ∧ is_main p = false ∧ restricted repository rows l) ∧
  (∀ rest, c_args c = "variable" :: rest →
     ∃ repository rows, c = Call (variable_args repository) None ∧ restricted repository rows l ∧
       ∀ p, p ∈ rows → removed (policies_of repository) p l).

Lemma lasting_main policies rows : lasting (main_allowed policies rows).
Proof. unfold main_allowed. auto 8 with lasting. Qed.
Lemma lasting_mode environment : lasting (selected_mode environment).
Proof. unfold selected_mode. auto 10 with lasting. Qed.
Lemma lasting_removed policies p : lasting (removed policies p).
Proof. unfold removed. auto with lasting. Qed.
Lemma lasting_restricted repository rows : lasting (restricted repository rows).
Proof. apply lasting_and; [apply lasting_main|apply lasting_mode]. Qed.
#[local] Hint Resolve lasting_main lasting_mode lasting_removed lasting_restricted : lasting.

(** Calls that need no justification. *)
Definition plain (args : list string) : Prop :=
  (∀ rest, args ≠ "api" :: "--method" :: "DELETE" :: rest) ∧ (∀ rest, args ≠ "variable" :: rest).
Lemma plain_justified args stdin l : plain args → justified l (Call args stdin).
Proof. intros [H1 H2]. split; intros rest E; simpl in E; [by apply H1 in E|by apply H2 in E]. Qed.

Lemma triple_plain (R : log → Prop) args operation stdin : lasting R → plain args →
  triple justified R (gh answer args operation stdin) (λ r l, R l ∧ succeeded l (Call args stdin) (stdout r)).
Proof. intros HR Hp. apply triple_gh; [done|]. intros l _. by apply plain_justified. Qed.

Lemma triple_put (R : log → Prop) environment body operation : lasting R →
  triple justified R (put_environment answer json_dumps environment body operation)
    (λ _ l, R l ∧ ∃ out, succeeded l (Call (put_args environment) (Some (json_dumps (VDict body)))) out).
Proof.
  intros HR. unfold put_environment. eapply triple_bind; [by apply triple_plain|]. intros r.
  apply triple_ret. intros l [? ?]. split; [done|]. by eexists.
Qed.

Ltac plain := split; intros ?; discriminate.

Lemma triple_ensure_main (R : log → Prop) policies : lasting R →
  triple justified R (ensure_main answer policies) (λ rows l, R l ∧ main_allowed policies rows l).
Proof.
  intros HR. unfold ensure_main. eapply triple_bind; [apply triple_plain; [done|plain]|]. intros r.
  eapply triple_bind; [apply triple_lift|]. intros rows. apply triple_pure. intros Hrows.
  assert (lasting (λ l, R l ∧ succeeded l (Call (list_args policies) None) (stdout r))) as HL by auto with lasting.
  destruct (existsb is_main rows) eqn:E.
  - eapply triple_bind; [by apply (triple_ret _ tt _ (λ _ l, R l ∧ succeeded l (Call (list_args policies) None) (stdout r)))|].
    intros []. apply triple_ret. intros l [Hr Hs]. split; [done|]. split; [by eexists|by left].
  - eapply (triple_bind _ _ _ (λ _ l, R l ∧ main_allowed policies rows l)); [|intros []; by apply triple_ret].
    eapply triple_bind; [apply (triple_plain _ _ _ _ HL); plain|]. intros r'. apply triple_ret.
    intros l [[Hr Hs] Hc]. split; [done|]. split; [by eexists|right; by eexists].
Qed.

(** The [except] block always raises. *)
Lemma triple_restore environment current update error (Q : list policy → log → Prop) :
  triple justified (λ _, True) (restore_mode answer json_dumps environment current update error) Q.
Proof.
  unfold restore_mode. destruct current as [|kv current]; [apply triple_raise|]. set (prev := vget _ _).
  eapply (triple_bind _ _ _ (λ _ _, True)); [|intros []; apply triple_raise].
  apply triple_catch; [|intros x; apply triple_raise].
  eapply triple_weaken; [apply (triple_put (λ _, True)), lasting_const|done|done].
Qed.

Lemma update_policy current update : environment_update current = Ok update →
  dget "deployment_branch_policy" update = Some (VDict CUSTOM_BRANCH_POLICY).
Proof.
  unfold environment_update, try_except. set (body := match dget "can_admins_bypass" current with Some b => _ | None => _ end).
  assert (dget "deployment_branch_policy" body = Some (VDict CUSTOM_BRANCH_POLICY)) as Hb by (unfold body; by destruct (dget _ current)).
  destruct (_ ≫= _) as [b|x] eqn:E; [|by destruct (is_lookup_error x)]. intros [= <-].
  apply bind_Ok in E as (rules & _ & E). revert Hb E.
  apply (forR_inv (λ b, dget "deployment_branch_policy" b = Some (VDict CUSTOM_BRANCH_POLICY))).
  intros s rule s' _ Hs H. unfold protection_rule in H. destruct rule as [| | | | | |d|]; try done.
  destruct (vget "type" d); try done. repeat case_bool_decide; try done.
  - apply bind_Ok in H as (timer & _ & H). destruct timer; try done. injection H as <-. by rewrite dget_dset_ne.
  - apply bind_Ok in H as (l & _ & H). destruct (vget_or _ _ _); try done. destruct l; try done.
    apply bind_Ok in H as (entries & _ & [= <-]). by rewrite !dget_dset_ne.
  - by injection H as <-.
Qed.

Lemma triple_allow environment policies current :
  triple justified (λ l, mode_changes current = false → selected_mode environment l)
    (allow_publish_branch answer json_dumps environment policies current)
    (λ rows l, main_allowed policies rows l ∧ selected_mode environment l).
Proof.
  unfold allow_publish_branch. eapply triple_bind; [apply triple_lift|]. intros update. apply triple_pure. intros Hu%update_policy.
  assert (∀ P : log → Prop, (∀ l, P l → selected_mode environment l) →
    triple justified P (gh_catch (ensure_main answer policies)
      (λ error, if negb (mode_changes current) then gh_raise error else restore_mode answer json_dumps environment current update error))
      (λ rows l, main_allowed policies rows l ∧ selected_mode environment l)) as Hmain.
  { intros P HP. apply triple_catch.
    - eapply triple_weaken; [apply (triple_ensure_main (selected_mode environment)), lasting_mode|exact HP|]. by intros rows l [? ?].
    - intros x. destruct (negb _); [apply triple_raise|apply triple_restore]. }
  destruct (mode_changes current) eqn:E; simpl in *.
  - eapply triple_bind; [eapply triple_weaken; [apply (triple_put (λ _, True)), lasting_const|done|exact (λ _ _ K, K)]|].
    intros []. apply Hmain. intros l [_ Hp]. right. by exists update.
  - eapply triple_bind; [apply (triple_ret _ tt _ (λ _, selected_mode environment)); auto|]. intros []. by apply Hmain.
Qed.

Lemma triple_query (R : log → Prop) endpoint operation : lasting R →
  triple justified R (query_optional answer endpoint operation)
    (λ o l, R l ∧ ∀ out, o = Some out → succeeded l (Call ["api"; endpoint] None) out).
Proof.
  intros HR. unfold query_optional.
  eapply triple_bind; [apply triple_run; intros; apply plain_justified; plain|]. intros r. cbv beta.
  destruct (returncode r =? 0) eqn:E; [|case_bool_decide; [|apply triple_raise]]; apply triple_ret; intros l (l0 & Hl & ->);
    (split; [by eapply HR; [by eexists|]|]); [|done].
  intros out [= <-]. exists r. split_and!; [|lia|done]. apply elem_of_app. right. by apply list_elem_of_singleton.
Qed.

Lemma triple_site endpoint : triple justified (λ _, True) (ensure_site answer json_loads endpoint) (λ _ _, True).
Proof.
  unfold ensure_site.
  assert (∀ (P : log → Prop) method operation, method ≠ "DELETE" →
    triple justified P (set_build_type answer method endpoint operation) (λ _ _, True)) as Hs.
  { intros P method operation Hm. eapply triple_weaken; [|exact (λ l _, I)|exact (λ _ l _, I)]. unfold set_build_type.
    eapply triple_bind; [apply (triple_plain (λ _, True)); [apply lasting_const|split; intros rest; congruence]|].
    intros r. by apply (triple_ret _ _ _ (λ _ _, True)). }
  eapply triple_bind; [apply (triple_query (λ _, True)), lasting_const|]. intros [output|]; [|by apply Hs].
  eapply triple_bind; [apply triple_lift|]. intros build_type. case_bool_decide; [by apply triple_ret|by apply Hs].
Qed.

Lemma triple_restrict repository :
  triple justified (λ _, True)
    (restrict_environment answer json_loads json_dumps (environment_of repository) (policies_of repository))
    (λ _ l, ∃ rows, restricted repository rows l ∧ ∀ p, p ∈ rows → removed (policies_of repository) p l).
Proof.
  unfold restrict_environment. eapply triple_bind; [apply (triple_query (λ _, True)), lasting_const|]. intros queried. cbv beta.
  eapply (triple_bind _ _ _ (λ current l, mode_changes current = false → selected_mode (environment_of repository) l)).
  { destruct queried as [output|]; [|by apply triple_ret].
    eapply triple_weaken; [apply triple_lift|exact (λ l K, K)|]. intros current l [[_ Hl] Hp] Hc. left. exists current. eauto. }
  intros current. eapply triple_bind; [apply triple_allow|]. intros rows. cbv beta.
  eapply triple_weaken; [apply (triple_iter _ (restricted repository rows) _ (removed (policies_of repository)))|done|].
  - apply lasting_restricted.
  - apply lasting_removed.
  - intros p Hp. unfold remove_policy. destruct (is_main p) eqn:Hm.
    + apply triple_ret. intros l Hl. split; [done|by left].
    + eapply triple_bind; [apply (triple_gh _ _ (restricted repository rows))|].
      * apply lasting_restricted.
      * intros l Hl. split; intros rest Hr; [|done]. exists repository, rows, p. done.
      * intros r. apply triple_ret. intros l [Hl Hs]. split; [done|]. right. by eexists.
  - intros [] l [? ?]. by exists rows.
Qed.

Lemma triple_enable : triple justified (λ _, True) (enable which answer json_loads json_dumps) (λ _ _, True).
Proof.
  unfold enable. destruct which as [exe|]; [|apply triple_raise].
  eapply triple_bind; [apply (triple_plain (λ _, True)); [apply lasting_const|plain]|]. intros r0.
  eapply triple_weaken; [|exact (λ l _, I)|exact (λ _ l K, K)].
  eapply triple_bind; [apply (triple_plain (λ _, True)); [apply lasting_const|plain]|]. intros r. cbv beta zeta.
  case_bool_decide; [apply triple_raise|]. set (repository := strip (stdout r)).
  eapply triple_weaken; [|exact (λ l _, I)|exact (λ _ l K, K)].
  eapply triple_bind; [apply triple_site|]. intros [].
  eapply triple_bind; [apply triple_restrict|]. intros [].
  assert (lasting (λ l, ∃ rows, restricted repository rows l ∧ ∀ p, p ∈ rows → removed (policies_of repository) p l)) as HL.
  { apply lasting_ex. intros rows. apply lasting_and; [apply lasting_restricted|]. intros l l' Hl Hall p Hp. eapply lasting_removed; eauto. }
  eapply triple_bind; [apply (triple_gh _ _ _ _ _ _ HL)|].
  - intros l (rows & Hl & Hr). split; intros rest Hrest; [done|]. by exists repository, rows.
  - intros r1. eapply triple_weaken; [|exact (λ l _, I)|exact (λ _ l K, K)].
    eapply triple_bind; [apply (triple_plain (λ _, True)); [apply lasting_const|plain]|]. intros r2. cbv beta zeta.
    case_bool_decide; [apply triple_raise|by apply triple_ret].
Qed.

(** C40 — The site is published from main only, whatever gh answers and wherever the script stops: every
    call that removes a deployment policy names a policy gh listed, other than the one for main, and
    comes after main was found or created in the environment's selected-branch mode; and the
    deployment is switched on only after that and after every other listed policy was removed. *)
Theorem pages_published_from_main (r : result string) (l l1 l2 : log) (c : call) (a : result proc_result) :
  enable which answer json_loads json_dumps [] = (r, l) → l = l1 ++ (c, a) :: l2 →
  (∀ rest, c_args c = "api" :: "--method" :: "DELETE" :: rest →
     ∃ repository rows p, c = Call (delete_args (policies_of repository) (p_id p)) None ∧
       p ∈ rows ∧ is_main p = false ∧ restricted repository rows l1) ∧
  (∀ rest, c_args c = "variable" :: rest →
     ∃ repository rows, c = Call (variable_args repository) None ∧ restricted repository rows l1 ∧
       ∀ p, p ∈ rows → removed (policies_of repository) p l1).
Proof.
  intros H E. destruct (triple_enable [] (good_nil _) I) as (Hg & _). rewrite H in Hg. simpl in Hg.
  exact (good_split _ _ _ _ _ _ Hg E).
Qed.
End script.

(** ** A failed set-up asks for the old mode back *)

Definition rules_of (current : dict value) : list value :=
  match vget_or "protection_rules" (VList []) current with VList rules => rules | _ => [] end.
(** The last rule of a kind. *)
Definition last_rule (kind : string) (rules : list value) (d : dict value) : Prop :=
  ∃ r1 r2, rules = r1 ++ VDict d :: r2 ∧ vget "type" d = VStr kind ∧ ∀ d', VDict d' ∈ r2 → vget "type" d' ≠ VStr kind.
(** The settings of an environment that a request sends again. *)
Record resends (current body : dict value) : Prop := Resends {
  rs_bypass : dget "can_admins_bypass" body = dget "can_admins_bypass" current;
  rs_timer : ∀ d, last_rule "wait_timer" (rules_of current) d → dget "wait_timer" body = dget "wait_timer" d;
  rs_reviewers : ∀ d, last_rule "required_reviewers" (rules_of current) d →
    dget "prevent_self_review" body = Some (vget_or "prevent_self_review" (VBool false) d) ∧
    ∃ l entries, dget "reviewers" d = Some (VList l) ∧ mapR reviewer_entry l = Ok entries ∧
      dget "reviewers" body = Some (VList entries) }.

Lemma forR_app {S A} (f : S → A → result S) l1 l2 s : forR f (l1 ++ l2) s = forR f l1 s ≫= forR f l2.
Proof. revert s. induction l1 as [|x l1 IH]; intros s; [done|]. simpl. destruct (f s x); [apply IH|done]. Qed.

(** What one rule sets. *)
Lemma rule_effect body rule body' : protection_rule body rule = Ok body' →
  ∃ d kind, rule = VDict d ∧ vget "type" d = VStr kind ∧
    ((kind = "wait_timer" ∧ ∃ timer, dget "wait_timer" d = Some timer ∧ body' = dset "wait_timer" timer body) ∨
     (kind = "required_reviewers" ∧ ∃ l entries, dget "reviewers" d = Some (VList l) ∧ mapR reviewer_entry l = Ok entries ∧
        body' = dset "reviewers" (VList entries) (dset "prevent_self_review" (vget_or "prevent_self_review" (VBool false) d) body)) ∨
     (kind ≠ "wait_timer" ∧ kind ≠ "required_reviewers" ∧ body' = body)).
Proof.
  intros H. unfold protection_rule in H. destruct rule as [| | | | | |d|]; try done. destruct (vget "type" d) as [| | | |kind| | |] eqn:Ht; try done.
  exists d, kind. split_and!; [done..|]. repeat case_bool_decide; try done; subst.
  - left. split; [done|]. apply bind_Ok in H as (timer & Hi%of_option_Ok & H). destruct timer; try done. injection H as <-. eauto.
  - right. left. split; [done|]. apply bind_Ok in H as (l & Hi%of_option_Ok & H).
    destruct (vget_or _ _ d); try done. destruct l as [| | | | |l| |]; try done. apply bind_Ok in H as (entries & He & [= <-]). eauto 6.
  - right. right. by injection H as <-.
Qed.
Lemma rules_keep key rules body body' : forR protection_rule rules body = Ok body' →
  (key = "wait_timer" → ∀ d, VDict d ∈ rules → vget "type" d ≠ VStr "wait_timer") →
  (key = "prevent_self_review" ∨ key = "reviewers" → ∀ d, VDict d ∈ rules → vget "type" d ≠ VStr "required_reviewers") →
  dget key body' = dget key body.
Proof.
  intros H Ht Hr. revert H. apply (forR_inv (λ b, dget key b = dget key body)); [|done]. intros b rule b' Hin Hb H.
  apply rule_effect in H as (d & kind & -> & Hk & [(-> & timer & _ & ->)|[(-> & l & es & _ & _ & ->)|(_ & _ & ->)]]); [..|done].
  - rewrite dget_dset_ne; [done|]. intros ->. by apply (Ht eq_refl d).
  - rewrite !dget_dset_ne; [done| |]; intros ->; apply (Hr (ltac:(auto)) d); done.
Qed.

Lemma environment_update_resends current update : environment_update current = Ok update → resends current update.
Proof.
  unfold environment_update, try_except. set (body := match dget "can_admins_bypass" current with Some b => _ | None => _ end).
  assert (dget "can_admins_bypass" body = dget "can_admins_bypass" current) as Hb by (unfold body; by destruct (dget _ current)).
  destruct (_ ≫= _) as [b|x] eqn:E; [|by destruct (is_lookup_error x)]. intros [= <-].
  apply bind_Ok in E as (rules & Hl & E).
  assert (∀ kind d, last_rule kind (rules_of current) d → ∃ r1 r2 b1 b2, protection_rule b1 (VDict d) = Ok b2 ∧
    rules = r1 ++ VDict d :: r2 ∧ forR protection_rule r2 b2 = Ok b ∧ vget "type" d = VStr kind ∧
    ∀ d', VDict d' ∈ r2 → vget "type" d' ≠ VStr kind) as Hlast.
  { intros kind d (r1 & r2 & Hr & Hk & Hno). unfold rules_of in Hr. destruct (vget_or _ _ current); try by destruct r1.
    injection Hl as <-. subst. rewrite forR_app in E. apply bind_Ok in E as (b1 & _ & E). simpl in E. apply bind_Ok in E as (b2 & Hb2 & E).
    by exists r1, r2, b1, b2. }
  split.
  - rewrite <-Hb. by eapply rules_keep; [exact E|..]; naive_solver.
  - intros d (r1 & r2 & b1 & b2 & Hd & _ & H2 & Hk & Hno)%Hlast. rewrite (rules_keep "wait_timer" r2 b2 b H2); [|done|naive_solver].
    apply rule_effect in Hd as (d' & kind & [= <-] & Hk' & Heff). rewrite Hk in Hk'. injection Hk' as <-.
    destruct Heff as [(_ & timer & -> & ->)|[(? & _)|(? & _)]]; [by rewrite dget_dset_eq|done..].
  - intros d (r1 & r2 & b1 & b2 & Hd & _ & H2 & Hk & Hno)%Hlast.
    rewrite (rules_keep "prevent_self_review" r2 b2 b H2), (rules_keep "reviewers" r2 b2 b H2) by done.
    apply rule_effect in Hd as (d' & kind & [= <-] & Hk' & Heff). rewrite Hk in Hk'. injection Hk' as <-.
    destruct Heff as [(? & _)|[(_ & l & es & Hl' & He & ->)|(_ & ? & _)]]; [done| |done].
    rewrite dget_dset_eq, dget_dset_ne, dget_dset_eq by done. split; [done|]. by exists l, es.
Qed.

Section rollback.
Context (answer : log → call → result proc_result) (json_dumps : value → string).

Definition grows {A} (m : Gh A) : Prop := ∀ l, l `prefix_of` (m l).2.
Lemma grows_bind {A B} (m : Gh A) (f : A → Gh B) : grows m → (∀ a, grows (f a)) → grows (m ≫= f).
Proof.
  intros Hm Hf l. unfold mbind, Gh_bind. specialize (Hm l). destruct (m l) as [[a|x] l1]; [|done]. etrans; [exact Hm|apply Hf].
Qed.
Lemma grows_gh args operation stdin : grows (gh answer args operation stdin).
Proof. apply grows_bind; [intros l; by eexists|]. intros r l. by destruct (returncode r =? 0). Qed.
Lemma grows_ensure_main policies : grows (ensure_main answer policies).
Proof.
  apply grows_bind; [apply grows_gh|]. intros r. apply grows_bind; [by intros l|]. intros rows. apply grows_bind; [|by intros [] l].
  destruct (existsb is_main rows); [by intros l|]. apply grows_bind; [apply grows_gh|by intros ? l].
Qed.

Definition put_call (environment : string) (body : dict value) : call :=
  Call (put_args environment) (Some (json_dumps (VDict body))).
Lemma run_put environment body operation l r l' :
  put_environment answer json_dumps environment body operation l = (r, l') →
  let a := answer l (put_call environment body) in l' = l ++ [(put_call environment body, a)] ∧
  r = match a with
      | Ok p => if returncode p =? 0 then Ok tt else Err (EnablementError (operation +:+ " failed: " +:+ failure_detail p))
      | Err x => Err x
      end.
Proof.
  unfold put_environment, gh, run_gh, mbind, Gh_bind. simpl. fold (put_call environment body).
  destruct (answer l _) as [p|x]; simpl; [|by intros [= <- <-]]. destruct (returncode p =? 0); simpl; by intros [= <- <-].
Qed.

(** [subprocess.run] does not raise the script's own exception. *)
Hypothesis answer_ok : ∀ l c x, answer l c = Err x → is_EnablementError x = false.

(** A set-up that fails asks for the old mode back: when an environment's mode is being changed and
    the set-up fails as expected, either the change itself was refused, and is the only call made, or
    the last call sends the environment its previous deployment policy, and the error says whether
    that worked.  Both requests send the administrators' bypass, the wait timer and the reviewers again
    as the environment has them. *)
Theorem failed_setup_restores (environment policies : string) (current update : dict value) (x : exn) (l l' : log) :
  environment_update current = Ok update → mode_changes current = true → current ≠ [] →
  allow_publish_branch answer json_dumps environment policies current l = (Err x, l') → is_EnablementError x = true →
  resends current update ∧
  ((∃ p, l' = l ++ [(put_call environment update, Ok p)] ∧ returncode p ≠ 0) ∨
   ∃ mid p q error body, l' = l ++ (put_call environment update, Ok p) :: mid ++ [(put_call environment body, Ok q)] ∧
     returncode p = 0 ∧ resends current body ∧
     dget "deployment_branch_policy" body = Some (vget "deployment_branch_policy" current) ∧
     exn_text x = if returncode q =? 0 then exn_text error +:+ "; previous deployment branch settings restored"
       else exn_text error +:+ "; Pages environment rollback failed: " +:+ failure_detail q
            +:+ "; previous deployment branch policy: " +:+ json_dumps (vget "deployment_branch_policy" current)).
Proof.
  intros Hu Hch Hne H Hx. pose proof (environment_update_resends _ _ Hu) as Hrs. split; [done|].
  unfold allow_publish_branch in H. rewrite Hu, Hch in H. unfold gh_lift, mbind, Gh_bind in H. simpl in H.
  destruct (put_environment _ _ environment update _ l) as [r l1] eqn:Ep.
  apply run_put in Ep as [-> ->]. destruct (answer l (put_call environment update)) as [p|y] eqn:Ea;
    [|injection H as <- <-; by rewrite (answer_ok _ _ _ Ea) in Hx].
  destruct (returncode p =? 0) eqn:Ec; [|injection H as <- <-; left; exists p; split; [done|lia]].
  right. unfold gh_catch at 1 in H. pose proof (grows_ensure_main policies (l ++ [(put_call environment update, Ok p)])) as [mid Hmid].
  destruct (ensure_main _ _ _) as [[rows|error] l2]; [done|]. simpl in Hmid. subst l2.
  destruct (is_EnablementError error) eqn:Ee; [|injection H as <- <-; congruence].
  unfold restore_mode in H. destruct current as [|kv rest]; [done|]. set (current := kv :: rest) in *.
  set (body := dset "deployment_branch_policy" _ update) in H. unfold mbind, Gh_bind, gh_catch in H.
  destruct (put_environment _ _ environment body _ _) as [r2 l2] eqn:Ep. apply run_put in Ep as [-> ->].
  destruct (answer _ (put_call environment body)) as [q|y] eqn:Eq.
  - exists mid, p, q, error, body.
    assert (dget "deployment_branch_policy" body = Some (vget "deployment_branch_policy" current)) as Hb by apply dget_dset_eq.
    assert (resends current body) as Hrb.
    { destruct Hrs as [H1 H2 H3]. unfold body. by split; intros; rewrite ?dget_dset_ne by done; auto. }
    destruct (returncode q =? 0); simpl in H; injection H as <- <-; rewrite <-!app_assoc;
      (split_and!; [done|lia|done|done|]); [done|]. simpl. by rewrite <-!str_app_assoc.
  - rewrite (answer_ok _ _ _ Eq) in H. injection H as <- <-. by rewrite (answer_ok _ _ _ Eq) in Hx.
Qed.
End rollback.

(** ** A repository where main is allowed and an old policy is removed *)

Definition sample_answer (_ : log) (c : call) : result proc_result :=
  let args := c_args c in
  Ok (if bool_decide (args = ["repo"; "view"; "--json"; "nameWithOwner"; "--jq"; ".nameWithOwner"]) then Proc 0 "o/r" ""
      else if bool_decide (args = ["api"; "repos/o/r/pages"]) then Proc 0 "site" ""
      else if bool_decide (args = ["api"; "repos/o/r/environments/github-pages"]) then Proc 0 "env" ""
      else if bool_decide (args = list_args (policies_of "o/r")) then Proc 0 ("7" +:+ String tab_char ("branch" +:+ String tab_char "dev")) ""
      else Proc 0 "https://o.github.io/r" "").
Definition sample_json (s : string) : option value :=
  if bool_decide (s = "site") then Some (VDict [("build_type", VStr "workflow")])
  else if bool_decide (s = "env") then Some (VDict [("deployment_branch_policy", VNone); ("protection_rules", VList [])])
  else None.
Definition sample_dumps (_ : value) : string := "{}".

Lemma pages_published_from_main_witness :
  ∃ l1 l2 c a, enable (Some "gh") sample_answer sample_json sample_dumps [] = (Ok "https://o.github.io/r", l1 ++ (c, a) :: l2) ∧
    c = Call (delete_args (policies_of "o/r") "7") None ∧
    ∃ repository rows p, c = Call (delete_args (policies_of repository) (p_id p)) None ∧
       p ∈ rows ∧ is_main p = false ∧ restricted sample_json sample_dumps repository rows l1.
Proof.
  destruct (enable (Some "gh") sample_answer sample_json sample_dumps []) as [r l] eqn:E.
  set (c := Call (delete_args (policies_of "o/r") "7") None).
  assert (l = firstn 7 l ++ (c, Ok (Proc 0 "https://o.github.io/r" "")) :: skipn 8 l) as Hl.
  { apply (f_equal snd) in E. simpl in E. subst l. vm_compute. reflexivity. }
  assert (r = Ok "https://o.github.io/r") as -> by (apply (f_equal fst) in E; simpl in E; subst r; vm_compute; reflexivity).
  exists (firstn 7 l), (skipn 8 l), c, (Ok (Proc 0 "https://o.github.io/r" "")). split; [by rewrite <-Hl|]. split; [done|].
  exact (proj1 (pages_published_from_main (Some "gh") sample_answer sample_json sample_dumps _ l _ _ _ _ E Hl) _ eq_refl).
Defined.

(** A set-up whose policy query fails. *)
Definition sample_current : dict value :=
  [("deployment_branch_policy", VNone); ("protection_rules", VList [VDict [("type", VStr "wait_timer"); ("wait_timer", VInt 30)]])].
Definition refusing_answer (_ : log) (c : call) : result proc_result :=
  Ok (if bool_decide (c_args c = list_args "p") then Proc 1 "" "no" else Proc 0 "" "").

Lemma failed_setup_restores_witness :
  ∃ x l' update, allow_publish_branch refusing_answer sample_dumps "e" "p" sample_current [] = (Err x, l') ∧
    environment_update sample_current = Ok update ∧ resends sample_current update.
Proof.
  destruct (allow_publish_branch refusing_answer sample_dumps "e" "p" sample_current []) as [r l'] eqn:E.
  assert (∃ x, r = Err x ∧ is_EnablementError x = true) as (x & -> & Hx).
  { apply (f_equal fst) in E. simpl in E. subst r. vm_compute. eexists. split; reflexivity. }
  eexists x, l', _. split; [reflexivity|]. split; [vm_compute; reflexivity|].
  refine (proj1 (failed_setup_restores refusing_answer sample_dumps _ "e" "p" sample_current _ x [] l' _ _ _ E Hx)).
  - intros l c y. discriminate.
  - vm_compute. reflexivity.
  - vm_compute. reflexivity.
  - discriminate.
Defined.
